(* ===== verification/_CoqProject ===== *)
-Q . S2P
Prelude.v
GoText.v
GoFloat.v
Json.v
GoJsonText.v
GoSha256.v
HttpApi.v
Constants.v
External.v
GoTime.v
SyncOperations.v
Schema.v
Queries.v
DbInvariant.v
Store.v
Frame.v
SyncModels.v
RealtimeMessage.v
SyncService.v
NoteSpec.v
Demo.v
SyncPush.v
SyncPull.v
SyncFacts.v
SyncFrame.v
BatchRefinement.v
BatchFacts.v
CategoryFacts.v
PushFacts.v
Replay.v
PushTheorems.v
Typing.v
PullFacts.v
PullTheorems.v
RealtimeClient.v
RealtimeHub.v
RealtimePumps.v
RealtimeTheorems.v
RealtimeBus.v
GoMime.v
GoStrings.v
GoUrl.v
UploadStore.v
Storage.v
SupabaseClient.v
UploadService.v
Cleanup.v
Snapshots.v
Worker.v
Devices.v
NotesApi.v
RealtimeHandler.v
DemoServices.v
Config.v
ConfigTheorems.v
GoBase64.v
Auth.v
DevAuth.v
AuthTheorems.v
DevAuthTheorems.v
Http.v
Logging.v
Handlers.v
Api.v
WebSocketApi.v
Programs.v
WebSocketProcess.v
SupabaseTheorems.v
UploadFacts.v
UploadTheorems.v
JobFacts.v
JobTheorems.v
AccessTheorems.v
Isolation.v
ReadTheorems.v
ApiFacts.v
ApiTheorems.v
ProgramTheorems.v
WebSocketTheorems.v
WebSocketProcessTheorems.v
