(* ===== verification/Prelude.v ===== *)
(** * Notes sync backend: verification library

    The program (module [notes-server], sources under [src/]) lets several
    devices of a user edit the same notes offline.  A device _pushes_ batches of
    operations and _pulls_ what the other devices did; a hub over WebSockets
    tells devices that there is something to pull; attachments go to an object
    storage under signed URLs; a worker takes snapshots and reconciles abandoned
    uploads.  This library models the program's Go code as pure functions and
    step relations, and proves what makes it correct.

    ** The parts and where they are

    - _Language and standard library_, as far as the sources use them: GoText,
      GoStrings, GoMime (strings, runes, media types), GoFloat (the decimal text
      of block positions), Json and GoJsonText (documents, decoding by target
      type, the bytes of the encoder), GoSha256, GoBase64, GoTime (durations,
      RFC 3339), GoUrl.
    - _Errors and constants_: HttpApi ([internal/httpapi/errors.go]; [goerr] is
      the type of all errors the sources create or tell apart, [res] the type of
      a fallible result), Constants ([internal/constants.go]).
    - _Database_: Schema (row types of [db/generated/models.go]; the [World] a
      process works on: tables, connection state, clock and step counter; the
      monad [M]; statements on the pool and in a transaction, [WithTx] and
      [WithSavepoint] of [internal/store/postgres.go]), Queries and UploadStore
      (every statement of [db/generated/*.sql.go] with its WHERE clause,
      constraints and RETURNING), Store (the methods of [internal/store]).
    - _Sync_: SyncOperations ([internal/sync/operations]), SyncModels
      ([internal/sync/models]), SyncService and SyncPush (the operation handlers,
      [applyOperationBatch] with its cache of the note, [Sync]), SyncPull
      ([Pull], [UpdatesAvailable], [SyncFullNote]); all of
      [internal/sync/services].
    - _Realtime_: RealtimeMessage, RealtimeClient (the bounded queue of
      [client.go]), RealtimeHub ([hub.go]), RealtimePumps (the loops of a socket
      in [client.go], [Hub.Serve]), RealtimeBus ([postgres_event_bus.go]),
      RealtimeHandler (the checks of [handler.go]).
    - _Uploads_: Storage (the interface), SupabaseClient (its implementation,
      [internal/storage/supabase.go]), UploadService ([internal/uploads]),
      Cleanup ([internal/jobs/cleanup.go]).
    - _Jobs_: Snapshots and Worker ([internal/jobs]).
    - _Devices, notes_: Devices ([internal/devices]), NotesApi
      ([internal/notes]).
    - _HTTP_: Auth ([internal/auth]), Http and Logging
      ([internal/httpapi] and [internal/middleware]), Handlers (the four
      [handlers] packages), Api ([buildRouter] of [cmd/api/main.go]),
      WebSocketApi (that of [cmd/websocket/main.go]), Config
      ([internal/config]).
    - _Programs_: Programs ([main] of [cmd/api], [cmd/websocket] and
      [cmd/worker], with [store.Open]: start, serving up to the stop, exit
      status), WebSocketProcess (the WebSocket program's handlers, hub and
      listener as one transition system), DevAuth ([cmd/devauth]: the commands
      that generate, serve and verify a development key).

    A definition has the name of the Go function it translates; where two
    packages share a name, a Module ([store], [q], [uq], [supabase]) or a prefix
    tells them apart.  A helper that stands for a part of a function (the body of
    a loop, a closure, a block after an early return) has a name of its own and
    is composed where the function has it.

    ** How effects are modelled

    A computation [M A] takes a [World] to a [World] and a result; errors are
    values.  Each round trip to the database, each call of the clock and of the
    storage takes a _step_; what the outside does is a function of the step:
    - [round_trip] says whether a round trip succeeds, fails before or fails
      after the statement ran, so that a theorem over all [External] holds under
      every failure of the connection;
    - [others] is what the other clients of the database commit before a
      statement on the pool or before a transaction begins.  A transaction sees
      the database as of its first statement; locks and concurrent commits
      inside a transaction are not modelled, so a theorem about a push speaks of
      one that nobody overlaps.  Theorems name what they ask of the others:
      nothing, that they respect a relation ([OthersKeep]), or that there are
      none ([Alone]);
    - the storage answers by step, the endpoint of the keys too, and the cache
      of keys is shared with the other requests ([Peers]).
    Third-party packages are parameters: identifiers ([External]), tokens
    ([JwtLibrary], [Signer]), routing ([Chi], [RouteContext]), the pool and
    notifications ([Pgx], [Notifier]), the key endpoints by URL ([Endpoints]),
    response bytes and compression ([Encoder], [Gzip]), files ([Files]), the
    operating system's MIME tables, the local zone, the syntax of a URL's
    authority.  Demo and DemoServices give
    executable instances of all of them; the witness of a theorem runs it there.
    JSON values stand for JSON text wherever a decoder or a JSONB column is
    between; the text itself matters for snapshots, where it is hashed.
    Integers keep their width: [int64] arithmetic wraps where it can.

    Goroutines appear in two places: the methods of the hub are sections under
    its lock, which [RealtimeHub.step] interleaves with the work the goroutines
    still owe and with the pumps of the sockets ([Close] of a client is one
    step); the writer of a client takes messages between any two operations of
    [enqueue] ([steal]).  RealtimePumps has the loops of a served connection as
    steps of their own among those of the hub's system, with deadlines and what
    arrives and is written, and RealtimeTheorems shows that a served connection
    does only what the hub's system allows, and ends.  The API program
    serves its requests one after the other: what concurrent requests of the same
    process do to the database is [others], to the cache of keys [Peers].

    Fuel: [RealtimeClient.drain] gets one more than the length of the queue it
    empties, and [enqueue_loses_no_hint] shows that this is enough;
    [PullTheorems.pull_all] repeats a pull as often as its argument says,
    and the theorem gives the number that is enough; [GoMime.params_ok] gets the
    length of its input, of which every round consumes a byte;
    [Worker.Run] runs over the list of its wake-ups.

    ** What is proved

    DbInvariant states the invariant [wf] of the database and the relation
    [evolves]; Frame proves relations preserved by walking the code ([frame]
    hints), and SyncFrame, UploadFacts ([OwnUploadWrites]) and Isolation state
    as interfaces which statements a service issues.
    - PushTheorems, with NoteSpec as the specification: an accepted batch does
      to the note what its new operations mean, one after the other, although
      the code caches the note and defers writes (BatchRefinement); a push is a
      run of batches; a rejected batch and a failed push have no effect; a retry
      changes nothing; the log, the event and the response agree with the
      database; other notes and other owners are untouched.  SyncFacts: text
      deltas, order and grouping of operations.  Typing: pushes keep the stored
      documents typed (positions by GoFloat).
    - PullTheorems: a pull returns the next page; pulling repeatedly delivers
      everything, ends, and moves the cursor forward; and the one gap: a change
      committed after a later-numbered one was pulled is never delivered.
      ReadTheorems: the availability request agrees with the pull, note and
      snapshot reads are exact.
    - RealtimeTheorems, RealtimeClient, RealtimeBus: under every interleaving a
      published event reaches exactly the other devices of its user, replaced
      and removed connections get closed, shutdown is final; a client's queue
      never loses the latest hint; an event survives its journey over the bus,
      and the subscription backs off and resumes; a served connection sends
      its queue in order, times out exactly on a minute without a pong, and
      leaves the hub.
    - UploadTheorems, over the lifecycle of UploadFacts: completion means
      verification, deletion means the object is gone, an authorization is
      reserved for one upload, the feed lists what is ready.  SupabaseTheorems:
      object URLs name objects, signed URLs lead to the storage.
    - JobTheorems: a job marked done was served, a due job is served, a failed
      one retried, a claimed one exclusive; the snapshot has the text and the
      checksum of the note.
    - AccessTheorems: a revoked device is locked out for good.  AuthTheorems: an
      accepted identity is vouched for by a published key; what the development
      helper publishes is loaded.  DevAuthTheorems: from [generate] over the
      written files, the settings and the served keys to the accepted bearer.
      ConfigTheorems: what an accepted configuration guarantees.
    - ApiTheorems puts the layers together (ApiFacts, Isolation): every request
      is answered with its identifier, nothing happens without a verified token,
      and with one only to the rows of the user it names.  WebSocketTheorems: a
      socket is opened only for an active device of such a user.
    - ProgramTheorems and WebSocketProcessTheorems speak of
      whole runs: what a program does not start with, what holds while it serves
      and when it has stopped, and that the worker returns.

    ** Not modelled

    The text of log lines (the entry of a request is a value); flags are taken
    as parsed and files as written whole or not at all; the upgrade of a
    connection and the framing of the socket library; key generation, signing
    and compression; the bytes of responses other than through the values handed
    to the encoder; the time a server grants open requests when it stops; query
    plans, and what READ COMMITTED shows a transaction of commits after its
    start, beyond the torn read that ReadTheorems exhibits.
    [internal/jobs/compaction.go] does nothing.  *)

From stdpp Require Export base option list list_numbers numbers decidable.
From Stdlib Require Export ZArith Lia Sorting.Sorted String Ascii.
From stdpp Require Export strings gmap fin_maps.

(** The development's scope and hint databases. *)
Declare Scope notes_scope.
Delimit Scope notes_scope with notes.

Create HintDb frame discriminated.
Create HintDb text discriminated.

#[global] Open Scope Z_scope.

(** ** Tactics shared by the development *)

(** Case analysis on the innermost scrutinee of a match in a hypothesis. *)
Ltac case_match_in H :=
  match type of H with
  | context [ match ?x with _ => _ end ] =>
      lazymatch x with
      | context [ match _ with _ => _ end ] => fail
      | _ => let E := fresh "E" in destruct x eqn:E
      end
  end.

(** Repeatedly split matches in [H], discarding contradictory branches. *)
Ltac split_match H :=
  repeat (case_match_in H; simplify_eq/=; try done).

(** Split every match of the goal. *)
Ltac split_goal :=
  repeat (case_match; simplify_eq/=; try done).

(** Turn boolean comparisons in the context into propositions. *)
Ltac to_prop :=
  repeat match goal with
  | H : andb _ _ = true |- _ => apply andb_prop in H; destruct H
  | H : andb _ _ = false |- _ => apply andb_false_iff in H
  | H : orb _ _ = true |- _ => apply orb_prop in H
  | H : orb _ _ = false |- _ => apply orb_false_elim in H; destruct H
  | H : negb _ = true |- _ => apply negb_true_iff in H
  | H : negb _ = false |- _ => apply negb_false_iff in H
  | H : Z.leb _ _ = true |- _ => apply Z.leb_le in H
  | H : Z.leb _ _ = false |- _ => apply Z.leb_gt in H
  | H : Z.ltb _ _ = true |- _ => apply Z.ltb_lt in H
  | H : Z.ltb _ _ = false |- _ => apply Z.ltb_ge in H
  | H : Z.eqb _ _ = true |- _ => apply Z.eqb_eq in H
  | H : Z.eqb _ _ = false |- _ => apply Z.eqb_neq in H
  | H : bool_decide _ = true |- _ => apply bool_decide_eq_true in H
  | H : bool_decide _ = false |- _ => apply bool_decide_eq_false in H
  end.

(** ** Machine integers *)

(** Go's [int], [int64] and PostgreSQL's BIGINT are 64 bits wide and signed;
    arithmetic in Go wraps around. *)
Definition int64_min : Z := - 2 ^ 63.
Definition int64_max : Z := 2 ^ 63 - 1.

Definition in_int64 (z : Z) : bool := (int64_min <=? z) && (z <=? int64_max).

Definition wrap64 (z : Z) : Z := (z + 2 ^ 63) mod 2 ^ 64 - 2 ^ 63.

Definition wrap32 (z : Z) : Z := (z + 2 ^ 31) mod 2 ^ 32 - 2 ^ 31.

(** ** Generic lemmas *)

Lemma wrap64_range z : int64_min <= wrap64 z <= int64_max.
Proof.
  unfold wrap64, int64_min, int64_max.
  pose proof (Z.mod_pos_bound (z + 2 ^ 63) (2 ^ 64) ltac:(lia)). lia.
Qed.

Lemma wrap64_id z : int64_min <= z <= int64_max -> wrap64 z = z.
Proof.
  unfold wrap64, int64_min, int64_max. intros H.
  rewrite Z.mod_small; lia.
Qed.

Lemma wrap32_id z : - 2 ^ 31 <= z < 2 ^ 31 -> wrap32 z = z.
Proof. unfold wrap32. intros H. rewrite Z.mod_small; lia. Qed.

Lemma in_int64_spec z : in_int64 z = true <-> int64_min <= z <= int64_max.
Proof. unfold in_int64. rewrite andb_true_iff, !Z.leb_le. tauto. Qed.

Lemma forallb_false {A} (f : A -> bool) l :
  forallb f l = false -> exists x, x ∈ l /\ f x = false.
Proof.
  induction l as [|a l IH]; [done|]. cbn. destruct (f a) eqn:E; cbn.
  - intros (x & Hx & ?)%IH. exists x. split; [by right|done].
  - intros _. exists a. split; [by left|done].
Qed.

(** Filtering by a boolean test. *)
Lemma filter_true_cons {A} (f : A -> bool) x l :
  filter (fun y => f y = true) (x :: l)
  = if f x then x :: filter (fun y => f y = true) l else filter (fun y => f y = true) l.
Proof. rewrite filter_cons. by destruct (f x). Qed.

(** ** Stable sorting

    [sort_by leb] models both [sort.SliceStable] (with [leb a b] read as "b is
    not less than a") and SQL's ORDER BY. *)

Fixpoint insert_by {A} (leb : A -> A -> bool) (x : A) (l : list A) : list A :=
  match l with
  | [] => [x]
  | y :: ys => if leb x y then x :: l else y :: insert_by leb x ys
  end.

Definition sort_by {A} (leb : A -> A -> bool) (l : list A) : list A :=
  foldr (insert_by leb) [] l.

Section sorting.
Context {A : Type} (leb : A -> A -> bool).

Lemma insert_by_perm x l : insert_by leb x l ≡ₚ x :: l.
Proof.
  induction l as [|y ys IH]; [done|]. cbn. case_match; [done|].
  rewrite IH. apply Permutation_swap.
Qed.

Lemma sort_by_perm l : sort_by leb l ≡ₚ l.
Proof. induction l as [|x l IH]; [done|]. cbn. by rewrite insert_by_perm, IH. Qed.

Lemma sort_by_length l : length (sort_by leb l) = length l.
Proof. apply Permutation_length, sort_by_perm. Qed.

Lemma elem_of_sort_by x l : x ∈ sort_by leb l <-> x ∈ l.
Proof. by rewrite sort_by_perm. Qed.

Context (leb_total : forall a b, leb a b = true \/ leb b a = true)
        (leb_trans : forall a b c, leb a b = true -> leb b c = true -> leb a c = true).

Lemma insert_by_sorted x l :
  StronglySorted (fun a b => leb a b = true) l ->
  StronglySorted (fun a b => leb a b = true) (insert_by leb x l).
Proof using leb_total leb_trans.
  induction 1 as [|y ys Hs IH Hy]; cbn; [repeat constructor|].
  destruct (leb x y) eqn:E.
  - constructor; [by constructor|]. constructor; [done|].
    eapply Forall_impl; [exact Hy|]. eauto.
  - assert (Hyx : leb y x = true) by (destruct (leb_total x y); congruence).
    constructor; [done|]. rewrite insert_by_perm. by constructor.
Qed.

Lemma sort_by_sorted l : StronglySorted (fun a b => leb a b = true) (sort_by leb l).
Proof using leb_total leb_trans.
  induction l as [|x l IH]; cbn; [constructor|]. by apply insert_by_sorted.
Qed.

(** Elements that compare as equal keep their order. *)
Lemma insert_by_stable (P : A -> Prop) `{forall x, Decision (P x)} x l :
  (forall a b, P a -> P b -> leb a b = true) ->
  filter P (insert_by leb x l) = filter P (x :: l).
Proof.
  intros HP. induction l as [|y ys IH]; [done|]. cbn [insert_by].
  destruct (leb x y) eqn:E; [done|].
  rewrite !filter_cons in *. rewrite IH.
  destruct (decide (P x)), (decide (P y)); try done.
  exfalso. rewrite (HP x y) in E by done. done.
Qed.

Lemma sort_by_stable (P : A -> Prop) `{forall x, Decision (P x)} l :
  (forall a b, P a -> P b -> leb a b = true) ->
  filter P (sort_by leb l) = filter P l.
Proof.
  intros HP. induction l as [|x l IH]; [done|]. cbn [sort_by foldr].
  rewrite insert_by_stable by done. rewrite !filter_cons.
  fold (sort_by leb l). by rewrite IH.
Qed.

(** Sorting a sorted list changes nothing. *)
Lemma sort_by_id l :
  StronglySorted (fun a b => leb a b = true) l -> sort_by leb l = l.
Proof.
  induction 1 as [|x l Hs IH Hx]; [done|]. cbn [sort_by foldr].
  fold (sort_by leb l). rewrite IH. destruct l as [|y ys]; [done|].
  inversion Hx as [|? ? Hxy _]; subst. cbn. by rewrite Hxy.
Qed.
End sorting.

(** SQL's [COALESCE(MAX(x), 0)]. *)
Definition max_or_zero (l : list Z) : Z :=
  match l with
  | [] => 0
  | x :: xs => foldl Z.max x xs
  end.

Lemma foldl_max_ge l a : a <= foldl Z.max a l.
Proof.
  revert a. induction l as [|x l IH]; intros a; cbn; [lia|].
  pose proof (IH (a `max` x)). lia.
Qed.

Lemma foldl_max_elem l a x : x ∈ l -> x <= foldl Z.max a l.
Proof.
  revert a. induction l as [|y l IH]; intros a Hx; [by apply elem_of_nil in Hx|].
  cbn. apply elem_of_cons in Hx as [->|Hx]; [|by apply IH].
  pose proof (foldl_max_ge l (a `max` y)). lia.
Qed.

Lemma foldl_max_in l a : foldl Z.max a l = a \/ foldl Z.max a l ∈ l.
Proof.
  revert a. induction l as [|y l IH]; intros a; [by left|]. cbn.
  destruct (IH (a `max` y)) as [->|H]; [|right; by constructor].
  destruct (Z.max_spec a y) as [[? ->]|[? ->]]; [right; constructor|by left].
Qed.

Lemma max_or_zero_ub l x : x ∈ l -> x <= max_or_zero l.
Proof.
  destruct l as [|y l]; intros Hx; [by apply elem_of_nil in Hx|]. cbn.
  apply elem_of_cons in Hx as [->|Hx]; [apply foldl_max_ge|by apply foldl_max_elem].
Qed.

Lemma max_or_zero_le l b : 0 <= b -> Forall (fun x => x <= b) l -> max_or_zero l <= b.
Proof.
  intros Hb. destruct l as [|y l]; cbn; [done|]. intros Hl.
  inversion Hl as [|? ? Hy Hys]; subst.
  destruct (foldl_max_in l y) as [->|H]; [done|].
  by apply (proj1 (Forall_forall _ _) Hys).
Qed.
