(* ===== verification/GoText.v ===== *)
(** * Go strings

    Go strings are byte sequences.  This file models what the sources use of
    the language and of [unicode/utf8], [strings], [strconv] on them: the
    conversions between strings and runes, [utf8.RuneCountInString],
    [strings.TrimSpace] and [strconv.ParseInt]. *)

From S2P Require Import Prelude.

(** ** Bytes *)

Definition bytes_of (s : string) : list Z :=
  map (fun a => Z.of_N (N_of_ascii a)) (list_ascii_of_string s).

Definition of_bytes (bs : list Z) : string :=
  string_of_list_ascii (map (fun b => ascii_of_N (Z.to_N b)) bs).

(** ** UTF-8 *)

Definition between (lo b hi : Z) : bool := (lo <=? b) && (b <=? hi).

Definition cont (b : Z) : bool := between 0x80 b 0xBF.

Definition utf8_two (b0 b1 : Z) : bool := between 0xC2 b0 0xDF && cont b1.

Definition utf8_three (b0 b1 b2 : Z) : bool :=
  ((b0 =? 0xE0) && between 0xA0 b1 0xBF
   || (between 0xE1 b0 0xEC || between 0xEE b0 0xEF) && cont b1
   || (b0 =? 0xED) && between 0x80 b1 0x9F) && cont b2.

Definition utf8_four (b0 b1 b2 b3 : Z) : bool :=
  ((b0 =? 0xF0) && between 0x90 b1 0xBF
   || between 0xF1 b0 0xF3 && cont b1
   || (b0 =? 0xF4) && between 0x80 b1 0x8F) && cont b2 && cont b3.

Definition rune_error : Z := 0xFFFD.

(** The maximal segmentation Go's decoder makes of a byte sequence: each rune
    with the bytes it was read from; an invalid byte is one [rune_error]. *)
Fixpoint decode_seg (bs : list Z) : list (Z * list Z) :=
  match bs with
  | [] => []
  | b0 :: r1 =>
      if b0 <? 0x80 then (b0, [b0]) :: decode_seg r1 else
      match r1 with
      | [] => (rune_error, [b0]) :: decode_seg r1
      | b1 :: r2 =>
          if utf8_two b0 b1
          then ((b0 - 0xC0) * 64 + (b1 - 0x80), [b0; b1]) :: decode_seg r2 else
          match r2 with
          | [] => (rune_error, [b0]) :: decode_seg r1
          | b2 :: r3 =>
              if utf8_three b0 b1 b2
              then ((b0 - 0xE0) * 4096 + (b1 - 0x80) * 64 + (b2 - 0x80),
                    [b0; b1; b2]) :: decode_seg r3 else
              match r3 with
              | [] => (rune_error, [b0]) :: decode_seg r1
              | b3 :: r4 =>
                  if utf8_four b0 b1 b2 b3
                  then ((b0 - 0xF0) * 262144 + (b1 - 0x80) * 4096
                        + (b2 - 0x80) * 64 + (b3 - 0x80),
                        [b0; b1; b2; b3]) :: decode_seg r4
                  else (rune_error, [b0]) :: decode_seg r1
              end
          end
      end
  end.

Definition decode_runes (bs : list Z) : list Z := map fst (decode_seg bs).

(** Unicode scalar values: what a rune of a decoded string can be. *)
Definition is_scalar (r : Z) : bool :=
  between 0 r 0xD7FF || between 0xE000 r 0x10FFFF.

Definition encode_scalar (r : Z) : list Z :=
  if r <? 0x80 then [r]
  else if r <? 0x800 then [0xC0 + r / 64; 0x80 + r mod 64]
  else if r <? 0x10000 then
    [0xE0 + r / 4096; 0x80 + (r / 64) mod 64; 0x80 + r mod 64]
  else [0xF0 + r / 262144; 0x80 + (r / 4096) mod 64;
        0x80 + (r / 64) mod 64; 0x80 + r mod 64].

(** A rune that is not a scalar value encodes as the replacement character. *)
Definition encode_rune (r : Z) : list Z :=
  encode_scalar (if is_scalar r then r else rune_error).

Definition encode_runes (rs : list Z) : list Z := concat (map encode_rune rs).

(** The conversions [\[\]rune(s)] and [string(rs)]. *)
Definition runes (s : string) : list Z := decode_runes (bytes_of s).

Definition string_of_runes (rs : list Z) : string := of_bytes (encode_runes rs).

(** [utf8.RuneCountInString]. *)
Definition rune_count (s : string) : Z := Z.of_nat (length (runes s)).

(** [utf8.ValidString]. *)
Definition valid_utf8 (s : string) : bool :=
  forallb (fun seg => negb ((fst seg =? rune_error) && bool_decide (length (snd seg) = 1%nat)))
    (decode_seg (bytes_of s)).

(** ** Whitespace *)

(** [unicode.IsSpace]. *)
Definition is_space (r : Z) : bool :=
  between 9 r 13 || (r =? 32) || (r =? 0x85) || (r =? 0xA0) || (r =? 0x1680)
  || between 0x2000 r 0x200A || (r =? 0x2028) || (r =? 0x2029) || (r =? 0x202F)
  || (r =? 0x205F) || (r =? 0x3000).

Fixpoint drop_spaces (segs : list (Z * list Z)) : list (Z * list Z) :=
  match segs with
  | [] => []
  | seg :: rest => if is_space (fst seg) then drop_spaces rest else segs
  end.

(** [strings.TrimSpace]. *)
Definition trim_space (s : string) : string :=
  of_bytes (concat (map snd
    (reverse (drop_spaces (reverse (drop_spaces (decode_seg (bytes_of s)))))))).

(** ** Integers *)

Definition is_digit (b : Z) : bool := between 48 b 57.

Fixpoint digits_value (acc : Z) (bs : list Z) : option Z :=
  match bs with
  | [] => Some acc
  | b :: rest => if is_digit b then digits_value (acc * 10 + (b - 48)) rest else None
  end.

Definition unsigned_value (bs : list Z) : option Z :=
  match bs with
  | [] => None
  | _ => digits_value 0 bs
  end.

(** [strconv.ParseInt(s, 10, 64)] and, [int] being 64 bits wide,
    [strconv.Atoi]: [None] is a syntax or range error. *)
Definition parse_int64 (s : string) : option Z :=
  let value :=
    match bytes_of s with
    | 43 :: rest => unsigned_value rest
    | 45 :: rest => Z.opp <$> unsigned_value rest
    | bs => unsigned_value bs
    end in
  match value with
  | Some z => if in_int64 z then Some z else None
  | None => None
  end.

(** ** Lemmas *)

Lemma between_spec lo b hi : between lo b hi = true <-> lo <= b <= hi.
Proof. unfold between. rewrite andb_true_iff, !Z.leb_le. tauto. Qed.

Lemma between_false lo b hi : between lo b hi = false <-> b < lo \/ hi < b.
Proof.
  unfold between. rewrite andb_false_iff, !Z.leb_gt. tauto.
Qed.

Lemma is_scalar_spec r :
  is_scalar r = true <-> 0 <= r <= 0xD7FF \/ 0xE000 <= r <= 0x10FFFF.
Proof. unfold is_scalar. rewrite orb_true_iff, !between_spec. tauto. Qed.

Lemma cont_low r : cont (0x80 + r mod 64) = true.
Proof. apply between_spec. pose proof (Z.mod_pos_bound r 64). lia. Qed.

(** Decides that a combination of range tests holds. *)
Ltac decide_ranges :=
  repeat match goal with
  | |- context [ andb _ _ = true ] => rewrite andb_true_iff
  | |- context [ orb _ _ = true ] => rewrite orb_true_iff
  | |- context [ between _ _ _ = true ] => rewrite between_spec
  | |- context [ Z.eqb _ _ = true ] => rewrite Z.eqb_eq
  end; lia.

(** The base-64 digits of a rune. *)
Lemma split_three r :
  0 <= r ->
  exists a b c, r / 4096 = a /\ (r / 64) mod 64 = b /\ r mod 64 = c /\
    r = a * 4096 + b * 64 + c /\ 0 <= a /\ 0 <= b < 64 /\ 0 <= c < 64.
Proof.
  intros Hr. eexists _, _, _. do 3 (split; [reflexivity|]).
  Z.to_euclidean_division_equations; lia.
Qed.

Lemma split_four r :
  0 <= r ->
  exists a b c d, r / 262144 = a /\ (r / 4096) mod 64 = b /\ (r / 64) mod 64 = c /\
    r mod 64 = d /\ r = a * 262144 + b * 4096 + c * 64 + d /\
    0 <= a /\ 0 <= b < 64 /\ 0 <= c < 64 /\ 0 <= d < 64.
Proof.
  intros Hr. eexists _, _, _, _. do 4 (split; [reflexivity|]).
  Z.to_euclidean_division_equations; lia.
Qed.

Lemma two_ok r : 0x80 <= r < 0x800 -> utf8_two (0xC0 + r / 64) (0x80 + r mod 64) = true.
Proof.
  intros Hr. unfold utf8_two. rewrite cont_low, andb_true_r.
  apply between_spec. Z.to_euclidean_division_equations; lia.
Qed.

Lemma not_two_high b0 b1 : 0xDF < b0 -> utf8_two b0 b1 = false.
Proof.
  intros H. unfold utf8_two.
  replace (between 0xC2 b0 0xDF) with false; [done|].
  symmetry. apply between_false. lia.
Qed.

Lemma not_three_high b0 b1 b2 : 0xEF < b0 -> utf8_three b0 b1 b2 = false.
Proof.
  intros H. unfold utf8_three, between.
  destruct (Z.eqb_spec b0 0xE0), (Z.eqb_spec b0 0xED),
    (Z.leb_spec b0 0xEC), (Z.leb_spec b0 0xEF); lia.
Qed.

Lemma three_ok a b c :
  let r := a * 4096 + b * 64 + c in
  0x800 <= r < 0x10000 -> is_scalar r = true ->
  0 <= a -> 0 <= b < 64 -> 0 <= c < 64 ->
  utf8_three (0xE0 + a) (0x80 + b) (0x80 + c) = true.
Proof.
  intros r Hr Hs%is_scalar_spec Ha Hb Hc. subst r.
  unfold utf8_three, cont. decide_ranges.
Qed.

Lemma four_ok a b c d :
  0x10000 <= a * 262144 + b * 4096 + c * 64 + d <= 0x10FFFF ->
  0 <= a -> 0 <= b < 64 -> 0 <= c < 64 -> 0 <= d < 64 ->
  utf8_four (0xF0 + a) (0x80 + b) (0x80 + c) (0x80 + d) = true.
Proof.
  intros Hr Ha Hb Hc Hd.
  unfold utf8_four, cont. decide_ranges.
Qed.

(** Decoding the encoding of a scalar value reads it back, whatever follows. *)
Lemma decode_encode_scalar r bs :
  is_scalar r = true ->
  decode_seg (encode_scalar r ++ bs) = (r, encode_scalar r) :: decode_seg bs.
Proof.
  intros Hs. pose proof (proj1 (is_scalar_spec r) Hs) as Hr. unfold encode_scalar.
  destruct (Z.ltb_spec r 0x80).
  { simpl. by replace (r <? 0x80) with true by lia. }
  destruct (Z.ltb_spec r 0x800).
  { pose proof (two_ok r ltac:(lia)) as Htwo. cbn [app decode_seg]. rewrite Htwo.
    replace (0xC0 + r / 64 <? 0x80) with false
      by (Z.to_euclidean_division_equations; lia).
    f_equal. f_equal. Z.to_euclidean_division_equations; lia. }
  destruct (Z.ltb_spec r 0x10000).
  { destruct (split_three r) as (a & b & c & -> & -> & -> & Heq & Ha & Hb & Hc); [lia|].
    pose proof (three_ok a b c) as Hthree. cbv zeta in Hthree. rewrite <- Heq in Hthree.
    cbn [app decode_seg].
    replace (0xE0 + a <? 0x80) with false by lia.
    rewrite not_two_high by lia. rewrite Hthree by (lia || done).
    f_equal. f_equal. lia. }
  destruct (split_four r) as (a & b & c & d & -> & -> & -> & -> & Heq & Ha & Hb & Hc & Hd);
    [lia|].
  cbn [app decode_seg].
  replace (0xF0 + a <? 0x80) with false by lia.
  rewrite not_two_high, not_three_high by lia. rewrite four_ok by lia.
  f_equal. f_equal. lia.
Qed.

Lemma rune_error_scalar : is_scalar rune_error = true.
Proof. reflexivity. Qed.

Lemma decode_encode_runes rs :
  Forall (fun r => is_scalar r = true) rs -> decode_runes (encode_runes rs) = rs.
Proof.
  unfold decode_runes, encode_runes.
  induction 1 as [|r rs Hr _ IH]; [done|].
  cbn [map concat]. unfold encode_rune at 1. rewrite Hr.
  rewrite decode_encode_scalar by done. cbn. by rewrite IH.
Qed.

(** ** Decoding yields scalar values *)

Definition is_byte (b : Z) : Prop := 0 <= b < 256.

Lemma decode_seg_ind (P : list Z -> Prop) :
  (forall bs, (forall bs', (length bs' < length bs)%nat -> P bs') -> P bs) ->
  forall bs, P bs.
Proof.
  intros H bs. induction bs as [bs IH] using (induction_ltof1 _ (@length Z)).
  apply H. intros bs' Hlt. apply IH. exact Hlt.
Qed.

Lemma two_scalar b0 b1 :
  utf8_two b0 b1 = true -> is_scalar ((b0 - 0xC0) * 64 + (b1 - 0x80)) = true.
Proof.
  unfold utf8_two, cont. rewrite andb_true_iff, !between_spec, is_scalar_spec. lia.
Qed.

Lemma three_scalar b0 b1 b2 :
  utf8_three b0 b1 b2 = true ->
  is_scalar ((b0 - 0xE0) * 4096 + (b1 - 0x80) * 64 + (b2 - 0x80)) = true.
Proof.
  unfold utf8_three, cont.
  rewrite !andb_true_iff, !orb_true_iff, !andb_true_iff, !orb_true_iff,
    !between_spec, !Z.eqb_eq, is_scalar_spec. lia.
Qed.

Lemma four_scalar b0 b1 b2 b3 :
  utf8_four b0 b1 b2 b3 = true ->
  is_scalar ((b0 - 0xF0) * 262144 + (b1 - 0x80) * 4096 + (b2 - 0x80) * 64
             + (b3 - 0x80)) = true.
Proof.
  unfold utf8_four, cont.
  rewrite !andb_true_iff, !orb_true_iff, !andb_true_iff,
    !between_spec, !Z.eqb_eq, is_scalar_spec. lia.
Qed.

Lemma decode_runes_scalar bs :
  Forall is_byte bs -> Forall (fun r => is_scalar r = true) (decode_runes bs).
Proof.
  induction bs as [bs IH] using decode_seg_ind. intros Hb.
  destruct bs as [|b0 r1]; [constructor|]. inversion Hb as [|? ? Hb0 Hr1]; subst.
  unfold decode_runes. cbn [decode_seg].
  assert (Hskip : Forall (fun r => is_scalar r = true)
                    (map fst ((rune_error, [b0]) :: decode_seg r1))).
  { cbn. constructor; [done|]. apply IH; [simpl; lia|done]. }
  destruct (b0 <? 0x80) eqn:E0.
  { cbn. constructor; [apply is_scalar_spec; unfold is_byte in *; lia|].
    apply IH; [simpl; lia|done]. }
  destruct r1 as [|b1 r2]; [done|]. inversion Hr1 as [|? ? ? Hr2]; subst.
  destruct (utf8_two b0 b1) eqn:E2.
  { cbn. constructor; [by apply two_scalar|]. apply IH; [simpl; lia|done]. }
  destruct r2 as [|b2 r3]; [done|]. inversion Hr2 as [|? ? ? Hr3]; subst.
  destruct (utf8_three b0 b1 b2) eqn:E3.
  { cbn. constructor; [by apply three_scalar|]. apply IH; [simpl; lia|done]. }
  destruct r3 as [|b3 r4]; [done|]. inversion Hr3 as [|? ? ? Hr4]; subst.
  destruct (utf8_four b0 b1 b2 b3) eqn:E4; [|done].
  cbn. constructor; [by apply four_scalar|]. apply IH; [simpl; lia|done].
Qed.

(** ** Strings and bytes *)

Lemma bytes_of_is_byte s : Forall is_byte (bytes_of s).
Proof.
  unfold bytes_of. apply Forall_map, Forall_forall. intros a _.
  unfold is_byte. pose proof (N_ascii_bounded a). lia.
Qed.

Lemma bytes_of_bytes bs : Forall is_byte bs -> bytes_of (of_bytes bs) = bs.
Proof.
  intros H. unfold bytes_of, of_bytes.
  rewrite list_ascii_of_string_of_list_ascii, map_map.
  induction H as [|b bs Hb _ IH]; [done|]. cbn [map]. rewrite IH. f_equal.
  unfold is_byte in Hb. rewrite N_ascii_embedding by lia. lia.
Qed.

Lemma of_bytes_of s : of_bytes (bytes_of s) = s.
Proof.
  unfold bytes_of, of_bytes. rewrite map_map.
  etransitivity; [|apply string_of_list_ascii_of_string]. f_equal.
  rewrite <- (map_id (list_ascii_of_string s)) at 2. apply map_ext. intros a.
  rewrite N2Z.id. apply ascii_N_embedding.
Qed.

Lemma bytes_of_app x y : bytes_of (x ++ y)%string = bytes_of x ++ bytes_of y.
Proof.
  induction x as [|c x IH]; [done|]. change (String c x ++ y)%string with (String c (x ++ y)).
  unfold bytes_of in *. cbn. f_equal. exact IH.
Qed.

Lemma encode_scalar_bytes r : is_scalar r = true -> Forall is_byte (encode_scalar r).
Proof.
  intros Hs%is_scalar_spec. unfold encode_scalar, is_byte.
  repeat case_match; to_prop; repeat constructor;
    Z.to_euclidean_division_equations; lia.
Qed.

Lemma encode_runes_bytes rs : Forall is_byte (encode_runes rs).
Proof.
  unfold encode_runes. induction rs as [|r rs IH]; [constructor|].
  cbn. apply Forall_app. split; [|done]. unfold encode_rune.
  apply encode_scalar_bytes. by destruct (is_scalar r) eqn:E.
Qed.

Lemma runes_scalar s : Forall (fun r => is_scalar r = true) (runes s).
Proof. apply decode_runes_scalar, bytes_of_is_byte. Qed.

(** Converting a string of scalar values to runes reads them back. *)
Lemma runes_string_of_runes rs :
  Forall (fun r => is_scalar r = true) rs -> runes (string_of_runes rs) = rs.
Proof.
  intros H. unfold runes, string_of_runes.
  rewrite bytes_of_bytes by apply encode_runes_bytes. by apply decode_encode_runes.
Qed.

#[export] Hint Resolve runes_scalar rune_error_scalar : text.

Lemma parse_int64_range s z : parse_int64 s = Some z -> int64_min <= z <= int64_max.
Proof.
  unfold parse_int64. intros H. cbv zeta in H.
  case_match; [|done]. case_match; [|done]. simplify_eq. by apply in_int64_spec.
Qed.

Example runes_ascii : runes "hello" = [104; 101; 108; 108; 111].
Proof. reflexivity. Qed.

Example trim_space_spaces : trim_space "  a b " = "a b"%string.
Proof. reflexivity. Qed.

Example parse_int64_examples :
  parse_int64 "-12" = Some (-12) /\ parse_int64 "1.0" = None /\
  parse_int64 "9223372036854775808" = None.
Proof. repeat split; reflexivity. Qed.
