(* ===== verification/GoFloat.v ===== *)
(** * 64-bit floats and decimal text

    Block positions arrive as JSON numbers, are decoded into [float64] and
    stored as the text [strconv.FormatFloat(position, 'f', -1, 64)] gives.
    This file models the two conversions on finite floats, exactly and
    executably: [parse_float] rounds a decimal literal to the nearest float
    (ties to even) and [format_float] prints the shortest decimal that reads
    back as the same float, without an exponent. *)

From S2P Require Import Prelude GoText.

(** A finite float is [(-1)^f_neg * f_mant * 2^f_exp]. *)
Record float64 := mkFloat { f_neg : bool; f_mant : Z; f_exp : Z }.

#[export] Instance float64_eq_dec : EqDecision float64.
Proof. solve_decision. Defined.

(** ** Decimal literals *)

(** The digits at the front of a byte sequence: their value appended to [acc],
    how many there are, and the rest. *)
Fixpoint take_digits (acc n : Z) (bs : list Z) : Z * Z * list Z :=
  match bs with
  | [] => (acc, n, [])
  | b :: rest =>
      if is_digit b then take_digits (acc * 10 + (b - 48)) (n + 1) rest
      else (acc, n, bs)
  end.

Definition read_exponent (bs : list Z) : option Z :=
  match bs with
  | [] => Some 0
  | c :: rest =>
      if (c =? 101) || (c =? 69) then
        match rest with
        | 43 :: ds => unsigned_value ds
        | 45 :: ds => Z.opp <$> unsigned_value ds
        | ds => unsigned_value ds
        end
      else None
  end.

(** Sign, mantissa and power of ten of a decimal literal. *)
Definition read_decimal (s : string) : option (bool * Z * Z) :=
  let '(neg, bs) :=
    match bytes_of s with
    | 45 :: rest => (true, rest)
    | bs => (false, bs)
    end in
  let '(ipart, ni, rest) := take_digits 0 0 bs in
  let '(mant, nf, rest') :=
    match rest with
    | 46 :: frac => take_digits ipart 0 frac
    | _ => (ipart, 0, rest)
    end in
  if ni =? 0 then None
  else e ← read_exponent rest'; Some (neg, mant, e - nf).

(** ** Rounding to the nearest float *)

(** [num / den * 2^(-e)] as a fraction. *)
Definition scale (num den e : Z) : Z * Z :=
  if 0 <=? e then (num, den * 2 ^ e) else (num * 2 ^ (- e), den).

Definition half_even (n d : Z) : Z :=
  let q := n / d in
  let r := n mod d in
  if 2 * r <? d then q
  else if d <? 2 * r then q + 1
  else if Z.even q then q else q + 1.

(** The float nearest to [num / den > 0]; [None] is overflow. *)
Definition round_pos (num den : Z) : option (Z * Z) :=
  let e0 := Z.log2 num - Z.log2 den - 52 in
  let '(n0, d0) := scale num den e0 in
  let e1 := if n0 / d0 <? 2 ^ 52 then e0 - 1 else e0 in
  let e := Z.max e1 (-1074) in
  let '(n, d) := scale num den e in
  let m := half_even n d in
  let '(m', e') := if m =? 2 ^ 53 then (2 ^ 52, e + 1) else (m, e) in
  if 971 <? e' then None else Some (m', e').

Definition round_decimal (neg : bool) (mant e10 : Z) : option float64 :=
  if mant =? 0 then Some (mkFloat neg 0 0)
  else
    let '(num, den) :=
      if 0 <=? e10 then (mant * 10 ^ e10, 1) else (mant, 10 ^ (- e10)) in
    '(m, e) ← round_pos num den; Some (mkFloat neg m e).

(** [strconv.ParseFloat(s, 64)] on a JSON number literal; [None] is an error. *)
Definition parse_float (s : string) : option float64 :=
  '(neg, mant, e10) ← read_decimal s; round_decimal neg mant e10.

(** [f < 0]: negative zero is not below zero. *)
Definition float_negative (f : float64) : bool := f_neg f && negb (f_mant f =? 0).

(** ** Shortest decimal text *)

Fixpoint decimal_digits (fuel : nat) (n : Z) (acc : list Z) : list Z :=
  match fuel with
  | O => acc
  | S fuel' =>
      if n <? 10 then (48 + n) :: acc
      else decimal_digits fuel' (n / 10) ((48 + n mod 10) :: acc)
  end.

(** The decimal digits of [n >= 0] as bytes: [Z.log2 n + 1] bounds their number. *)
Definition digits_of (n : Z) : list Z :=
  decimal_digits (S (Z.to_nat (Z.log2 n))) n [].

(** [strconv.FormatInt(n, 10)], which is also how [encoding/json] writes an
    integer. *)
Definition format_int (n : Z) : string :=
  of_bytes (if n <? 0 then 45 :: digits_of (- n) else digits_of n).

(** The text of [d * 10^q] without an exponent. *)
Definition render (neg : bool) (d q : Z) : string :=
  let ds := digits_of d in
  let n := Z.of_nat (length ds) in
  let body :=
    if 0 <=? q then ds ++ repeat 48 (Z.to_nat q)
    else if - q <? n then
      take (Z.to_nat (n + q)) ds ++ [46] ++ drop (Z.to_nat (n + q)) ds
    else [48; 46] ++ repeat 48 (Z.to_nat (- q - n)) ++ ds in
  of_bytes (if neg then 45 :: body else body).

(** [floor(num / den / 10^q)] and the remainder against the divisor. *)
Definition div_pow10 (num den q : Z) : Z * Z * Z :=
  let '(n, d) := if 0 <=? q then (num, den * 10 ^ q) else (num * 10 ^ (- q), den) in
  (n / d, n mod d, d).

(** The least [k] with [num / den < 10^k], searched upwards from an estimate. *)
Fixpoint decimal_point (fuel : nat) (num den k : Z) : Z :=
  match fuel with
  | O => k
  | S fuel' =>
      let '(q, _, _) := div_pow10 num den k in
      if q =? 0 then k else decimal_point fuel' num den (k + 1)
  end.

Definition float_fraction (f : float64) : Z * Z :=
  if 0 <=? f_exp f then (f_mant f * 2 ^ f_exp f, 1) else (f_mant f, 2 ^ (- f_exp f)).

(** Drops the trailing zeros of a digit string; rounding up can create them. *)
Fixpoint strip_zeros (fuel : nat) (d q : Z) : Z * Z :=
  match fuel with
  | O => (d, q)
  | S fuel' =>
      if (d mod 10 =? 0) && negb (d =? 0) then strip_zeros fuel' (d / 10) (q + 1)
      else (d, q)
  end.

Definition render_stripped (neg : bool) (d q : Z) : string :=
  let '(d', q') := strip_zeros 18 d q in render neg d' q'.

(** The closest [n]-digit decimals below and above, nearest first. *)
Definition candidates (f : float64) (k n : Z) : list string :=
  let '(num, den) := float_fraction f in
  let q := k - n in
  let '(lo, r, d) := div_pow10 num den q in
  if 2 * r <=? d then [render_stripped (f_neg f) lo q; render_stripped (f_neg f) (lo + 1) q]
  else [render_stripped (f_neg f) (lo + 1) q; render_stripped (f_neg f) lo q].

Definition reads_as (f : float64) (s : string) : bool :=
  bool_decide (parse_float s = Some f).

Fixpoint shortest (fuel : nat) (f : float64) (k n : Z) : option string :=
  match fuel with
  | O => None
  | S fuel' =>
      match List.find (reads_as f) (candidates f k n) with
      | Some s => Some s
      | None => shortest fuel' f k (n + 1)
      end
  end.

(** The exact decimal expansion, which always exists for a binary float. *)
Definition exact_decimal (f : float64) : string :=
  if 0 <=? f_exp f then render (f_neg f) (f_mant f * 2 ^ f_exp f) 0
  else render (f_neg f) (f_mant f * 5 ^ (- f_exp f)) (f_exp f).

(** [strconv.FormatFloat(f, 'f', -1, 64)].  Seventeen digits always identify a
    64-bit float, so the search below does not fail on a float. *)
Definition format_float (f : float64) : string :=
  if f_mant f =? 0 then (if f_neg f then "-0" else "0")%string
  else
    let '(num, den) := float_fraction f in
    let k0 := (Z.log2 num - Z.log2 den) * 30103 / 100000 - 2 in
    let k := decimal_point 8 num den k0 in
    match shortest 17 f k 1 with
    | Some s => s
    | None => exact_decimal f
    end.

(** ** Lemmas *)

(** The digits of a number read back, in front of any tail. *)
Lemma decimal_digits_value fuel n tail :
  0 <= n < 10 ^ Z.of_nat fuel -> (0 < fuel)%nat ->
  exists p, forall a, digits_value a (decimal_digits fuel n tail) = digits_value (a * p + n) tail.
Proof.
  revert n tail. induction fuel as [|fuel IH]; intros n tail Hn Hf; [lia|]. cbn [decimal_digits].
  destruct (Z.ltb_spec n 10).
  - exists 10. intros a. cbn [digits_value]. unfold is_digit. rewrite (proj2 (between_spec _ _ _)) by lia.
    f_equal. lia.
  - destruct fuel as [|fuel]; [cbn in Hn; lia|].
    rewrite Nat2Z.inj_succ, Z.pow_succ_r in Hn by lia.
    destruct (IH (n / 10) ((48 + n mod 10) :: tail)) as [p Hp];
      [Z.to_euclidean_division_equations; lia|lia|].
    exists (p * 10). intros a. rewrite Hp. cbn [digits_value]. unfold is_digit.
    rewrite (proj2 (between_spec _ _ _)) by (Z.to_euclidean_division_equations; lia).
    f_equal. pose proof (Z.div_mod n 10). lia.
Qed.

Lemma decimal_digits_bytes fuel n tail :
  0 <= n -> Forall (fun b => 48 <= b <= 57) tail ->
  Forall (fun b => 48 <= b <= 57) (decimal_digits fuel n tail).
Proof.
  revert n tail. induction fuel as [|fuel IH]; intros n tail Hn Ht; [done|]. cbn.
  destruct (Z.ltb_spec n 10); [constructor; [lia|done]|].
  apply IH; [Z.to_euclidean_division_equations; lia|].
  constructor; [Z.to_euclidean_division_equations; lia|done].
Qed.

Lemma digits_of_spec n :
  0 <= n -> digits_value 0 (digits_of n) = Some n /\
  Forall (fun b => 48 <= b <= 57) (digits_of n) /\ digits_of n <> [].
Proof.
  intros Hn. unfold digits_of. set (fuel := S (Z.to_nat (Z.log2 n))).
  assert (Hf : n < 10 ^ Z.of_nat fuel).
  { destruct (Z.eq_dec n 0) as [->|Hz]; [by vm_compute|].
    pose proof (Z.log2_spec n ltac:(lia)) as [_ Hlt]. pose proof (Z.log2_nonneg n).
    eapply Z.lt_le_trans; [exact Hlt|]. subst fuel.
    rewrite Nat2Z.inj_succ, Z2Nat.id by done. apply Z.pow_le_mono_l. lia. }
  destruct (decimal_digits_value fuel n []) as [p Hp]; [lia|subst fuel; lia|].
  split_and!.
  - rewrite Hp. cbn. by rewrite Z.mul_0_l, Z.add_0_l.
  - by apply decimal_digits_bytes.
  - intros He. specialize (Hp 0). rewrite He in Hp. cbn in Hp. injection Hp as Hp.
    assert (n = 0) as -> by lia. by vm_compute in He.
Qed.

(** Formatting an int64 and reading it gives it back. *)
Lemma parse_format_int n : int64_min <= n <= int64_max -> parse_int64 (format_int n) = Some n.
Proof.
  intros Hn. unfold parse_int64, format_int.
  assert (Hbytes : forall l, Forall (fun b => 48 <= b <= 57) l -> Forall is_byte l).
  { intros l Hl. eapply Forall_impl; [exact Hl|]. unfold is_byte. lia. }
  destruct (Z.ltb_spec n 0).
  - destruct (digits_of_spec (- n)) as (Hv & Hd & Hne); [lia|].
    rewrite bytes_of_bytes by (constructor; [unfold is_byte; lia|by apply Hbytes]).
    unfold unsigned_value. destruct (digits_of (- n)) eqn:E; [done|]. rewrite <- E in *. rewrite Hv. cbn.
    rewrite Z.opp_involutive. by rewrite (proj2 (in_int64_spec n)).
  - destruct (digits_of_spec n) as (Hv & Hd & Hne); [lia|].
    rewrite bytes_of_bytes by by apply Hbytes.
    assert (Hu : unsigned_value (digits_of n) = Some n).
    { unfold unsigned_value. by destruct (digits_of n). }
    destruct (digits_of n) as [|b l]; [done|]. inversion Hd; subst.
    destruct b as [|p|p]; [lia| |lia].
    do 6 (destruct p as [p|p|]; try lia); rewrite Hu; by rewrite (proj2 (in_int64_spec n)).
Qed.

Lemma shortest_reads fuel f k n s : shortest fuel f k n = Some s -> parse_float s = Some f.
Proof.
  revert n. induction fuel as [|fuel IH]; intros n; [done|]. cbn [shortest].
  destruct (List.find _ _) as [s'|] eqn:E; [|apply IH].
  intros [= <-]. apply find_some in E as [_ E].
  unfold reads_as in E. by apply bool_decide_eq_true in E.
Qed.

Example format_examples :
  (format_float <$> parse_float "1.5", format_float <$> parse_float "10",
   format_float <$> parse_float "0.1", format_float <$> parse_float "1e21",
   format_float <$> parse_float "-0", format_float <$> parse_float "123456.7890",
   format_float <$> parse_float "1e-7", format_float <$> parse_float "1e400",
   format_float <$> parse_float "0.30000000000000004")
  = (Some "1.5", Some "10", Some "0.1", Some "1000000000000000000000",
     Some "-0", Some "123456.789", Some "0.0000001", None,
     Some "0.30000000000000004")%string.
Proof. vm_compute. reflexivity. Qed.

Example format_extremes :
  (format_float <$> parse_float "5e-324", parse_float "1e-400",
   format_float <$> parse_float "9007199254740993")
  = (Some ("0." ++ of_bytes (repeat 48 323) ++ "5"), Some (mkFloat false 0 (-1074)),
     Some "9007199254740992")%string.
Proof. vm_compute. reflexivity. Qed.

(** ** Reading back a position

    The text of a float that was read is read as the same float. *)

(** ** Canonical floats *)

(** A positive float in its only representation: normal, or subnormal with the
    least exponent. *)
Definition canonical (m e : Z) : Prop :=
  (2 ^ 52 <= m < 2 ^ 53 /\ -1074 <= e <= 971) \/ (0 <= m < 2 ^ 52 /\ e = -1074).

Definition is_float (f : float64) : Prop := f_mant f = 0 \/ canonical (f_mant f) (f_exp f).

(** ** Scaling *)

Abbreviation pow2 e := (2 ^ Z.max 0 e).

Lemma scale_eq num den e : scale num den e = (num * pow2 (- e), den * pow2 e).
Proof.
  unfold scale. destruct (Z.leb_spec 0 e).
  - rewrite (Z.max_l 0 (- e)), (Z.max_r 0 e) by lia. by rewrite Z.pow_0_r, Z.mul_1_r.
  - rewrite (Z.max_r 0 (- e)), (Z.max_l 0 e) by lia. by rewrite Z.pow_0_r, Z.mul_1_r.
Qed.

Lemma pow2_pos e : 0 < pow2 e.
Proof. apply Z.pow_pos_nonneg; lia. Qed.

(** Raising the exponent divides the scaled value by a power of two. *)
Lemma pow2_shift e e' : e <= e' -> pow2 (- e') * pow2 e * 2 ^ (e' - e) = pow2 (- e) * pow2 e'.
Proof. intros H. rewrite <- !Z.pow_add_r by lia. f_equal. lia. Qed.

Lemma pow2_next e : pow2 (- (e - 1)) * pow2 e = 2 * (pow2 (- e) * pow2 (e - 1)).
Proof.
  pose proof (pow2_shift (e - 1) e ltac:(lia)) as H. replace (e - (e - 1)) with 1 in H by lia. lia.
Qed.

(** The scaled value lies within [lo] and [hi]. *)
Definition scaled_within (lo hi num den e : Z) : Prop :=
  lo * (den * pow2 e) <= num * pow2 (- e) < hi * (den * pow2 e).

Lemma scaled_estimate num den :
  0 < num -> 0 < den ->
  scaled_within (2 ^ 51) (2 ^ 53) num den (Z.log2 num - Z.log2 den - 52).
Proof.
  intros Hn Hd. set (a := Z.log2 num). set (b := Z.log2 den). set (e := a - b - 52).
  destruct (Z.log2_spec num Hn) as [Ha1 Ha2]. destruct (Z.log2_spec den Hd) as [Hb1 Hb2].
  fold a in Ha1, Ha2. fold b in Hb1, Hb2. pose proof (Z.log2_nonneg num). pose proof (Z.log2_nonneg den).
  fold a in H. fold b in H0. pose proof (pow2_pos e). pose proof (pow2_pos (- e)).
  assert (E1 : 2 ^ 51 * (2 ^ Z.succ b * pow2 e) = 2 ^ a * pow2 (- e)).
  { rewrite <- !Z.pow_add_r by lia. f_equal. lia. }
  assert (E2 : 2 ^ Z.succ a * pow2 (- e) = 2 ^ 53 * (2 ^ b * pow2 e)).
  { rewrite <- !Z.pow_add_r by lia. f_equal. lia. }
  unfold scaled_within. split.
  - transitivity (2 ^ a * pow2 (- e)); [|by apply Z.mul_le_mono_pos_r].
    rewrite <- E1. apply Z.mul_le_mono_pos_l; [lia|]. apply Z.mul_le_mono_pos_r; lia.
  - eapply Z.lt_le_trans; [by apply Z.mul_lt_mono_pos_r|]. rewrite E2.
    apply Z.mul_le_mono_pos_l; [lia|]. by apply Z.mul_le_mono_pos_r.
Qed.

(** The exponent [round_pos] settles on before it is clamped. *)
Definition normal_exponent (num den : Z) : Z :=
  let e0 := Z.log2 num - Z.log2 den - 52 in
  let '(n0, d0) := scale num den e0 in
  if n0 / d0 <? 2 ^ 52 then e0 - 1 else e0.

Lemma normal_exponent_spec num den :
  0 < num -> 0 < den -> scaled_within (2 ^ 52) (2 ^ 53) num den (normal_exponent num den).
Proof.
  intros Hn Hd. pose proof (scaled_estimate num den Hn Hd) as H.
  unfold normal_exponent. set (e := _ - _ - 52) in *. rewrite scale_eq. unfold scaled_within in *.
  pose proof (pow2_pos e) as P1. pose proof (pow2_pos (e - 1)) as P2. pose proof (pow2_next e) as Hs.
  assert (HD : 0 < den * pow2 e) by nia. assert (HD' : 0 < den * pow2 (e - 1)) by nia.
  set (N := num * pow2 (- e)) in *. set (D := den * pow2 e) in *.
  destruct (Z.ltb_spec (N / D) (2 ^ 52)) as [Hq|Hq].
  - assert (HN : N < 2 ^ 52 * D) by (pose proof (Z.div_mod N D); pose proof (Z.mod_pos_bound N D); nia).
    assert (E : num * pow2 (- (e - 1)) * D = 2 * N * (den * pow2 (e - 1))).
    { subst N D. transitivity (num * den * (pow2 (- (e - 1)) * pow2 e)); [ring|rewrite Hs; ring]. }
    set (N' := num * pow2 (- (e - 1))) in *. set (D' := den * pow2 (e - 1)) in *. clearbody N' D' N D.
    split; [|]; nia.
  - split; [|lia]. pose proof (Z.mul_div_le N D). nia.
Qed.

Lemma round_pos_eq num den :
  round_pos num den =
  let e := Z.max (normal_exponent num den) (-1074) in
  let m := half_even (num * pow2 (- e)) (den * pow2 e) in
  let '(m', e') := if m =? 2 ^ 53 then (2 ^ 52, e + 1) else (m, e) in
  if 971 <? e' then None else Some (m', e').
Proof. unfold round_pos, normal_exponent. rewrite !scale_eq. reflexivity. Qed.

Lemma half_even_bounds lo hi n d : 0 < d -> lo * d <= n < hi * d -> lo <= half_even n d <= hi.
Proof.
  intros Hd H. assert (Hq : lo <= n / d < hi).
  { split; [apply Z.div_le_lower_bound; lia|apply Z.div_lt_upper_bound; lia]. }
  unfold half_even. repeat case_match; lia.
Qed.

Lemma half_even_exact m n d : 0 < d -> n = m * d -> half_even n d = m.
Proof.
  intros Hd ->. unfold half_even. rewrite Z.mod_mul, Z.div_mul by lia.
  by rewrite (proj2 (Z.ltb_lt _ _)) by lia.
Qed.

(** Comparing scaled values: [N' D k = N D'] with [2 <= k]. *)
Lemma scaled_less N D N' D' k :
  0 < D -> 0 < D' -> 2 <= k -> N' * D * k = N * D' -> N < 2 ^ 53 * D -> N' < 2 ^ 52 * D'.
Proof.
  intros HD HD' Hk E HN. apply Z.nle_gt. intros Hge.
  assert (H1 : 2 ^ 52 * D' * (D * 2) <= N' * (D * k)).
  { apply Z.mul_le_mono_nonneg; try lia; nia. }
  assert (H2 : N * D' < 2 ^ 53 * D * D') by (by apply Z.mul_lt_mono_pos_r). lia.
Qed.

(** A larger exponent than the normal one scales below [2 ^ 52]. *)
Lemma scaled_above num den e e' :
  0 < num -> 0 < den -> scaled_within (2 ^ 52) (2 ^ 53) num den e -> e < e' ->
  scaled_within 0 (2 ^ 52) num den e'.
Proof.
  intros Hn Hd [_ H] Hlt. unfold scaled_within in *.
  pose proof (pow2_pos e) as P1. pose proof (pow2_pos e') as P2. pose proof (pow2_pos (- e')) as P3.
  split; [nia|]. assert (Hk : 2 <= 2 ^ (e' - e)).
  { change 2 with (2 ^ 1) at 1. apply Z.pow_le_mono_r; lia. }
  assert (E : num * pow2 (- e') * (den * pow2 e) * 2 ^ (e' - e) = num * pow2 (- e) * (den * pow2 e')).
  { transitivity (num * den * (pow2 (- e') * pow2 e * 2 ^ (e' - e))); [ring|].
    rewrite pow2_shift by lia. ring. }
  set (k := 2 ^ (e' - e)) in *. set (N := num * pow2 (- e)) in *. set (D := den * pow2 e) in *.
  set (N' := num * pow2 (- e')) in *. set (D' := den * pow2 e') in *.
  assert (HD : 0 < D) by (subst D; nia). assert (HD' : 0 < D') by (subst D'; nia).
  by apply (scaled_less N D N' D' k).
Qed.

(** The last choices of [round_pos], on bounds of the rounded value. *)
Ltac rounded H :=
  let m := fresh "m" in
  set (m := half_even _ _) in *; clearbody m;
  destruct (Z.eqb_spec m (2 ^ 53)); case_match; try done; to_prop; injection H as <- <-; lia.

Lemma round_pos_canonical num den m e :
  0 < num -> 0 < den -> round_pos num den = Some (m, e) -> canonical m e.
Proof.
  intros Hn Hd H. pose proof (normal_exponent_spec num den Hn Hd) as Hs. rewrite round_pos_eq in H.
  cbv zeta in H. set (e1 := normal_exponent num den) in *.
  pose proof (pow2_pos (Z.max e1 (-1074))).
  assert (HD : 0 < den * pow2 (Z.max e1 (-1074))) by nia. unfold canonical.
  destruct (Z.le_gt_cases (-1074) e1) as [Hle|Hgt].
  - rewrite (Z.max_l e1) in * by lia. pose proof (half_even_bounds _ _ _ _ HD Hs) as Hm.
    by rounded H.
  - rewrite (Z.max_r e1) in * by lia.
    pose proof (scaled_above num den e1 (-1074) Hn Hd Hs ltac:(lia)) as Hs'.
    pose proof (half_even_bounds _ _ _ _ HD Hs') as Hm. by rounded H.
Qed.

Lemma scaled_no_less N D D' k m :
  0 < D -> 0 < D' -> 1 <= k -> N * D' * k = m * D' * D -> 2 ^ 52 * D <= N -> 2 ^ 52 <= m.
Proof.
  intros HD HD' Hk E HN. apply Z.nlt_ge. intros Hlt.
  assert (H1 : 2 ^ 52 * D * D' * 1 <= N * D' * k).
  { apply Z.mul_le_mono_nonneg; try nia. }
  assert (H2 : m * (D' * D) < 2 ^ 52 * (D' * D)) by (apply Z.mul_lt_mono_pos_r; nia). lia.
Qed.

(** A fraction that is a canonical float rounds to it. *)
Lemma round_pos_exact num den m e :
  0 < m -> 0 < num -> 0 < den -> canonical m e -> num * pow2 (- e) = m * (den * pow2 e) ->
  round_pos num den = Some (m, e).
Proof.
  intros Hm Hn Hd Hc He. pose proof (normal_exponent_spec num den Hn Hd) as Hs.
  rewrite round_pos_eq. cbv zeta. set (e1 := normal_exponent num den) in *.
  pose proof (pow2_pos e) as P. assert (HD : 0 < den * pow2 e) by nia.
  assert (Hmax : Z.max e1 (-1074) = e).
  { destruct (Z.lt_trichotomy e1 e) as [Hlt|[->|Hlt]].
    - apply (scaled_above _ _ _ e) in Hs as [_ Hs]; [|done..]. rewrite He in Hs.
      assert (m < 2 ^ 52) by nia. unfold canonical in Hc. lia.
    - unfold canonical in Hc. lia.
    - exfalso. destruct Hc as [[Hb _]|[Hb ->]].
      + assert (Hse : scaled_within (2 ^ 52) (2 ^ 53) num den e)
          by (unfold scaled_within; rewrite He; nia).
        apply (scaled_above _ _ _ e1) in Hse as [_ Hse]; [|done..]. destruct Hs. lia.
      + destruct Hs as [Hs _]. pose proof (pow2_shift (-1074) e1 ltac:(lia)) as E.
        pose proof (pow2_pos e1). assert (1 <= 2 ^ (e1 - -1074)) by (apply (Z.pow_le_mono_r 2 0); lia).
        apply (scaled_no_less _ _ (den * pow2 (-1074)) (2 ^ (e1 - -1074)) m) in Hs; [lia|nia|lia|lia|].
        rewrite <- He. transitivity (num * den * (pow2 (- e1) * pow2 (-1074) * 2 ^ (e1 - -1074))); [ring|].
        rewrite E. ring. }
  rewrite Hmax, (half_even_exact m) by done. unfold canonical in Hc.
  rewrite (proj2 (Z.eqb_neq m _)) by lia. by rewrite (proj2 (Z.ltb_ge _ _)) by lia.
Qed.

(** ** Reading rendered text *)

Definition digit_bytes (l : list Z) : Prop := Forall (fun b => 48 <= b <= 57) l.

Lemma is_digit_true b : 48 <= b <= 57 -> is_digit b = true.
Proof. intros H. unfold is_digit. by apply between_spec. Qed.

(** [take_digits] stops at the end or at a byte that is no digit. *)
Lemma take_digits_app ds rest acc n v :
  digit_bytes ds -> digits_value acc ds = Some v ->
  match rest with b :: _ => is_digit b = false | [] => True end ->
  take_digits acc n (ds ++ rest) = (v, n + Z.of_nat (length ds), rest).
Proof.
  intros Hds. revert acc n. induction Hds as [|b ds Hb _ IH]; intros acc n Hv Hr; cbn in *.
  - injection Hv as ->. rewrite Z.add_0_r. destruct rest as [|b rest]; [done|]. cbn. by rewrite Hr.
  - rewrite is_digit_true in * by done. rewrite (IH _ _ Hv Hr). do 2 f_equal. lia.
Qed.

Lemma digits_value_app a l1 l2 : digits_value a (l1 ++ l2) = digits_value a l1 ≫= fun v => digits_value v l2.
Proof.
  revert a. induction l1 as [|b l1 IH]; intros a; cbn; [done|]. by destruct (is_digit b).
Qed.

Lemma digits_value_zeros k : digits_value 0 (repeat 48 k) = Some 0.
Proof. induction k as [|k IH]; [done|]. exact IH. Qed.

Lemma digits_value_Some ds a : digit_bytes ds -> exists v, digits_value a ds = Some v.
Proof.
  intros H. revert a. induction H as [|b ds Hb _ IH]; intros a; cbn; [by exists a|].
  rewrite is_digit_true by done. apply IH.
Qed.

Lemma digit_bytes_repeat k : digit_bytes (repeat 48 k).
Proof. apply List.Forall_forall. intros b ->%repeat_spec. lia. Qed.

(** What stands before the exponent: digits, perhaps a dot and digits. *)
Lemma read_decimal_body neg ip frac v v' :
  digit_bytes ip -> digit_bytes frac -> ip <> [] -> digits_value 0 ip = Some v ->
  digits_value v frac = Some v' ->
  read_decimal (of_bytes ((if neg : bool then [45] else []) ++ ip
                  ++ match frac with [] => [] | _ => 46 :: frac end))
  = Some (neg, v', - Z.of_nat (length frac)).
Proof.
  intros Hip Hf Hne Hv Hv'. unfold read_decimal.
  assert (Hb : forall l, digit_bytes l -> Forall is_byte l)
    by (intros l Hl; eapply Forall_impl; [exact Hl|]; unfold is_byte; lia).
  rewrite bytes_of_bytes.
  2:{ rewrite !Forall_app. split_and!; [destruct neg; repeat constructor; unfold is_byte; lia|by apply Hb|].
      destruct frac; [done|]. constructor; [unfold is_byte; lia|by apply Hb]. }
  set (tail := match frac with [] => [] | _ => 46 :: frac end).
  assert (E : match (if neg then [45] else []) ++ ip ++ tail with
              | 45 :: rest => (true, rest) | bs => (false, bs) end = (neg, ip ++ tail)).
  { destruct neg; [done|]. destruct Hip as [|b ip Hb0 _]; [done|]. cbn.
    destruct b as [|p|p]; [lia| |lia]. do 6 (destruct p as [p|p|]; try lia; try done). }
  rewrite E. rewrite (take_digits_app _ _ _ _ _ Hip Hv) by (subst tail; by destruct frac).
  assert (Hl : 0 < Z.of_nat (length ip)) by (destruct ip; [done|cbn; lia]).
  subst tail. destruct frac as [|b frac].
  - cbn in Hv'. injection Hv' as <-. cbn -[Z.of_nat Z.eqb]. by rewrite (proj2 (Z.eqb_neq _ _)) by lia.
  - rewrite <- (app_nil_r (b :: frac)) at 1. rewrite (take_digits_app _ _ _ _ _ Hf Hv') by done.
    rewrite (proj2 (Z.eqb_neq _ _)) by lia. cbn [read_exponent mbind option_bind]. done.
Qed.

(** The text of [d * 10 ^ q] reads as that decimal. *)
Lemma read_render neg d q : 0 <= d -> q <= 0 -> read_decimal (render neg d q) = Some (neg, d, q).
Proof.
  intros Hd Hq. destruct (digits_of_spec d Hd) as (Hv & Hds & Hne). unfold render.
  set (ds := digits_of d) in *. set (n := Z.of_nat (length ds)).
  assert (Hcons : forall body, (if neg then 45 :: body else body) = (if neg then [45] else []) ++ body)
    by by destruct neg.
  rewrite Hcons. destruct (Z.leb_spec 0 q).
  { assert (q = 0) as -> by lia. change (repeat 48 (Z.to_nat 0)) with (@nil Z).
    by rewrite (read_decimal_body neg ds [] d d Hds (List.Forall_nil _) Hne Hv). }
  destruct (Z.ltb_spec (- q) n) as [Hlt|Hge].
  - set (k := Z.to_nat (n + q)). assert (Hk : (k < length ds)%nat) by lia.
    rewrite <- (take_drop k ds) in Hv, Hds. apply Forall_app in Hds as [H1 H2].
    rewrite digits_value_app in Hv. apply bind_Some in Hv as (v & Hv1 & Hv2).
    pose proof (read_decimal_body neg (take k ds) (drop k ds) v d H1 H2) as Hr.
    assert (Hlen : length (drop k ds) = Z.to_nat (- q)) by (rewrite length_drop; lia).
    destruct (drop k ds) as [|b l] eqn:Ed; [cbn in Hlen; lia|].
    cbn [app]. rewrite Hr; [|destruct k eqn:Ek; [lia|by destruct ds]|done|done].
    do 2 f_equal. rewrite Hlen. lia.
  - set (k := Z.to_nat (- q - n)).
    assert (Hlen : length (repeat 48 k ++ ds) = Z.to_nat (- q)).
    { rewrite length_app, repeat_length. lia. }
    assert (Hf : digit_bytes (repeat 48 k ++ ds)) by (apply Forall_app; split; [apply digit_bytes_repeat|done]).
    assert (Hv' : digits_value 0 (repeat 48 k ++ ds) = Some d)
      by by rewrite digits_value_app, digits_value_zeros.
    change ([48; 46] ++ repeat 48 k ++ ds) with ([48] ++ 46 :: (repeat 48 k ++ ds)).
    assert (H0 : digit_bytes [48]) by (repeat constructor; lia).
    pose proof (read_decimal_body neg [48] (repeat 48 k ++ ds) 0 d H0 Hf ltac:(done) eq_refl Hv') as Hr.
    destruct (repeat 48 k ++ ds) as [|b l]; [cbn in Hlen; lia|]. rewrite Hr.
    do 2 f_equal. rewrite Hlen. lia.
Qed.

(** ** The round trip *)

Lemma round_decimal_float neg mant e10 f :
  0 <= mant -> round_decimal neg mant e10 = Some f -> is_float f.
Proof.
  intros Hm. unfold round_decimal. destruct (Z.eqb_spec mant 0) as [->|Hne].
  { intros [= <-]. by left. }
  pose proof (Z.pow_nonneg 10 e10). destruct (Z.leb_spec 0 e10) as [He|He]; intros Hr;
    apply bind_Some in Hr as ([m e] & Hr & [= <-]); right; (eapply round_pos_canonical; [| |exact Hr]).
  - pose proof (Z.pow_pos_nonneg 10 e10). nia.
  - lia.
  - lia.
  - apply Z.pow_pos_nonneg; lia.
Qed.

(** The exact expansion of a canonical float reads back. *)
Lemma parse_exact_decimal f :
  0 < f_mant f -> canonical (f_mant f) (f_exp f) -> parse_float (exact_decimal f) = Some f.
Proof.
  intros Hm Hc. unfold parse_float, exact_decimal. destruct (Z.leb_spec 0 (f_exp f)) as [He|He].
  - pose proof (Z.pow_pos_nonneg 2 (f_exp f) ltac:(lia) He).
    rewrite read_render by nia. cbn [mbind option_bind]. unfold round_decimal.
    rewrite (proj2 (Z.eqb_neq _ _)) by nia. cbn [Z.leb Z.compare].
    rewrite (round_pos_exact _ 1 (f_mant f) (f_exp f)); [by destruct f|done|nia|lia|done|].
    rewrite (Z.max_l 0 (- f_exp f)), (Z.max_r 0 (f_exp f)) by lia. ring.
  - pose proof (Z.pow_pos_nonneg 5 (- f_exp f) ltac:(lia) ltac:(lia)).
    rewrite read_render by nia. cbn [mbind option_bind]. unfold round_decimal.
    rewrite (proj2 (Z.eqb_neq _ _)) by nia. rewrite (proj2 (Z.leb_gt 0 _)) by lia.
    pose proof (Z.pow_pos_nonneg 10 (- f_exp f) ltac:(lia) ltac:(lia)).
    rewrite (round_pos_exact _ _ (f_mant f) (f_exp f)); [by destruct f|done|nia|lia|done|].
    rewrite (Z.max_r 0 (- f_exp f)), (Z.max_l 0 (f_exp f)) by lia.
    change 10 with (5 * 2). rewrite Z.pow_mul_l. ring.
Qed.

(** Printing a float and reading it gives the float, or the zero of its sign. *)
Lemma parse_format_float f :
  is_float f ->
  parse_float (format_float f) = Some (if f_mant f =? 0 then mkFloat (f_neg f) 0 0 else f).
Proof.
  intros Hf. unfold format_float. destruct (Z.eqb_spec (f_mant f) 0) as [E|E].
  { destruct (f_neg f); vm_compute; reflexivity. }
  destruct Hf as [?|Hc]; [done|]. destruct (float_fraction f) as [num den]. cbv zeta.
  destruct (shortest _ _ _ _) as [s|] eqn:Es; [by eapply shortest_reads|].
  apply parse_exact_decimal; [|done]. destruct Hc; lia.
Qed.

Lemma take_digits_nonneg bs acc n acc' n' rest :
  0 <= acc -> take_digits acc n bs = (acc', n', rest) -> 0 <= acc'.
Proof.
  revert acc n. induction bs as [|b bs IH]; intros acc n Ha; cbn.
  - by intros [= <- _ _].
  - destruct (is_digit b) eqn:Hb; [|by intros [= <- _ _]].
    unfold is_digit in Hb. apply between_spec in Hb. apply IH. lia.
Qed.

(** Whatever is read is a float. *)
Lemma parse_float_is_float s f : parse_float s = Some f -> is_float f.
Proof.
  unfold parse_float. intros H. apply bind_Some in H as ([[neg mant] e10] & Hr & H).
  apply round_decimal_float in H; [done|]. unfold read_decimal in Hr.
  destruct (match bytes_of s with 45 :: rest => (true, rest) | bs => (false, bs) end) as [sign bs].
  destruct (take_digits 0 0 bs) as [[ip ni] rest] eqn:E1. apply take_digits_nonneg in E1; [|lia].
  destruct (match rest with 46 :: frac => take_digits ip 0 frac | _ => (ip, 0, rest) end)
    as [[m nf] rest'] eqn:E2. destruct (ni =? 0); [done|].
  apply bind_Some in Hr as (e & _ & [= _ <- _]). destruct rest as [|b rest]; [congruence|].
  destruct (decide (b = 46)) as [->|Hne]; [by apply take_digits_nonneg in E2|].
  assert (E : (ip, 0, b :: rest) = (m, nf, rest')); [|congruence].
  rewrite <- E2. destruct b as [|p|p]; [done| |done]. by do 6 (destruct p as [p|p|]; try done).
Qed.
