(* ===== verification/Json.v ===== *)
(** * JSON documents

    [encoding/json] documents as values.  The sources hold undecoded JSON in
    [json.RawMessage] fields; every such value comes out of a decoder or out of
    a JSONB column, so it is either empty or the text of one valid document.
    [RawMessage] is therefore [None] for the empty message and [Some v] for
    the text of the document [v].  Object members are kept in order with
    duplicates, number literals keep their text, string values are decoded. *)

From S2P Require Import Prelude GoText GoFloat.

Inductive json :=
| JNull
| JBool (b : bool)
| JNum (literal : string)
| JStr (s : string)
| JArr (elements : list json)
| JObj (members : list (string * json)).

Definition RawMessage : Type := option json.

Definition empty_object : json := JObj [].

(** ** What [json.Unmarshal] does with a document, by target type *)

(** Into [map\[string\]json.RawMessage]: a later duplicate key wins. *)
Definition fields_of (members : list (string * json)) : gmap string json :=
  foldl (fun m kv => <[kv.1 := kv.2]> m) ∅ members.

(** Into [string]: [null] leaves the zero value. *)
Definition unmarshal_string (v : json) : option string :=
  match v with
  | JStr s => Some s
  | JNull => Some EmptyString
  | _ => None
  end.

(** Into [int] and [int64]: the literal must be a plain integer in range. *)
Definition unmarshal_int (v : json) : option Z :=
  match v with
  | JNum lit => parse_int64 lit
  | JNull => Some 0
  | _ => None
  end.

(** Into [float64]. *)
Definition unmarshal_float (v : json) : option float64 :=
  match v with
  | JNum lit => parse_float lit
  | JNull => Some (mkFloat false 0 0)
  | _ => None
  end.

(** Into [\[\]json.RawMessage]. *)
Definition unmarshal_array (v : json) : option (list json) :=
  match v with
  | JArr vs => Some vs
  | JNull => Some []
  | _ => None
  end.

(** *** Structs *)

(** Keys select fields up to case.  Folding maps a letter to its upper case;
    the two letters outside ASCII that fold to an ASCII letter are U+017F and
    U+212A, and all field names are ASCII. *)
Definition fold_rune (r : Z) : Z :=
  if between 97 r 122 then r - 32
  else if r =? 0x17F then 83
  else if r =? 0x212A then 75
  else r.

Definition key_matches (key field : string) : bool :=
  bool_decide (map fold_rune (runes key) = map fold_rune (runes field)).

(** A field: its name and what storing a value into it does. *)
Definition struct_field (A : Type) : Type := string * (json -> A -> option A).

Fixpoint decode_member {A} (fields : list (struct_field A)) (key : string) (v : json) (a : A) : option A :=
  match fields with
  | [] => Some a
  | (name, store) :: rest => if key_matches key name then store v a else decode_member rest key v a
  end.

(** Into a struct: members are stored in order, unknown keys are skipped. *)
Definition unmarshal_struct {A} (fields : list (struct_field A)) (zero : A) (v : json) : option A :=
  match v with
  | JObj members => foldl (fun a kv => a ≫= decode_member fields kv.1 kv.2) (Some zero) members
  | JNull => Some zero
  | _ => None
  end.

(** A value stored unless it is [null], which leaves the field as it was. *)
Definition store_field {A B} (decode : json -> option B) (set : B -> A -> A) (v : json) (a : A)
    : option A :=
  match v with
  | JNull => Some a
  | _ => b ← decode v; Some (set b a)
  end.

(** The same with [DisallowUnknownFields]: an unknown key is an error. *)
Fixpoint decode_known {A} (fields : list (struct_field A)) (key : string) (v : json) (a : A) : option A :=
  match fields with
  | [] => None
  | (name, store) :: rest => if key_matches key name then store v a else decode_known rest key v a
  end.

Definition unmarshal_strict {A} (fields : list (struct_field A)) (zero : A) (v : json) : option A :=
  match v with
  | JObj members => foldl (fun a kv => a ≫= decode_known fields kv.1 kv.2) (Some zero) members
  | JNull => Some zero
  | _ => None
  end.

(** *** Slices *)

(** Decoding an array stores its elements over those the slice had, which shows
    when a member is repeated; the slice keeps what lies beyond its length. *)
Record slice (A : Type) := mkSlice { sl_backing : list A; sl_len : nat }.

Arguments mkSlice {A}.
Arguments sl_backing {A}.
Arguments sl_len {A}.

Definition nil_slice {A} : slice A := mkSlice [] 0.

Definition slice_elements {A} (s : slice A) : list A := take (sl_len s) (sl_backing s).

Fixpoint store_elements {A} (decode : A -> json -> option A) (zero : A) (backing : list A)
    (vs : list json) : option (list A) :=
  match vs with
  | [] => Some backing
  | v :: rest =>
      a ← decode (default zero (head backing)) v;
      stored ← store_elements decode zero (tail backing) rest;
      Some (a :: stored)
  end.

Definition store_slice {A} (decode : A -> json -> option A) (zero : A) (v : json) (s : slice A)
    : option (slice A) :=
  match v with
  | JNull | JArr [] => Some nil_slice
  | JArr vs => stored ← store_elements decode zero (sl_backing s) vs;
               Some (mkSlice stored (length vs))
  | _ => None
  end.

(** Into a pointer to text. *)
Definition unmarshal_string_ptr (v : json) : option (option string) :=
  match v with
  | JNull => Some None
  | JStr s => Some (Some s)
  | _ => None
  end.

(** Into [int32]. *)
Definition unmarshal_int32 (v : json) : option Z :=
  z ← unmarshal_int v; if (- 2 ^ 31 <=? z) && (z <? 2 ^ 31) then Some z else None.

(** [json.Marshal] of a string replaces invalid UTF-8. *)
Definition marshal_string (s : string) : json := JStr (string_of_runes (runes s)).

(** ** Lemmas *)

Lemma fields_of_last members k v :
  fields_of (members ++ [(k, v)]) !! k = Some v.
Proof. unfold fields_of. rewrite foldl_app. cbn. apply lookup_insert_eq. Qed.
