(* ===== verification/GoJsonText.v ===== *)
(** * JSON as text

    The bytes [json.Marshal] writes.  A [json.RawMessage] inside a value is
    written compactly with the same escapes, so that one printer serves the
    values Go encodes and the documents it received; a document read from a
    JSONB column comes in PostgreSQL's text, whose strings, once compacted, are
    the ones written here. *)

From S2P Require Import Prelude GoText GoFloat Json.

(** The bytes of literal text. *)
Definition lit (s : string) : list Z := bytes_of s.

Definition backslash_byte : Z := 92.
Definition quote_byte : Z := 34.

Definition hex_digit (d : Z) : Z := if d <? 10 then 48 + d else 87 + d.

(** Two hexadecimal digits, in lower case as [hex.EncodeToString] has them. *)
Definition hex_byte (b : Z) : list Z := [hex_digit (b / 16); hex_digit (b mod 16)].

Definition unicode_escape (r : Z) : list Z :=
  backslash_byte :: lit "u" ++ hex_byte (r / 256) ++ hex_byte (r mod 256).

(** One character of a string, with the bytes it was read from.  An invalid
    byte is written as the escape of the replacement character. *)
Definition quote_rune (seg : Z * list Z) : list Z :=
  let '(r, bytes) := seg in
  if (r =? backslash_byte) || (r =? quote_byte) then [backslash_byte; r]
  else if r =? 8 then backslash_byte :: lit "b"
  else if r =? 12 then backslash_byte :: lit "f"
  else if r =? 10 then backslash_byte :: lit "n"
  else if r =? 13 then backslash_byte :: lit "r"
  else if r =? 9 then backslash_byte :: lit "t"
  else if (r <? 32) || existsb (Z.eqb r) (lit "<>&") || (r =? 0x2028) || (r =? 0x2029)
          || (r =? rune_error) && bool_decide (length bytes = 1%nat)
  then unicode_escape r
  else bytes.

Definition quote (s : string) : list Z :=
  quote_byte :: concat (map quote_rune (decode_seg (bytes_of s))) ++ [quote_byte].

(** Items between commas. *)
Definition commas (items : list (list Z)) : list Z :=
  match items with
  | [] => []
  | i :: rest => i ++ concat (map (fun j => lit "," ++ j) rest)
  end.

Fixpoint json_text (v : json) : list Z :=
  match v with
  | JNull => lit "null"
  | JBool b => lit (if b then "true" else "false")
  | JNum literal => lit literal
  | JStr s => quote s
  | JArr vs => lit "[" ++ commas (map json_text vs) ++ lit "]"
  | JObj ms => lit "{" ++ commas (map (fun kv => quote kv.1 ++ lit ":" ++ json_text kv.2) ms)
                 ++ lit "}"
  end.

(** A member whose value may be absent, as a nil pointer is. *)
Definition nullable (v : option string) : json :=
  match v with
  | Some s => JStr s
  | None => JNull
  end.

(** The text with its quotes as apostrophes. *)
Example json_text_small :
  of_bytes (map (fun b => if b =? quote_byte then 39 else b)
    (json_text (JObj [("a", JArr [JNum "1"; JNull; JBool true]); ("b<", JStr "x&y")]%string)))
  = "{'a':[1,null,true],'b\u003c':'x\u0026y'}"%string.
Proof. vm_compute. reflexivity. Qed.
