(* ===== verification/GoSha256.v ===== *)
(** * SHA-256

    [crypto/sha256.Sum256] and [encoding/hex.EncodeToString] of the standard
    library, on bytes as numbers; words are 32 bits wide. *)

From S2P Require Import Prelude GoText GoJsonText.

(** ** Words *)

Definition word (x : Z) : Z := x mod 2 ^ 32.

Definition add32 (x y : Z) : Z := word (x + y).

Definition rotr (n x : Z) : Z := Z.lor (Z.shiftr x n) (word (Z.shiftl x (32 - n))).

(** ** Constants *)

(** The standard takes its constants from the primes: the first 32 bits of the
    fractional parts of the cube roots of the first 64 of them, and of the
    square roots of the first eight. *)

Definition prime (n : nat) : bool :=
  (1 <? n)%nat && forallb (fun k => negb (n mod k =? 0)%nat) (seq 2 (n - 2)).

Definition primes : list Z := Eval vm_compute in map Z.of_nat (List.filter prime (seq 0 312)).

(** The root as a sum of powers of two, from [2^n] down. *)
Fixpoint cube_root (n : nat) (root x : Z) : Z :=
  let next := root + 2 ^ Z.of_nat n in
  let root := if next ^ 3 <=? x then next else root in
  match n with
  | O => root
  | S n => cube_root n root x
  end.

Definition round_constants : list Z :=
  Eval vm_compute in map (fun p => word (cube_root 36 0 (p * 2 ^ 96))) primes.

Definition initial_state : list Z :=
  Eval vm_compute in map (fun p => word (Z.sqrt (p * 2 ^ 64))) (take 8 primes).

(** ** Padding *)

(** The [n] low bytes of [x], the most significant first. *)
Fixpoint big_endian (n : nat) (x : Z) : list Z :=
  match n with
  | O => []
  | S n => big_endian n (x / 256) ++ [x mod 256]
  end.

Definition zero_padding (len : nat) : nat := ((119 - len mod 64) mod 64)%nat.

(** A one bit, zeros, and the length in bits fill up the last block. *)
Definition pad (bs : list Z) : list Z :=
  bs ++ [0x80] ++ repeat 0 (zero_padding (length bs))
  ++ big_endian 8 (8 * Z.of_nat (length bs)).

(** ** Compression *)

Fixpoint words_of (bs : list Z) : list Z :=
  match bs with
  | b0 :: b1 :: b2 :: b3 :: rest =>
      (((b0 * 256 + b1) * 256 + b2) * 256 + b3) :: words_of rest
  | _ => []
  end.

Definition sigma0 (x : Z) : Z := Z.lxor (Z.lxor (rotr 7 x) (rotr 18 x)) (Z.shiftr x 3).
Definition sigma1 (x : Z) : Z := Z.lxor (Z.lxor (rotr 17 x) (rotr 19 x)) (Z.shiftr x 10).
Definition Sigma0 (x : Z) : Z := Z.lxor (Z.lxor (rotr 2 x) (rotr 13 x)) (rotr 22 x).
Definition Sigma1 (x : Z) : Z := Z.lxor (Z.lxor (rotr 6 x) (rotr 11 x)) (rotr 25 x).

(** The message schedule: [recent] holds the words so far, the latest first. *)
Fixpoint extend (n : nat) (recent : list Z) : list Z :=
  match n with
  | O => recent
  | S n =>
      let w k := nth k recent 0 in
      extend n (add32 (add32 (sigma1 (w 1%nat)) (w 6%nat))
                  (add32 (sigma0 (w 14%nat)) (w 15%nat)) :: recent)
  end.

Definition schedule (block : list Z) : list Z := rev (extend 48 (rev block)).

Definition choose (e f g : Z) : Z := Z.lxor (Z.land e f) (Z.land (Z.lxor e 0xffffffff) g).

Definition majority (a b c : Z) : Z :=
  Z.lxor (Z.lxor (Z.land a b) (Z.land a c)) (Z.land b c).

Definition round (state : list Z) (kw : Z * Z) : list Z :=
  match state with
  | [a; b; c; d; e; f; g; h] =>
      let t1 := add32 (add32 h (Sigma1 e)) (add32 (choose e f g) (add32 kw.1 kw.2)) in
      let t2 := add32 (Sigma0 a) (majority a b c) in
      [add32 t1 t2; a; b; c; add32 d t1; e; f; g]
  | _ => state
  end.

Definition compress (state block : list Z) : list Z :=
  zip_with add32 state (foldl round state (zip round_constants (schedule block))).

(** The blocks of 16 words, one after the other; [fuel] bounds their number. *)
Fixpoint blocks (fuel : nat) (state ws : list Z) : list Z :=
  match fuel with
  | O => state
  | S fuel =>
      match ws with
      | [] => state
      | _ => blocks fuel (compress state (take 16 ws)) (drop 16 ws)
      end
  end.

Definition Sum256 (bs : list Z) : list Z :=
  let ws := words_of (pad bs) in
  concat (map (big_endian 4) (blocks (length ws) initial_state ws)).

Arguments Sum256 : simpl never.

(** [hex.EncodeToString]. *)
Definition hex_encode (bs : list Z) : string := of_bytes (concat (map hex_byte bs)).

(** ** Lemmas *)

Lemma big_endian_length n x : length (big_endian n x) = n.
Proof. revert x. induction n as [|n IH]; intros x; cbn; [done|]. rewrite length_app, IH. cbn. lia. Qed.

Lemma pad_length bs : exists k, length (pad bs) = (64 * S k)%nat.
Proof.
  assert (H : (length (pad bs) mod 64 = 0)%nat).
  { unfold pad, zero_padding. rewrite !length_app, repeat_length, big_endian_length. cbn [length].
    pose proof (Nat.div_mod_eq (length bs) 64) as H.
    pose proof (Nat.mod_upper_bound (length bs) 64).
    set (r := (length bs mod 64)%nat) in *. set (q := (length bs / 64)%nat) in *. clearbody q r.
    destruct (decide (r <= 55)%nat).
    - replace ((119 - r) mod 64)%nat with (55 - r)%nat;
        [|apply (Nat.mod_unique _ _ 1); lia].
      symmetry. apply (Nat.mod_unique _ _ (S q)); lia.
    - replace ((119 - r) mod 64)%nat with (119 - r)%nat by (rewrite Nat.mod_small; lia).
      symmetry. apply (Nat.mod_unique _ _ (S (S q))); lia. }
  apply Nat.Div0.div_exact in H. exists (length (pad bs) / 64 - 1)%nat.
  assert (length (pad bs) <> 0%nat); [|lia].
  unfold pad. rewrite length_app. cbn. lia.
Qed.

Lemma round_length state kw : length state = 8%nat -> length (round state kw) = 8%nat.
Proof. intros H. unfold round. repeat case_match; done. Qed.

Lemma rounds_length kws state :
  length state = 8%nat -> length (foldl round state kws) = 8%nat.
Proof. revert state. induction kws as [|kw kws IH]; intros state H; [done|]. cbn. by apply IH, round_length. Qed.

Lemma blocks_length fuel state ws :
  length state = 8%nat -> length (blocks fuel state ws) = 8%nat.
Proof.
  revert state ws. induction fuel as [|fuel IH]; intros state ws H; [done|]. cbn.
  case_match; [done|]. apply IH. unfold compress.
  rewrite length_zip_with, rounds_length; lia.
Qed.

Lemma Sum256_length bs : length (Sum256 bs) = 32%nat.
Proof.
  unfold Sum256. set (l := blocks _ _ _).
  assert (H : length l = 8%nat) by by apply blocks_length.
  clearbody l. do 9 (destruct l as [|? l]; try done).
Qed.

Lemma of_bytes_length bs : String.length (of_bytes bs) = length bs.
Proof. unfold of_bytes. induction bs as [|b bs IH]; [done|]. cbn. by rewrite IH. Qed.

Lemma hex_encode_length bs : String.length (hex_encode bs) = (2 * length bs)%nat.
Proof.
  unfold hex_encode. rewrite of_bytes_length.
  induction bs as [|b bs IH]; [done|]. cbn in *. lia.
Qed.

(** The test vectors of the standard: the empty message, [abc], and one of two
    blocks. *)
Example sum_of_nothing : hex_encode (Sum256 []) =
  "e3b0c44298fc1c149afbf4c8996fb92427ae41e4649b934ca495991b7852b855"%string.
Proof. vm_compute. reflexivity. Qed.

Example sum_of_abc : hex_encode (Sum256 (lit "abc")) =
  "ba7816bf8f01cfea414140de5dae2223b00361a396177a9cb410ff61f20015ad"%string.
Proof. vm_compute. reflexivity. Qed.

Example sum_of_two_blocks :
  hex_encode (Sum256 (lit "abcdbcdecdefdefgefghfghighijhijkijkljklmklmnlmnomnopnopq")) =
  "248d6a61d20638b8e5c026930c3e6039a33ce45964ff2167f6ecedd419db06c1"%string.
Proof. vm_compute. reflexivity. Qed.
