(* ===== verification/HttpApi.v ===== *)
(** * Error values

    The API error type of [internal/httpapi/errors.go], the sentinel errors
    services test with [errors.Is], and the result type of every fallible
    operation of the development. *)

From S2P Require Import Prelude Json.

(** ** Public error codes *)

Definition CodeInvalidRequest : string := "INVALID_REQUEST".
Definition CodeUnauthorized : string := "UNAUTHORIZED".
Definition CodeForbidden : string := "FORBIDDEN".
Definition CodeNotFound : string := "NOT_FOUND".
Definition CodeDeviceRevoked : string := "DEVICE_REVOKED".
Definition CodeUnsupportedProtocol : string := "UNSUPPORTED_PROTOCOL".
Definition CodeBaseVersionConflict : string := "BASE_VERSION_CONFLICT".
Definition CodeCursorExpired : string := "CURSOR_EXPIRED".
Definition CodePayloadTooLarge : string := "PAYLOAD_TOO_LARGE".
Definition CodeRateLimited : string := "RATE_LIMITED".
Definition CodeConflict : string := "CONFLICT".
Definition CodeUploadNotReady : string := "UPLOAD_NOT_READY".
Definition CodeUploadInvalid : string := "UPLOAD_INVALID".
Definition CodeStorageUnavailable : string := "STORAGE_UNAVAILABLE".
Definition CodeInternalError : string := "INTERNAL_ERROR".

(** ** HTTP status codes the sources use ([net/http]) *)

Definition StatusOK : Z := 200.
Definition StatusCreated : Z := 201.
Definition StatusNoContent : Z := 204.
Definition StatusBadRequest : Z := 400.
Definition StatusUnauthorized : Z := 401.
Definition StatusForbidden : Z := 403.
Definition StatusNotFound : Z := 404.
Definition StatusRequestTimeout : Z := 408.
Definition StatusConflict : Z := 409.
Definition StatusRequestEntityTooLarge : Z := 413.
Definition StatusUnprocessableEntity : Z := 422.
Definition StatusTooManyRequests : Z := 429.
Definition StatusInternalServerError : Z := 500.
Definition StatusBadGateway : Z := 502.
Definition StatusServiceUnavailable : Z := 503.

Record Error := mkError {
  Error_Status : Z;
  Error_Code : string;
  Error_Message : string;
  Error_Details : option (list (string * json))
}.

Definition NewError (status : Z) (code message : string) : Error :=
  mkError status code message None.

Definition InvalidRequest (message : string) : Error :=
  NewError StatusBadRequest CodeInvalidRequest message.

Definition Unauthorized : Error :=
  NewError StatusUnauthorized CodeUnauthorized "Authentication is required.".

Definition Forbidden (message : string) : Error :=
  NewError StatusForbidden CodeForbidden message.

Definition NotFound (message : string) : Error :=
  NewError StatusNotFound CodeNotFound message.

Definition Internal : Error :=
  NewError StatusInternalServerError CodeInternalError "An internal error occurred.".

(** ** Go error values *)

(** The text [fmt.Errorf] builds: literal text, and operands formatted with
    the verb [%q], whose quoting is not interpreted. *)
Inductive fragment :=
| Text (s : string)
| Quoted (s : string).

Definition message : Type := list fragment.

(** The errors the sources create or tell apart.  [ErrDriver] is any failure
    of the database driver or connection, [ErrJSON] one of [encoding/json],
    [ErrPanic] a run-time panic. *)
Inductive goerr :=
| ErrNoRows
| ErrNotFound
| ErrUniqueViolation
| ErrForeignKeyViolation
| ErrCheckViolation
| ErrDriver
| ErrOperationBatchRejected
| ErrHubClosed
| ErrCanceled
| ErrStorageNotFound
| ErrStorageUnavailable
| ErrStorageUpstream
| ErrStorageInvalidResponse
| ErrStorageOther
| ErrJSON
| ErrAPI (e : Error)
| ErrText (m : message)
| ErrPanic.

(** [errors.New] and [fmt.Errorf] with literal text. *)
Definition errorsNew (s : string) : goerr := ErrText [Text s].

(** [FromError] keeps an API error and hides every other one. *)
Definition FromError (err : goerr) : Error :=
  match err with
  | ErrAPI e => e
  | _ => Internal
  end.

(** [MapDecodeError]: [nil] stays [nil]. *)
Definition MapDecodeError (err : option goerr) : option Error :=
  match err with
  | None => None
  | Some (ErrAPI e) => Some e
  | Some _ => Some (NewError StatusBadRequest CodeInvalidRequest "The request is invalid.")
  end.

(** ** Results: the [(value, error)] pairs of the sources *)

Inductive res (A : Type) : Type :=
| Ok (a : A)
| Err (e : goerr).

Arguments Ok {A} a.
Arguments Err {A} e.

#[export] Instance res_ret : MRet res := fun A a => Ok a.

#[export] Instance res_bind : MBind res := fun A B f m =>
  match m with
  | Ok a => f a
  | Err e => Err e
  end.

#[export] Instance res_fmap : FMap res := fun A B f m =>
  match m with
  | Ok a => Ok (f a)
  | Err e => Err e
  end.

Definition res_ok {A} (r : res A) : bool :=
  match r with
  | Ok _ => true
  | Err _ => false
  end.

(** ** Lemmas *)

Lemma res_bind_Ok {A B} (m : res A) (f : A -> res B) b :
  m ≫= f = Ok b <-> exists a, m = Ok a /\ f a = Ok b.
Proof.
  destruct m as [a|e]; cbn; [naive_solver|]. split; [done|]. intros (a & [=] & _).
Qed.

(** Peels the binds of a successful computation in [H]. *)
Ltac res_inv H :=
  repeat (apply res_bind_Ok in H; let a := fresh "v" in let Ha := fresh "Hv" in
    destruct H as (a & Ha & H)).
