(* ===== verification/Constants.v ===== *)
(** * Protocol identifiers

    [internal/constants.go]: request field names, block types, operation names
    and the device identifier rule. *)

From S2P Require Import Prelude GoText.

Definition DeviceIDMaxLength : Z := 30.

Definition RequestKeyBlockId : string := "blockId".
Definition RequestKeyCategoryId : string := "categoryId".
Definition RequestKeyProtocolVersion : string := "protocolVersion".
Definition RequestKeyClientVersion : string := "clientVersion".
Definition RequestKeyDeviceID : string := "deviceId".
Definition RequestKeyOperations : string := "operations".
Definition RequestKeyOperationID : string := "operationId".
Definition RequestKeyOperationType : string := "operationType".
Definition RequestKeyChangeFormat : string := "changeFormat".
Definition RequestKeyCursor : string := "cursor".
Definition RequestKeyTextDelta : string := "textDelta".
Definition RequestKeyIndex : string := "index".
Definition RequestKeyDeleteCount : string := "deleteCount".
Definition RequestKeyInsertText : string := "insertText".
Definition RequestKeyNoteID : string := "noteId".
Definition RequestKeyUploadID : string := "uploadId".
Definition RequestKeySequence : string := "sequence".
Definition RequestKeyTitle : string := "title".
Definition RequestKeyBaseNoteVersion : string := "baseNoteVersion".
Definition RequestKeyChangeData : string := "changeData".
Definition RequestKeyNoteProperties : string := "noteProperties".
Definition RequestKeyName : string := "categoryName".
Definition RequestKeyTextContent : string := "textContent".
Definition RequestKeyBlocks : string := "blocks".
Definition RequestKeyBlock : string := "block".
Definition RequestKeyBlockType : string := "blockType".
Definition RequestKeyPosition : string := "fractionalPosition".
Definition RequestKeyBlockProperties : string := "blockProperties".

Definition BlockTypeText : string := "text".
Definition BlockTypeBullet : string := "bullet".
Definition BlockTypeTodo : string := "todo".
Definition BlockTypeNumberedList : string := "numberedList".
Definition BlockTypeAttachment : string := "attachment".

Definition OperationCreateNote : string := "createNote".
Definition OperationDeleteNote : string := "deleteNote".
Definition OperationModifyNoteProperty : string := "modifyNoteProperty".
Definition OperationModifyNoteTitle : string := "modifyNoteTitle".
Definition OperationCreateBlock : string := "createBlock".
Definition OperationDeleteBlock : string := "deleteBlock".
Definition OperationModifyBlock : string := "modifyBlock".
Definition OperationCreateCategory : string := "createCategory".
Definition OperationDeleteCategory : string := "deleteCategory".
Definition OperationModifyCategory : string := "modifyCategory".

Definition ChangeFormatStructuredV1 : string := "structured-operation-v1".

(** [ValidDeviceID]: non-empty and at most 30 characters (not bytes). *)
Definition ValidDeviceID (value : string) : bool :=
  negb (String.eqb value EmptyString) && (rune_count value <=? DeviceIDMaxLength).

Lemma ValidDeviceID_spec value :
  ValidDeviceID value = true <->
  value <> EmptyString /\ (length (runes value) <= 30)%nat.
Proof.
  unfold ValidDeviceID, rune_count, DeviceIDMaxLength.
  rewrite andb_true_iff, negb_true_iff, String.eqb_neq, Z.leb_le.
  split; (intros [? ?]; split; [done|lia]).
Qed.
