(* ===== verification/External.v ===== *)
(** * What the backend relies on outside its own source

    Third-party packages, PostgreSQL's own choices and the environment are the
    parameters of the model: one [Class] holds them, and the laws a theorem
    needs of them are separate classes, each with a concrete instance. *)

From S2P Require Import Prelude Json HttpApi.

(** A [uuid.UUID] is its 16 bytes, read as a big-endian number:
    [bytes.Compare] on identifiers is the numeric comparison. *)
Abbreviation UUID := N.

Definition uuid_Nil : UUID := 0%N.

Definition is_nil (id : UUID) : bool := N.eqb id uuid_Nil.

(** [time.Time] as nanoseconds; the zero time is 0. *)
Abbreviation Time := Z.

Definition zero_time : Time := 0.

(** What happens to one database round trip: it runs, it fails before having
    an effect, or (for COMMIT) it takes effect and the reply is lost. *)
Inductive outcome := Runs | FailsBefore | FailsAfter.

(** [Db] is the type of database states; see Schema.v. *)
Class External (Db : Type) := {
  (** [uuid.UUID.UnmarshalText] and [uuid.Parse] of google/uuid. *)
  uuid_parse : string -> option UUID;
  (** The text of an error made outside the sources (driver, HTTP client). *)
  foreign_text : goerr -> string;
  (** [uuid.UUID.MarshalText] and [uuid.UUID.String]. *)
  uuid_text : UUID -> string;
  (** [uuid.New]: the identifier the n-th call draws. *)
  uuid_new : nat -> UUID;
  (** PostgreSQL's text collation, as a less-or-equal test. *)
  collate_leb : string -> string -> bool;
  (** What PostgreSQL keeps of a document cast to JSONB: it orders the members of
      objects, drops all but the last of equal keys and normalises numbers. *)
  jsonb : json -> json;
  (** [octet_length(v::text)] of a JSONB value. *)
  jsonb_octets : json -> Z;
  (** The fate of the n-th database round trip. *)
  round_trip : nat -> outcome;
  (** The wall clock at the n-th step. *)
  clock : nat -> Time;
  (** What other clients commit before the n-th statement run outside a
      transaction. *)
  others : nat -> Db -> Db
}.

(** No round trip fails. *)
Class Reliable {Db} (X : External Db) : Prop := {
  always_runs : forall n, round_trip n = Runs
}.

(** No other client changes the database. *)
Class Alone {Db} (X : External Db) : Prop := {
  nobody_else : forall n db, others n db = db
}.

(** google/uuid draws version-4 identifiers: never the nil identifier, and the
    development's runs see no collision. *)
Class FreshUUIDs {Db} (X : External Db) : Prop := {
  uuid_new_not_nil : forall n, uuid_new n <> uuid_Nil;
  uuid_new_inj : forall m n, uuid_new m = uuid_new n -> m = n
}.

(** The text of an identifier parses back. *)
Class TextualUUIDs {Db} (X : External Db) : Prop := {
  uuid_parse_text : forall id, uuid_parse (uuid_text id) = Some id
}.

(** A collation is a total preorder. *)
Class Collation {Db} (X : External Db) : Prop := {
  collate_total : forall a b, collate_leb a b = true \/ collate_leb b a = true;
  collate_trans : forall a b c,
    collate_leb a b = true -> collate_leb b c = true -> collate_leb a c = true
}.

(** [err.Error()]. *)
Definition error_text {Db} {X : External Db} (err : goerr) : message :=
  match err with
  | ErrText m => m
  | ErrAPI e => [Text (Error_Code e); Text ": "; Text (Error_Message e)]
  | ErrNotFound => [Text "not found"]
  | ErrOperationBatchRejected => [Text "operation batch rejected"]
  | ErrHubClosed => [Text "realtime hub is closed"]
  | ErrStorageNotFound => [Text "storage object not found"]
  | ErrStorageUnavailable => [Text "storage service unavailable"]
  | ErrStorageUpstream => [Text "storage upstream error"]
  | ErrStorageInvalidResponse => [Text "invalid storage response"]
  | _ => [Text (foreign_text err)]
  end.

(** An identifier decodes from JSON through [UnmarshalText]. *)
Definition unmarshal_uuid {Db} {X : External Db} (v : json) : option UUID :=
  match v with
  | JStr s => uuid_parse s
  | _ => None
  end.

Lemma is_nil_spec id : is_nil id = true <-> id = uuid_Nil.
Proof. apply N.eqb_eq. Qed.

Lemma is_nil_false id : is_nil id = false <-> id <> uuid_Nil.
Proof. apply N.eqb_neq. Qed.
