(* ===== verification/GoTime.v ===== *)
(** * Times as text

    [time.Time.Format] with the layout the sources use.  A time is a number of
    nanoseconds since January 1 of year 1, 00:00 UTC, which is Go's zero time;
    it is shown in the local zone of the process, and read from RFC 3339. *)

From S2P Require Import Prelude GoText GoFloat Json GoJsonText HttpApi External.

(** [time.Second] as a [time.Duration]. *)
Definition second : Z := 10 ^ 9.

(** Seconds east of UTC that the local zone is at a time. *)
Class LocalZone := { zone_offset : Time -> Z }.

(** ** The calendar *)

Definition leap (y : Z) : bool :=
  (y mod 4 =? 0) && negb (y mod 100 =? 0) || (y mod 400 =? 0).

Definition month_lengths (y : Z) : list Z :=
  [31; if leap y then 29 else 28; 31; 30; 31; 30; 31; 31; 30; 31; 30; 31].

(** The number of days from January 1 of year 1 to a date. *)
Definition days_until (y m d : Z) : Z :=
  let y' := y - 1 in
  365 * y' + y' / 4 - y' / 100 + y' / 400
  + foldr Z.add 0 (take (Z.to_nat (m - 1)) (month_lengths y)) + (d - 1).

(** The date of a day of the 400-year cycle that begins on March 1; the year
    is the one of the cycle. *)
Definition date_in_cycle (doe : Z) : Z * Z * Z :=
  let yoe := (doe - doe / 1460 + doe / 36524 - doe / 146096) / 365 in
  let doy := doe - (365 * yoe + yoe / 4 - yoe / 100) in
  let mp := (5 * doy + 2) / 153 in
  let d := doy - (153 * mp + 2) / 5 + 1 in
  let m := if mp <? 10 then mp + 3 else mp - 9 in
  (yoe + (if m <=? 2 then 1 else 0), m, d).

(** Year, month and day of the n-th day after January 1 of year 1. *)
Definition date_of_day (n : Z) : Z * Z * Z :=
  let z := n + 306 in
  let '(y, m, d) := date_in_cycle (z mod 146097) in
  (400 * (z / 146097) + y, m, d).

(** ** Formatting *)

Definition two_digits (n : Z) : list Z := [48 + n / 10; 48 + n mod 10].

(** At least [width] digits. *)
Definition padded (width : nat) (n : Z) : list Z :=
  let ds := digits_of n in repeat 48 (width - length ds) ++ ds.

(** [.999999999]: nothing, or a dot and the digits up to the last non-zero. *)
Fixpoint strip (rev_digits : list Z) : list Z :=
  match rev_digits with
  | 48 :: rest => strip rest
  | ds => reverse ds
  end.

Definition fraction (ns : Z) : list Z :=
  match strip (reverse (padded 9 ns)) with
  | [] => []
  | ds => lit "." ++ ds
  end.

(** [Z07:00]. *)
Definition zone_text (offset : Z) : list Z :=
  if offset =? 0 then lit "Z"
  else
    let minutes := Z.quot (Z.abs offset) 60 in
    lit (if Z.quot offset 60 <? 0 then "-" else "+") ++ two_digits (minutes / 60) ++ lit ":"
    ++ two_digits (minutes mod 60).

(** [2006-01-02T15:04:05.999999999Z07:00]. *)
Definition format_rfc3339_nano {L : LocalZone} (t : Time) : string :=
  let offset := zone_offset t in
  let seconds := t / 10 ^ 9 + offset in
  let '(y, m, d) := date_of_day (seconds / 86400) in
  let s := seconds mod 86400 in
  of_bytes ((if y <? 0 then lit "-" else []) ++ padded 4 (Z.abs y)
    ++ lit "-" ++ two_digits m ++ lit "-" ++ two_digits d ++ lit "T"
    ++ two_digits (s / 3600) ++ lit ":" ++ two_digits (s / 60 mod 60) ++ lit ":"
    ++ two_digits (s mod 60) ++ fraction (t mod 10 ^ 9) ++ zone_text offset).

(** ** The calendar is right *)

Definition valid_date (y m d : Z) : bool :=
  (1 <=? m) && (m <=? 12) && (1 <=? d) && (d <=? nth (Z.to_nat (m - 1)) (month_lengths y) 0).

(** Both conversions agree on a day of the cycle. *)
Definition day_ok (doe : Z) : bool :=
  let '(y, m, d) := date_in_cycle doe in
  valid_date y m d && (days_until y m d =? doe - 306).

Definition check_day (s : Z * bool) : Z * bool := (fst s + 1, snd s && day_ok (fst s)).

Definition days_ok (count : N) (start : Z) : bool := snd (N.iter count check_day (start, true)).

Lemma check_days n start :
  fst (N.iter n check_day (start, true)) = start + Z.of_N n /\
  (days_ok n start = true -> forall k, start <= k < start + Z.of_N n -> day_ok k = true).
Proof.
  unfold days_ok. induction n as [|n [IH1 IH2]] using N.peano_ind.
  - cbn. split; [lia|intros; lia].
  - rewrite N.iter_succ. unfold check_day at 1 3. cbn [fst snd]. rewrite IH1. split; [lia|].
    intros [H1 H2]%andb_prop k Hk.
    destruct (decide (k = start + Z.of_N n)) as [->|]; [done|]. apply IH2; [done|lia].
Qed.

Lemma cycle_ok : days_ok 146097 0 = true.
Proof. vm_compute. reflexivity. Qed.

Lemma shift_year_leap k y : leap (400 * k + y) = leap y.
Proof.
  unfold leap.
  replace ((400 * k + y) mod 4) with (y mod 4)
    by (replace (400 * k + y) with (y + 100 * k * 4) by lia; by rewrite Z.mod_add by lia).
  replace ((400 * k + y) mod 100) with (y mod 100)
    by (replace (400 * k + y) with (y + 4 * k * 100) by lia; by rewrite Z.mod_add by lia).
  replace ((400 * k + y) mod 400) with (y mod 400)
    by (replace (400 * k + y) with (y + k * 400) by lia; by rewrite Z.mod_add by lia).
  done.
Qed.

Lemma shift_year_lengths k y : month_lengths (400 * k + y) = month_lengths y.
Proof. unfold month_lengths. by rewrite shift_year_leap. Qed.

Lemma shift_year_days k y m d : days_until (400 * k + y) m d = 146097 * k + days_until y m d.
Proof.
  unfold days_until. rewrite shift_year_lengths.
  replace (400 * k + y - 1) with (y - 1 + 400 * k) by lia.
  replace ((y - 1 + 400 * k) / 4) with ((y - 1) / 4 + 100 * k)
    by (replace (y - 1 + 400 * k) with (y - 1 + 100 * k * 4) by lia; by rewrite Z.div_add by lia).
  replace ((y - 1 + 400 * k) / 100) with ((y - 1) / 100 + 4 * k)
    by (replace (y - 1 + 400 * k) with (y - 1 + 4 * k * 100) by lia; by rewrite Z.div_add by lia).
  replace ((y - 1 + 400 * k) / 400) with ((y - 1) / 400 + k)
    by (replace (y - 1 + 400 * k) with (y - 1 + k * 400) by lia; by rewrite Z.div_add by lia).
  lia.
Qed.

(** Every day has a date, and it is the date that many days away. *)
Lemma date_of_day_ok n :
  let '(y, m, d) := date_of_day n in valid_date y m d = true /\ days_until y m d = n.
Proof.
  unfold date_of_day. cbv zeta. pose proof (Z.mod_pos_bound (n + 306) 146097 ltac:(lia)) as Hb.
  pose proof (proj2 (check_days _ _) cycle_ok _ Hb) as H. unfold day_ok in H.
  destruct (date_in_cycle _) as [[y m] d]. apply andb_prop in H as [Hv Hd]. split.
  - unfold valid_date in *. by rewrite shift_year_lengths.
  - rewrite shift_year_days. pose proof (Z.div_mod (n + 306) 146097). to_prop. lia.
Qed.

Example epoch_text (L : LocalZone := {| zone_offset := fun _ => 19800 |}) :
  format_rfc3339_nano (62135596800 * 10 ^ 9 + 120000000) = "1970-01-01T05:30:00.12+05:30"%string.
Proof. vm_compute. reflexivity. Qed.

(** ** Reading times

    [time.Time.UnmarshalJSON]: texts of RFC 3339, and that a time in UTC is read
    back from the text it is written as. *)

(** The zone of times made with [UTC()]. *)
Definition in_utc : LocalZone := {| zone_offset := fun _ => 0 |}.

(** ** Parsing *)

Definition expect (c : Z) (bs : list Z) : option (list Z) :=
  match bs with
  | b :: rest => if b =? c then Some rest else None
  | [] => None
  end.

(** A number of [n] digits. *)
Definition number (n : nat) (bs : list Z) : option (Z * list Z) :=
  if (length bs <? n)%nat then None
  else v ← unsigned_value (take n bs); Some (v, drop n bs).

Fixpoint span_digits (bs : list Z) : list Z * list Z :=
  match bs with
  | [] => ([], [])
  | b :: rest =>
      if is_digit b then let '(ds, rest') := span_digits rest in (b :: ds, rest') else ([], bs)
  end.

(** Nanoseconds; digits after the ninth are ignored. *)
Definition parse_fraction (bs : list Z) : option (Z * list Z) :=
  match expect 46 bs with
  | None => Some (0, bs)
  | Some rest =>
      let '(ds, rest) := span_digits rest in
      let ds := take 9 ds in
      v ← unsigned_value ds; Some (v * 10 ^ (9 - Z.of_nat (length ds)), rest)
  end.

(** Seconds east of UTC, up to the end of the text. *)
Definition parse_zone (bs : list Z) : option Z :=
  match bs with
  | [90] => Some 0
  | sign :: rest =>
      '(h, rest) ← number 2 rest;
      rest ← expect 58 rest;
      '(m, rest) ← number 2 rest;
      if (h <? 24) && (m <? 60) && bool_decide (rest = []) then
        if sign =? 43 then Some (h * 3600 + m * 60)
        else if sign =? 45 then Some (- (h * 3600 + m * 60)) else None
      else None
  | [] => None
  end.

Definition parse_rfc3339 (s : string) : option Time :=
  '(y, bs) ← number 4 (bytes_of s);
  bs ← expect 45 bs;
  '(mo, bs) ← number 2 bs;
  bs ← expect 45 bs;
  '(d, bs) ← number 2 bs;
  bs ← expect 84 bs;
  '(h, bs) ← number 2 bs;
  bs ← expect 58 bs;
  '(mi, bs) ← number 2 bs;
  bs ← expect 58 bs;
  '(sec, bs) ← number 2 bs;
  if valid_date y mo d && (h <? 24) && (mi <? 60) && (sec <? 60) then
    '(ns, bs) ← parse_fraction bs;
    offset ← parse_zone bs;
    Some ((days_until y mo d * 86400 + h * 3600 + mi * 60 + sec - offset) * 10 ^ 9 + ns)
  else None.

(** [null] leaves the zero time. *)
Definition unmarshal_time (v : json) : option Time :=
  match v with
  | JStr s => parse_rfc3339 s
  | JNull => Some zero_time
  | _ => None
  end.

Definition year_of (t : Time) : Z := fst (fst (date_of_day (t / 10 ^ 9 / 86400))).

(** [MarshalJSON] of a time in UTC: years of more than four digits are an
    error. *)
Definition marshal_utc (t : Time) : option json :=
  if (0 <=? year_of t) && (year_of t <=? 9999)
  then Some (JStr (format_rfc3339_nano (L := in_utc) t)) else None.

(** ** Lemmas *)

Lemma digits_value_trailing v k : digits_value v (repeat 48 k) = Some (v * 10 ^ Z.of_nat k).
Proof.
  revert v. induction k as [|k IH]; intros v; [cbn; f_equal; lia|].
  cbn [repeat digits_value]. change (is_digit 48) with true. cbv iota. rewrite IH. f_equal.
  rewrite Nat2Z.inj_succ, Z.pow_succ_r by lia. lia.
Qed.

Lemma decimal_digits_length fuel n k tail :
  0 <= n < 10 ^ Z.of_nat (S k) ->
  (length (decimal_digits fuel n tail) <= S k + length tail)%nat.
Proof.
  revert n k tail. induction fuel as [|fuel IH]; intros n k tail Hn; cbn [decimal_digits]; [lia|].
  destruct (Z.ltb_spec n 10); [cbn; lia|].
  destruct k as [|k]; [cbn in Hn; lia|].
  rewrite Nat2Z.inj_succ, Z.pow_succ_r in Hn by lia.
  specialize (IH (n / 10) k ((48 + n mod 10) :: tail)). cbn [length] in IH.
  assert (0 <= n / 10 < 10 ^ Z.of_nat (S k)) by (Z.to_euclidean_division_equations; lia). lia.
Qed.

Lemma padded_spec w n :
  0 <= n < 10 ^ Z.of_nat (S w) ->
  length (padded (S w) n) = S w /\ digit_bytes (padded (S w) n) /\
  digits_value 0 (padded (S w) n) = Some n.
Proof.
  intros Hn. destruct (digits_of_spec n ltac:(lia)) as (Hv & Hd & _). unfold padded.
  pose proof (decimal_digits_length (S (Z.to_nat (Z.log2 n))) n w [] Hn) as Hl.
  fold (digits_of n) in Hl. cbn [length] in Hl. split_and!.
  - rewrite length_app, repeat_length. lia.
  - apply Forall_app. split; [apply digit_bytes_repeat|done].
  - rewrite digits_value_app, digits_value_zeros. exact Hv.
Qed.

Lemma two_digits_padded n : 0 <= n < 100 -> digit_bytes (two_digits n) /\
  digits_value 0 (two_digits n) = Some n.
Proof.
  intros Hn. unfold two_digits. assert (0 <= n / 10 < 10 /\ 0 <= n mod 10 < 10) as [? ?]
    by (Z.to_euclidean_division_equations; lia).
  split; [repeat constructor; lia|]. cbn [digits_value]. rewrite !is_digit_true by lia.
  f_equal. pose proof (Z.div_mod n 10). lia.
Qed.

(** A fixed number of digits in front of anything. *)
Lemma number_app n ds rest v :
  length ds = S n -> digits_value 0 ds = Some v -> number (S n) (ds ++ rest) = Some (v, rest).
Proof.
  intros Hl Hv. unfold number. rewrite length_app, Hl.
  rewrite (proj2 (Nat.ltb_ge _ _)) by lia. rewrite take_app_le, take_ge by lia.
  rewrite drop_app_length' by done. destruct ds; [done|]. cbn [unsigned_value]. by rewrite Hv.
Qed.

Lemma number_two n rest : 0 <= n < 100 -> number 2 (two_digits n ++ rest) = Some (n, rest).
Proof. intros Hn. by apply number_app; [|apply two_digits_padded]. Qed.

Lemma span_digits_app ds rest :
  digit_bytes ds -> match rest with b :: _ => is_digit b = false | [] => True end ->
  span_digits (ds ++ rest) = (ds, rest).
Proof.
  intros Hd Hr. induction Hd as [|b ds Hb _ IH]; cbn.
  - destruct rest as [|b rest]; [done|]. cbn. by rewrite Hr.
  - by rewrite is_digit_true, IH.
Qed.

(** Stripped digits and the zeros stripped off them. *)
Lemma strip_spec l : exists k, reverse l = strip l ++ repeat 48 k.
Proof.
  induction l as [|b l [k IH]]; [by exists 0%nat|].
  destruct (decide (b = 48)) as [->|Hne].
  - exists (S k). cbn [strip]. rewrite reverse_cons, IH, <- app_assoc. f_equal.
    change [48] with (repeat 48 1). rewrite <- repeat_app. f_equal. lia.
  - exists 0%nat. cbn [repeat]. rewrite app_nil_r. destruct b as [|p|p]; try done.
    do 6 (destruct p as [p|p|]; try done).
Qed.

Lemma parse_fraction_app ns rest :
  0 <= ns < 10 ^ 9 -> match rest with b :: _ => is_digit b = false /\ b <> 46 | [] => True end ->
  parse_fraction (fraction ns ++ rest) = Some (ns, rest).
Proof.
  intros Hn Hrest. destruct (padded_spec 8 ns Hn) as (Hl & Hd & Hv). unfold fraction.
  destruct (strip_spec (reverse (padded 9 ns))) as [k Hk]. rewrite reverse_involutive in Hk.
  set (ds := strip _) in *. rewrite Hk in Hl, Hd, Hv. apply Forall_app in Hd as [Hd _].
  rewrite digits_value_app in Hv. rewrite length_app, repeat_length in Hl.
  apply bind_Some in Hv as (v & Hv & Hz). rewrite digits_value_trailing in Hz. injection Hz as Hz.
  destruct ds as [|b ds'] eqn:E.
  - cbn in Hv. injection Hv as <-. rewrite app_nil_l. unfold parse_fraction, expect.
    destruct rest as [|c rest]; [repeat f_equal; lia|]. destruct Hrest as [_ Hc].
    rewrite (proj2 (Z.eqb_neq _ _) Hc). repeat f_equal. lia.
  - rewrite <- E in *. unfold parse_fraction. change (lit "." ++ ds) with (46 :: ds).
    cbn [app expect]. rewrite Z.eqb_refl. rewrite span_digits_app; [|done|by destruct rest; [|destruct Hrest]].
    rewrite take_ge by lia. unfold unsigned_value. rewrite E at 1. rewrite Hv. cbn [mbind option_bind].
    replace (9 - Z.of_nat (length ds)) with (Z.of_nat k) by lia. by rewrite Hz.
Qed.

(** ** The round trip *)

Lemma digit_bytes_is_byte l : digit_bytes l -> Forall is_byte l.
Proof. intros H. eapply Forall_impl; [exact H|]. unfold is_byte. lia. Qed.

(** The text of a time, as bytes. *)
Lemma format_utc_bytes t y m d :
  date_of_day (t / 10 ^ 9 / 86400) = (y, m, d) -> 0 <= y <= 9999 -> 0 <= m < 100 -> 0 <= d < 100 ->
  let s := t / 10 ^ 9 mod 86400 in
  bytes_of (format_rfc3339_nano (L := in_utc) t) =
  padded 4 y ++ 45 :: two_digits m ++ 45 :: two_digits d ++ 84 :: two_digits (s / 3600) ++ 58
    :: two_digits (s / 60 mod 60) ++ 58 :: two_digits (s mod 60) ++ fraction (t mod 10 ^ 9) ++ [90].
Proof.
  intros Hdate Hy Hm Hd s. unfold format_rfc3339_nano. cbn [zone_offset in_utc].
  rewrite !Z.add_0_r, Hdate. rewrite (proj2 (Z.ltb_ge y 0)) by lia. rewrite Z.abs_eq by lia.
  fold s. change (zone_text 0) with [90]. cbn [app].
  assert (Hs : 0 <= s < 86400) by (apply Z.mod_pos_bound; lia).
  assert (Hf : Forall is_byte (fraction (t mod 10 ^ 9))).
  { unfold fraction. destruct (strip_spec (reverse (padded 9 (t mod 10 ^ 9)))) as [k Hk].
    rewrite reverse_involutive in Hk. destruct (padded_spec 8 (t mod 10 ^ 9)) as (_ & Hp & _);
      [apply Z.mod_pos_bound; lia|]. rewrite Hk in Hp. apply Forall_app in Hp as [Hp _].
    destruct (strip _); [done|]. apply Forall_app. split; [repeat constructor; unfold is_byte; lia|].
    by apply digit_bytes_is_byte. }
  assert (H2 : forall n, 0 <= n < 100 -> Forall is_byte (two_digits n))
    by (intros n Hn; by apply digit_bytes_is_byte, two_digits_padded).
  rewrite bytes_of_bytes; [by rewrite <- ?app_assoc|].
  rewrite !Forall_app. split_and!; try done; try (apply H2; Z.to_euclidean_division_equations; lia);
    try (repeat constructor; unfold is_byte; lia); [].
  apply digit_bytes_is_byte. apply (padded_spec 3). cbn. lia.
Qed.

Lemma parse_format_utc t :
  0 <= year_of t <= 9999 -> parse_rfc3339 (format_rfc3339_nano (L := in_utc) t) = Some t.
Proof.
  unfold year_of. intros Hy. pose proof (date_of_day_ok (t / 10 ^ 9 / 86400)) as Hok.
  destruct (date_of_day (t / 10 ^ 9 / 86400)) as [[y m] d] eqn:Hdate. destruct Hok as [Hv Hdays].
  cbn [fst] in Hy. assert (Hmd : 1 <= m <= 12 /\ 1 <= d <= 31).
  { unfold valid_date in Hv. to_prop. split; [lia|]. split; [lia|].
    assert (Hn : nth (Z.to_nat (m - 1)) (month_lengths y) 0 <= 31); [|lia].
    unfold month_lengths. generalize (Z.to_nat (m - 1)) as k. intros k.
    destruct (leap y); do 12 (destruct k as [|k]; [cbn; lia|]); by destruct k. }
  set (s := t / 10 ^ 9 mod 86400). assert (Hs : 0 <= s < 86400) by (apply Z.mod_pos_bound; lia).
  unfold parse_rfc3339. rewrite (format_utc_bytes t y m d) by (done || lia). fold s.
  destruct (padded_spec 3 y ltac:(cbn; lia)) as (Hl & _ & Hpv).
  assert (Hh : 0 <= s / 3600 < 24) by (Z.to_euclidean_division_equations; lia).
  assert (Hmi : 0 <= s / 60 mod 60 < 60) by (apply Z.mod_pos_bound; lia).
  assert (Hsec : 0 <= s mod 60 < 60) by (apply Z.mod_pos_bound; lia).
  rewrite (number_app 3 _ _ _ Hl Hpv). cbn [mbind option_bind].
  do 5 (cbn [expect]; rewrite Z.eqb_refl; cbn [mbind option_bind]; rewrite number_two by lia;
        cbn [mbind option_bind]).
  rewrite Hv, !(proj2 (Z.ltb_lt _ _)) by lia. cbn [andb].
  rewrite parse_fraction_app; [|apply Z.mod_pos_bound; lia|by split].
  cbn [mbind option_bind parse_zone]. f_equal. rewrite Hdays, Z.sub_0_r.
  assert (E : t / 10 ^ 9 / 86400 * 86400 + s / 3600 * 3600 + s / 60 mod 60 * 60 + s mod 60 = t / 10 ^ 9).
  { subst s. Z.to_euclidean_division_equations. lia. }
  rewrite E. pose proof (Z.div_mod t (10 ^ 9)). lia.
Qed.

Lemma unmarshal_marshal_utc t v : marshal_utc t = Some v -> unmarshal_time v = Some t.
Proof.
  unfold marshal_utc. destruct (_ && _) eqn:E; [|done]. intros [= <-]. to_prop.
  apply parse_format_utc. lia.
Qed.
