(* ===== verification/SyncOperations.v ===== *)
(** * Operation payload decoding

    [internal/sync/operations/operations.go]: the typed readers of the fields
    of an operation's changeData object, the text delta payload and the block
    type allow-list.  A reader returns [Ok None] for an absent field (the
    source's [ok = false]) and [Ok (Some v)] for a present one. *)

From S2P Require Import Prelude GoText GoFloat Json HttpApi Constants External.

Abbreviation Fields := (gmap string json).

Definition allowedBlockTypes : gset string :=
  {[ BlockTypeText; BlockTypeBullet; BlockTypeTodo; BlockTypeNumberedList;
     BlockTypeAttachment ]}.

Record TextDelta := mkTextDelta {
  Index : Z;
  DeleteCount : Z;
  InsertText : string
}.

Definition zero_delta : TextDelta := mkTextDelta 0 0 EmptyString.

Definition NormalizeChangeFormat (format : string) : string :=
  if String.eqb (trim_space format) EmptyString then ChangeFormatStructuredV1 else format.

(** The error text [key ++ suffix]. *)
Definition key_error (key suffix : string) : goerr :=
  ErrText [Text key; Text suffix].

Definition DecodeObjectFields (raw : RawMessage) (name : string) : res Fields :=
  match raw with
  | Some (JObj members) => Ok (fields_of members)
  | _ => Err (key_error name " must be an object")
  end.

Definition DecodeChangeObject (raw : RawMessage) : res Fields :=
  match raw with
  | None => Ok ∅
  | Some _ => DecodeObjectFields raw RequestKeyChangeData
  end.

(** A reader built from a decoder: absent, present and decoded, or an error. *)
Definition get_field {A} (decode : json -> option A) (suffix : string)
    (fields : Fields) (key : string) : res (option A) :=
  match fields !! key with
  | None => Ok None
  | Some raw =>
      match decode raw with
      | Some v => Ok (Some v)
      | None => Err (key_error key suffix)
      end
  end.

(** [IsJSONNull]. *)
Definition IsJSONNull (raw : json) : bool :=
  match raw with
  | JNull => true
  | _ => false
  end.

Definition reject_null {A} (decode : json -> option A) (raw : json) : option A :=
  if IsJSONNull raw then None else decode raw.

Definition GetStringField : Fields -> string -> res (option string) :=
  get_field unmarshal_string " must be a string".

Definition GetIntField : Fields -> string -> res (option Z) :=
  get_field unmarshal_int " must be an integer".

Definition GetFloatField : Fields -> string -> res (option float64) :=
  get_field (reject_null unmarshal_float) " must be a number".

Definition GetArrayField : Fields -> string -> res (option (list json)) :=
  get_field (reject_null unmarshal_array) " must be an array".

(** An object field is returned undecoded, to be stored as it is. *)
(** Decoding into [any] reads every number as a [float64]; one beyond its range
    is an error. *)
Fixpoint numbers_fit (v : json) : bool :=
  match v with
  | JNum literal => match parse_float literal with Some _ => true | None => false end
  | JArr elements => List.forallb numbers_fit elements
  | JObj members => List.forallb (fun member => numbers_fit (snd member)) members
  | _ => true
  end.

Definition object_value (raw : json) : option json :=
  match raw with
  | JObj _ => if numbers_fit raw then Some raw else None
  | _ => None
  end.

Definition GetObjectField : Fields -> string -> res (option json) :=
  get_field object_value " must be an object".

Section with_external.
Context {Db : Type} {X : External Db}.

Definition uuid_value (raw : json) : option UUID :=
  match raw with
  | JStr s => uuid_parse s
  | _ => None
  end.

Definition GetUUIDField : Fields -> string -> res (option UUID) :=
  get_field (reject_null uuid_value) " must be a UUID".

End with_external.

(** The value of a field that must be present. *)
Definition required {A} (v : option A) (key : string) : res A :=
  match v with
  | Some a => Ok a
  | None => Err (key_error key " is required")
  end.

Definition DecodeTextDelta (raw : RawMessage) (name : string) : res TextDelta :=
  fields ← DecodeObjectFields raw name;
  index ← GetIntField fields RequestKeyIndex;
  index ← required index RequestKeyIndex;
  deleteCount ← GetIntField fields RequestKeyDeleteCount;
  deleteCount ← required deleteCount RequestKeyDeleteCount;
  insertText ← GetStringField fields RequestKeyInsertText;
  insertText ← required insertText RequestKeyInsertText;
  Ok (mkTextDelta index deleteCount insertText).

Definition ValidateBlockType (blockType : string) : res unit :=
  if decide (blockType ∈ allowedBlockTypes) then Ok tt
  else Err (ErrText [Text RequestKeyBlockType; Text " "; Quoted blockType;
                     Text " is unsupported"]).

(** ** Lemmas *)

Lemma get_field_Ok {A} decode suffix fields key (o : option A) :
  get_field decode suffix fields key = Ok o <->
  match o with
  | None => fields !! key = None
  | Some v => exists raw, fields !! key = Some raw /\ decode raw = Some v
  end.
Proof.
  unfold get_field. destruct (fields !! key) as [raw|] eqn:E.
  - destruct (decode raw) as [v|] eqn:E'; split.
    + intros [= <-]. eauto.
    + destruct o as [w|]; [|done]. intros (raw' & [= <-] & Hd). congruence.
    + done.
    + destruct o as [w|]; [|done]. intros (raw' & [= <-] & Hd). congruence.
  - split; [by intros [= <-]|]. destruct o; [|done]. by intros (? & ? & ?).
Qed.

Lemma required_Ok {A} (o : option A) key a : required o key = Ok a <-> o = Some a.
Proof. destruct o; cbn; split; congruence. Qed.

Lemma ValidateBlockType_Ok bt :
  ValidateBlockType bt = Ok tt <-> bt ∈ allowedBlockTypes.
Proof. unfold ValidateBlockType. case_decide; split; done. Qed.

Lemma NormalizeChangeFormat_idemp f :
  NormalizeChangeFormat (NormalizeChangeFormat f) = NormalizeChangeFormat f.
Proof. unfold NormalizeChangeFormat. by destruct (String.eqb (trim_space f) _) eqn:E; rewrite ?E. Qed.
