(* ===== verification/Schema.v ===== *)
(** * The database and its transactions

    The tables of [db/migrations] with the row types of
    [db/generated/models.go], the state a process works on, and the statement
    and transaction discipline of PostgreSQL under pgx as
    [internal/store/postgres.go] uses it.

    A statement outside a transaction ([Pool]) commits by itself and other
    clients may commit before it.  Inside a transaction a failed statement
    leaves the transaction aborted, a failed round trip leaves it dead, and
    neither executes anything further; ROLLBACK TO SAVEPOINT revives an aborted
    transaction only.  Rolling back restores every table but not the identity
    sequences. *)

From S2P Require Import Prelude Json HttpApi External.

(** ** Rows *)

Module db.

Record Category := mkCategory {
  cat_id : UUID; cat_owner_id : UUID; cat_name : string;
  cat_created_at : Time; cat_updated_at : Time; cat_deleted_at : option Time
}.

Record FileUpload := mkFileUpload {
  up_id : UUID; up_note_id : UUID; up_owner_id : UUID; up_block_id : UUID;
  up_original_filename : string; up_storage_bucket : string; up_storage_path : string;
  up_content_type : string; up_expected_size : Z; up_actual_size : option Z;
  up_verified_content_type : option string; up_status : string;
  up_error_message : option string; up_expires_at : Time;
  up_completed_at : option Time; up_created_at : Time; up_updated_at : Time;
  up_cursor : Z; up_device_id : option string
}.

Record Note := mkNote {
  n_id : UUID; n_owner_id : UUID; n_title : string; n_note_properties : json;
  n_current_version : Z; n_created_at : Time; n_updated_at : Time;
  n_deleted_at : option Time
}.

Record NoteBlock := mkNoteBlock {
  b_id : UUID; b_note_id : UUID; b_block_type : string; b_text_content : string;
  b_position : string; b_block_properties : json; b_created_at : Time;
  b_updated_at : Time; b_deleted_at : option Time
}.

Record NoteChange := mkNoteChange {
  ch_id : UUID; ch_owner_id : UUID; ch_note_id : option UUID; ch_block_id : option UUID;
  ch_device_id : string; ch_client_operation_id : UUID; ch_operation_type : string;
  ch_base_note_version : Z; ch_resulting_note_version : Z; ch_change_format : string;
  ch_schema_version : Z; ch_change_data : json; ch_global_sequence : Z;
  ch_created_at : Time
}.

Record NoteSnapshot := mkNoteSnapshot {
  sn_id : UUID; sn_note_id : UUID; sn_owner_id : UUID; sn_version : Z;
  sn_snapshot_format : string; sn_schema_version : Z; sn_snapshot_data : json;
  sn_checksum : string; sn_created_at : Time; sn_last_applied_cursor : Z
}.

Record OutboxJob := mkOutboxJob {
  j_id : Z; j_job_type : string; j_payload : json; j_available_at : Time;
  j_attempts : Z; j_locked_at : option Time; j_locked_by : option string;
  j_completed_at : option Time; j_last_error : option message; j_created_at : Time
}.

Record SyncDevice := mkSyncDevice {
  d_id : string; d_owner_id : UUID; d_device_name : option string;
  d_platform : option string; d_app_version : option string; d_protocol_version : Z;
  d_last_global_cursor : Z; d_last_seen_at : Time; d_created_at : Time;
  d_revoked_at : option Time
}.

End db.

(** ** Database states *)

(** [note_changes] is in insertion order; the last three fields are the
    identity sequences, holding the last number handed out. *)
Record Db := mkDb {
  categories : gmap UUID db.Category;
  notes : gmap UUID db.Note;
  note_blocks : gmap UUID db.NoteBlock;
  sync_devices : gmap string db.SyncDevice;
  note_changes : list db.NoteChange;
  note_snapshots : gmap UUID db.NoteSnapshot;
  outbox_jobs : gmap Z db.OutboxJob;
  file_uploads : gmap UUID db.FileUpload;
  change_seq : Z;
  job_seq : Z;
  upload_seq : Z
}.

Definition empty_db : Db := mkDb ∅ ∅ ∅ ∅ [] ∅ ∅ ∅ 0 0 0.

Definition set_categories f (d : Db) : Db :=
  mkDb (f (categories d)) (notes d) (note_blocks d) (sync_devices d) (note_changes d)
    (note_snapshots d) (outbox_jobs d) (file_uploads d) (change_seq d) (job_seq d) (upload_seq d).

Definition set_notes f (d : Db) : Db :=
  mkDb (categories d) (f (notes d)) (note_blocks d) (sync_devices d) (note_changes d)
    (note_snapshots d) (outbox_jobs d) (file_uploads d) (change_seq d) (job_seq d) (upload_seq d).

Definition set_blocks f (d : Db) : Db :=
  mkDb (categories d) (notes d) (f (note_blocks d)) (sync_devices d) (note_changes d)
    (note_snapshots d) (outbox_jobs d) (file_uploads d) (change_seq d) (job_seq d) (upload_seq d).

Definition set_devices f (d : Db) : Db :=
  mkDb (categories d) (notes d) (note_blocks d) (f (sync_devices d)) (note_changes d)
    (note_snapshots d) (outbox_jobs d) (file_uploads d) (change_seq d) (job_seq d) (upload_seq d).

Definition set_snapshots f (d : Db) : Db :=
  mkDb (categories d) (notes d) (note_blocks d) (sync_devices d) (note_changes d)
    (f (note_snapshots d)) (outbox_jobs d) (file_uploads d) (change_seq d) (job_seq d) (upload_seq d).

Definition set_jobs f (d : Db) : Db :=
  mkDb (categories d) (notes d) (note_blocks d) (sync_devices d) (note_changes d)
    (note_snapshots d) (f (outbox_jobs d)) (file_uploads d) (change_seq d) (job_seq d) (upload_seq d).

Definition set_uploads f (d : Db) : Db :=
  mkDb (categories d) (notes d) (note_blocks d) (sync_devices d) (note_changes d)
    (note_snapshots d) (outbox_jobs d) (f (file_uploads d)) (change_seq d) (job_seq d) (upload_seq d).

(** Appends a change under the next sequence number. *)
Definition append_change (row : Z -> db.NoteChange) (d : Db) : Db :=
  mkDb (categories d) (notes d) (note_blocks d) (sync_devices d)
    (note_changes d ++ [row (change_seq d + 1)])
    (note_snapshots d) (outbox_jobs d) (file_uploads d) (change_seq d + 1) (job_seq d) (upload_seq d).

(** Identity sequences advance even when the row is refused or rolled back. *)
Definition with_sequences (cs js us : Z) (d : Db) : Db :=
  mkDb (categories d) (notes d) (note_blocks d) (sync_devices d) (note_changes d)
    (note_snapshots d) (outbox_jobs d) (file_uploads d) cs js us.

(** The tables of [saved] with the sequences of [current]. *)
Definition rollback_to (saved current : Db) : Db :=
  with_sequences (change_seq current) (job_seq current) (upload_seq current) saved.

(** Same contents in every table; the sequences may differ. *)
Definition same_tables (d1 d2 : Db) : Prop := rollback_to d1 empty_db = rollback_to d2 empty_db.

(** ** Statements *)

(** A statement sees its transaction's timestamp and the database, and either
    changes the database and answers, or fails without effect. *)
Definition Stmt (A : Type) : Type := Time -> Db -> res (Db * A).

(** ** Processes *)

Inductive txstate := TxActive | TxAborted | TxDead.

Record World := mkWorld {
  w_db : Db;
  w_step : nat;
  w_uuids : nat;
  w_tx : txstate;
  w_now : Time;
  w_savepoints : nat
}.

Definition tick (w : World) : World :=
  mkWorld (w_db w) (S (w_step w)) (w_uuids w) (w_tx w) (w_now w) (w_savepoints w).

Definition set_db (d : Db) (w : World) : World :=
  mkWorld d (w_step w) (w_uuids w) (w_tx w) (w_now w) (w_savepoints w).

Definition set_tx (t : txstate) (w : World) : World :=
  mkWorld (w_db w) (w_step w) (w_uuids w) t (w_now w) (w_savepoints w).

Definition count_savepoint (w : World) : World :=
  mkWorld (w_db w) (w_step w) (w_uuids w) (w_tx w) (w_now w) (S (w_savepoints w)).

(** A computation of the backend: it runs to an error or a value. *)
Definition M (A : Type) : Type := World -> World * res A.

#[export] Instance M_ret : MRet M := fun A a w => (w, Ok a).

#[export] Instance M_bind : MBind M := fun A B f m w =>
  match m w with
  | (w', Ok a) => f a w'
  | (w', Err e) => (w', Err e)
  end.

Definition fail {A} (e : goerr) : M A := fun w => (w, Err e).

Definition lift {A} (r : res A) : M A := fun w => (w, r).

(** The result of [m] as a value, for code that inspects an error. *)
Definition attempt {A} (m : M A) : M (res A) := fun w =>
  let '(w', r) := m w in (w', Ok r).

Section with_external.
Context {X : External Db}.

Definition uuidNew : M UUID := fun w =>
  (mkWorld (w_db w) (w_step w) (S (w_uuids w)) (w_tx w) (w_now w) (w_savepoints w),
   Ok (uuid_new (w_uuids w))).

Definition timeNow : M Time := fun w => (tick w, Ok (clock (w_step w))).

(** [store.Store]: bound to the pool, or to an open transaction. *)
Inductive Store := Pool | Tx.

Definition exec_pool {A} (q : Stmt A) : M A := fun w =>
  let n := w_step w in
  let w1 := set_db (others n (w_db w)) (tick w) in
  match round_trip n with
  | FailsBefore => (w1, Err ErrDriver)
  | o =>
      match q (clock n) (w_db w1) with
      | Ok (d, a) =>
          (set_db d w1, match o with FailsAfter => Err ErrDriver | _ => Ok a end)
      | Err e => (w1, Err e)
      end
  end.

Definition exec_tx {A} (q : Stmt A) : M A := fun w =>
  let w1 := tick w in
  match w_tx w with
  | TxActive =>
      match round_trip (w_step w) with
      | Runs =>
          match q (w_now w) (w_db w) with
          | Ok (d, a) => (set_db d w1, Ok a)
          | Err ErrNoRows => (w1, Err ErrNoRows)
          | Err e => (set_tx TxAborted w1, Err e)
          end
      | _ => (set_tx TxDead w1, Err ErrDriver)
      end
  | _ => (w1, Err ErrDriver)
  end.

Definition exec {A} (s : Store) (q : Stmt A) : M A :=
  match s with
  | Pool => exec_pool q
  | Tx => exec_tx q
  end.

Definition no_op : Stmt unit := fun _ d => Ok (d, tt).

(** *** [WithTx] *)

(** The state [fn] starts in: other clients' commits are in, the transaction
    timestamp is taken, no savepoint has been named. *)
Definition begin_world (w : World) : World :=
  let n := w_step w in
  mkWorld (others n (w_db w)) (S n) (w_uuids w) TxActive (clock n) 0.

(** A Go closure passed to [WithTx] or [WithSavepoint]: it assigns to captured
    variables, here threaded as [V], and returns an error or nil.  The captured
    variables keep their values whatever happens to the transaction. *)
Definition Closure (V : Type) : Type := V -> World -> World * (V * res unit).

Definition RunTx {V} (s : Store) (fn : Store -> Closure V) : Closure V :=
  match s with
  | Tx => fn Tx
  | Pool => fun v w =>
      let w1 := begin_world w in
      match round_trip (w_step w) with
      | Runs =>
          let '(w2, (v', r)) := fn Tx v w1 in
          let w3 := set_tx TxActive (tick w2) in
          let undone := set_db (rollback_to (w_db w1) (w_db w2)) w3 in
          match r with
          | Err e => (undone, (v', Err e))
          | Ok _ =>
              match w_tx w2, round_trip (w_step w2) with
              | TxActive, Runs => (w3, (v', Ok tt))
              | TxActive, FailsAfter => (w3, (v', Err ErrDriver))
              | _, _ => (undone, (v', Err ErrDriver))
              end
          end
      | _ => (w1, (v, Err ErrDriver))
      end
  end.

(** A computation as a closure that captures its result, and back. *)
Definition capture {A} (m : M A) : Closure (option A) := fun v w =>
  match m w with
  | (w', Ok a) => (w', (Some a, Ok tt))
  | (w', Err e) => (w', (v, Err e))
  end.

Definition WithTx {A} (s : Store) (fn : Store -> M A) : M A := fun w =>
  match RunTx s (fun t => capture (fn t)) None w with
  | (w', (_, Err e)) => (w', Err e)
  | (w', (Some a, Ok _)) => (w', Ok a)
  | (w', (None, Ok _)) => (w', Err ErrPanic)
  end.

(** *** [WithSavepoint] *)

(** ROLLBACK TO SAVEPOINT: revives an aborted transaction, not a dead one. *)
Definition rollback_to_savepoint (saved : Db) : M unit := fun w =>
  let w1 := tick w in
  match w_tx w with
  | TxDead => (w1, Err ErrDriver)
  | _ =>
      match round_trip (w_step w) with
      | Runs => (set_tx TxActive (set_db (rollback_to saved (w_db w)) w1), Ok tt)
      | _ => (set_tx TxDead w1, Err ErrDriver)
      end
  end.

(** The errors of the rollback and of the release wrap the error of [fn], so
    [errors.Is] still finds it. *)
Definition WithSavepoint {V} (s : Store) (fn : Store -> Closure V) : Closure V :=
  match s with
  | Pool => RunTx Pool fn
  | Tx => fun v w =>
      match exec_tx no_op (count_savepoint w) with
      | (w1, Err e) => (w1, (v, Err e))
      | (w1, Ok _) =>
          match fn Tx v w1 with
          | (w2, (v', Err e)) =>
              match rollback_to_savepoint (w_db w1) w2 with
              | (w3, Err _) => (w3, (v', Err e))
              | (w3, Ok _) => let '(w4, _) := exec_tx no_op w3 in (w4, (v', Err e))
              end
          | (w2, (v', Ok _)) =>
              let '(w3, r) := exec_tx no_op w2 in (w3, (v', r))
          end
      end
  end.

End with_external.

(** ** Lemmas *)

Lemma M_bind_eq {A B} (m : M A) (f : A -> M B) w :
  (m ≫= f) w =
  match m w with
  | (w', Ok a) => f a w'
  | (w', Err e) => (w', Err e)
  end.
Proof. reflexivity. Qed.

Lemma WithTx_Pool {X : External Db} {A} (fn : Store -> M A) w :
  WithTx Pool fn w =
  let w1 := begin_world w in
  match round_trip (w_step w) with
  | Runs =>
      let '(w2, r) := fn Tx w1 in
      let w3 := set_tx TxActive (tick w2) in
      let undone := set_db (rollback_to (w_db w1) (w_db w2)) w3 in
      match r with
      | Err e => (undone, Err e)
      | Ok a =>
          match w_tx w2, round_trip (w_step w2) with
          | TxActive, Runs => (w3, Ok a)
          | TxActive, FailsAfter => (w3, Err ErrDriver)
          | _, _ => (undone, Err ErrDriver)
          end
      end
  | _ => (w1, Err ErrDriver)
  end.
Proof.
  unfold WithTx, RunTx, capture. destruct (round_trip (w_step w)); try done.
  destruct (fn Tx (begin_world w)) as [w2 [a|e]]; [|done].
  destruct (w_tx w2); try done. by destruct (round_trip (w_step w2)).
Qed.

Lemma rollback_to_rollback d1 d2 d3 : rollback_to (rollback_to d1 d2) d3 = rollback_to d1 d3.
Proof. reflexivity. Qed.

Lemma same_tables_rollback d1 d2 : same_tables (rollback_to d1 d2) d1.
Proof. reflexivity. Qed.

#[export] Instance same_tables_equiv : Equivalence same_tables.
Proof.
  split; [intros x|intros x y H|intros x y z H1 H2]; unfold same_tables in *; congruence.
Qed.

Lemma same_tables_fields d1 d2 :
  same_tables d1 d2 <->
  categories d1 = categories d2 /\ notes d1 = notes d2 /\ note_blocks d1 = note_blocks d2 /\
  sync_devices d1 = sync_devices d2 /\ note_changes d1 = note_changes d2 /\
  note_snapshots d1 = note_snapshots d2 /\ outbox_jobs d1 = outbox_jobs d2 /\
  file_uploads d1 = file_uploads d2.
Proof.
  unfold same_tables, rollback_to, with_sequences. split.
  - intros H. injection H. intros. repeat split; assumption.
  - intros (-> & -> & -> & -> & -> & -> & -> & ->). done.
Qed.
