(* ===== verification/Queries.v ===== *)
(** * SQL statements

    The statements of [db/queries/*.sql], as [db/generated/*.sql.go] embeds
    them, on the database of Schema.v: the WHERE clause and the assignments of
    each, the constraints PostgreSQL enforces on an insert (primary keys, the
    UNIQUE constraints left after the migrations, foreign keys, CHECKs) and the
    rows RETURNING answers.  [now] is the transaction timestamp, SQL's [now()].
    FOR UPDATE and SKIP LOCKED have no effect on what one statement returns. *)

From S2P Require Import Prelude GoText Json HttpApi Constants External Schema.

(** The rows of a table. *)
Definition rows {K V} `{Countable K} (m : gmap K V) : list V := (map_to_list m).*2.

(** A [:one] query answers [pgx.ErrNoRows] when no row qualifies. *)
Definition one {A} (d : Db) (r : option A) : res (Db * A) :=
  match r with
  | Some a => Ok (d, a)
  | None => Err ErrNoRows
  end.

Module q.
Section with_external.
Context {X : External Db}.

(** ** notes.sql *)

Definition CreateNote (id owner : UUID) (title : string) (props : json) (version : Z)
    : Stmt unit := fun now d =>
  match notes d !! id with
  | Some _ => Err ErrUniqueViolation
  | None =>
      Ok (set_notes <[id := db.mkNote id owner title props version now now None]> d, tt)
  end.

Definition owned_note (d : Db) (id owner : UUID) : option db.Note :=
  n ← notes d !! id; if N.eqb (db.n_owner_id n) owner then Some n else None.

Definition GetNoteForOwner (id owner : UUID) : Stmt db.Note := fun now d =>
  one d (owned_note d id owner).

Definition GetNoteForOwnerForUpdate (id owner : UUID) : Stmt db.Note := fun now d =>
  one d (owned_note d id owner).

Definition UpdateNoteState (id owner : UUID) (title : string) (props : json)
    (version : Z) (deleted_at : option Time) : Stmt unit := fun now d =>
  match owned_note d id owner with
  | Some n =>
      Ok (set_notes <[id := db.mkNote (db.n_id n) (db.n_owner_id n) title props version
                              (db.n_created_at n) now deleted_at]> d, tt)
  | None => Ok (d, tt)
  end.

Definition DeleteNote (id owner : UUID) (version : Z) : Stmt db.Note := fun now d =>
  match owned_note d id owner with
  | Some n =>
      if db.n_current_version n =? version then
        let n' := db.mkNote (db.n_id n) (db.n_owner_id n) (db.n_title n)
                    (db.n_note_properties n) (db.n_current_version n)
                    (db.n_created_at n) now (Some now) in
        Ok (set_notes <[id := n']> d, n')
      else Err ErrNoRows
  | None => Err ErrNoRows
  end.

Definition note_block (d : Db) (id note_id : UUID) : option db.NoteBlock :=
  b ← note_blocks d !! id; if N.eqb (db.b_note_id b) note_id then Some b else None.

Definition GetBlockForNoteForUpdate (id note_id : UUID) : Stmt db.NoteBlock := fun now d =>
  one d (note_block d id note_id).

(** ORDER BY position ASC, created_at ASC: [position] is TEXT, compared by the
    database's collation. *)
Definition block_leb (a b : db.NoteBlock) : bool :=
  if collate_leb (db.b_position a) (db.b_position b) then
    if collate_leb (db.b_position b) (db.b_position a)
    then db.b_created_at a <=? db.b_created_at b else true
  else false.

Definition ListBlocksForNote (note_id : UUID) : Stmt (list db.NoteBlock) := fun now d =>
  Ok (d, sort_by block_leb
           (filter (fun b => db.b_note_id b = note_id) (rows (note_blocks d)))).

Definition CreateBlock (id note_id : UUID) (block_type text_content position : string)
    (props : json) : Stmt unit := fun now d =>
  match note_blocks d !! id with
  | Some _ => Err ErrUniqueViolation
  | None =>
      match notes d !! note_id with
      | None => Err ErrForeignKeyViolation
      | Some _ =>
          Ok (set_blocks <[id := db.mkNoteBlock id note_id block_type text_content
                                   position props now now None]> d, tt)
      end
  end.

Definition UpdateBlockState (id note_id : UUID) (block_type text_content position : string)
    (props : json) (deleted_at : option Time) : Stmt unit := fun now d =>
  match note_block d id note_id with
  | Some b =>
      Ok (set_blocks <[id := db.mkNoteBlock (db.b_id b) (db.b_note_id b) block_type
                               text_content position props (db.b_created_at b) now
                               deleted_at]> d, tt)
  | None => Ok (d, tt)
  end.

Definition DeleteBlock (id note_id : UUID) : Stmt db.NoteBlock := fun now d =>
  match note_block d id note_id with
  | Some b =>
      let b' := db.mkNoteBlock (db.b_id b) (db.b_note_id b) (db.b_block_type b)
                  (db.b_text_content b) (db.b_position b) (db.b_block_properties b)
                  (db.b_created_at b) now (Some now) in
      Ok (set_blocks <[id := b']> d, b')
  | None => Err ErrNoRows
  end.

(** ** categories.sql *)

(** UNIQUE (owner_id, name) covers soft-deleted rows too. *)
Definition name_taken (d : Db) (id owner : UUID) (name : string) : bool :=
  existsb (fun c => N.eqb (db.cat_owner_id c) owner && String.eqb (db.cat_name c) name
                    && negb (N.eqb (db.cat_id c) id))
    (rows (categories d)).

Definition CreateCategory (id owner : UUID) (name : string) : Stmt unit := fun now d =>
  match categories d !! id with
  | Some _ => Err ErrUniqueViolation
  | None =>
      if name_taken d id owner name then Err ErrUniqueViolation
      else Ok (set_categories <[id := db.mkCategory id owner name now now None]> d, tt)
  end.

Definition active_category (d : Db) (id owner : UUID) : option db.Category :=
  c ← categories d !! id;
  if N.eqb (db.cat_owner_id c) owner && bool_decide (db.cat_deleted_at c = None)
  then Some c else None.

Definition GetCategoryForOwnerForUpdate (id owner : UUID) : Stmt UUID := fun now d =>
  one d (db.cat_id <$> active_category d id owner).

Definition UpdateCategory (id owner : UUID) (name : string) : Stmt unit := fun now d =>
  match active_category d id owner with
  | Some c =>
      if name_taken d id owner name then Err ErrUniqueViolation
      else Ok (set_categories <[id := db.mkCategory (db.cat_id c) (db.cat_owner_id c) name
                                        (db.cat_created_at c) now None]> d, tt)
  | None => Ok (d, tt)
  end.

Definition DeleteCategory (id owner : UUID) : Stmt unit := fun now d =>
  match active_category d id owner with
  | Some c =>
      Ok (set_categories <[id := db.mkCategory (db.cat_id c) (db.cat_owner_id c)
                                   (db.cat_name c) (db.cat_created_at c) now (Some now)]> d, tt)
  | None => Ok (d, tt)
  end.

(** ** devices.sql *)

Definition CreateDevice (id : string) (owner : UUID)
    (device_name platform app_version : option string) (protocol_version : Z)
    : Stmt db.SyncDevice := fun now d =>
  if DeviceIDMaxLength <? rune_count id then Err ErrDriver (* VARCHAR(30) *) else
  match sync_devices d !! id with
  | Some _ => Err ErrUniqueViolation
  | None =>
      let v := db.mkSyncDevice id owner device_name platform app_version protocol_version
                 0 now now None in
      Ok (set_devices <[id := v]> d, v)
  end.

Definition newest_device (a b : db.SyncDevice) : bool :=
  db.d_created_at b <=? db.d_created_at a.

Definition ListDevices (owner : UUID) : Stmt (list db.SyncDevice) := fun now d =>
  Ok (d, sort_by newest_device
           (filter (fun v => db.d_owner_id v = owner) (rows (sync_devices d)))).

Definition owned_device (d : Db) (id : string) (owner : UUID) : option db.SyncDevice :=
  v ← sync_devices d !! id; if N.eqb (db.d_owner_id v) owner then Some v else None.

Definition GetDeviceForOwner (id : string) (owner : UUID) : Stmt db.SyncDevice := fun now d =>
  one d (owned_device d id owner).

Definition GetDeviceForOwnerForUpdate (id : string) (owner : UUID) : Stmt db.SyncDevice :=
  fun now d => one d (owned_device d id owner).

Definition RevokeDevice (id : string) (owner : UUID) : Stmt unit := fun now d =>
  match owned_device d id owner with
  | Some v =>
      match db.d_revoked_at v with
      | Some _ => Ok (d, tt)
      | None =>
          Ok (set_devices <[id := db.mkSyncDevice (db.d_id v) (db.d_owner_id v)
                (db.d_device_name v) (db.d_platform v) (db.d_app_version v)
                (db.d_protocol_version v) (db.d_last_global_cursor v) now
                (db.d_created_at v) (Some now)]> d, tt)
      end
  | None => Ok (d, tt)
  end.

Definition UpdateDeviceCursor (id : string) (owner : UUID) (cursor : Z) : Stmt unit :=
  fun now d =>
  match owned_device d id owner with
  | Some v =>
      Ok (set_devices <[id := db.mkSyncDevice (db.d_id v) (db.d_owner_id v)
            (db.d_device_name v) (db.d_platform v) (db.d_app_version v)
            (db.d_protocol_version v) (Z.max (db.d_last_global_cursor v) cursor) now
            (db.d_created_at v) (db.d_revoked_at v)]> d, tt)
  | None => Ok (d, tt)
  end.

(** ** sync.sql *)

Definition is_operation (device_id : string) (operation_id : UUID) (c : db.NoteChange) : bool :=
  String.eqb (db.ch_device_id c) device_id && N.eqb (db.ch_client_operation_id c) operation_id.

Definition FindProcessedOperation (device_id : string) (operation_id : UUID)
    : Stmt db.NoteChange := fun now d =>
  one d (List.find (is_operation device_id operation_id) (note_changes d)).

Definition references {K V} `{Countable K} (m : gmap K V) (k : option K) : bool :=
  match k with
  | Some k => bool_decide (is_Some (m !! k))
  | None => true
  end.

Definition InsertNoteChange (id owner : UUID) (note_id block_id : option UUID)
    (device_id : string) (operation_id : UUID) (operation_type : string)
    (base_version resulting_version : Z) (change_format : string) (schema_version : Z)
    (change_data : json) : Stmt db.NoteChange := fun now d =>
  if existsb (fun c => N.eqb (db.ch_id c) id || is_operation device_id operation_id c)
       (note_changes d)
  then Err ErrUniqueViolation
  else if references (notes d) note_id && references (sync_devices d) (Some device_id) then
    let row := fun seq => db.mkNoteChange id owner note_id block_id device_id operation_id
                 operation_type base_version resulting_version change_format
                 schema_version change_data seq now in
    Ok (append_change row d, row (change_seq d + 1))
  else Err ErrForeignKeyViolation.

Definition by_sequence (a b : db.NoteChange) : bool :=
  db.ch_global_sequence a <=? db.ch_global_sequence b.

Definition remote_change (owner : UUID) (cursor : Z) (device_id : string)
    (c : db.NoteChange) : Prop :=
  db.ch_owner_id c = owner /\ cursor < db.ch_global_sequence c /\ db.ch_device_id c <> device_id.

#[export] Instance remote_change_dec owner cursor device_id c :
  Decision (remote_change owner cursor device_id c).
Proof. unfold remote_change. apply _. Defined.

Definition GetChangesAfterCursor (owner : UUID) (cursor : Z) (device_id : string) (limit : Z)
    : Stmt (list db.NoteChange) := fun now d =>
  if limit <? 0 then Err ErrDriver (* LIMIT must not be negative *)
  else Ok (d, take (Z.to_nat limit)
                (sort_by by_sequence
                   (filter (remote_change owner cursor device_id) (note_changes d)))).

Definition HasChangesAfterCursor (owner : UUID) (cursor : Z) (device_id : string) : Stmt bool :=
  fun now d =>
  Ok (d, existsb (fun c => bool_decide (remote_change owner cursor device_id c)) (note_changes d)).

(** [COALESCE((SELECT MAX(version) FROM note_snapshots WHERE note_id = $1), 0)]. *)
Definition snapshot_version (d : Db) (note_id : UUID) : Z :=
  max_or_zero (map db.sn_version
    (filter (fun s => db.sn_note_id s = note_id) (rows (note_snapshots d)))).

Definition changes_since_snapshot (d : Db) (note_id : UUID) : list db.NoteChange :=
  filter (fun c => db.ch_note_id c = Some note_id
                   /\ snapshot_version d note_id < db.ch_resulting_note_version c)
    (note_changes d).

Definition CountChangesSinceLastSnapshot (note_id : UUID) : Stmt Z := fun now d =>
  Ok (d, Z.of_nat (length (changes_since_snapshot d note_id))).

Definition SumChangeBytesSinceLastSnapshot (note_id : UUID) : Stmt Z := fun now d =>
  Ok (d, foldr Z.add 0
           (map (fun c => jsonb_octets (db.ch_change_data c)) (changes_since_snapshot d note_id))).

Definition GetLastAppliedCursorForNote (note_id : UUID) : Stmt Z := fun now d =>
  Ok (d, max_or_zero (map db.ch_global_sequence
           (filter (fun c => db.ch_note_id c = Some note_id) (note_changes d)))).

(** ** snapshots.sql *)

Definition newest_snapshot (a b : db.NoteSnapshot) : bool := db.sn_version b <=? db.sn_version a.

Definition GetLatestSnapshotForNote (note_id owner : UUID) : Stmt db.NoteSnapshot := fun now d =>
  one d (head (sort_by newest_snapshot
    (filter (fun s => db.sn_note_id s = note_id /\ db.sn_owner_id s = owner)
       (rows (note_snapshots d))))).

(** ON CONFLICT (note_id, version) DO UPDATE keeps the stored identity.  The
    document becomes a JSONB value, whose text may differ from the one sent. *)
Definition InsertSnapshot (s : db.NoteSnapshot) : Stmt db.NoteSnapshot := fun now d =>
  match List.find (fun t => N.eqb (db.sn_note_id t) (db.sn_note_id s)
                            && (db.sn_version t =? db.sn_version s)) (rows (note_snapshots d)) with
  | Some t =>
      let t' := db.mkNoteSnapshot (db.sn_id t) (db.sn_note_id t) (db.sn_owner_id t)
                  (db.sn_version t) (db.sn_snapshot_format t) (db.sn_schema_version t)
                  (jsonb (db.sn_snapshot_data s)) (db.sn_checksum s) (db.sn_created_at t)
                  (db.sn_last_applied_cursor s) in
      Ok (set_snapshots <[db.sn_id t := t']> d, t')
  | None =>
      match note_snapshots d !! db.sn_id s, notes d !! db.sn_note_id s with
      | Some _, _ => Err ErrUniqueViolation
      | None, None => Err ErrForeignKeyViolation
      | None, Some _ =>
          let s' := db.mkNoteSnapshot (db.sn_id s) (db.sn_note_id s) (db.sn_owner_id s)
                      (db.sn_version s) (db.sn_snapshot_format s) (db.sn_schema_version s)
                      (jsonb (db.sn_snapshot_data s)) (db.sn_checksum s) now
                      (db.sn_last_applied_cursor s) in
          Ok (set_snapshots <[db.sn_id s := s']> d, s')
      end
  end.

Definition EnqueueOutboxJob (job_type : string) (payload : json) (available_at : option Time)
    : Stmt db.OutboxJob := fun now d =>
  let id := job_seq d + 1 in
  let j := db.mkOutboxJob id job_type payload (default now available_at) 0
             None None None None now in
  Ok (with_sequences (change_seq d) id (upload_seq d) (set_jobs <[id := j]> d), j).

(** A job is available when it is not done, its time has come and it is not
    locked, or its lock is older than the timeout. *)
Definition claimable (now timeout : Time) (j : db.OutboxJob) : bool :=
  bool_decide (db.j_completed_at j = None) && (db.j_available_at j <=? now)
  && match db.j_locked_at j with
     | None => true
     | Some t => t <? now - timeout
     end.

Definition job_leb (a b : db.OutboxJob) : bool :=
  (db.j_available_at a <? db.j_available_at b)
  || (db.j_available_at a =? db.j_available_at b) && (db.j_id a <=? db.j_id b).

Definition ClaimOutboxJob (worker : string) (timeout : Time) : Stmt db.OutboxJob := fun now d =>
  match head (sort_by job_leb (filter (fun j => claimable now timeout j = true)
                                 (rows (outbox_jobs d)))) with
  | None => Err ErrNoRows
  | Some j =>
      if db.j_attempts j =? 2 ^ 31 - 1 then Err ErrDriver (* INTEGER overflow *) else
      let j' := db.mkOutboxJob (db.j_id j) (db.j_job_type j) (db.j_payload j)
                  (db.j_available_at j) (db.j_attempts j + 1) (Some now) (Some worker)
                  (db.j_completed_at j) (db.j_last_error j) (db.j_created_at j) in
      Ok (set_jobs <[db.j_id j := j']> d, j')
  end.

Definition CompleteOutboxJob (id : Z) : Stmt unit := fun now d =>
  match outbox_jobs d !! id with
  | Some j =>
      Ok (set_jobs <[id := db.mkOutboxJob (db.j_id j) (db.j_job_type j) (db.j_payload j)
            (db.j_available_at j) (db.j_attempts j) None None (Some now) None
            (db.j_created_at j)]> d, tt)
  | None => Ok (d, tt)
  end.

Definition FailOutboxJob (id : Z) (last_error : message) (delay : Time) : Stmt unit := fun now d =>
  match outbox_jobs d !! id with
  | Some j =>
      Ok (set_jobs <[id := db.mkOutboxJob (db.j_id j) (db.j_job_type j) (db.j_payload j)
            (now + delay) (db.j_attempts j) None None (db.j_completed_at j)
            (Some last_error) (db.j_created_at j)]> d, tt)
  | None => Ok (d, tt)
  end.

End with_external.
End q.
