(* ===== verification/DbInvariant.v ===== *)
(** * The invariant of the database

    [wf] states what the migrations' keys, foreign keys and unique constraints
    and the identity column of [note_changes] guarantee together: rows sit
    under their keys, references resolve, sequence numbers of the change log
    are distinct and already handed out, and every client operation of a
    device is logged once.
    [evolves] relates the states before and after some statements: the
    invariant is kept, the log only grows at its end and nobody's rows change
    hands. *)

From S2P Require Import Prelude GoText Json HttpApi Constants External Schema Queries.

(** The key of the UNIQUE (device_id, client_operation_id) constraint. *)
Definition operation_key (c : db.NoteChange) : string * UUID :=
  (db.ch_device_id c, db.ch_client_operation_id c).

(** The references of an upload: its note with its owner, its block in its note. *)
Definition upload_refs (d : Db) (u : db.FileUpload) : Prop :=
  (exists n, notes d !! db.up_note_id u = Some n /\ db.n_owner_id n = db.up_owner_id u) /\
  (exists b, note_blocks d !! db.up_block_id u = Some b /\ db.b_note_id b = db.up_note_id u).

Record wf (d : Db) : Prop := mkWf {
  wf_note_key : forall id n, notes d !! id = Some n -> db.n_id n = id;
  wf_block : forall id b, note_blocks d !! id = Some b ->
    db.b_id b = id /\ is_Some (notes d !! db.b_note_id b);
  wf_device_key : forall id v, sync_devices d !! id = Some v -> db.d_id v = id;
  wf_category : forall id c, categories d !! id = Some c -> db.cat_id c = id /\
    forall id' c', categories d !! id' = Some c' ->
      db.cat_owner_id c' = db.cat_owner_id c -> db.cat_name c' = db.cat_name c -> id' = id;
  wf_snapshot : forall id s, note_snapshots d !! id = Some s ->
    db.sn_id s = id /\ is_Some (notes d !! db.sn_note_id s) /\
    forall id' s', note_snapshots d !! id' = Some s' ->
      db.sn_note_id s' = db.sn_note_id s -> db.sn_version s' = db.sn_version s -> id' = id;
  wf_job : forall id j, outbox_jobs d !! id = Some j -> db.j_id j = id /\ id <= job_seq d;
  wf_upload : forall id u, file_uploads d !! id = Some u -> db.up_id u = id /\ upload_refs d u;
  wf_change_refs : Forall (fun c => q.references (notes d) (db.ch_note_id c) = true
    /\ is_Some (sync_devices d !! db.ch_device_id c)) (note_changes d);
  wf_log_seqs : NoDup (map db.ch_global_sequence (note_changes d));
  wf_log_range : Forall (fun c => 0 < db.ch_global_sequence c <= change_seq d) (note_changes d);
  wf_log_keys : NoDup (map operation_key (note_changes d));
  wf_log_ids : NoDup (map db.ch_id (note_changes d));
  wf_seq : 0 <= change_seq d
}.

(** No row carries the nil identifier. *)
Definition no_nil_rows (d : Db) : Prop :=
  note_blocks d !! uuid_Nil = None /\
  forall id n, notes d !! id = Some n -> id <> uuid_Nil /\ db.n_owner_id n <> uuid_Nil.

(** ** How states evolve *)

Record evolves (d d' : Db) : Prop := mkEvolves {
  ev_wf : wf d -> wf d';
  ev_log : exists new, note_changes d' = note_changes d ++ new /\
    Forall (fun c => change_seq d < db.ch_global_sequence c <= change_seq d') new;
  ev_seq : change_seq d <= change_seq d';
  ev_job_seq : job_seq d <= job_seq d';
  ev_note_owner : forall id n, notes d !! id = Some n ->
    exists n', notes d' !! id = Some n' /\ db.n_owner_id n' = db.n_owner_id n;
  ev_block_note : forall id b, note_blocks d !! id = Some b ->
    exists b', note_blocks d' !! id = Some b' /\ db.b_note_id b' = db.b_note_id b;
  ev_device_owner : forall id v, sync_devices d !! id = Some v ->
    exists v', sync_devices d' !! id = Some v' /\ db.d_owner_id v' = db.d_owner_id v
}.

#[export] Instance evolves_preorder : PreOrder evolves.
Proof.
  split.
  - intros d. split; try lia; eauto. exists []. split; [by rewrite app_nil_r|constructor].
  - intros d1 d2 d3 H1 H2. split.
    + intros H. by apply H2, H1.
    + destruct H1 as [_ (l1 & E1 & F1) S1 _ _ _ _], H2 as [_ (l2 & E2 & F2) S2 _ _ _ _].
      exists (l1 ++ l2). rewrite E2, E1, app_assoc. split; [done|]. apply Forall_app. split.
      * eapply Forall_impl; [exact F1|]. cbn. lia.
      * eapply Forall_impl; [exact F2|]. cbn. lia.
    + destruct H1, H2. lia.
    + destruct H1, H2. lia.
    + intros id n (n2 & H' & Ho)%(ev_note_owner _ _ H1).
      apply (ev_note_owner _ _ H2) in H' as (n3 & ? & ?). exists n3. split; congruence.
    + intros id n (n2 & H' & Ho)%(ev_block_note _ _ H1).
      apply (ev_block_note _ _ H2) in H' as (n3 & ? & ?). exists n3. split; congruence.
    + intros id n (n2 & H' & Ho)%(ev_device_owner _ _ H1).
      apply (ev_device_owner _ _ H2) in H' as (n3 & ? & ?). exists n3. split; congruence.
Qed.

(** ** The invariant under the updates statements make *)

(** Every row stays under its key. *)
Lemma is_Some_insert {K V} `{Countable K} (m : gmap K V) i j v :
  is_Some (m !! j) -> is_Some (<[i := v]> m !! j).
Proof. intros ?. rewrite lookup_insert. by case_decide. Qed.

Lemma references_insert {K V} `{Countable K} (m : gmap K V) i v k :
  q.references m k = true -> q.references (<[i := v]> m) k = true.
Proof.
  destruct k as [k|]; [|done]. cbn. rewrite !bool_decide_eq_true. apply is_Some_insert.
Qed.

(** Looking a key up after an insertion, by cases. *)
Ltac lookup_cases H :=
  rewrite lookup_insert_Some in H; destruct H as [[? ?]|[? H]]; subst.

Lemma wf_insert_note d id n :
  wf d -> db.n_id n = id ->
  (forall n0, notes d !! id = Some n0 -> db.n_owner_id n = db.n_owner_id n0) ->
  wf (set_notes <[id := n]> d).
Proof.
  intros [] Hid Ho. split; cbn; try done.
  - intros i m H. by lookup_cases H; [|eauto].
  - intros i b H%wf_block0. split; [tauto|]. apply is_Some_insert. tauto.
  - intros i s H. destruct (wf_snapshot0 _ _ H) as (? & ? & ?).
    split_and!; [done|by apply is_Some_insert|done].
  - intros i u H. destruct (wf_upload0 _ _ H) as (? & (m & Hm & Hmo) & Hb).
    split; [done|]. split; [|done]. cbn.
    destruct (decide (id = db.up_note_id u)) as [Heq|Hne]; [rewrite <- Heq in *|].
    + exists n. rewrite lookup_insert_eq. split; [done|]. rewrite <- Hmo. by apply Ho.
    + exists m. by rewrite lookup_insert_ne.
  - eapply Forall_impl; [exact wf_change_refs0|]. cbn. intros c [? ?].
    split; [by apply references_insert|done].
Qed.

Lemma wf_insert_block d id b :
  wf d -> db.b_id b = id -> is_Some (notes d !! db.b_note_id b) ->
  (forall b0, note_blocks d !! id = Some b0 -> db.b_note_id b = db.b_note_id b0) ->
  wf (set_blocks <[id := b]> d).
Proof.
  intros [] Hid Hn Ho. split; cbn; try done.
  - intros i m H. by lookup_cases H; [|eauto].
  - intros i u H. destruct (wf_upload0 _ _ H) as (? & Hm & (m & Hb & Hmo)).
    split; [done|]. split; [done|]. cbn.
    destruct (decide (id = db.up_block_id u)) as [Heq|Hne]; [rewrite <- Heq in *|].
    + exists b. rewrite lookup_insert_eq. split; [done|]. rewrite <- Hmo. by apply Ho.
    + exists m. by rewrite lookup_insert_ne.
Qed.

Lemma wf_insert_device d id v :
  wf d -> db.d_id v = id -> wf (set_devices <[id := v]> d).
Proof.
  intros [] Hid. split; cbn; try done.
  - intros i m H. by lookup_cases H; [|eauto].
  - eapply Forall_impl; [exact wf_change_refs0|]. cbn. intros c [? ?].
    split; [done|by apply is_Some_insert].
Qed.

Lemma wf_insert_category d id c :
  wf d -> db.cat_id c = id ->
  (forall id' c', categories d !! id' = Some c' -> db.cat_owner_id c' = db.cat_owner_id c ->
     db.cat_name c' = db.cat_name c -> id' = id) ->
  wf (set_categories <[id := c]> d).
Proof.
  intros [] Hid Hu. split; cbn; try done.
  intros i m H. lookup_cases H.
  - split; [done|]. intros i' c' H' ? ?. lookup_cases H'; eauto.
  - destruct (wf_category0 _ _ H) as [? Hc]. split; [done|]. intros i' c' H' ? ?.
    lookup_cases H'; [|by eapply Hc]. symmetry. eapply Hu; [exact H|congruence|congruence].
Qed.

Lemma wf_insert_snapshot d id s :
  wf d -> db.sn_id s = id -> is_Some (notes d !! db.sn_note_id s) ->
  (forall id' s', note_snapshots d !! id' = Some s' -> db.sn_note_id s' = db.sn_note_id s ->
     db.sn_version s' = db.sn_version s -> id' = id) ->
  wf (set_snapshots <[id := s]> d).
Proof.
  intros [] Hid Hn Hu. split; cbn; try done.
  intros i m H. lookup_cases H.
  - split_and!; [done|done|]. intros i' c' H' ? ?. lookup_cases H'; eauto.
  - destruct (wf_snapshot0 _ _ H) as (? & ? & ?). split_and!; [done|done|].
    intros i' c' H' ? ?. lookup_cases H'; [|by eauto]. symmetry. eapply Hu; [exact H|congruence|congruence].
Qed.

Lemma wf_insert_job d id j js :
  wf d -> db.j_id j = id -> id <= js -> job_seq d <= js ->
  wf (with_sequences (change_seq d) js (upload_seq d) (set_jobs <[id := j]> d)).
Proof.
  intros [] Hid Hle Hjs. split; cbn; try done.
  intros i m H. lookup_cases H; [done|]. destruct (wf_job0 _ _ H). split; [done|lia].
Qed.

Lemma wf_sequences d cs js us :
  wf d -> change_seq d <= cs -> job_seq d <= js -> wf (with_sequences cs js us d).
Proof.
  intros [] Hc Hj. split; cbn; try done.
  - intros i j H. destruct (wf_job0 _ _ H). split; [done|lia].
  - eapply Forall_impl; [exact wf_log_range0|]. cbn. lia.
  - lia.
Qed.

Lemma wf_append_change d row :
  wf d -> (forall s, db.ch_global_sequence (row s) = s) ->
  (forall s, q.references (notes d) (db.ch_note_id (row s)) = true) ->
  (forall s, is_Some (sync_devices d !! db.ch_device_id (row s))) ->
  operation_key (row (change_seq d + 1)) ∉ map operation_key (note_changes d) ->
  db.ch_id (row (change_seq d + 1)) ∉ map db.ch_id (note_changes d) ->
  wf (append_change row d).
Proof.
  intros [] Hs Hn Hd Hk Hi. split; cbn; try done.
  - rewrite Forall_app. split; [done|]. by repeat constructor.
  - rewrite map_app. apply NoDup_app. split_and!; [done| |apply NoDup_singleton].
    intros x (c & -> & Hc)%list_elem_of_fmap Hx%list_elem_of_singleton. rewrite Hs in Hx.
    pose proof (proj1 (Forall_forall _ _) wf_log_range0 c Hc) as Hr. cbn in Hr. lia.
  - rewrite Forall_app. split.
    + eapply Forall_impl; [exact wf_log_range0|]. cbn. lia.
    + repeat constructor; rewrite Hs; lia.
  - rewrite map_app. apply NoDup_app. split_and!; [done| |apply NoDup_singleton].
    intros x Hx ->%list_elem_of_singleton. done.
  - rewrite map_app. apply NoDup_app. split_and!; [done| |apply NoDup_singleton].
    intros x Hx ->%list_elem_of_singleton. done.
  - lia.
Qed.

(** Updates that leave the log alone. *)
Lemma evolves_keep d d' :
  (wf d -> wf d') -> note_changes d' = note_changes d -> change_seq d <= change_seq d' ->
  job_seq d <= job_seq d' ->
  (forall id n, notes d !! id = Some n ->
    exists n', notes d' !! id = Some n' /\ db.n_owner_id n' = db.n_owner_id n) ->
  (forall id b, note_blocks d !! id = Some b ->
    exists b', note_blocks d' !! id = Some b' /\ db.b_note_id b' = db.b_note_id b) ->
  (forall id v, sync_devices d !! id = Some v ->
    exists v', sync_devices d' !! id = Some v' /\ db.d_owner_id v' = db.d_owner_id v) ->
  evolves d d'.
Proof.
  intros ? Hl ? ? ? ? ?. split; try done. exists []. rewrite app_nil_r. split; [done|constructor].
Qed.

Lemma insert_keeps {K V P} `{Countable K} (m : gmap K V) (f : V -> P) i v :
  (forall v0, m !! i = Some v0 -> f v = f v0) ->
  forall j x, m !! j = Some x -> exists x', <[i := v]> m !! j = Some x' /\ f x' = f x.
Proof.
  intros Hf j x Hx. destruct (decide (i = j)) as [<-|Hne].
  - exists v. rewrite lookup_insert_eq. auto.
  - exists x. by rewrite lookup_insert_ne.
Qed.

Lemma evolves_rollback d0 d : evolves d0 d -> evolves d0 (rollback_to d0 d).
Proof.
  intros []. apply evolves_keep; cbn; try done; eauto. intros. by apply wf_sequences.
Qed.

Lemma evolves_insert_note d id n :
  (wf d -> db.n_id n = id) -> (forall n0, notes d !! id = Some n0 -> db.n_owner_id n = db.n_owner_id n0) ->
  evolves d (set_notes <[id := n]> d).
Proof.
  intros ? ?. apply evolves_keep; cbn; try lia; eauto.
  - intros. apply wf_insert_note; auto.
  - by apply insert_keeps.
Qed.

Lemma evolves_insert_block d id b :
  (wf d -> db.b_id b = id) -> (wf d -> is_Some (notes d !! db.b_note_id b)) ->
  (forall b0, note_blocks d !! id = Some b0 -> db.b_note_id b = db.b_note_id b0) ->
  evolves d (set_blocks <[id := b]> d).
Proof.
  intros ? ? ?. apply evolves_keep; cbn; try lia; eauto.
  - intros. apply wf_insert_block; auto.
  - by apply insert_keeps.
Qed.

Lemma evolves_insert_device d id v :
  (wf d -> db.d_id v = id) ->
  (forall v0, sync_devices d !! id = Some v0 -> db.d_owner_id v = db.d_owner_id v0) ->
  evolves d (set_devices <[id := v]> d).
Proof.
  intros ? ?. apply evolves_keep; cbn; try lia; eauto.
  - intros. apply wf_insert_device; auto.
  - by apply insert_keeps.
Qed.

Lemma evolves_insert_category d id c :
  (wf d -> db.cat_id c = id) ->
  (wf d -> forall id' c', categories d !! id' = Some c' ->
     db.cat_owner_id c' = db.cat_owner_id c -> db.cat_name c' = db.cat_name c -> id' = id) ->
  evolves d (set_categories <[id := c]> d).
Proof.
  intros ? Hu. apply evolves_keep; cbn; try lia; eauto.
  intros Hw. apply wf_insert_category; [done|auto|by apply Hu].
Qed.

Lemma evolves_insert_snapshot d id s :
  (wf d -> db.sn_id s = id) -> (wf d -> is_Some (notes d !! db.sn_note_id s)) ->
  (wf d -> forall id' s', note_snapshots d !! id' = Some s' ->
     db.sn_note_id s' = db.sn_note_id s -> db.sn_version s' = db.sn_version s -> id' = id) ->
  evolves d (set_snapshots <[id := s]> d).
Proof.
  intros ? Hn Hu. apply evolves_keep; cbn; try lia; eauto.
  intros Hw. apply wf_insert_snapshot; [done|auto|by apply Hn|by apply Hu].
Qed.

Lemma evolves_insert_job d id j js :
  (wf d -> db.j_id j = id) -> job_seq d <= js -> (wf d -> id <= js) ->
  evolves d (with_sequences (change_seq d) js (upload_seq d) (set_jobs <[id := j]> d)).
Proof.
  intros ? ? Hle. apply evolves_keep; cbn; try lia; eauto.
  intros Hw. apply wf_insert_job; auto.
Qed.

Lemma evolves_set_job d id j :
  (wf d -> db.j_id j = id) -> is_Some (outbox_jobs d !! id) -> evolves d (set_jobs <[id := j]> d).
Proof.
  intros ? [j0 Hj0]. apply (evolves_insert_job d id j (job_seq d)); [done|lia|].
  intros Hw. by destruct (wf_job _ Hw _ _ Hj0).
Qed.

Lemma evolves_append_change d row :
  (forall s, db.ch_global_sequence (row s) = s) ->
  (forall s, q.references (notes d) (db.ch_note_id (row s)) = true) ->
  (forall s, is_Some (sync_devices d !! db.ch_device_id (row s))) ->
  operation_key (row (change_seq d + 1)) ∉ map operation_key (note_changes d) ->
  db.ch_id (row (change_seq d + 1)) ∉ map db.ch_id (note_changes d) ->
  evolves d (append_change row d).
Proof.
  intros Hs ? ? ? ?. split; cbn; try lia; eauto.
  - intros. by apply wf_append_change.
  - exists [row (change_seq d + 1)]. split; [done|]. repeat constructor; rewrite Hs; lia.
Qed.

(** ** The invariant under the statements *)

Definition keeps {A} (R : Db -> Db -> Prop) (q : Stmt A) : Prop :=
  forall now d d' a, q now d = Ok (d', a) -> R d d'.

(** A statement that only reads. *)
Definition reads {A} (q : Stmt A) : Prop := keeps eq q.

Lemma one_Ok {A} d (r : option A) d' a : one d r = Ok (d', a) <-> d' = d /\ r = Some a.
Proof. destruct r; cbn; split; [intros [= <- <-]; done|intros [-> [= ->]]; done|done|by intros []]. Qed.

Lemma owned_note_Some d id owner n :
  q.owned_note d id owner = Some n <-> notes d !! id = Some n /\ db.n_owner_id n = owner.
Proof.
  unfold q.owned_note. destruct (notes d !! id) as [m|]; cbn; [|by split; [|intros []]].
  destruct (N.eqb_spec (db.n_owner_id m) owner); split; [intros [= <-]; done|by intros [[= ->] _]|done|].
  intros [[= ->] ?]. congruence.
Qed.

Lemma note_block_Some d id note b :
  q.note_block d id note = Some b <-> note_blocks d !! id = Some b /\ db.b_note_id b = note.
Proof.
  unfold q.note_block. destruct (note_blocks d !! id) as [m|]; cbn; [|by split; [|intros []]].
  destruct (N.eqb_spec (db.b_note_id m) note); split; [intros [= <-]; done|by intros [[= ->] _]|done|].
  intros [[= ->] ?]. congruence.
Qed.

Lemma owned_device_Some d id owner v :
  q.owned_device d id owner = Some v <-> sync_devices d !! id = Some v /\ db.d_owner_id v = owner.
Proof.
  unfold q.owned_device. destruct (sync_devices d !! id) as [m|]; cbn; [|by split; [|intros []]].
  destruct (N.eqb_spec (db.d_owner_id m) owner); split; [intros [= <-]; done|by intros [[= ->] _]|done|].
  intros [[= ->] ?]. congruence.
Qed.

Lemma elem_of_rows {K V} `{Countable K} (m : gmap K V) v :
  v ∈ rows m <-> exists k, m !! k = Some v.
Proof.
  unfold rows. rewrite list_elem_of_fmap. split.
  - intros ([k w] & -> & Hk%elem_of_map_to_list). eauto.
  - intros [k Hk]. exists (k, v). split; [done|]. by apply elem_of_map_to_list.
Qed.

Lemma name_taken_false d id owner name :
  q.name_taken d id owner name = false ->
  forall id' c', categories d !! id' = Some c' -> db.cat_owner_id c' = owner ->
    db.cat_name c' = name -> db.cat_id c' = id.
Proof.
  intros Hf id' c' Hc Ho Hn. unfold q.name_taken in Hf.
  destruct (N.eqb_spec (db.cat_id c') id) as [|Hne]; [done|exfalso].
  apply not_true_iff_false in Hf. apply Hf, existsb_exists. exists c'.
  split; [apply list_elem_of_In, elem_of_rows; eauto|].
  apply andb_true_intro. split; [apply andb_true_intro; split|].
  - by apply N.eqb_eq.
  - by apply String.eqb_eq.
  - by apply negb_true_iff, N.eqb_neq.
Qed.

Section statements.
Context {X : External Db}.

Lemma keeps_CreateNote id owner title props v : keeps evolves (q.CreateNote id owner title props v).
Proof.
  intros now d d' a H. unfold q.CreateNote in H. split_match H.
  apply evolves_insert_note; [done|]. intros n0. congruence.
Qed.

Lemma keeps_UpdateNoteState id owner title props v del :
  keeps evolves (q.UpdateNoteState id owner title props v del).
Proof.
  intros now d d' a H. unfold q.UpdateNoteState in H. split_match H.
  apply owned_note_Some in E as [Hn Ho]. apply evolves_insert_note; cbn.
  - intros Hw. by eapply wf_note_key.
  - congruence.
Qed.

Lemma keeps_DeleteNote id owner v : keeps evolves (q.DeleteNote id owner v).
Proof.
  intros now d d' a H. unfold q.DeleteNote in H. split_match H.
  apply owned_note_Some in E as [Hn Ho]. apply evolves_insert_note; cbn.
  - intros Hw. by eapply wf_note_key.
  - congruence.
Qed.

Lemma keeps_CreateBlock id note bt text pos props :
  keeps evolves (q.CreateBlock id note bt text pos props).
Proof.
  intros now d d' a H. unfold q.CreateBlock in H. split_match H.
  apply evolves_insert_block; cbn; [done|by eauto|congruence].
Qed.

Lemma keeps_UpdateBlockState id note bt text pos props del :
  keeps evolves (q.UpdateBlockState id note bt text pos props del).
Proof.
  intros now d d' a H. unfold q.UpdateBlockState in H. split_match H.
  apply note_block_Some in E as [Hb Hn]. apply evolves_insert_block; cbn.
  - intros Hw. by apply (wf_block _ Hw _ _ Hb).
  - intros Hw. by apply (wf_block _ Hw _ _ Hb).
  - congruence.
Qed.

Lemma keeps_DeleteBlock id note : keeps evolves (q.DeleteBlock id note).
Proof.
  intros now d d' a H. unfold q.DeleteBlock in H. split_match H.
  apply note_block_Some in E as [Hb Hn]. apply evolves_insert_block; cbn.
  - intros Hw. by apply (wf_block _ Hw _ _ Hb).
  - intros Hw. by apply (wf_block _ Hw _ _ Hb).
  - congruence.
Qed.

Lemma keeps_CreateCategory id owner name : keeps evolves (q.CreateCategory id owner name).
Proof.
  intros now d d' a H. unfold q.CreateCategory in H. split_match H.
  apply evolves_insert_category; cbn; [done|]. intros Hw id' c' Hc Ho Hn.
  pose proof (name_taken_false _ _ _ _ E0 _ _ Hc Ho Hn).
  destruct (wf_category _ Hw _ _ Hc); congruence.
Qed.

Lemma active_category_Some d id owner c :
  q.active_category d id owner = Some c <->
  categories d !! id = Some c /\ db.cat_owner_id c = owner /\ db.cat_deleted_at c = None.
Proof.
  unfold q.active_category. destruct (categories d !! id) as [m|]; cbn; [|by split; [|intros []]].
  destruct (N.eqb_spec (db.cat_owner_id m) owner); cbn.
  - case_bool_decide; split; [intros [= <-]; done|by intros [[= ->] _]|done|].
    intros ([= ->] & _ & ?). congruence.
  - split; [done|]. intros ([= ->] & ? & _). congruence.
Qed.

Lemma keeps_UpdateCategory id owner name : keeps evolves (q.UpdateCategory id owner name).
Proof.
  intros now d d' a H. unfold q.UpdateCategory in H. split_match H.
  apply active_category_Some in E as (Hc & Ho & _). apply evolves_insert_category; cbn.
  - intros Hw. by destruct (wf_category _ Hw _ _ Hc).
  - intros Hw id' c' Hc' Ho' Hn'. rewrite Ho in Ho'.
    pose proof (name_taken_false _ _ _ _ E0 _ _ Hc' Ho' Hn').
    destruct (wf_category _ Hw _ _ Hc'); congruence.
Qed.

Lemma keeps_DeleteCategory id owner : keeps evolves (q.DeleteCategory id owner).
Proof.
  intros now d d' a H. unfold q.DeleteCategory in H. split_match H.
  apply active_category_Some in E as (Hc & Ho & _). apply evolves_insert_category; cbn.
  - intros Hw. by destruct (wf_category _ Hw _ _ Hc).
  - intros Hw. by destruct (wf_category _ Hw _ _ Hc).
Qed.

Lemma keeps_CreateDevice id owner a b c v : keeps evolves (q.CreateDevice id owner a b c v).
Proof.
  intros now d d' r H. unfold q.CreateDevice in H. split_match H.
  apply evolves_insert_device; cbn; [done|congruence].
Qed.

Lemma keeps_RevokeDevice id owner : keeps evolves (q.RevokeDevice id owner).
Proof.
  intros now d d' r H. unfold q.RevokeDevice in H. split_match H.
  apply owned_device_Some in E as [Hv Ho]. apply evolves_insert_device; cbn; [|congruence].
  intros Hw. by eapply wf_device_key.
Qed.

Lemma keeps_UpdateDeviceCursor id owner c : keeps evolves (q.UpdateDeviceCursor id owner c).
Proof.
  intros now d d' r H. unfold q.UpdateDeviceCursor in H. split_match H.
  apply owned_device_Some in E as [Hv Ho]. apply evolves_insert_device; cbn; [|congruence].
  intros Hw. by eapply wf_device_key.
Qed.

Lemma existsb_false {A} (f : A -> bool) l x : existsb f l = false -> x ∈ l -> f x = false.
Proof.
  intros Hf Hx. destruct (f x) eqn:E; [|done]. exfalso.
  apply not_true_iff_false in Hf. apply Hf, existsb_exists. exists x.
  split; [by apply list_elem_of_In|done].
Qed.

Lemma is_operation_spec dev op c :
  q.is_operation dev op c = true <-> operation_key c = (dev, op).
Proof.
  unfold q.is_operation, operation_key. rewrite andb_true_iff, String.eqb_eq, N.eqb_eq.
  split; [intros [-> ->]; done|intros [= -> ->]; done].
Qed.

Lemma keeps_InsertNoteChange id owner n b dev op t bv rv f sv data :
  keeps evolves (q.InsertNoteChange id owner n b dev op t bv rv f sv data).
Proof.
  intros now d d' r H. unfold q.InsertNoteChange in H. split_match H. to_prop.
  apply evolves_append_change; cbn; try done.
  - intros (c & Heq & Hc)%list_elem_of_fmap. pose proof (existsb_false _ _ _ E Hc) as Hf.
    apply orb_false_elim in Hf as [_ Hf]. apply not_true_iff_false in Hf. apply Hf.
    by apply is_operation_spec.
  - intros (c & Heq & Hc)%list_elem_of_fmap. pose proof (existsb_false _ _ _ E Hc) as Hf.
    apply orb_false_elim in Hf as [Hf _]. apply N.eqb_neq in Hf. congruence.
Qed.

Lemma keeps_EnqueueOutboxJob t p at_ : keeps evolves (q.EnqueueOutboxJob t p at_).
Proof.
  intros now d d' r H. unfold q.EnqueueOutboxJob in H. simplify_eq/=.
  apply evolves_insert_job; cbn; [done|lia|lia].
Qed.

End statements.

#[export] Hint Resolve keeps_CreateNote keeps_UpdateNoteState keeps_DeleteNote
  keeps_CreateBlock keeps_UpdateBlockState keeps_DeleteBlock keeps_CreateCategory
  keeps_UpdateCategory keeps_DeleteCategory keeps_CreateDevice keeps_RevokeDevice
  keeps_UpdateDeviceCursor keeps_InsertNoteChange keeps_EnqueueOutboxJob : frame.

Section reads.
Context {X : External Db}.

Lemma reads_GetNoteForOwner id o : reads (q.GetNoteForOwner id o).
Proof. intros now d d' a [-> _]%one_Ok. done. Qed.

Lemma reads_GetNoteForOwnerForUpdate id o : reads (q.GetNoteForOwnerForUpdate id o).
Proof. intros now d d' a [-> _]%one_Ok. done. Qed.

Lemma reads_GetBlockForNoteForUpdate id n : reads (q.GetBlockForNoteForUpdate id n).
Proof. intros now d d' a [-> _]%one_Ok. done. Qed.

Lemma reads_ListBlocksForNote n : reads (q.ListBlocksForNote n).
Proof. by intros now d d' a [= <- _]. Qed.

Lemma reads_GetLastAppliedCursorForNote n : reads (q.GetLastAppliedCursorForNote n).
Proof. by intros now d d' a [= <- _]. Qed.

Lemma reads_FindProcessedOperation dev op : reads (q.FindProcessedOperation dev op).
Proof. intros now d d' a [-> _]%one_Ok. done. Qed.

Lemma reads_CountChangesSinceLastSnapshot n : reads (q.CountChangesSinceLastSnapshot n).
Proof. by intros now d d' a [= <- _]. Qed.

Lemma reads_SumChangeBytesSinceLastSnapshot n : reads (q.SumChangeBytesSinceLastSnapshot n).
Proof. by intros now d d' a [= <- _]. Qed.

Lemma reads_GetCategoryForOwnerForUpdate id o : reads (q.GetCategoryForOwnerForUpdate id o).
Proof. intros now d d' a [-> _]%one_Ok. done. Qed.

Lemma reads_GetDeviceForOwnerForUpdate id o : reads (q.GetDeviceForOwnerForUpdate id o).
Proof. intros now d d' a [-> _]%one_Ok. done. Qed.

Lemma reads_GetChangesAfterCursor o c dev l : reads (q.GetChangesAfterCursor o c dev l).
Proof.
  intros now d d' a H. unfold q.GetChangesAfterCursor in H. split_match H.
Qed.

Lemma reads_HasChangesAfterCursor o c dev : reads (q.HasChangesAfterCursor o c dev).
Proof. by intros now d d' a [= -> _]. Qed.

Lemma reads_GetLatestSnapshotForNote id o : reads (q.GetLatestSnapshotForNote id o).
Proof. intros now d d' a [-> _]%one_Ok. done. Qed.

Lemma reads_ListDevices o : reads (q.ListDevices o).
Proof. by intros now d d' a [= -> _]. Qed.

End reads.

#[export] Hint Resolve reads_GetNoteForOwner reads_GetNoteForOwnerForUpdate reads_GetBlockForNoteForUpdate
  reads_ListBlocksForNote reads_GetLastAppliedCursorForNote reads_FindProcessedOperation
  reads_CountChangesSinceLastSnapshot reads_SumChangeBytesSinceLastSnapshot reads_GetCategoryForOwnerForUpdate
  reads_GetDeviceForOwnerForUpdate reads_GetChangesAfterCursor reads_HasChangesAfterCursor
  reads_GetLatestSnapshotForNote reads_ListDevices : frame.
