(* ===== verification/Store.v ===== *)
(** * The persistence boundary

    [internal/store]: the entity types the services work with, the conversions
    from database rows ([convert.go]) and one method per statement
    ([notes.go], [sync.go], [categories.go], [devices.go], [jobs.go]).  A
    method takes the [Store] it is called on: the pool or an open transaction. *)

From S2P Require Import Prelude GoText GoFloat Json HttpApi Constants External Schema Queries.

(** ** Entities *)

Module store.

Record SyncDevice := mkSyncDevice {
  Dev_ID : string; Dev_OwnerID : UUID; Dev_DeviceName : option string;
  Dev_Platform : option string; Dev_AppVersion : option string;
  Dev_ProtocolVersion : Z; Dev_LastGlobalCursor : Z; Dev_LastSeenAt : Time;
  Dev_CreatedAt : Time; Dev_RevokedAt : option Time
}.

Record Note := mkNote {
  Note_ID : UUID; Note_OwnerID : UUID; Note_Title : string;
  Note_NoteProperties : RawMessage; Note_CurrentVersion : Z; Note_CreatedAt : Time;
  Note_UpdatedAt : Time; Note_DeletedAt : option Time
}.

Record NoteBlock := mkNoteBlock {
  Block_ID : UUID; Block_NoteID : UUID; Block_BlockType : string;
  Block_TextContent : string; Block_Position : string;
  Block_BlockProperties : RawMessage; Block_CreatedAt : Time; Block_UpdatedAt : Time;
  Block_DeletedAt : option Time
}.

Record NoteChange := mkNoteChange {
  Change_ID : UUID; Change_OwnerID : UUID; Change_NoteID : UUID;
  Change_BlockID : option UUID; Change_DeviceID : string;
  Change_ClientOperationID : UUID; Change_OperationType : string;
  Change_BaseNoteVersion : Z; Change_ResultingNoteVersion : Z;
  Change_ChangeFormat : string; Change_SchemaVersion : Z; Change_ChangeData : RawMessage;
  Change_GlobalSequence : Z; Change_CreatedAt : Time
}.

Record NoteSnapshot := mkNoteSnapshot {
  Snap_ID : UUID; Snap_NoteID : UUID; Snap_OwnerID : UUID; Snap_Version : Z;
  Snap_LastAppliedCursor : Z; Snap_SnapshotFormat : string; Snap_SchemaVersion : Z;
  Snap_SnapshotData : RawMessage; Snap_Checksum : string; Snap_CreatedAt : Time
}.

Record OutboxJob := mkOutboxJob {
  Job_ID : Z; Job_JobType : string; Job_Payload : RawMessage; Job_AvailableAt : Time;
  Job_Attempts : Z; Job_LockedAt : option Time; Job_LockedBy : option string;
  Job_CompletedAt : option Time; Job_LastError : option message; Job_CreatedAt : Time
}.

Record CreateDeviceParams := mkCreateDeviceParams {
  CD_ID : string; CD_OwnerID : UUID; CD_DeviceName : option string;
  CD_Platform : option string; CD_AppVersion : option string; CD_ProtocolVersion : Z
}.

Record InsertNoteChangeParams := mkInsertNoteChangeParams {
  INC_ID : UUID; INC_OwnerID : UUID; INC_NoteID : option UUID; INC_BlockID : option UUID;
  INC_DeviceID : string; INC_ClientOperationID : UUID; INC_OperationType : string;
  INC_BaseNoteVersion : Z; INC_ResultingNoteVersion : Z; INC_ChangeFormat : string;
  INC_SchemaVersion : Z; INC_ChangeData : RawMessage
}.

Record NoteDocument := mkNoteDocument {
  Doc_Note : Note; Doc_Blocks : list NoteBlock; Doc_LastAppliedCursor : Z
}.

(** The payload of a snapshot job. *)
Record SnapshotJobPayload := mkSnapshotJobPayload {
  SJP_NoteID : UUID; SJP_OwnerID : UUID; SJP_ExpectedVersion : Z
}.

(** ** Conversions *)

Definition NormalizeJSON (raw : RawMessage) : RawMessage :=
  match raw with
  | None | Some JNull => Some empty_object
  | Some _ => raw
  end.

(** The JSONB argument [\[\]byte(NormalizeJSON(raw))]. *)
Definition jsonb_param (raw : RawMessage) : json := default empty_object (NormalizeJSON raw).

Definition RawObjectOrEmpty (value : RawMessage) : RawMessage :=
  match value with
  | None => Some empty_object
  | Some _ => value
  end.

(** [pgTime]: the zero time is NULL. *)
Definition pgTime (value : Time) : option Time :=
  if value =? zero_time then None else Some value.

Definition fromDBDevice (v : db.SyncDevice) : store.SyncDevice :=
  store.mkSyncDevice (db.d_id v) (db.d_owner_id v) (db.d_device_name v) (db.d_platform v)
    (db.d_app_version v) (db.d_protocol_version v) (db.d_last_global_cursor v)
    (db.d_last_seen_at v) (db.d_created_at v) (db.d_revoked_at v).

Definition fromDBNote (v : db.Note) : store.Note :=
  store.mkNote (db.n_id v) (db.n_owner_id v) (db.n_title v)
    (NormalizeJSON (Some (db.n_note_properties v))) (db.n_current_version v)
    (db.n_created_at v) (db.n_updated_at v) (db.n_deleted_at v).

Definition fromDBBlock (v : db.NoteBlock) : store.NoteBlock :=
  store.mkNoteBlock (db.b_id v) (db.b_note_id v) (db.b_block_type v) (db.b_text_content v)
    (db.b_position v) (NormalizeJSON (Some (db.b_block_properties v))) (db.b_created_at v)
    (db.b_updated_at v) (db.b_deleted_at v).

(** A NULL note_id reads as the nil identifier. *)
Definition fromDBChange (v : db.NoteChange) : store.NoteChange :=
  store.mkNoteChange (db.ch_id v) (db.ch_owner_id v) (default uuid_Nil (db.ch_note_id v))
    (db.ch_block_id v) (db.ch_device_id v) (db.ch_client_operation_id v)
    (db.ch_operation_type v) (db.ch_base_note_version v) (db.ch_resulting_note_version v)
    (db.ch_change_format v) (db.ch_schema_version v)
    (NormalizeJSON (Some (db.ch_change_data v))) (db.ch_global_sequence v)
    (db.ch_created_at v).

Definition fromDBSnapshot (v : db.NoteSnapshot) : store.NoteSnapshot :=
  store.mkNoteSnapshot (db.sn_id v) (db.sn_note_id v) (db.sn_owner_id v) (db.sn_version v)
    (db.sn_last_applied_cursor v) (db.sn_snapshot_format v) (db.sn_schema_version v)
    (Some (db.sn_snapshot_data v)) (db.sn_checksum v) (db.sn_created_at v).

Definition fromDBOutboxJob (v : db.OutboxJob) : store.OutboxJob :=
  store.mkOutboxJob (db.j_id v) (db.j_job_type v) (Some (db.j_payload v))
    (db.j_available_at v) (db.j_attempts v) (db.j_locked_at v) (db.j_locked_by v)
    (db.j_completed_at v) (db.j_last_error v) (db.j_created_at v).

Definition mapNoRows (err : goerr) : goerr :=
  match err with
  | ErrNoRows => ErrNotFound
  | _ => err
  end.

(** Maps the error of a computation, as [return v, mapNoRows(err)] does. *)
Definition map_err {A} (f : goerr -> goerr) (m : M A) : M A := fun w =>
  match m w with
  | (w', Ok a) => (w', Ok a)
  | (w', Err e) => (w', Err (f e))
  end.

Definition IsUniqueViolation (err : goerr) : bool :=
  match err with
  | ErrUniqueViolation => true
  | _ => false
  end.

Definition is_not_found (err : goerr) : bool :=
  match err with
  | ErrNotFound => true
  | _ => false
  end.

Section with_external.
Context {X : External Db}.

(** ** Notes and blocks ([notes.go]) *)

Definition GetNoteForOwner (s : Store) (noteID ownerID : UUID) : M Note :=
  note ← map_err mapNoRows (exec s (q.GetNoteForOwner noteID ownerID));
  mret (fromDBNote note).

Definition GetNoteForOwnerForUpdate (s : Store) (noteID ownerID : UUID) : M Note :=
  note ← map_err mapNoRows (exec s (q.GetNoteForOwnerForUpdate noteID ownerID));
  mret (fromDBNote note).

Definition ListBlocksForNote (s : Store) (noteID : UUID) : M (list NoteBlock) :=
  found ← exec s (q.ListBlocksForNote noteID);
  mret (map fromDBBlock found).

Definition GetLastAppliedCursorForNote (s : Store) (noteID : UUID) : M Z :=
  exec s (q.GetLastAppliedCursorForNote noteID).

Definition GetNoteDocumentForOwnerForUpdate (s : Store) (noteID ownerID : UUID)
    : M NoteDocument :=
  note ← map_err mapNoRows (exec s (q.GetNoteForOwnerForUpdate noteID ownerID));
  blocks ← ListBlocksForNote s noteID;
  cursor ← GetLastAppliedCursorForNote s noteID;
  mret (mkNoteDocument (fromDBNote note) blocks cursor).

Definition GetBlockForNoteForUpdate (s : Store) (blockID noteID : UUID) : M NoteBlock :=
  block ← map_err mapNoRows (exec s (q.GetBlockForNoteForUpdate blockID noteID));
  mret (fromDBBlock block).

Definition ValidateUploadTarget (s : Store) (noteID blockID ownerID : UUID) : M unit :=
  note ← GetNoteForOwner s noteID ownerID;
  match Note_DeletedAt note with
  | Some _ => fail ErrNotFound
  | None =>
      block ← GetBlockForNoteForUpdate s blockID noteID;
      match Block_DeletedAt block with
      | Some _ => fail ErrNotFound
      | None => mret tt
      end
  end.

Definition CreateNote (s : Store) (note : Note) : M unit :=
  exec s (q.CreateNote (Note_ID note) (Note_OwnerID note) (Note_Title note)
            (jsonb_param (Note_NoteProperties note)) (Note_CurrentVersion note)).

Definition UpdateNoteState (s : Store) (note : Note) : M unit :=
  exec s (q.UpdateNoteState (Note_ID note) (Note_OwnerID note) (Note_Title note)
            (jsonb_param (Note_NoteProperties note)) (Note_CurrentVersion note)
            (Note_DeletedAt note)).

Definition DeleteNote (s : Store) (noteID ownerID : UUID) (expectedVersion : Z) : M Note :=
  note ← map_err mapNoRows (exec s (q.DeleteNote noteID ownerID expectedVersion));
  mret (fromDBNote note).

Definition CreateBlock (s : Store) (block : NoteBlock) : M unit :=
  exec s (q.CreateBlock (Block_ID block) (Block_NoteID block) (Block_BlockType block)
            (Block_TextContent block) (Block_Position block)
            (jsonb_param (Block_BlockProperties block))).

Definition UpdateBlockState (s : Store) (block : NoteBlock) : M unit :=
  exec s (q.UpdateBlockState (Block_ID block) (Block_NoteID block) (Block_BlockType block)
            (Block_TextContent block) (Block_Position block)
            (jsonb_param (Block_BlockProperties block)) (Block_DeletedAt block)).

Definition DeleteBlock (s : Store) (blockID noteID : UUID) : M NoteBlock :=
  block ← map_err mapNoRows (exec s (q.DeleteBlock blockID noteID));
  mret (fromDBBlock block).

(** Three statements; on the pool each one commits by itself. *)
Definition GetNoteDocument (s : Store) (noteID ownerID : UUID) : M NoteDocument :=
  note ← GetNoteForOwner s noteID ownerID;
  blocks ← ListBlocksForNote s noteID;
  cursor ← GetLastAppliedCursorForNote s noteID;
  mret (mkNoteDocument note blocks cursor).

(** ** Change history ([sync.go]) *)

Definition FindProcessedOperation (s : Store) (deviceID : string) (operationID : UUID)
    : M NoteChange :=
  change ← map_err mapNoRows (exec s (q.FindProcessedOperation deviceID operationID));
  mret (fromDBChange change).

Definition InsertNoteChange (s : Store) (arg : InsertNoteChangeParams) : M NoteChange :=
  change ← exec s (q.InsertNoteChange (INC_ID arg) (INC_OwnerID arg) (INC_NoteID arg)
              (INC_BlockID arg) (INC_DeviceID arg) (INC_ClientOperationID arg)
              (INC_OperationType arg) (INC_BaseNoteVersion arg)
              (INC_ResultingNoteVersion arg) (INC_ChangeFormat arg)
              (INC_SchemaVersion arg) (jsonb_param (INC_ChangeData arg)));
  mret (fromDBChange change).

Definition GetChangesAfterCursor (s : Store) (ownerID : UUID) (cursor : Z)
    (excludeDeviceID : string) (limit : Z) : M (list NoteChange) :=
  found ← exec s (q.GetChangesAfterCursor ownerID cursor excludeDeviceID limit);
  mret (map fromDBChange found).

Definition HasChangesAfterCursor (s : Store) (ownerID : UUID) (cursor : Z)
    (excludeDeviceID : string) : M bool :=
  exec s (q.HasChangesAfterCursor ownerID cursor excludeDeviceID).

Definition CountChangesSinceLastSnapshot (s : Store) (noteID : UUID) : M Z :=
  exec s (q.CountChangesSinceLastSnapshot noteID).

Definition SumChangeBytesSinceLastSnapshot (s : Store) (noteID : UUID) : M Z :=
  exec s (q.SumChangeBytesSinceLastSnapshot noteID).

(** ** Categories ([categories.go]) *)

Definition CreateCategory (s : Store) (id ownerID : UUID) (name : string) : M unit :=
  exec s (q.CreateCategory id ownerID name).

Definition LockCategoryForOwner (s : Store) (id ownerID : UUID) : M unit :=
  _ ← map_err mapNoRows (exec s (q.GetCategoryForOwnerForUpdate id ownerID));
  mret tt.

Definition UpdateCategory (s : Store) (id ownerID : UUID) (name : string) : M unit :=
  exec s (q.UpdateCategory id ownerID name).

Definition DeleteCategory (s : Store) (id ownerID : UUID) : M unit :=
  exec s (q.DeleteCategory id ownerID).

(** ** Devices ([devices.go]) *)

Definition CreateDevice (s : Store) (arg : CreateDeviceParams) : M SyncDevice :=
  device ← exec s (q.CreateDevice (CD_ID arg) (CD_OwnerID arg) (CD_DeviceName arg)
              (CD_Platform arg) (CD_AppVersion arg) (CD_ProtocolVersion arg));
  mret (fromDBDevice device).

Definition ListDevices (s : Store) (ownerID : UUID) : M (list SyncDevice) :=
  found ← exec s (q.ListDevices ownerID);
  mret (map fromDBDevice found).

Definition GetDeviceForOwner (s : Store) (deviceID : string) (ownerID : UUID) : M SyncDevice :=
  device ← map_err mapNoRows (exec s (q.GetDeviceForOwner deviceID ownerID));
  mret (fromDBDevice device).

Definition GetDeviceForOwnerForUpdate (s : Store) (deviceID : string) (ownerID : UUID)
    : M SyncDevice :=
  device ← map_err mapNoRows (exec s (q.GetDeviceForOwnerForUpdate deviceID ownerID));
  mret (fromDBDevice device).

Definition RevokeDevice (s : Store) (deviceID : string) (ownerID : UUID) : M unit :=
  _ ← GetDeviceForOwner s deviceID ownerID;
  exec s (q.RevokeDevice deviceID ownerID).

Definition UpdateDeviceCursor (s : Store) (deviceID : string) (ownerID : UUID) (cursor : Z)
    : M unit :=
  exec s (q.UpdateDeviceCursor deviceID ownerID cursor).

(** ** Jobs and snapshots ([jobs.go]) *)

Definition JobCreateSnapshot : string := "create_snapshot".

(** [json.Marshal] of the payload; identifiers marshal as their text. *)
Definition encode_payload (p : SnapshotJobPayload) : json :=
  JObj [("noteId", JStr (uuid_text (SJP_NoteID p)));
        ("ownerId", JStr (uuid_text (SJP_OwnerID p)));
        ("expectedVersion", JNum (format_int (SJP_ExpectedVersion p)))]%string.

Definition EnqueueSnapshotJob (s : Store) (noteID ownerID : UUID) (expectedVersion : Z)
    : M OutboxJob :=
  job ← exec s (q.EnqueueOutboxJob JobCreateSnapshot
           (encode_payload (mkSnapshotJobPayload noteID ownerID expectedVersion)) None);
  mret (fromDBOutboxJob job).

Definition ClaimOutboxJob (s : Store) (workerID : string) (lockTimeout : Time) : M OutboxJob :=
  job ← map_err mapNoRows (exec s (q.ClaimOutboxJob workerID lockTimeout));
  mret (fromDBOutboxJob job).

Definition CompleteOutboxJob (s : Store) (jobID : Z) : M unit :=
  exec s (q.CompleteOutboxJob jobID).

Definition FailOutboxJob (s : Store) (jobID : Z) (msg : message) (retryAfter : Time) : M unit :=
  exec s (q.FailOutboxJob jobID msg retryAfter).

(** A snapshot row is stored with the bytes of its document. *)
Definition InsertSnapshot (s : Store) (snapshot : NoteSnapshot) : M NoteSnapshot :=
  match Snap_SnapshotData snapshot with
  | None => fail ErrDriver
  | Some data =>
      inserted ← exec s (q.InsertSnapshot
        (db.mkNoteSnapshot (Snap_ID snapshot) (Snap_NoteID snapshot) (Snap_OwnerID snapshot)
           (Snap_Version snapshot) (Snap_SnapshotFormat snapshot)
           (Snap_SchemaVersion snapshot) data (Snap_Checksum snapshot) zero_time
           (Snap_LastAppliedCursor snapshot)));
      mret (fromDBSnapshot inserted)
  end.

Definition GetLatestSnapshotForNote (s : Store) (noteID ownerID : UUID) : M NoteSnapshot :=
  snapshot ← map_err mapNoRows (exec s (q.GetLatestSnapshotForNote noteID ownerID));
  mret (fromDBSnapshot snapshot).

End with_external.
End store.

(** ** Lemmas *)

Lemma normalized raw : exists v, store.NormalizeJSON raw = Some v.
Proof. destruct raw as [[]|]; eexists; reflexivity. Qed.

Lemma NormalizeJSON_idemp raw :
  store.NormalizeJSON (store.NormalizeJSON raw) = store.NormalizeJSON raw.
Proof. by destruct raw as [[]|]. Qed.

Lemma jsonb_param_normalized raw :
  store.jsonb_param (store.NormalizeJSON raw) = store.jsonb_param raw.
Proof. unfold store.jsonb_param. by rewrite NormalizeJSON_idemp. Qed.

Lemma map_err_Ok {A} f (m : M A) w w' a :
  store.map_err f m w = (w', Ok a) <-> m w = (w', Ok a).
Proof. unfold store.map_err. destruct (m w) as [w1 []]; split; congruence. Qed.
