(* ===== verification/Frame.v ===== *)
(** * What computations preserve

    Two ways of reasoning about the computations of Schema.v.  [sat R m]: from
    whatever state, and whether it fails or not, [m] only moves along the
    relation [R]; the proofs walk the code with the hint database [frame].
    [R] relates databases ([on_db]) or says what becomes of a transaction
    ([stays_broken]).  [m_inv] takes one successful run of a computation apart,
    statement by statement. *)

From S2P Require Import Prelude GoText Json HttpApi Constants External Schema Queries DbInvariant.
From S2P Require Import Store.

(** ** Walking through code *)

Section sat.
Context (R : World -> World -> Prop).

Definition sat {A} (m : M A) : Prop := forall w w' r, m w = (w', r) -> R w w'.

Definition sat_closure {V} (c : Closure V) : Prop :=
  forall v w w' o, c v w = (w', o) -> R w w'.

End sat.

(** The relations the code is walked for: they compose, and bookkeeping, reads
    and savepoints respect them. *)
Class Framed {X : External Db} (R : World -> World -> Prop) : Prop := {
  framed_preorder :: PreOrder R;
  framed_quiet : forall w w',
    w_db w' = w_db w -> w_tx w' = w_tx w -> (w_step w <= w_step w')%nat -> R w w';
  framed_read : forall A (q : Stmt A), reads q -> sat R (exec_tx q);
  framed_savepoint : forall V (fn : Store -> Closure V),
    sat_closure R (fn Tx) -> sat_closure R (WithSavepoint Tx fn)
}.

Section frame.
Context {X : External Db} (R : World -> World -> Prop) `{!Framed R}.

Lemma sat_ret {A} (a : A) : sat R (mret a).
Proof. by intros w w' r [= <- _]. Qed.

Lemma sat_fail {A} e : sat R (A := A) (fail e).
Proof. by intros w w' r [= <- _]. Qed.

Lemma sat_lift {A} (r : res A) : sat R (lift r).
Proof. by intros w w' r' [= <- _]. Qed.

Lemma sat_uuidNew : sat R uuidNew.
Proof. intros w w' r [= <- _]. apply framed_quiet; [done..|cbn; lia]. Qed.

Lemma sat_timeNow : sat R timeNow.
Proof. intros w w' r [= <- _]. apply framed_quiet; [done..|cbn; lia]. Qed.

Lemma sat_bind {A B} (m : M A) (f : A -> M B) :
  sat R m -> (forall a, sat R (f a)) -> sat R (m ≫= f).
Proof using All.
  intros Hm Hf w w' r H. rewrite M_bind_eq in H. destruct (m w) as [w1 [a|e]] eqn:E.
  - etransitivity; [by eapply Hm|by eapply Hf].
  - injection H as <- <-. by eapply Hm.
Qed.

Lemma sat_attempt {A} (m : M A) : sat R m -> sat R (attempt m).
Proof.
  intros Hm w w' r H. unfold attempt in H. destruct (m w) as [w1 o] eqn:E.
  injection H as <- <-. by eapply Hm.
Qed.

Lemma sat_map_err {A} f (m : M A) : sat R m -> sat R (store.map_err f m).
Proof.
  intros Hm w w' r H. unfold store.map_err in H.
  destruct (m w) as [w1 []] eqn:E; injection H as <- <-; by eapply Hm.
Qed.

Lemma sat_read {A} (q : Stmt A) : reads q -> sat R (exec Tx q).
Proof using All. apply framed_read. Qed.

Lemma sat_run_closure {V} (c : Closure V) v :
  sat_closure R c -> sat R (fun w => let '(w', out) := c v w in (w', Ok out)).
Proof.
  intros Hc w w' r H. destruct (c v w) as [w1 o] eqn:E. injection H as <- _. by eapply Hc.
Qed.

Lemma sat_savepoint {V} (fn : Store -> Closure V) :
  sat_closure R (fn Tx) -> sat_closure R (WithSavepoint Tx fn).
Proof using All. apply framed_savepoint. Qed.

End frame.

#[export] Hint Resolve sat_ret sat_fail sat_lift sat_uuidNew sat_timeNow sat_read
  sat_attempt sat_map_err sat_run_closure sat_savepoint : frame.

#[export] Hint Extern 1 (Reflexive _) => solve [typeclasses eauto] : frame.
#[export] Hint Extern 1 (Framed _) => solve [typeclasses eauto] : frame.

(** Walks through a computation: binds, cases, and the parts in [frame]. *)
Ltac frame_walk :=
  repeat first
    [ progress eauto with frame
    | apply sat_bind; [apply _| |]
    | apply sat_attempt
    | apply sat_map_err
    | progress intros
    | case_match ].

(** ** Relations on the database *)

(** Relations on database states that compose and survive a rollback. *)
Class Rollable (R : Db -> Db -> Prop) : Prop := {
  rollable_preorder :: PreOrder R;
  rollable_rollback : forall d0 d, R d0 d -> R d0 (rollback_to d0 d)
}.

#[export] Instance evolves_rollable : Rollable evolves.
Proof. split; [apply _|apply evolves_rollback]. Qed.

#[export] Instance same_tables_rollable : Rollable same_tables.
Proof.
  split; [split; apply _|]. intros d0 d _. symmetry. apply same_tables_rollback.
Qed.

Definition on_db (R : Db -> Db -> Prop) (w w' : World) : Prop := R (w_db w) (w_db w').

Lemma rollback_to_savepoint_db {X : External Db} saved w w' r :
  rollback_to_savepoint saved w = (w', r) ->
  match r with
  | Ok _ => w_db w' = rollback_to saved (w_db w) /\ w_tx w' = TxActive
  | Err _ => w_db w' = w_db w /\ w_tx w' = TxDead
  end.
Proof.
  intros H. unfold rollback_to_savepoint in H.
  destruct (w_tx w) eqn:Etx; [| |by injection H as <- <-];
    destruct (round_trip (w_step w)); by injection H as <- <-.
Qed.

Section on_db.
Context {X : External Db} (R : Db -> Db -> Prop) `{!Rollable R}.

Lemma sat_exec_tx {A} (q : Stmt A) : keeps R q -> sat (on_db R) (exec_tx q).
Proof using All.
  intros Hq w w' r H. unfold exec_tx in H. unfold on_db.
  destruct (w_tx w); [|injection H as <- _; done..].
  destruct (round_trip (w_step w)); [|injection H as <- _; done..].
  destruct (q (w_now w) (w_db w)) as [[d a]|e] eqn:E.
  - injection H as <- _. by eapply Hq.
  - destruct e; by injection H as <- _.
Qed.

Lemma on_db_savepoint {V} (fn : Store -> Closure V) :
  sat_closure (on_db R) (fn Tx) -> sat_closure (on_db R) (WithSavepoint Tx fn).
Proof using All.
  assert (Hno : keeps R no_op) by (by intros now d d' a [= <- _]).
  intros Hfn v w w' o H. unfold WithSavepoint in H. unfold on_db in *.
  destruct (exec_tx no_op (count_savepoint w)) as [w1 r1] eqn:E1.
  pose proof (sat_exec_tx no_op Hno _ _ _ E1) as H1. unfold on_db in H1. cbn in H1.
  destruct r1 as [u|e]; [|by injection H as <- _].
  destruct (fn Tx v w1) as [w2 [v' [u2|e]]] eqn:E2; pose proof (Hfn _ _ _ _ E2) as H2; cbn in H2.
  - destruct (exec_tx no_op w2) as [w3 r3] eqn:E3.
    pose proof (sat_exec_tx no_op Hno _ _ _ E3) as H3. unfold on_db in H3. injection H as <- _.
    by rewrite H1, H2.
  - destruct (rollback_to_savepoint (w_db w1) w2) as [w3 r3] eqn:E3.
    assert (H13 : R (w_db w1) (w_db w3)).
    { apply rollback_to_savepoint_db in E3. destruct r3, E3 as [-> _]; [|done].
      by apply rollable_rollback. }
    destruct r3 as [u3|e3].
    + destruct (exec_tx no_op w3) as [w4 r4] eqn:E4.
      pose proof (sat_exec_tx no_op Hno _ _ _ E4) as H4. unfold on_db in H4. injection H as <- _.
      by rewrite H1, H13.
    + injection H as <- _. by rewrite H1.
Qed.

#[global] Instance on_db_framed : Framed (on_db R).
Proof using All.
  split.
  - unfold on_db. split; [by intros w|intros w1 w2 w3; by apply transitivity].
  - unfold on_db. by intros w w' -> _ _.
  - intros A q Hq. apply sat_exec_tx. intros now d d' a H. by rewrite (Hq _ _ _ _ H).
  - intros V fn. apply on_db_savepoint.
Qed.

(** A transaction on the pool, from the state it begins in. *)
Lemma WithTx_sat {A} (fn : Store -> M A) w w' r :
  sat (on_db R) (fn Tx) -> WithTx Pool fn w = (w', r) ->
  R (others (w_step w) (w_db w)) (w_db w').
Proof using All.
  intros Hfn H. rewrite WithTx_Pool in H.
  destruct (round_trip (w_step w)); [|by injection H as <- _..]. cbv zeta in H.
  destruct (fn Tx (begin_world w)) as [w2 r2] eqn:E.
  pose proof (Hfn _ _ _ E) as Hr. unfold on_db in Hr.
  change (w_db (begin_world w)) with (others (w_step w) (w_db w)) in *.
  pose proof (rollable_rollback _ _ Hr) as Hb.
  destruct r2; [|by injection H as <- _].
  destruct (w_tx w2); [destruct (round_trip (w_step w2))|..]; by injection H as <- _.
Qed.

End on_db.

(** ** Statements on the pool *)

(** The other clients respect [R]. *)
Class OthersKeep {X : External Db} (R : Db -> Db -> Prop) : Prop :=
  others_keep : forall n d, R d (others n d).

Lemma reads_one {A} (f : Db -> option A) : reads (fun _ d => one d (f d)).
Proof. intros now d d' a [-> _]%one_Ok. done. Qed.

Section on_pool.
Context {X : External Db} (R : Db -> Db -> Prop) `{!Rollable R} `{!OthersKeep R}.

Lemma sat_exec_pool {A} (q : Stmt A) : keeps R q -> sat (on_db R) (exec Pool q).
Proof using All.
  intros Hq w w' r H. unfold on_db. cbn [exec] in H. unfold exec_pool in H.
  pose proof (others_keep (R := R) (w_step w) (w_db w)) as Ho.
  set (w1 := set_db (others (w_step w) (w_db w)) (tick w)) in *.
  change (R (w_db w) (w_db w1)) in Ho.
  destruct (round_trip (w_step w)); [|by injection H as <- _|];
    (destruct (q (clock (w_step w)) (w_db w1)) as [[d a]|e] eqn:E; [|by injection H as <- _]);
    injection H as <- _; (transitivity (w_db w1); [done|by eapply Hq]).
Qed.

Lemma sat_pool_read {A} (q : Stmt A) : reads q -> sat (on_db R) (exec Pool q).
Proof using All.
  intros Hq. apply sat_exec_pool. intros now d d' a H. by rewrite (Hq _ _ _ _ H).
Qed.

End on_pool.

#[export] Hint Resolve sat_exec_pool sat_pool_read : frame.
#[export] Hint Extern 1 (OthersKeep _) => solve [typeclasses eauto] : frame.
#[export] Hint Extern 1 (Rollable _) => solve [typeclasses eauto] : frame.

(** A continuation may use what the first computation returned. *)
Lemma sat_bind_post {X : External Db} R `{!Framed R} {A B} (m : M A) (f : A -> M B) :
  sat R m -> (forall w w1 a, m w = (w1, Ok a) -> sat R (f a)) -> sat R (m ≫= f).
Proof.
  intros Hm Hf w w' r H. rewrite M_bind_eq in H. destruct (m w) as [w1 [a|e]] eqn:E.
  - etransitivity; [by eapply Hm|by eapply Hf].
  - injection H as <- <-. by eapply Hm.
Qed.

(** A statement on the pool that succeeded. *)
Lemma exec_pool_Ok {X : External Db} {A} (q : Stmt A) w w' a :
  exec Pool q w = (w', Ok a) ->
  exists d, q (clock (w_step w)) (others (w_step w) (w_db w)) = Ok (d, a) /\
    w' = set_db d (tick w).
Proof.
  cbn [exec]. unfold exec_pool. destruct (round_trip (w_step w)); [|done|];
    cbn; (destruct (q _ _) as [[d b]|e]; [|done]); [|done].
  intros [= <- <-]. by exists d.
Qed.

(** ** A broken transaction stays broken *)

Definition stays_broken (w w' : World) : Prop := w_tx w <> TxActive -> w_tx w' <> TxActive.

Lemma exec_tx_broken {X : External Db} {A} (q : Stmt A) : sat stays_broken (exec_tx q).
Proof.
  intros w w' r H Hb. unfold exec_tx in H. destruct (w_tx w) eqn:E; [done|..];
    injection H as <- _; by rewrite <- E in Hb.
Qed.

#[export] Instance stays_broken_framed {X : External Db} : Framed stays_broken.
Proof.
  split.
  - unfold stays_broken. split; [by intros w|intros w1 w2 w3; auto].
  - unfold stays_broken. by intros w w' _ -> _.
  - intros A q _. apply exec_tx_broken.
  - intros V fn _ v w w' o H Hb. unfold WithSavepoint, exec_tx in H. cbn in H.
    destruct (w_tx w) eqn:E; [done|..]; injection H as <- _; cbn; by rewrite E.
Qed.

(** ** Steps are counted up *)

Definition later (w w' : World) : Prop := (w_step w <= w_step w')%nat.

Section later.
Context {X : External Db}.

#[export] Instance later_preorder : PreOrder later.
Proof. unfold later. split; [by intros w|]. intros w1 w2 w3. lia. Qed.

Lemma later_exec_tx {A} (q : Stmt A) : sat later (exec_tx q).
Proof.
  intros w w' r H. unfold exec_tx in H. unfold later. repeat case_match; injection H as <- _; cbn; lia.
Qed.

Lemma later_exec st {A} (q : Stmt A) : sat later (exec st q).
Proof.
  destruct st; [|apply later_exec_tx]. intros w w' r H. cbn [exec] in H. unfold exec_pool in H.
  unfold later. repeat case_match; injection H as <- _; cbn; lia.
Qed.

Lemma later_rollback saved : sat later (rollback_to_savepoint saved).
Proof.
  intros w w' r H. unfold rollback_to_savepoint in H. unfold later.
  repeat case_match; injection H as <- _; cbn; lia.
Qed.

#[export] Instance later_framed : Framed later.
Proof.
  split; [apply _|done|intros; apply later_exec_tx|].
  intros V fn Hfn v w w' o H. unfold WithSavepoint in H.
  destruct (exec_tx no_op (count_savepoint w)) as [w1 r1] eqn:E1. apply later_exec_tx in E1.
  destruct r1; [|by injection H as <- _]. transitivity w1; [exact E1|].
  destruct (fn Tx v w1) as [w2 [v' [u2|e]]] eqn:E2; apply Hfn in E2; transitivity w2; try done.
  - destruct (exec_tx no_op w2) as [w3 r3] eqn:E3. apply later_exec_tx in E3. by injection H as <- _.
  - destruct (rollback_to_savepoint _ w2) as [w3 r3] eqn:E3. apply later_rollback in E3.
    transitivity w3; [done|]. destruct r3; [|by injection H as <- _].
    destruct (exec_tx no_op w3) as [w4 r4] eqn:E4. apply later_exec_tx in E4. by injection H as <- _.
Qed.

Lemma later_WithTx {A} (fn : Store -> M A) : sat later (fn Tx) -> sat later (WithTx Pool fn).
Proof.
  intros Hfn w w' r H. rewrite WithTx_Pool in H.
  assert (Hb : later w (begin_world w)) by (unfold later; cbn; lia).
  destruct (round_trip (w_step w)); [|by injection H as <- _..]. cbv zeta in H.
  transitivity (begin_world w); [done|].
  destruct (fn Tx (begin_world w)) as [w2 r2] eqn:E. apply Hfn in E. unfold later in *.
  repeat case_match; injection H as <- _; cbn; lia.
Qed.

End later.

#[export] Hint Resolve later_exec later_WithTx : frame.

(** ** One run, statement by statement *)

Section runs.
Context {X : External Db}.

Lemma M_bind_Ok {A B} (m : M A) (f : A -> M B) w w' b :
  (m ≫= f) w = (w', Ok b) <-> exists w1 a, m w = (w1, Ok a) /\ f a w1 = (w', Ok b).
Proof.
  rewrite M_bind_eq. destruct (m w) as [w1 [a|e]]; split.
  - eauto.
  - by intros (? & ? & [= <- <-] & ?).
  - done.
  - by intros (? & ? & [=] & ?).
Qed.

(** Running forwards. *)
Lemma M_bind_run {A B} (m : M A) (f : A -> M B) w w1 a :
  m w = (w1, Ok a) -> (m ≫= f) w = f a w1.
Proof. intros H. by rewrite M_bind_eq, H. Qed.

Lemma attempt_run {A} (m : M A) w w1 r : m w = (w1, r) -> attempt m w = (w1, Ok r).
Proof. intros H. unfold attempt. by rewrite H. Qed.

Lemma exec_tx_run {A} (q : Stmt A) w d a :
  w_tx w = TxActive -> round_trip (w_step w) = Runs -> q (w_now w) (w_db w) = Ok (d, a) ->
  exec_tx q w = (set_db d (tick w), Ok a).
Proof. intros Ht Hr Hq. unfold exec_tx. by rewrite Ht, Hr, Hq. Qed.

Lemma mret_Ok {A} (a : A) w w' b : (mret a : M A) w = (w', Ok b) <-> w' = w /\ b = a.
Proof. split; [by intros [= <- <-]|by intros [-> ->]]. Qed.

Lemma fail_Ok {A} e w w' (b : A) : fail e w = (w', Ok b) <-> False.
Proof. by split. Qed.

Lemma lift_Ok {A} (r : res A) w w' b : lift r w = (w', Ok b) <-> w' = w /\ r = Ok b.
Proof. unfold lift. split; [by intros [= <- <-]|by intros [-> ->]]. Qed.

Lemma attempt_Ok {A} (m : M A) w w' r : attempt m w = (w', Ok r) <-> m w = (w', r).
Proof. unfold attempt. destruct (m w). split; [by intros [= <- <-]|by intros [= <- <-]]. Qed.

(** A statement that succeeded inside a transaction. *)
Definition ran {A} (q : Stmt A) (w w' : World) (a : A) : Prop :=
  w_tx w = TxActive /\ round_trip (w_step w) = Runs /\
  exists d, q (w_now w) (w_db w) = Ok (d, a) /\ w' = set_db d (tick w).

Lemma exec_tx_Ok {A} (q : Stmt A) w w' a : exec_tx q w = (w', Ok a) <-> ran q w w' a.
Proof.
  unfold exec_tx, ran. destruct (w_tx w); [|by split; [|intros [? _]]..].
  destruct (round_trip (w_step w)); [|by split; [|intros (_ & ? & _)]..].
  destruct (q (w_now w) (w_db w)) as [[d b]|e].
  - split; [intros [= <- <-]; eauto 6|by intros (_ & _ & ? & [= <- <-] & ->)].
  - split; [by destruct e|by intros (_ & _ & ? & [=] & _)].
Qed.

(** A statement that found no row: nothing changed. *)
Lemma exec_tx_no_rows {A} (q : Stmt A) w w' :
  exec_tx q w = (w', Err ErrNoRows) ->
  w' = tick w /\ w_tx w = TxActive /\ q (w_now w) (w_db w) = Err ErrNoRows.
Proof.
  unfold exec_tx. destruct (w_tx w) eqn:Etx; [|done..].
  destruct (round_trip (w_step w)); [|done..].
  destruct (q (w_now w) (w_db w)) as [[d b]|[]] eqn:E; try done. by intros [= <-].
Qed.

Lemma map_err_no_rows {A} (q : Stmt A) s w w' e :
  store.map_err store.mapNoRows (exec s q) w = (w', Err e) -> store.is_not_found e = true ->
  (exec s q w = (w', Err ErrNoRows) \/ exec s q w = (w', Err ErrNotFound)).
Proof.
  unfold store.map_err. destruct (exec s q w) as [w1 [a|e1]]; [done|].
  intros [= <- <-] Hnf. destruct e1; cbn in *; try done; by (left + right).
Qed.

Lemma reject_not_found_stmt {A} d (r : option A) : one d r <> Err ErrNotFound.
Proof. by destruct r. Qed.

End runs.

(** *** Runs when the database answers *)

Section reliable.
Context {X : External Db} {HR : Reliable X}.

Lemma pool_run {A} (q : Stmt A) w d a :
  q (clock (w_step w)) (others (w_step w) (w_db w)) = Ok (d, a) ->
  exec Pool q w = (set_db d (tick w), Ok a).
Proof. intros Hq. cbn [exec]. unfold exec_pool. rewrite always_runs. cbn. by rewrite Hq. Qed.

Lemma pool_run_Err {A} (q : Stmt A) w e :
  q (clock (w_step w)) (others (w_step w) (w_db w)) = Err e ->
  exec Pool q w = (set_db (others (w_step w) (w_db w)) (tick w), Err e).
Proof. intros Hq. cbn [exec]. unfold exec_pool. rewrite always_runs. cbn. by rewrite Hq. Qed.

(** Reading one row. *)
Lemma read_one_run {A} (f : Db -> option A) w :
  exists w1, w_db w1 = others (w_step w) (w_db w) /\ w_step w1 = Datatypes.S (w_step w) /\
    store.map_err store.mapNoRows (exec Pool (fun _ d => one d (f d))) w
    = (w1, match f (others (w_step w) (w_db w)) with
           | Some a => Ok a
           | None => Err ErrNotFound
           end).
Proof.
  exists (set_db (others (w_step w) (w_db w)) (tick w)). split; [done|]. split; [done|].
  unfold store.map_err. destruct (f (others (w_step w) (w_db w))) as [a|] eqn:E.
  - by rewrite (pool_run _ w (others (w_step w) (w_db w)) a) by (cbv beta; by rewrite E).
  - by rewrite (pool_run_Err _ w ErrNoRows) by (cbv beta; by rewrite E).
Qed.

(** A transaction whose closure returns without error commits. *)
Lemma WithTx_run {A} (fn : Store -> M A) w w2 a :
  fn Tx (begin_world w) = (w2, Ok a) -> w_tx w2 = TxActive ->
  exists w', WithTx Pool fn w = (w', Ok a) /\ w_db w' = w_db w2.
Proof.
  intros H Ht. rewrite WithTx_Pool, always_runs. cbv zeta. rewrite H, Ht, always_runs.
  by eexists.
Qed.

(** One whose closure fails restores the tables. *)
Lemma WithTx_run_Err {A} (fn : Store -> M A) w w2 e :
  fn Tx (begin_world w) = (w2, Err e) ->
  exists w', WithTx Pool fn w = (w', Err e) /\
    w_db w' = rollback_to (others (w_step w) (w_db w)) (w_db w2).
Proof. intros H. rewrite WithTx_Pool, always_runs. cbv zeta. rewrite H. by eexists. Qed.

End reliable.

(** Peels the binds of a successful run in [H]. *)
Ltac m_inv H :=
  repeat (lazymatch type of H with @mbind _ _ _ _ _ _ _ = _ => idtac end;
    apply (proj1 (M_bind_Ok _ _ _ _ _)) in H;
    let w := fresh "w" in let a := fresh "a" in let Hr := fresh "Hrun" in
    destruct H as (w & a & Hr & H); cbv beta in H;
    try apply (proj1 (attempt_Ok _ _ _ _)) in Hr).
