(* ===== verification/SyncModels.v ===== *)
(** * Sync request and response models

    [internal/sync/models]: the client operation envelope and its validation,
    the payload models of notes, blocks and categories, the conversions to and
    from the persistence entities, and the response shapes. *)

From S2P Require Import Prelude GoText GoFloat Json HttpApi Constants External SyncOperations.
From S2P Require Import Schema Queries Store.

Definition ProtocolVersion : Z := 1.

(** [RejectionReason] is a string type. *)
Definition RejectionReasonInvalidRequest : string := "invalidRequest".
Definition RejectionReasonNotFound : string := "notFound".
Definition RejectionReasonVersionConflict : string := "versionConflict".

(** ** Requests *)

Record ClientOperation := mkOp {
  OperationID : UUID;
  NoteID : UUID;
  OperationType : string;
  Sequence : Z;
  BaseNoteVersion : Z;
  ChangeFormat : string;
  ChangeData : RawMessage
}.

Record Request := mkRequest {
  Req_ProtocolVersion : Z;
  Req_ClientVersion : string;
  Req_DeviceID : string;
  Req_Operations : list ClientOperation
}.

Record FullNoteRequest := mkFullNoteRequest {
  FNR_DeviceID : string;
  FNR_NoteIDs : list UUID
}.

Record PullRequest := mkPullRequest {
  Pull_ProtocolVersion : Z;
  Pull_ClientVersion : string;
  Pull_DeviceID : string;
  Pull_Cursor : Z
}.

Record UpdatesAvailableRequest := mkUpdatesAvailableRequest {
  UAR_ProtocolVersion : Z;
  UAR_DeviceID : string
}.

(** ** Responses *)

Record AcceptedDTO := mkAccepted {
  Acc_NoteID : UUID;
  Acc_ServerNoteVersion : Z;
  Acc_GlobalSequence : Z
}.

Record BlockSnapshot := mkBlockSnapshot {
  BS_BlockId : UUID; BS_BlockType : string; BS_TextContent : string; BS_Position : string;
  BS_BlockProperties : RawMessage; BS_CreatedAt : Time; BS_UpdatedAt : Time;
  BS_DeletedAt : option Time
}.

Record NoteSnapshot := mkNoteSnapshot {
  NS_NoteID : UUID; NS_OwnerID : UUID; NS_LastAppliedCursor : Z; NS_Title : string;
  NS_NoteProperties : RawMessage; NS_CurrentVersion : Z; NS_CreatedAt : Time;
  NS_UpdatedAt : Time; NS_DeletedAt : option Time; NS_Blocks : list BlockSnapshot
}.

Record RejectedDTO := mkRejected {
  Rej_Code : string;
  Rej_Reason : string;
  Rej_Message : message;
  Rej_NoteID : UUID;
  Rej_NoteSnapshot : option NoteSnapshot;
  Rej_ClientNoteVersion : Z;
  Rej_ServerNoteVersion : Z
}.

(** The zero value of the struct. *)
Definition zero_rejected : RejectedDTO :=
  mkRejected EmptyString EmptyString [] uuid_Nil None 0 0.

Record Response := mkResponse {
  Resp_Accepted : list AcceptedDTO;
  Resp_Rejected : list RejectedDTO
}.

Record UpdatesAvailableResponse := mkUpdatesAvailableResponse {
  UpdatesAvailable_ : bool
}.

Record PulledChange := mkPulledChange {
  PC_NoteID : UUID; PC_DeviceID : string; PC_OperationType : string;
  PC_BaseNoteVersion : Z; PC_ResultingNoteVersion : Z; PC_ChangeFormat : string;
  PC_SchemaVersion : Z; PC_ChangeData : RawMessage; PC_GlobalSequence : Z;
  PC_CreatedAt : Time
}.

Record PullResponse := mkPullResponse {
  PR_Changes : list PulledChange;
  PR_HasMore : bool;
  PR_NextCursor : Z
}.

(** ** Rejections ([errors.go]) *)

Definition RejectedInvalid (op : ClientOperation) (msg : message) : RejectedDTO :=
  mkRejected CodeInvalidRequest RejectionReasonInvalidRequest msg (NoteID op) None 0 0.

Definition RejectedNotFound (op : ClientOperation) (msg : message) : RejectedDTO :=
  mkRejected CodeNotFound RejectionReasonNotFound msg (NoteID op) None 0 0.

Definition RejectedConflict (op : ClientOperation) (serverNoteVersion : Z) : RejectedDTO :=
  mkRejected CodeBaseVersionConflict RejectionReasonVersionConflict
    [Text "The note has changed since it was last synchronized."]
    (NoteID op) None (BaseNoteVersion op) serverNoteVersion.

(** ** Request validation ([request_validation.go]) *)

Definition unsupported_protocol : goerr :=
  ErrAPI (NewError StatusBadRequest CodeUnsupportedProtocol
            "The requested sync protocol is not supported.").

Definition validate_device_id (deviceID : string) : res unit :=
  if String.eqb deviceID EmptyString
  then Err (ErrAPI (InvalidRequest (RequestKeyDeviceID ++ " is required.")))
  else if negb (ValidDeviceID deviceID)
  then Err (ErrAPI (InvalidRequest (RequestKeyDeviceID ++ " must be 30 characters or fewer.")))
  else Ok tt.

Definition Request_Validate (r : Request) (maxOperations : Z) : res unit :=
  if negb (Req_ProtocolVersion r =? ProtocolVersion) then Err unsupported_protocol
  else
    _ ← validate_device_id (Req_DeviceID r);
    if maxOperations <? Z.of_nat (length (Req_Operations r))
    then Err (ErrAPI (NewError StatusRequestEntityTooLarge CodePayloadTooLarge
                        "The sync request contains too many operations."))
    else Ok tt.

Definition PullRequest_Validate (r : PullRequest) : res unit :=
  if negb (Pull_ProtocolVersion r =? ProtocolVersion) then Err unsupported_protocol
  else
    _ ← validate_device_id (Pull_DeviceID r);
    if Pull_Cursor r <? 0
    then Err (ErrAPI (InvalidRequest
                        (RequestKeyCursor ++ " must be greater than or equal to zero.")))
    else Ok tt.

Definition UpdatesAvailableRequest_Validate (r : UpdatesAvailableRequest) : res unit :=
  if negb (UAR_ProtocolVersion r =? ProtocolVersion) then Err unsupported_protocol
  else validate_device_id (UAR_DeviceID r).

Definition one_of (s : string) (l : list string) : bool := existsb (String.eqb s) l.

Definition category_operation (t : string) : bool :=
  one_of t [OperationCreateCategory; OperationDeleteCategory; OperationModifyCategory].

Definition note_operation (t : string) : bool :=
  one_of t [OperationCreateNote; OperationDeleteNote; OperationModifyNoteProperty;
            OperationModifyNoteTitle].

Definition block_operation (t : string) : bool :=
  one_of t [OperationCreateBlock; OperationDeleteBlock; OperationModifyBlock].

Definition ClientOperation_Validate (op : ClientOperation) : res unit :=
  if is_nil (OperationID op) then Err (key_error RequestKeyOperationID " is required")
  else if Sequence op <? 0
  then Err (key_error RequestKeySequence " must be greater than or equal to zero")
  else
    _ ← (if category_operation (OperationType op) then
           if negb (is_nil (NoteID op))
           then Err (key_error RequestKeyNoteID " is not allowed for category operations")
           else Ok tt
         else if note_operation (OperationType op) || block_operation (OperationType op) then
           if is_nil (NoteID op) then Err (key_error RequestKeyNoteID " is required")
           else Ok tt
         else Err (key_error RequestKeyOperationType " is unsupported"));
    if negb (String.eqb (NormalizeChangeFormat (ChangeFormat op)) ChangeFormatStructuredV1)
    then Err (key_error RequestKeyChangeFormat " is unsupported")
    else Ok tt.

(** ** Operation payloads ([operation_models.go]) *)

Record Operation := mkOperation {
  Operation_ClientOperation : ClientOperation;
  Operation_Fields : Fields
}.

Definition Operation_FromRequest (request : ClientOperation) : res Operation :=
  _ ← ClientOperation_Validate request;
  match DecodeChangeObject (ChangeData request) with
  | Err _ => Err (key_error RequestKeyChangeData " is invalid.")
  | Ok fields => Ok (mkOperation request fields)
  end.

Record NoteMutation := mkNoteMutation {
  NM_NoteProperties : RawMessage;
  NM_HasProperties : bool;
  NM_TextDelta : TextDelta;
  NM_HasTextDelta : bool
}.

Definition requires {A} (v : option A) (op key : string) : res A :=
  match v with
  | Some a => Ok a
  | None => Err (ErrText [Text op; Text " requires "; Text key])
  end.

Definition NoteMutation_FromRequest (raw : RawMessage) (operationType : string)
    : res NoteMutation :=
  fields ← DecodeObjectFields raw RequestKeyChangeData;
  if String.eqb operationType OperationModifyNoteProperty then
    properties ← GetObjectField fields RequestKeyNoteProperties;
    properties ← requires properties OperationModifyNoteProperty RequestKeyNoteProperties;
    Ok (mkNoteMutation (Some properties) true zero_delta false)
  else if String.eqb operationType OperationModifyNoteTitle then
    delta ← GetObjectField fields RequestKeyTextDelta;
    delta ← requires delta OperationModifyNoteTitle RequestKeyTextDelta;
    delta ← DecodeTextDelta (Some delta) RequestKeyTextDelta;
    Ok (mkNoteMutation None false delta true)
  else if String.eqb operationType OperationDeleteNote then
    Ok (mkNoteMutation None false zero_delta false)
  else Err (errorsNew "unsupported note mutation").

Record BlockMutation := mkBlockMutation {
  BM_ID : UUID;
  BM_BlockProperties : RawMessage;
  BM_HasProperties : bool;
  BM_TextDelta : TextDelta;
  BM_HasTextDelta : bool
}.

Section with_external.
Context {X : External Db}.

(** A required identifier field: present, well-formed and not nil. *)
Definition required_id (fields : Fields) (key : string) : res UUID :=
  id ← GetUUIDField fields key;
  id ← required id key;
  if is_nil id then Err (key_error key " is required") else Ok id.

Definition BlockMutation_FromRequest (raw : RawMessage) (operationType : string)
    : res BlockMutation :=
  fields ← DecodeObjectFields raw RequestKeyChangeData;
  id ← required_id fields RequestKeyBlockId;
  if String.eqb operationType OperationDeleteBlock
  then Ok (mkBlockMutation id None false zero_delta false)
  else if negb (String.eqb operationType OperationModifyBlock)
  then Err (errorsNew "unsupported block mutation")
  else
    properties ← GetObjectField fields RequestKeyBlockProperties;
    delta ← GetObjectField fields RequestKeyTextDelta;
    delta ← match delta with
            | Some raw => d ← DecodeTextDelta (Some raw) RequestKeyTextDelta; Ok (Some d)
            | None => Ok None
            end;
    match properties, delta with
    | None, None =>
        Err (ErrText [Text OperationModifyBlock; Text " must include ";
                      Text RequestKeyBlockProperties; Text " or "; Text RequestKeyTextDelta])
    | _, _ =>
        Ok (mkBlockMutation id properties (bool_decide (is_Some properties))
              (default zero_delta delta) (bool_decide (is_Some delta)))
    end.

Record Category := mkCategory {
  Cat_ID : UUID;
  Cat_Name : string
}.

Definition blank (s : string) : bool := String.eqb (trim_space s) EmptyString.

Definition Category_FromRequest (raw : RawMessage) (requireName : bool) : res Category :=
  fields ← DecodeObjectFields raw RequestKeyChangeData;
  id ← required_id fields RequestKeyCategoryId;
  if negb requireName then Ok (mkCategory id EmptyString)
  else
    name ← GetStringField fields RequestKeyName;
    name ← required name RequestKeyName;
    if blank name then Err (key_error RequestKeyName " is required")
    else Ok (mkCategory id name).

(** ** Blocks ([block_models.go]) *)

Record BlockModel := mkBlockModel {
  BlkM_BlockId : UUID;
  BlkM_BlockType : string;
  BlkM_Position : string;
  BlkM_TextContent : string;
  BlkM_BlockProperties : RawMessage
}.

Definition BlockModel_FromRequest (raw : RawMessage) : res BlockModel :=
  fields ← DecodeObjectFields raw RequestKeyBlock;
  blockId ← required_id fields RequestKeyBlockId;
  blockType ← GetStringField fields RequestKeyBlockType;
  blockType ← required blockType RequestKeyBlockType;
  _ ← ValidateBlockType blockType;
  position ← GetFloatField fields RequestKeyPosition;
  position ← required position RequestKeyPosition;
  _ ← (if float_negative position
       then Err (key_error RequestKeyPosition " must be greater than or equal to zero")
       else Ok tt);
  textContent ← GetStringField fields RequestKeyTextContent;
  textContent ← required textContent RequestKeyTextContent;
  blockProperties ← GetObjectField fields RequestKeyBlockProperties;
  Ok (mkBlockModel blockId blockType (format_float position) textContent
        (Some (default empty_object blockProperties))).

Definition BlockModel_FromCreateOperation (raw : RawMessage) : res BlockModel :=
  fields ← DecodeChangeObject raw;
  block ← GetObjectField fields RequestKeyBlock;
  block ← requires block OperationCreateBlock RequestKeyBlock;
  BlockModel_FromRequest (Some block).

Definition BlockModel_FromEntity (entity : store.NoteBlock) : res BlockModel :=
  if is_nil (store.Block_ID entity) || is_nil (store.Block_NoteID entity)
  then Err (errorsNew "block entity must contain valid identifiers")
  else Ok (mkBlockModel (store.Block_ID entity) (store.Block_BlockType entity)
             (store.Block_Position entity) (store.Block_TextContent entity)
             (store.NormalizeJSON (store.Block_BlockProperties entity))).

Definition BlockModel_Entity (m : BlockModel) (noteID : UUID) : res store.NoteBlock :=
  if is_nil noteID || is_nil (BlkM_BlockId m)
  then Err (errorsNew "block identifiers are required")
  else
    _ ← ValidateBlockType (BlkM_BlockType m);
    if blank (BlkM_Position m) then Err (key_error RequestKeyPosition " is required")
    else Ok (store.mkNoteBlock (BlkM_BlockId m) noteID (BlkM_BlockType m)
               (BlkM_TextContent m) (BlkM_Position m)
               (store.NormalizeJSON (BlkM_BlockProperties m)) zero_time zero_time None).

(** ** Notes ([note_models.go]) *)

Record NoteModel := mkNoteModel {
  NoteM_ID : UUID;
  NoteM_OwnerID : UUID;
  NoteM_Title : string;
  NoteM_NoteProperties : RawMessage;
  NoteM_CurrentVersion : Z;
  NoteM_CreatedAt : Time;
  NoteM_UpdatedAt : Time;
  NoteM_DeletedAt : option Time;
  NoteM_Blocks : list BlockModel
}.

(** The loop over the raw blocks: [i] is the index, the sets are the
    identifiers and positions already seen. *)
Fixpoint parse_blocks (i : Z) (ids : gset UUID) (positions : gset string)
    (raws : list json) : res (list BlockModel) :=
  match raws with
  | [] => Ok []
  | raw :: rest =>
      match BlockModel_FromRequest (Some raw) with
      | Err e =>
          Err (ErrText ([Text RequestKeyBlocks; Text "["; Text (format_int i); Text "]: "]
                        ++ error_text e))
      | Ok block =>
          if decide (BlkM_BlockId block ∈ ids)
          then Err (key_error RequestKeyBlocks " contains duplicate ids")
          else if decide (BlkM_Position block ∈ positions)
          then Err (key_error RequestKeyBlocks " contains duplicate positions")
          else
            blocks ← parse_blocks (i + 1) ({[BlkM_BlockId block]} ∪ ids)
                       ({[BlkM_Position block]} ∪ positions) rest;
            Ok (block :: blocks)
      end
  end.

Definition NoteModel_FromRequest (op : ClientOperation) (ownerID : UUID) : res NoteModel :=
  if is_nil (NoteID op) || is_nil ownerID
  then Err (errorsNew "note identifiers are required")
  else
    fields ← DecodeChangeObject (ChangeData op);
    title ← GetStringField fields RequestKeyTitle;
    title ← required title RequestKeyTitle;
    noteProperties ← GetObjectField fields RequestKeyNoteProperties;
    noteProperties ← required noteProperties RequestKeyNoteProperties;
    blockValues ← GetArrayField fields RequestKeyBlocks;
    blockValues ← required blockValues RequestKeyBlocks;
    blocks ← parse_blocks 0 ∅ ∅ blockValues;
    Ok (mkNoteModel (NoteID op) ownerID title (Some noteProperties) 0 zero_time zero_time
          None blocks).

(** Converts every element, stopping at the first error. *)
Fixpoint traverse {A B} (f : A -> res B) (l : list A) : res (list B) :=
  match l with
  | [] => Ok []
  | a :: rest => b ← f a; bs ← traverse f rest; Ok (b :: bs)
  end.

Definition NoteModel_FromEntity (entity : store.NoteDocument) : res NoteModel :=
  let note := store.Doc_Note entity in
  if is_nil (store.Note_ID note) || is_nil (store.Note_OwnerID note)
  then Err (errorsNew "note entity must contain valid identifiers")
  else
    blocks ← traverse (fun b =>
        if N.eqb (store.Block_NoteID b) (store.Note_ID note) then BlockModel_FromEntity b
        else Err (errorsNew "block entity does not belong to note entity"))
      (store.Doc_Blocks entity);
    Ok (mkNoteModel (store.Note_ID note) (store.Note_OwnerID note) (store.Note_Title note)
          (store.NormalizeJSON (store.Note_NoteProperties note))
          (store.Note_CurrentVersion note) (store.Note_CreatedAt note)
          (store.Note_UpdatedAt note) (store.Note_DeletedAt note) blocks).

Definition NoteModel_Entity (m : NoteModel) : res store.NoteDocument :=
  if is_nil (NoteM_ID m) || is_nil (NoteM_OwnerID m)
  then Err (errorsNew "note identifiers are required")
  else
    blocks ← traverse (fun b => BlockModel_Entity b (NoteM_ID m)) (NoteM_Blocks m);
    Ok (store.mkNoteDocument
          (store.mkNote (NoteM_ID m) (NoteM_OwnerID m) (NoteM_Title m)
             (store.NormalizeJSON (NoteM_NoteProperties m)) (NoteM_CurrentVersion m)
             (NoteM_CreatedAt m) (NoteM_UpdatedAt m) (NoteM_DeletedAt m))
          blocks 0).

(** ** Change entities *)

Definition nullableUUID (id : UUID) : option UUID := if is_nil id then None else Some id.

(** [newID] is the identifier [uuid.New()] draws. *)
Definition ClientOperation_Entity (op : ClientOperation) (newID ownerID : UUID)
    (deviceID : string) (blockID : option UUID) (baseVersion resultingVersion : Z)
    : res store.InsertNoteChangeParams :=
  _ ← ClientOperation_Validate op;
  if is_nil ownerID || negb (ValidDeviceID deviceID)
  then Err (errorsNew "owner and device identifiers are required")
  else if block_operation (OperationType op) && is_nil (default uuid_Nil blockID)
  then Err (errorsNew "block identifier is required")
  else Ok (store.mkInsertNoteChangeParams newID ownerID (nullableUUID (NoteID op)) blockID
             deviceID (OperationID op) (OperationType op) baseVersion resultingVersion
             (NormalizeChangeFormat (ChangeFormat op)) 1 (ChangeData op)).

(** ** Responses ([response_models.go]) *)

Definition PulledChange_FromEntity (entity : store.NoteChange) : res PulledChange :=
  if is_nil (store.Change_ID entity) || is_nil (store.Change_ClientOperationID entity)
     || negb (ValidDeviceID (store.Change_DeviceID entity))
  then Err (errorsNew "change entity must contain valid identifiers")
  else Ok (mkPulledChange (store.Change_NoteID entity) (store.Change_DeviceID entity)
             (store.Change_OperationType entity) (store.Change_BaseNoteVersion entity)
             (store.Change_ResultingNoteVersion entity) (store.Change_ChangeFormat entity)
             (store.Change_SchemaVersion entity)
             (store.NormalizeJSON (store.Change_ChangeData entity))
             (store.Change_GlobalSequence entity) (store.Change_CreatedAt entity)).

Definition BlockSnapshot_FromEntity (entity : store.NoteBlock) : res BlockSnapshot :=
  if is_nil (store.Block_ID entity) || is_nil (store.Block_NoteID entity)
  then Err (errorsNew "block entity must contain valid identifiers")
  else Ok (mkBlockSnapshot (store.Block_ID entity) (store.Block_BlockType entity)
             (store.Block_TextContent entity) (store.Block_Position entity)
             (store.NormalizeJSON (store.Block_BlockProperties entity))
             (store.Block_CreatedAt entity) (store.Block_UpdatedAt entity)
             (store.Block_DeletedAt entity)).

Definition NoteSnapshot_FromEntity (entity : store.NoteDocument) : res NoteSnapshot :=
  let note := store.Doc_Note entity in
  if is_nil (store.Note_ID note) || is_nil (store.Note_OwnerID note)
  then Err (errorsNew "note entity must contain valid identifiers")
  else
    blocks ← traverse BlockSnapshot_FromEntity (store.Doc_Blocks entity);
    Ok (mkNoteSnapshot (store.Note_ID note) (store.Note_OwnerID note)
          (store.Doc_LastAppliedCursor entity) (store.Note_Title note)
          (store.NormalizeJSON (store.Note_NoteProperties note))
          (store.Note_CurrentVersion note) (store.Note_CreatedAt note)
          (store.Note_UpdatedAt note) (store.Note_DeletedAt note) blocks).

End with_external.
