(* ===== verification/RealtimeMessage.v ===== *)
(** * Realtime events and messages

    [internal/realtime/message.go] and [event_bus.go]: the event the sync
    service publishes after a commit, the message a WebSocket client receives,
    and the bus that carries events. *)

From S2P Require Import Prelude GoText GoFloat Json HttpApi Constants External.

Definition syncAvailableMessageType : string := "sync_available".

Record SyncAvailableEvent := mkEvent {
  Ev_UserID : UUID;
  Ev_OriginDeviceID : string;
  Ev_LatestCursor : Z
}.

Definition SyncAvailableEvent_Validate (e : SyncAvailableEvent) : res unit :=
  if is_nil (Ev_UserID e) then Err (errorsNew "sync available event user ID is required")
  else if negb (ValidDeviceID (Ev_OriginDeviceID e))
  then Err (errorsNew "sync available event origin device ID is invalid")
  else if Ev_LatestCursor e <? 0
  then Err (errorsNew "sync available event cursor must be non-negative")
  else Ok tt.

(** [payload] is the JSON document encoded in advance, or [None] when the
    message was built directly. *)
Record Message := mkMessage {
  Msg_Type : string;
  Msg_LatestCursor : Z;
  Msg_payload : RawMessage
}.

Definition message_document (type : string) (cursor : Z) : json :=
  JObj [("type", JStr type); ("latestCursor", JNum (format_int cursor))]%string.

Definition NewSyncAvailableMessage (latestCursor : Z) : Message :=
  mkMessage syncAvailableMessageType latestCursor
    (Some (message_document syncAvailableMessageType latestCursor)).

Definition wirePayload (m : Message) : json :=
  match Msg_payload m with
  | Some payload => payload
  | None => message_document (Msg_Type m) (Msg_LatestCursor m)
  end.

(** The publishing half of [EventBus]: an event goes in, an error may come out. *)
Definition Publisher : Type := SyncAvailableEvent -> res unit.

Lemma SyncAvailableEvent_Validate_Ok e :
  SyncAvailableEvent_Validate e = Ok tt <->
  Ev_UserID e <> uuid_Nil /\ ValidDeviceID (Ev_OriginDeviceID e) = true
  /\ 0 <= Ev_LatestCursor e.
Proof.
  unfold SyncAvailableEvent_Validate.
  destruct (is_nil (Ev_UserID e)) eqn:E1.
  { apply is_nil_spec in E1. split; [done|]. intros (? & _). done. }
  apply is_nil_false in E1.
  destruct (ValidDeviceID (Ev_OriginDeviceID e)); cbn; [|naive_solver].
  destruct (Z.ltb_spec (Ev_LatestCursor e) 0); [|naive_solver].
  split; [done|]. intros (_ & _ & ?). lia.
Qed.

Lemma new_message_payload c :
  wirePayload (NewSyncAvailableMessage c)
  = wirePayload (mkMessage syncAvailableMessageType c None).
Proof. reflexivity. Qed.
