(* ===== verification/SyncService.v ===== *)
(** * The sync service

    [internal/sync/services]: text deltas, the per-note batch state, the
    handler of each operation, the batch under its savepoint, and the push,
    pull, availability and full-note requests.

    A handler returns the new batch state with an accepted or a rejected
    outcome; a Go error aborts the request.  The batch state is only ever
    reached through the one local variable [state], and its blocks are distinct
    allocations, so assigning through [state.note] and [state.blocks\[id\]] is
    an update of the record. *)

From S2P Require Import Prelude GoText GoFloat Json HttpApi Constants External SyncOperations.
From S2P Require Import Schema Queries Store SyncModels RealtimeMessage.

(** ** Text deltas ([block_operations.go]) *)

Definition applyTextDelta (text : string) (delta : TextDelta) : res string :=
  let textRunes := runes text in
  let n := Z.of_nat (length textRunes) in
  if (Index delta <? 0) || (n <? Index delta)
  then Err (errorsNew "Text delta index is out of range.")
  else if DeleteCount delta <? 0
  then Err (errorsNew "Text delta delete count is invalid.")
  else if n - Index delta <? DeleteCount delta
  then Err (errorsNew "Text delta delete range is out of range.")
  else
    let insertRunes := runes (InsertText delta) in
    let stop := wrap64 (Index delta + DeleteCount delta) in
    Ok (string_of_runes (take (Z.to_nat (Index delta)) textRunes ++ insertRunes
                         ++ drop (Z.to_nat stop) textRunes)).

(** ** Ordering and grouping ([operation_batch.go], [push_service.go]) *)

(** The less function of [sortedOperations]. *)
Definition op_less (a b : ClientOperation) : bool :=
  match N.compare (NoteID a) (NoteID b) with
  | Lt => true
  | Gt => false
  | Eq => Sequence a <? Sequence b
  end.

Definition op_leb (a b : ClientOperation) : bool := negb (op_less b a).

Definition sortedOperations (operations : list ClientOperation) : list ClientOperation :=
  sort_by op_leb operations.

(** The maximal runs of operations with the same note: what the loop of [Sync]
    hands to [applyOperationBatch] one by one. *)
Definition group_operations (operations : list ClientOperation) : list (list ClientOperation) :=
  foldr (fun op groups =>
    match groups with
    | (x :: g) :: rest =>
        if N.eqb (NoteID op) (NoteID x) then (op :: x :: g) :: rest else [op] :: groups
    | _ => [op] :: groups
    end) [] operations.

(** ** Batch state *)

Record noteBatchState := mkState {
  st_note : option store.Note;
  st_noteLoaded : bool;
  st_blocks : gmap UUID store.NoteBlock;
  st_missingBlocks : gset UUID;
  st_dirtyBlocks : gset UUID
}.

Definition newNoteBatchState : noteBatchState := mkState None false ∅ ∅ ∅.

Definition set_note (n : option store.Note) (loaded : bool) (st : noteBatchState)
    : noteBatchState :=
  mkState n loaded (st_blocks st) (st_missingBlocks st) (st_dirtyBlocks st).

Definition put_block (id : UUID) (b : store.NoteBlock) (st : noteBatchState) : noteBatchState :=
  mkState (st_note st) (st_noteLoaded st) (<[id := b]> (st_blocks st)) (st_missingBlocks st)
    (st_dirtyBlocks st).

Definition set_missing (f : gset UUID -> gset UUID) (st : noteBatchState) : noteBatchState :=
  mkState (st_note st) (st_noteLoaded st) (st_blocks st) (f (st_missingBlocks st))
    (st_dirtyBlocks st).

Definition set_dirty (f : gset UUID -> gset UUID) (st : noteBatchState) : noteBatchState :=
  mkState (st_note st) (st_noteLoaded st) (st_blocks st) (st_missingBlocks st)
    (f (st_dirtyBlocks st)).

Inductive op_outcome :=
| OpAccepted (a : AcceptedDTO)
| OpRejected (r : RejectedDTO).

Definition note_with_title (n : store.Note) (title : string) : store.Note :=
  store.mkNote (store.Note_ID n) (store.Note_OwnerID n) title (store.Note_NoteProperties n)
    (store.Note_CurrentVersion n) (store.Note_CreatedAt n) (store.Note_UpdatedAt n)
    (store.Note_DeletedAt n).

Definition note_with_properties (n : store.Note) (p : RawMessage) : store.Note :=
  store.mkNote (store.Note_ID n) (store.Note_OwnerID n) (store.Note_Title n) p
    (store.Note_CurrentVersion n) (store.Note_CreatedAt n) (store.Note_UpdatedAt n)
    (store.Note_DeletedAt n).

Definition note_with_deletion (n deleted : store.Note) : store.Note :=
  store.mkNote (store.Note_ID n) (store.Note_OwnerID n) (store.Note_Title n)
    (store.Note_NoteProperties n) (store.Note_CurrentVersion n) (store.Note_CreatedAt n)
    (store.Note_UpdatedAt deleted) (store.Note_DeletedAt deleted).

Definition note_next_version (n : store.Note) : store.Note :=
  store.mkNote (store.Note_ID n) (store.Note_OwnerID n) (store.Note_Title n)
    (store.Note_NoteProperties n) (wrap64 (store.Note_CurrentVersion n + 1))
    (store.Note_CreatedAt n) (store.Note_UpdatedAt n) (store.Note_DeletedAt n).

Definition block_with_deletion (b : store.NoteBlock) (t : Time) : store.NoteBlock :=
  store.mkNoteBlock (store.Block_ID b) (store.Block_NoteID b) (store.Block_BlockType b)
    (store.Block_TextContent b) (store.Block_Position b) (store.Block_BlockProperties b)
    (store.Block_CreatedAt b) (store.Block_UpdatedAt b) (Some t).

Definition block_with_properties (b : store.NoteBlock) (p : RawMessage) : store.NoteBlock :=
  store.mkNoteBlock (store.Block_ID b) (store.Block_NoteID b) (store.Block_BlockType b)
    (store.Block_TextContent b) (store.Block_Position b) p
    (store.Block_CreatedAt b) (store.Block_UpdatedAt b) (store.Block_DeletedAt b).

Definition block_with_text (b : store.NoteBlock) (t : string) : store.NoteBlock :=
  store.mkNoteBlock (store.Block_ID b) (store.Block_NoteID b) (store.Block_BlockType b)
    t (store.Block_Position b) (store.Block_BlockProperties b)
    (store.Block_CreatedAt b) (store.Block_UpdatedAt b) (store.Block_DeletedAt b).

(** ** The service *)

Record Service := mkService {
  maxOperations : Z;
  defaultPullLimit : Z;
  maxPullLimit : Z;
  snapshotChangeThreshold : Z;
  snapshotByteThreshold : Z;
  eventBus : option Publisher
}.

(** [acceptedFromChange]. *)
Definition acceptedFromChange (change : store.NoteChange) : AcceptedDTO :=
  mkAccepted (store.Change_NoteID change) (store.Change_ResultingNoteVersion change)
    (store.Change_GlobalSequence change).

Section with_external.
Context {X : External Db}.

Definition ensureNote (s : Store) (ownerID noteID : UUID) (b : noteBatchState)
    : M noteBatchState :=
  if st_noteLoaded b then mret b
  else
    r ← attempt (store.GetNoteForOwnerForUpdate s noteID ownerID);
    match r with
    | Ok note => mret (set_note (Some note) true b)
    | Err e => if store.is_not_found e then mret (set_note (st_note b) true b) else fail e
    end.

(** The block, or [None] for [store.ErrNotFound]. *)
Definition ensureBlock (s : Store) (noteID blockID : UUID) (b : noteBatchState)
    : M (noteBatchState * option store.NoteBlock) :=
  match st_blocks b !! blockID with
  | Some block => mret (b, Some block)
  | None =>
      if decide (blockID ∈ st_missingBlocks b) then mret (b, None)
      else
        r ← attempt (store.GetBlockForNoteForUpdate s blockID noteID);
        match r with
        | Ok block => mret (put_block blockID block b, Some block)
        | Err e =>
            if store.is_not_found e
            then mret (set_missing (union {[blockID]}) b, None) else fail e
        end
  end.

(** ** Change persistence ([change_persistence.go]) *)

Definition insertChange (s : Store) (ownerID : UUID) (deviceID : string)
    (op : ClientOperation) (blockID : option UUID) (baseNoteVersion resultingNoteVersion : Z)
    : M store.NoteChange :=
  newID ← uuidNew;
  params ← lift (ClientOperation_Entity op newID ownerID deviceID blockID baseNoteVersion
                   resultingNoteVersion);
  store.InsertNoteChange s params.

Definition enqueueSnapshotIfNeeded (sv : Service) (s : Store) (noteID ownerID : UUID)
    (resultingVersion : Z) : M unit :=
  if (snapshotChangeThreshold sv <=? 0) && (snapshotByteThreshold sv <=? 0) then mret tt
  else
    changeCount ← store.CountChangesSinceLastSnapshot s noteID;
    changeBytes ← store.SumChangeBytesSinceLastSnapshot s noteID;
    if ((0 <? snapshotChangeThreshold sv) && (snapshotChangeThreshold sv <=? changeCount))
       || ((0 <? snapshotByteThreshold sv) && (snapshotByteThreshold sv <=? changeBytes))
    then _ ← store.EnqueueSnapshotJob s noteID ownerID resultingVersion; mret tt
    else mret tt.

Definition acceptOperationChange (s : Store) (ownerID : UUID) (deviceID : string)
    (note : store.Note) (op : ClientOperation) (blockID : option UUID) : M op_outcome :=
  let baseVersion := store.Note_CurrentVersion note in
  change ← insertChange s ownerID deviceID op blockID baseVersion (wrap64 (baseVersion + 1));
  mret (OpAccepted (acceptedFromChange change)).

(** ** Note operations ([note_operations.go]) *)

Definition reject (st : noteBatchState) (r : RejectedDTO) : M (noteBatchState * op_outcome) :=
  mret (st, OpRejected r).

Definition accept (st : noteBatchState) (m : M op_outcome) : M (noteBatchState * op_outcome) :=
  o ← m; mret (st, o).

(** The loop creating the blocks of a new note; [None] when all are created. *)
Fixpoint create_blocks (s : Store) (op : ClientOperation) (blocks : list store.NoteBlock)
    (st : noteBatchState) : M (noteBatchState * option RejectedDTO) :=
  match blocks with
  | [] => mret (st, None)
  | block :: rest =>
      r ← attempt (store.CreateBlock s block);
      match r with
      | Err e =>
          if store.IsUniqueViolation e
          then mret (st, Some (RejectedInvalid op [Text "block already exists."]))
          else fail e
      | Ok _ => create_blocks s op rest (put_block (store.Block_ID block) block st)
      end
  end.

Definition createNote (s : Store) (ownerID : UUID) (deviceID : string)
    (st : noteBatchState) (op : ClientOperation) : M (noteBatchState * op_outcome) :=
  if negb (BaseNoteVersion op =? 0) then reject st (RejectedConflict op 0)
  else
    match (if st_noteLoaded st then st_note st else None) with
    | Some n => reject st (RejectedConflict op (store.Note_CurrentVersion n))
    | None =>
        match NoteModel_FromRequest op ownerID with
        | Err e => reject st (RejectedInvalid op (error_text e))
        | Ok model =>
            match NoteModel_Entity model with
            | Err e => reject st (RejectedInvalid op (error_text e))
            | Ok document =>
                r ← attempt (store.CreateNote s (store.Doc_Note document));
                match r with
                | Err e =>
                    if store.IsUniqueViolation e then reject st (RejectedConflict op 0)
                    else fail e
                | Ok _ =>
                    let note := store.Doc_Note document in
                    '(st', rejected) ← create_blocks s op (store.Doc_Blocks document)
                                         (set_note (Some note) true st);
                    match rejected with
                    | Some r => reject st' r
                    | None => accept st' (acceptOperationChange s ownerID deviceID note op None)
                    end
                end
            end
        end
    end.

(** The note to mutate, or the rejection. *)
Definition existingNote (s : Store) (ownerID : UUID) (st : noteBatchState)
    (op : ClientOperation) : M (noteBatchState * (store.Note + RejectedDTO)) :=
  st' ← ensureNote s ownerID (NoteID op) st;
  match st_note st' with
  | None => mret (st', inr (RejectedNotFound op [Text "Note not found."]))
  | Some note =>
      if negb (store.Note_CurrentVersion note =? BaseNoteVersion op)
      then mret (st', inr (RejectedConflict op (store.Note_CurrentVersion note)))
      else mret (st', inl note)
  end.

Definition deleteNote (s : Store) (ownerID : UUID) (deviceID : string)
    (st : noteBatchState) (op : ClientOperation) : M (noteBatchState * op_outcome) :=
  r ← attempt (store.DeleteNote s (NoteID op) ownerID (BaseNoteVersion op));
  match r with
  | Err e =>
      if store.is_not_found e then
        r' ← attempt (store.GetNoteForOwnerForUpdate s (NoteID op) ownerID);
        match r' with
        | Err e' =>
            if store.is_not_found e'
            then reject st (RejectedNotFound op [Text "Note not found."]) else fail e'
        | Ok current => reject st (RejectedConflict op (store.Note_CurrentVersion current))
        end
      else fail e
  | Ok deleted =>
      let note := match st_note st with
                  | None => deleted
                  | Some n => note_with_deletion n deleted
                  end in
      accept (set_note (Some note) true st)
        (acceptOperationChange s ownerID deviceID note op None)
  end.

Definition modifyNoteProperty (s : Store) (ownerID : UUID) (deviceID : string)
    (st : noteBatchState) (op : ClientOperation) : M (noteBatchState * op_outcome) :=
  match NoteMutation_FromRequest (ChangeData op) OperationModifyNoteProperty with
  | Err e => reject st (RejectedInvalid op (error_text e))
  | Ok mutation =>
      '(st', found) ← existingNote s ownerID st op;
      match found with
      | inr r => reject st' r
      | inl note =>
          let note' := note_with_properties note (NM_NoteProperties mutation) in
          accept (set_note (Some note') (st_noteLoaded st') st')
            (acceptOperationChange s ownerID deviceID note' op None)
      end
  end.

Definition modifyNoteTitle (s : Store) (ownerID : UUID) (deviceID : string)
    (st : noteBatchState) (op : ClientOperation) : M (noteBatchState * op_outcome) :=
  match NoteMutation_FromRequest (ChangeData op) OperationModifyNoteTitle with
  | Err e => reject st (RejectedInvalid op (error_text e))
  | Ok mutation =>
      '(st', found) ← existingNote s ownerID st op;
      match found with
      | inr r => reject st' r
      | inl note =>
          match applyTextDelta (store.Note_Title note) (NM_TextDelta mutation) with
          | Err e => reject st' (RejectedInvalid op (error_text e))
          | Ok title =>
              let note' := note_with_title note title in
              accept (set_note (Some note') (st_noteLoaded st') st')
                (acceptOperationChange s ownerID deviceID note' op None)
          end
      end
  end.

(** ** Block operations ([block_operations.go]) *)

Definition createBlock (s : Store) (ownerID : UUID) (deviceID : string)
    (st : noteBatchState) (op : ClientOperation) : M (noteBatchState * op_outcome) :=
  match BlockModel_FromCreateOperation (ChangeData op) with
  | Err e => reject st (RejectedInvalid op (error_text e))
  | Ok blockModel =>
      match BlockModel_Entity blockModel (NoteID op) with
      | Err e => reject st (RejectedInvalid op (error_text e))
      | Ok block =>
          '(st', found) ← existingNote s ownerID st op;
          match found with
          | inr r => reject st' r
          | inl note =>
              match st_blocks st' !! store.Block_ID block with
              | Some _ => reject st' (RejectedInvalid op [Text "block already exists."])
              | None =>
                  r ← attempt (store.CreateBlock s block);
                  match r with
                  | Err e =>
                      if store.IsUniqueViolation e
                      then reject st' (RejectedInvalid op [Text "block already exists."])
                      else fail e
                  | Ok _ =>
                      let st'' := set_missing (fun m => m ∖ {[store.Block_ID block]})
                                    (put_block (store.Block_ID block) block st') in
                      accept st'' (acceptOperationChange s ownerID deviceID note op
                                     (Some (store.Block_ID block)))
                  end
              end
          end
      end
  end.

Definition deleteBlock (s : Store) (ownerID : UUID) (deviceID : string)
    (st : noteBatchState) (op : ClientOperation) : M (noteBatchState * op_outcome) :=
  match BlockMutation_FromRequest (ChangeData op) OperationDeleteBlock with
  | Err e => reject st (RejectedInvalid op (error_text e))
  | Ok mutation =>
      let blockID := BM_ID mutation in
      '(st', found) ← existingNote s ownerID st op;
      match found with
      | inr r => reject st' r
      | inl note =>
          match st_blocks st' !! blockID with
          | Some block =>
              now ← timeNow;
              let block' := block_with_deletion block now in
              _ ← store.UpdateBlockState s block';
              accept (set_dirty (fun d => d ∖ {[blockID]}) (put_block blockID block' st'))
                (acceptOperationChange s ownerID deviceID note op (Some blockID))
          | None =>
              r ← attempt (store.DeleteBlock s blockID (NoteID op));
              match r with
              | Err e =>
                  if store.is_not_found e
                  then reject st' (RejectedNotFound op [Text "Block not found."]) else fail e
              | Ok deleted =>
                  accept (put_block blockID deleted st')
                    (acceptOperationChange s ownerID deviceID note op (Some blockID))
              end
          end
      end
  end.

Definition modifyBlock (s : Store) (ownerID : UUID) (deviceID : string)
    (st : noteBatchState) (op : ClientOperation) : M (noteBatchState * op_outcome) :=
  match BlockMutation_FromRequest (ChangeData op) OperationModifyBlock with
  | Err e => reject st (RejectedInvalid op (error_text e))
  | Ok mutation =>
      let blockID := BM_ID mutation in
      '(st', found) ← existingNote s ownerID st op;
      match found with
      | inr r => reject st' r
      | inl note =>
          '(st2, found_block) ← ensureBlock s (NoteID op) blockID st';
          match found_block with
          | None => reject st2 (RejectedNotFound op [Text "Block not found."])
          | Some block =>
              let block1 := if BM_HasProperties mutation
                            then block_with_properties block (BM_BlockProperties mutation)
                            else block in
              match (if BM_HasTextDelta mutation
                     then block_with_text block1 <$>
                            applyTextDelta (store.Block_TextContent block1) (BM_TextDelta mutation)
                     else Ok block1) with
              | Err e => reject (put_block blockID block1 st2) (RejectedInvalid op (error_text e))
              | Ok block2 =>
                  accept (set_dirty (union {[blockID]}) (put_block blockID block2 st2))
                    (acceptOperationChange s ownerID deviceID note op (Some blockID))
              end
          end
      end
  end.

End with_external.
