(* ===== verification/NoteSpec.v ===== *)
(** * What the operations mean

    The specification of a push, without caches, deferred writes, savepoints
    or statements: a note is a document, an operation maps the document to the
    next one when it applies, and a batch applies the operations that were not
    processed before, one after the other, and moves the note to its next
    version when there was one.  BatchRefinement.v shows that a batch that
    [applyOperationBatch] accepts does exactly this to the database. *)

From S2P Require Import Prelude GoText GoFloat Json HttpApi Constants External SyncOperations.
From S2P Require Import Schema Queries DbInvariant Store SyncModels SyncService.

(** ** Documents *)

Record BlockDoc := mkBlockDoc {
  bd_type : string;
  bd_text : string;
  bd_position : string;
  bd_properties : json;
  bd_deleted : bool
}.

Record NoteDoc := mkNoteDoc {
  nd_title : string;
  nd_properties : json;
  nd_version : Z;
  nd_deleted : bool;
  nd_blocks : gmap UUID BlockDoc
}.

Definition is_set {A} (o : option A) : bool := bool_decide (is_Some o).

Definition entity_block (b : store.NoteBlock) : BlockDoc :=
  mkBlockDoc (store.Block_BlockType b) (store.Block_TextContent b) (store.Block_Position b)
    (store.jsonb_param (store.Block_BlockProperties b)) (is_set (store.Block_DeletedAt b)).

Definition row_block (b : db.NoteBlock) : BlockDoc := entity_block (store.fromDBBlock b).

Definition entity_note (n : store.Note) (blocks : gmap UUID BlockDoc) : NoteDoc :=
  mkNoteDoc (store.Note_Title n) (store.jsonb_param (store.Note_NoteProperties n))
    (store.Note_CurrentVersion n) (is_set (store.Note_DeletedAt n)) blocks.

(** The blocks of a note, deleted ones included. *)
Definition blocks_of (d : Db) (noteID : UUID) : gmap UUID BlockDoc :=
  omap (fun b => if N.eqb (db.b_note_id b) noteID then Some (row_block b) else None)
    (note_blocks d).

(** The document the database holds, when the note exists and is [owner]'s. *)
Definition note_doc (d : Db) (owner noteID : UUID) : option NoteDoc :=
  (fun n => entity_note (store.fromDBNote n) (blocks_of d noteID)) <$> q.owned_note d noteID owner.

(** ** Operations *)

Definition to_option {A} (r : res A) : option A :=
  match r with
  | Ok a => Some a
  | Err _ => None
  end.

Definition doc_with_blocks (f : gmap UUID BlockDoc -> gmap UUID BlockDoc) (doc : NoteDoc)
    : NoteDoc :=
  mkNoteDoc (nd_title doc) (nd_properties doc) (nd_version doc) (nd_deleted doc)
    (f (nd_blocks doc)).

(** The next version of a document. *)
Definition next_version (doc : NoteDoc) : NoteDoc :=
  mkNoteDoc (nd_title doc) (nd_properties doc) (wrap64 (nd_version doc + 1)) (nd_deleted doc)
    (nd_blocks doc).

(** The version of a note; 0 where there is none. *)
Definition doc_version (doc : option NoteDoc) : Z := default 0 (nd_version <$> doc).

Section with_external.
Context {X : External Db}.

(** A new note at version 0 with the blocks of the payload. *)
Definition new_doc (owner : UUID) (op : ClientOperation) : option NoteDoc :=
  model ← to_option (NoteModel_FromRequest op owner);
  document ← to_option (NoteModel_Entity model);
  Some (entity_note (store.Doc_Note document)
          (foldl (fun m b => <[store.Block_ID b := entity_block b]> m) ∅
             (store.Doc_Blocks document))).

(** What an operation does to a document at its base version. *)
Definition edit_doc (op : ClientOperation) (doc : NoteDoc) : option NoteDoc :=
  let t := OperationType op in
  if String.eqb t OperationDeleteNote then
    Some (mkNoteDoc (nd_title doc) (nd_properties doc) (nd_version doc) true (nd_blocks doc))
  else if String.eqb t OperationModifyNoteProperty then
    m ← to_option (NoteMutation_FromRequest (ChangeData op) OperationModifyNoteProperty);
    Some (mkNoteDoc (nd_title doc) (store.jsonb_param (NM_NoteProperties m)) (nd_version doc)
            (nd_deleted doc) (nd_blocks doc))
  else if String.eqb t OperationModifyNoteTitle then
    m ← to_option (NoteMutation_FromRequest (ChangeData op) OperationModifyNoteTitle);
    title ← to_option (applyTextDelta (nd_title doc) (NM_TextDelta m));
    Some (mkNoteDoc title (nd_properties doc) (nd_version doc) (nd_deleted doc) (nd_blocks doc))
  else if String.eqb t OperationCreateBlock then
    m ← to_option (BlockModel_FromCreateOperation (ChangeData op));
    block ← to_option (BlockModel_Entity m (NoteID op));
    match nd_blocks doc !! store.Block_ID block with
    | Some _ => None
    | None => Some (doc_with_blocks <[store.Block_ID block := entity_block block]> doc)
    end
  else if String.eqb t OperationDeleteBlock then
    m ← to_option (BlockMutation_FromRequest (ChangeData op) OperationDeleteBlock);
    b ← nd_blocks doc !! BM_ID m;
    Some (doc_with_blocks <[BM_ID m := mkBlockDoc (bd_type b) (bd_text b) (bd_position b)
                                         (bd_properties b) true]> doc)
  else if String.eqb t OperationModifyBlock then
    m ← to_option (BlockMutation_FromRequest (ChangeData op) OperationModifyBlock);
    b ← nd_blocks doc !! BM_ID m;
    text ← (if BM_HasTextDelta m then to_option (applyTextDelta (bd_text b) (BM_TextDelta m))
            else Some (bd_text b));
    Some (doc_with_blocks
            <[BM_ID m := mkBlockDoc (bd_type b) text (bd_position b)
                (if BM_HasProperties m then store.jsonb_param (BM_BlockProperties m)
                 else bd_properties b) (bd_deleted b)]> doc)
  else None.

(** The document after an operation, or [None] when it does not apply: a note
    is created at base version 0 where there is none, and edited at the version
    the operation is based on. *)
Definition apply_op (owner : UUID) (doc : option NoteDoc) (op : ClientOperation)
    : option NoteDoc :=
  if String.eqb (OperationType op) OperationCreateNote then
    match doc with
    | Some _ => None
    | None => if BaseNoteVersion op =? 0 then new_doc owner op else None
    end
  else
    doc ← doc;
    if nd_version doc =? BaseNoteVersion op then edit_doc op doc else None.

(** Applying some operations in turn, each one applicable. *)
Fixpoint apply_ops (owner : UUID) (doc : option NoteDoc) (ops : list ClientOperation)
    : option (option NoteDoc) :=
  match ops with
  | [] => Some doc
  | op :: rest => next ← apply_op owner doc op; apply_ops owner (Some next) rest
  end.

End with_external.

(** ** Processed operations *)

(** The operations of a device that the log holds. *)
Definition processed (d : Db) (deviceID : string) : gset UUID :=
  list_to_set (map db.ch_client_operation_id
    (filter (fun c => db.ch_device_id c = deviceID) (note_changes d))).

(** The operations not seen before, in order. *)
Fixpoint unprocessed (seen : gset UUID) (ops : list ClientOperation) : list ClientOperation :=
  match ops with
  | [] => []
  | op :: rest =>
      if decide (OperationID op ∈ seen) then unprocessed seen rest
      else op :: unprocessed ({[OperationID op]} ∪ seen) rest
  end.

(** ** The log entry of an operation *)

(** [c] records [op] as taking note [op]'s note from version [v] to the next. *)
Definition logs (owner : UUID) (deviceID : string) (v : Z) (op : ClientOperation)
    (c : db.NoteChange) : Prop :=
  db.ch_owner_id c = owner /\ db.ch_note_id c = Some (NoteID op) /\
  db.ch_device_id c = deviceID /\ db.ch_client_operation_id c = OperationID op /\
  db.ch_operation_type c = OperationType op /\
  db.ch_base_note_version c = v /\ db.ch_resulting_note_version c = wrap64 (v + 1) /\
  db.ch_change_data c = store.jsonb_param (ChangeData op).

(** ** What else a batch may touch *)

(** Only the note [noteID] and its blocks are written; jobs may be added. *)
Record only_note (noteID : UUID) (d d' : Db) : Prop := mkOnlyNote {
  on_notes : forall id, id <> noteID -> notes d' !! id = notes d !! id;
  on_blocks : forall id b, db.b_note_id b <> noteID ->
    note_blocks d' !! id = Some b <-> note_blocks d !! id = Some b;
  on_categories : categories d' = categories d;
  on_devices : sync_devices d' = sync_devices d;
  on_snapshots : note_snapshots d' = note_snapshots d;
  on_uploads : file_uploads d' = file_uploads d
}.

#[export] Instance only_note_preorder n : PreOrder (only_note n).
Proof.
  split.
  - intros d. by split.
  - intros d1 d2 d3 [] []. split; try congruence.
    + intros id H. rewrite on_notes1, on_notes0; done.
    + intros id b H. rewrite on_blocks1, on_blocks0; done.
Qed.

(** ** Categories *)

(** An owner's categories: the name and whether the category is deleted. *)
Definition categories_of (d : Db) (owner : UUID) : gmap UUID (string * bool) :=
  omap (fun c => if N.eqb (db.cat_owner_id c) owner
                 then Some (db.cat_name c, is_set (db.cat_deleted_at c)) else None)
    (categories d).

#[global] Arguments categories_of : simpl never.

(** What a category operation does to them, or [None] when it does not apply. *)
Definition apply_category {X : External Db} (op : ClientOperation)
    (m : gmap UUID (string * bool)) : option (gmap UUID (string * bool)) :=
  let t := OperationType op in
  if String.eqb t OperationCreateCategory then
    c ← to_option (Category_FromRequest (ChangeData op) true);
    match m !! Cat_ID c with
    | Some _ => None
    | None => Some (<[Cat_ID c := (Cat_Name c, false)]> m)
    end
  else if String.eqb t OperationDeleteCategory then
    c ← to_option (Category_FromRequest (ChangeData op) false);
    match m !! Cat_ID c with
    | Some (name, false) => Some (<[Cat_ID c := (name, true)]> m)
    | _ => None
    end
  else if String.eqb t OperationModifyCategory then
    c ← to_option (Category_FromRequest (ChangeData op) true);
    match m !! Cat_ID c with
    | Some (_, false) => Some (<[Cat_ID c := (Cat_Name c, false)]> m)
    | _ => None
    end
  else None.

Fixpoint apply_categories {X : External Db} (ops : list ClientOperation)
    (m : gmap UUID (string * bool)) : option (gmap UUID (string * bool)) :=
  match ops with
  | [] => Some m
  | op :: rest => next ← apply_category op m; apply_categories rest next
  end.

(** The log entry of a category operation: no note, version 0. *)
Definition logs_category (owner : UUID) (deviceID : string) (op : ClientOperation)
    (c : db.NoteChange) : Prop :=
  db.ch_owner_id c = owner /\ db.ch_note_id c = None /\ db.ch_block_id c = None /\
  db.ch_device_id c = deviceID /\ db.ch_client_operation_id c = OperationID op /\
  db.ch_operation_type c = OperationType op /\
  db.ch_base_note_version c = 0 /\ db.ch_resulting_note_version c = 0 /\
  db.ch_change_data c = store.jsonb_param (ChangeData op).

(** Only [owner]'s categories are written. *)
Record only_categories (owner : UUID) (d d' : Db) : Prop := mkOnlyCategories {
  oc_categories : forall id c, db.cat_owner_id c <> owner ->
    categories d' !! id = Some c <-> categories d !! id = Some c;
  oc_notes : notes d' = notes d;
  oc_blocks : note_blocks d' = note_blocks d;
  oc_devices : sync_devices d' = sync_devices d;
  oc_snapshots : note_snapshots d' = note_snapshots d;
  oc_uploads : file_uploads d' = file_uploads d;
  oc_jobs : outbox_jobs d' = outbox_jobs d
}.

#[export] Instance only_categories_preorder o : PreOrder (only_categories o).
Proof.
  split.
  - intros d. by split.
  - intros d1 d2 d3 [] []. split; try congruence. intros id c H. rewrite oc_categories1, oc_categories0; done.
Qed.

(** ** Lemmas *)

Lemma lookup_categories_of d o id :
  categories_of d o !! id =
  c ← categories d !! id;
  if N.eqb (db.cat_owner_id c) o then Some (db.cat_name c, is_set (db.cat_deleted_at c)) else None.
Proof. unfold categories_of. by rewrite lookup_omap. Qed.

Lemma categories_of_insert d o id c :
  db.cat_owner_id c = o ->
  categories_of (set_categories <[id := c]> d) o
  = <[id := (db.cat_name c, is_set (db.cat_deleted_at c))]> (categories_of d o).
Proof.
  intros <-. apply map_eq. intros j. rewrite lookup_categories_of. cbn.
  destruct (decide (id = j)) as [<-|Hne].
  - rewrite !lookup_insert_eq. cbn. by rewrite N.eqb_refl.
  - rewrite !lookup_insert_ne by done. by rewrite lookup_categories_of.
Qed.

Lemma only_categories_insert d o id c :
  db.cat_owner_id c = o ->
  (forall c0, categories d !! id = Some c0 -> db.cat_owner_id c0 = o) ->
  only_categories o d (set_categories <[id := c]> d).
Proof.
  intros Hc Hc0. split; try done. intros j x Hx. cbn.
  destruct (decide (id = j)) as [<-|Hne]; [|by rewrite lookup_insert_ne].
  rewrite lookup_insert_eq. split; [intros [= <-]; done|]. intros H%Hc0. done.
Qed.

Lemma is_set_Some {A} (a : A) : is_set (Some a) = true.
Proof. reflexivity. Qed.

Lemma lookup_blocks_of d n id :
  blocks_of d n !! id = row_block <$> q.note_block d id n.
Proof.
  unfold blocks_of, q.note_block. rewrite lookup_omap.
  destruct (note_blocks d !! id) as [b|]; cbn; [|done]. by destruct (N.eqb _ _).
Qed.

Lemma blocks_of_insert d n id b :
  db.b_note_id b = n ->
  blocks_of (set_blocks <[id := b]> d) n = <[id := row_block b]> (blocks_of d n).
Proof.
  intros <-. unfold blocks_of. cbn. apply map_eq. intros j.
  rewrite lookup_omap. destruct (decide (id = j)) as [<-|Hne].
  - rewrite !lookup_insert_eq. cbn. by rewrite N.eqb_refl.
  - rewrite !lookup_insert_ne by done. by rewrite lookup_omap.
Qed.

Lemma blocks_of_orphan d n : wf d -> notes d !! n = None -> blocks_of d n = ∅.
Proof.
  intros Hw Hn. apply map_eq. intros id. rewrite lookup_blocks_of, lookup_empty.
  destruct (q.note_block d id n) as [b|] eqn:E; [|done]. exfalso.
  apply note_block_Some in E as [Hb <-]. destruct (wf_block _ Hw _ _ Hb) as [_ [m Hm]]. congruence.
Qed.

Lemma jsonb_param_raw raw : store.jsonb_param (Some (store.jsonb_param raw)) = store.jsonb_param raw.
Proof. by destruct raw as [[]|]. Qed.

Lemma elem_of_processed d dev id :
  id ∈ processed d dev <-> exists c, c ∈ note_changes d /\ operation_key c = (dev, id).
Proof.
  unfold processed. rewrite elem_of_list_to_set, list_elem_of_fmap. split.
  - intros (c & -> & [Hd Hc]%list_elem_of_filter). exists c. by rewrite <- Hd.
  - intros (c & Hc & [= Hd Hi]). exists c. split; [done|]. by apply list_elem_of_filter.
Qed.

Lemma processed_append d d' dev c :
  note_changes d' = note_changes d ++ [c] -> db.ch_device_id c = dev ->
  processed d' dev = {[db.ch_client_operation_id c]} ∪ processed d dev.
Proof.
  intros Hl Hd. apply set_eq. intros id. rewrite elem_of_union, elem_of_singleton.
  rewrite !elem_of_processed, Hl. setoid_rewrite elem_of_app. setoid_rewrite list_elem_of_singleton.
  split.
  - intros (x & [Hx|Hx] & Hk); [right; eauto|left]. subst x. unfold operation_key in Hk. congruence.
  - intros [->|(x & Hx & Hk)]; [exists c|exists x; auto]. split; [by right|].
    unfold operation_key. congruence.
Qed.

Lemma only_note_insert_note d id n : only_note id d (set_notes <[id := n]> d).
Proof. split; try done. intros j Hj. cbn. by rewrite lookup_insert_ne. Qed.

Lemma only_note_insert_block d n id b :
  db.b_note_id b = n ->
  (forall b0, note_blocks d !! id = Some b0 -> db.b_note_id b0 = n) ->
  only_note n d (set_blocks <[id := b]> d).
Proof.
  intros Hb Hb0. split; try done. intros j c Hc. cbn.
  destruct (decide (id = j)) as [<-|Hne]; [|by rewrite lookup_insert_ne].
  rewrite lookup_insert_eq. split; [intros [= <-]; done|]. intros H%Hb0. done.
Qed.
