(* ===== verification/Demo.v ===== *)
(** * A concrete environment

    An executable choice for everything the development takes from outside
    (External.v), a small database, and requests against it, on which the
    theorems' hypotheses are shown to hold. *)

From S2P Require Import Prelude GoText GoFloat Json HttpApi Constants External SyncOperations.
From S2P Require Import Schema Queries DbInvariant Store SyncModels RealtimeMessage SyncService.

(** Identifiers as text: binary digits, the least significant first. *)
Fixpoint pos_text (p : positive) : string :=
  match p with
  | xH => "1"
  | xO p => String "0" (pos_text p)
  | xI p => String "1" (pos_text p)
  end.

Fixpoint text_pos (s : string) : option positive :=
  match s with
  | EmptyString => None
  | String c EmptyString => if Ascii.eqb c "1" then Some xH else None
  | String c rest =>
      if Ascii.eqb c "1" then xI <$> text_pos rest
      else if Ascii.eqb c "0" then xO <$> text_pos rest else None
  end.

Definition demo_text (id : UUID) : string :=
  match id with
  | N0 => "nil"
  | Npos p => pos_text p
  end.

Definition demo_parse (s : string) : option UUID :=
  if String.eqb s "nil" then Some N0 else Npos <$> text_pos s.

(** Text is compared byte by byte, as under the C collation. *)
Definition demo_collate (a b : string) : bool := String.leb a b.

(** Members are kept by the length of their keys, then their bytes; of equal
    keys the last one is. *)
Definition key_leb (a b : string * json) : bool :=
  Nat.ltb (String.length a.1) (String.length b.1)
  || Nat.eqb (String.length a.1) (String.length b.1) && String.leb a.1 b.1.

Definition keep_last (m : string * json) (rest : list (string * json)) : list (string * json) :=
  if existsb (fun m' => String.eqb (fst m') (fst m)) rest then rest else m :: rest.

Fixpoint demo_jsonb (v : json) : json :=
  match v with
  | JArr elements => JArr (List.map demo_jsonb elements)
  | JObj members =>
      JObj (sort_by key_leb
        (foldr keep_last [] (List.map (fun m => (fst m, demo_jsonb (snd m))) members)))
  | _ => v
  end.

Example demo_jsonb_orders :
  demo_jsonb (JObj [("title", JNull); ("id", JNum "1"); ("id", JNum "2")])%string
  = JObj [("id", JNum "2"); ("title", JNull)]%string.
Proof. reflexivity. Qed.

(** The environment, with a choice of faults and of other clients' commits. *)
Definition demo_with (fate : nat -> outcome) (concurrent : nat -> Db -> Db) : External Db := {|
  uuid_parse := demo_parse;
  foreign_text := fun _ => "driver error"%string;
  uuid_text := demo_text;
  uuid_new := fun n => (N.of_nat (S n) + 1000000)%N;
  collate_leb := demo_collate;
  jsonb := demo_jsonb;
  jsonb_octets := fun _ => 64;
  round_trip := fate;
  clock := fun n => Z.of_nat n + 1;
  others := concurrent
|}.

Definition demo : External Db := demo_with (fun _ => Runs) (fun _ d => d).

(** The same with the connection lost at the n-th round trip. *)
Definition demo_fails (n : nat) : External Db :=
  demo_with (fun k => if Nat.eqb k n then FailsBefore else Runs) (fun _ d => d).

Lemma demo_reliable concurrent : Reliable (demo_with (fun _ => Runs) concurrent).
Proof. by split. Qed.

Lemma demo_alone fate : Alone (demo_with fate (fun _ d => d)).
Proof. by split. Qed.

Lemma text_pos_text p : text_pos (pos_text p) = Some p.
Proof.
  induction p as [p IH|p IH|]; cbn; [| |done]; destruct p; cbn in *; done || by rewrite IH.
Qed.

Lemma pos_text_not_nil p : String.eqb (pos_text p) "nil" = false.
Proof. by destruct p. Qed.

Lemma demo_textual fate concurrent : TextualUUIDs (demo_with fate concurrent).
Proof.
  split. intros [|p]; [done|]. cbn. unfold demo_parse. cbn.
  rewrite pos_text_not_nil. by rewrite text_pos_text.
Qed.

Lemma demo_fresh fate concurrent : FreshUUIDs (demo_with fate concurrent).
Proof. split; cbn; [unfold uuid_Nil; lia|lia]. Qed.

(** ** A small database: one owner, two devices, one note with a block *)

Definition alice : UUID := 11%N.
Definition bob : UUID := 12%N.
Definition phone : string := "phone".
Definition laptop : string := "laptop".
Definition note1 : UUID := 21%N.
Definition note2 : UUID := 22%N.
Definition block1 : UUID := 31%N.
Definition block2 : UUID := 32%N.

Definition demo_device (id : string) (owner : UUID) : db.SyncDevice :=
  db.mkSyncDevice id owner None None None 1 0 1 1 None.

Definition demo_db : Db :=
  set_blocks <[block1 := db.mkNoteBlock block1 note1 "text" "hello" "1" empty_object 1 1 None]>
  (set_notes <[note1 := db.mkNote note1 alice "Shopping" empty_object 3 1 1 None]>
  (set_devices <[laptop := demo_device laptop alice]>
  (set_devices <[phone := demo_device phone alice]> empty_db))).

Definition demo_world : World := mkWorld demo_db 0 0 TxActive 1 0.

Definition demo_service : Service := mkService 100 2 50 100 0 (Some (fun _ => Ok tt)).

Lemma wf_empty : wf empty_db.
Proof. split; cbn; try done; constructor. Qed.

Lemma demo_db_wf : wf demo_db.
Proof.
  apply wf_insert_block; [|done|by eexists|done].
  apply wf_insert_note; [|done|done].
  apply wf_insert_device; [|done]. apply wf_insert_device; [|done]. apply wf_empty.
Qed.

(** ** Requests *)

Definition field (k : string) (v : json) : string * json := (k, v).

Definition delta_json (index count : string) (insert : string) : json :=
  JObj [field RequestKeyIndex (JNum index); field RequestKeyDeleteCount (JNum count);
        field RequestKeyInsertText (JStr insert)].

Definition block_json (id : UUID) (position text : string) : json :=
  JObj [field RequestKeyBlockId (JStr (demo_text id)); field RequestKeyBlockType (JStr "text");
        field RequestKeyPosition (JNum position); field RequestKeyTextContent (JStr text)].

(** Rename the note, insert text into its block, add a block. *)
Definition op_title : ClientOperation :=
  mkOp 41 note1 OperationModifyNoteTitle 1 3 EmptyString
    (Some (JObj [field RequestKeyTextDelta (delta_json "0" "8" "Groceries")])).

Definition op_text : ClientOperation :=
  mkOp 42 note1 OperationModifyBlock 2 3 EmptyString
    (Some (JObj [field RequestKeyBlockId (JStr (demo_text block1));
                 field RequestKeyTextDelta (delta_json "5" "0" " world")])).

Definition op_add : ClientOperation :=
  mkOp 43 note1 OperationCreateBlock 3 3 EmptyString
    (Some (JObj [field RequestKeyBlock (block_json block2 "2" "milk")])).

(** Based on a version the note has left. *)
Definition op_stale : ClientOperation :=
  mkOp 44 note1 OperationDeleteNote 4 2 EmptyString None.

Definition op_create : ClientOperation :=
  mkOp 45 note2 OperationCreateNote 1 0 EmptyString
    (Some (JObj [field RequestKeyTitle (JStr "New"); field RequestKeyNoteProperties (JObj []);
                 field RequestKeyBlocks (JArr [block_json block2 "1" "a"])])).

Definition op_category (op : UUID) (id : UUID) (name : string) : ClientOperation :=
  mkOp op uuid_Nil OperationCreateCategory 1 0 EmptyString
    (Some (JObj [field RequestKeyCategoryId (JStr (demo_text id));
                 field RequestKeyName (JStr name)])).

Definition demo_ops : list ClientOperation := [op_add; op_title; op_text].

Definition demo_request (ops : list ClientOperation) : Request :=
  mkRequest 1 EmptyString phone ops.
