(* ===== verification/SyncPush.v ===== *)
(** * Pushing operations

    [internal/sync/services]: the category operations and the dispatch on the
    operation type ([category_operations.go]), the note batch under its
    savepoint ([operation_batch.go]) and the push request ([push_service.go],
    [notification_service.go]). *)

From S2P Require Import Prelude GoText GoFloat Json HttpApi Constants External SyncOperations.
From S2P Require Import Schema Queries Store SyncModels RealtimeMessage SyncService.

(** The variables the savepoint closure of [applyOperationBatch] captures. *)
Record batch_vars := mkVars {
  bv_state : noteBatchState;
  bv_changed : bool;
  bv_latestCursor : Z;
  bv_failed : RejectedDTO
}.

Definition initial_vars : batch_vars := mkVars newNoteBatchState false 0 zero_rejected.

(** Runs a closure, giving the captured variables and its error as values. *)
Definition run_closure {V} (c : Closure V) (v : V) : M (V * res unit) := fun w =>
  let '(w', out) := c v w in (w', Ok out).

Section with_external.
Context {X : External Db}.

(** ** Category operations *)

(** The category operations end the same way: a change without note or
    block, at version 0. *)
Definition acceptCategoryChange (s : Store) (ownerID : UUID) (deviceID : string)
    (op : ClientOperation) : M op_outcome :=
  change ← insertChange s ownerID deviceID op None 0 0;
  mret (OpAccepted (acceptedFromChange change)).

Definition createCategory (s : Store) (ownerID : UUID) (deviceID : string)
    (op : ClientOperation) : M op_outcome :=
  match Category_FromRequest (ChangeData op) true with
  | Err e => mret (OpRejected (RejectedInvalid op (error_text e)))
  | Ok category =>
      _ ← store.CreateCategory s (Cat_ID category) ownerID (Cat_Name category);
      acceptCategoryChange s ownerID deviceID op
  end.

Definition deleteCategory (s : Store) (ownerID : UUID) (deviceID : string)
    (op : ClientOperation) : M op_outcome :=
  match Category_FromRequest (ChangeData op) false with
  | Err e => mret (OpRejected (RejectedInvalid op (error_text e)))
  | Ok category =>
      r ← attempt (store.LockCategoryForOwner s (Cat_ID category) ownerID);
      match r with
      | Err e =>
          if store.is_not_found e
          then mret (OpRejected (RejectedNotFound op [Text "Category not found."])) else fail e
      | Ok _ =>
          _ ← store.DeleteCategory s (Cat_ID category) ownerID;
          acceptCategoryChange s ownerID deviceID op
      end
  end.

Definition modifyCategory (s : Store) (ownerID : UUID) (deviceID : string)
    (op : ClientOperation) : M op_outcome :=
  match Category_FromRequest (ChangeData op) true with
  | Err e => mret (OpRejected (RejectedInvalid op (error_text e)))
  | Ok category =>
      r ← attempt (store.LockCategoryForOwner s (Cat_ID category) ownerID);
      match r with
      | Err e =>
          if store.is_not_found e
          then mret (OpRejected (RejectedNotFound op [Text "Category not found."])) else fail e
      | Ok _ =>
          _ ← store.UpdateCategory s (Cat_ID category) ownerID (Cat_Name category);
          acceptCategoryChange s ownerID deviceID op
      end
  end.

(** ** Dispatch *)

(** The handler of a validated operation; the switch on its type. *)
Definition dispatch (s : Store) (ownerID : UUID) (deviceID : string)
    (st : noteBatchState) (op : ClientOperation) : M (noteBatchState * op_outcome) :=
  let t := OperationType op in
  if String.eqb t OperationCreateNote then createNote s ownerID deviceID st op
  else if String.eqb t OperationDeleteNote then deleteNote s ownerID deviceID st op
  else if String.eqb t OperationModifyNoteProperty
  then modifyNoteProperty s ownerID deviceID st op
  else if String.eqb t OperationModifyNoteTitle then modifyNoteTitle s ownerID deviceID st op
  else if String.eqb t OperationCreateBlock then createBlock s ownerID deviceID st op
  else if String.eqb t OperationDeleteBlock then deleteBlock s ownerID deviceID st op
  else if String.eqb t OperationModifyBlock then modifyBlock s ownerID deviceID st op
  else if String.eqb t OperationCreateCategory
  then accept st (createCategory s ownerID deviceID op)
  else if String.eqb t OperationDeleteCategory
  then accept st (deleteCategory s ownerID deviceID op)
  else if String.eqb t OperationModifyCategory
  then accept st (modifyCategory s ownerID deviceID op)
  else reject st (RejectedInvalid op [Text RequestKeyOperationType; Text " is unsupported."]).

Definition is_accepted (o : op_outcome) : bool :=
  match o with
  | OpAccepted _ => true
  | OpRejected _ => false
  end.

(** The new state, the outcome and whether the operation changed anything. *)
Definition applyOperation (s : Store) (ownerID : UUID) (deviceID : string)
    (st : noteBatchState) (op : ClientOperation) : M (noteBatchState * op_outcome * bool) :=
  r ← attempt (store.FindProcessedOperation s deviceID (OperationID op));
  match r with
  | Ok processed =>
      st' ← (if is_nil (NoteID op) then mret st else ensureNote s ownerID (NoteID op) st);
      mret (st', OpAccepted (acceptedFromChange processed), false)
  | Err e =>
      if negb (store.is_not_found e) then fail e
      else
        match Operation_FromRequest op with
        | Err e => mret (st, OpRejected (RejectedInvalid op (error_text e)), false)
        | Ok _ =>
            '(st', o) ← dispatch s ownerID deviceID st op;
            mret (st', o, is_accepted o)
        end
  end.

(** ** A note batch *)

(** What the loop assigns after an operation. *)
Definition record_operation (v : batch_vars) (st : noteBatchState) (o : op_outcome)
    (operationChanged : bool) : batch_vars :=
  let changed := bv_changed v || operationChanged in
  match o with
  | OpAccepted a =>
      let latest := if operationChanged && (bv_latestCursor v <? Acc_GlobalSequence a)
                    then Acc_GlobalSequence a else bv_latestCursor v in
      mkVars st changed latest (bv_failed v)
  | OpRejected r => mkVars st changed (bv_latestCursor v) r
  end.

Fixpoint batch_loop (s : Store) (ownerID : UUID) (deviceID : string)
    (operations : list ClientOperation) : Closure batch_vars := fun v w =>
  match operations with
  | [] => (w, (v, Ok tt))
  | op :: rest =>
      match applyOperation s ownerID deviceID (bv_state v) op w with
      | (w', Err e) => (w', (v, Err e))
      | (w', Ok (st, o, operationChanged)) =>
          let v' := record_operation v st o operationChanged in
          match o with
          | OpRejected _ => (w', (v', Err ErrOperationBatchRejected))
          | OpAccepted _ => batch_loop s ownerID deviceID rest v' w'
          end
      end
  end.

(** [noteID] is the note of the batch's first operation. *)
Definition rejectedBatchDTO (noteID : UUID) (failed : RejectedDTO)
    (document : option store.NoteDocument) : RejectedDTO :=
  let rejected := mkRejected (Rej_Code failed) (Rej_Reason failed) (Rej_Message failed) noteID
    (Rej_NoteSnapshot failed) (Rej_ClientNoteVersion failed) (Rej_ServerNoteVersion failed) in
  match (if is_nil noteID then None else document) with
  | None => rejected
  | Some document =>
      match NoteSnapshot_FromEntity document with
      | Err _ => rejected
      | Ok snapshot =>
          mkRejected (Rej_Code failed) (Rej_Reason failed) (Rej_Message failed) noteID
            (Some snapshot) (Rej_ClientNoteVersion failed)
            (if Rej_ServerNoteVersion failed =? 0
             then store.Note_CurrentVersion (store.Doc_Note document)
             else Rej_ServerNoteVersion failed)
      end
  end.

(** Writes the dirty blocks back.  Go iterates over the map in some order; the
    rows are distinct, so every order writes the same.  A dirty block missing
    from the map would be a nil dereference. *)
Fixpoint update_dirty (s : Store) (blocks : gmap UUID store.NoteBlock) (ids : list UUID)
    : M unit :=
  match ids with
  | [] => mret tt
  | id :: rest =>
      match blocks !! id with
      | None => fail ErrPanic
      | Some block => _ ← store.UpdateBlockState s block; update_dirty s blocks rest
      end
  end.

(** Stores the note of a changed batch at its next version. *)
Definition store_batch (sv : Service) (s : Store) (ownerID : UUID) (state : noteBatchState)
    (n : store.Note) : M Z :=
  let note := note_next_version n in
  _ ← store.UpdateNoteState s note;
  _ ← update_dirty s (st_blocks state) (elements (st_dirtyBlocks state));
  _ ← enqueueSnapshotIfNeeded sv s (store.Note_ID note) ownerID (store.Note_CurrentVersion note);
  mret (store.Note_CurrentVersion note).

(** After a rejected batch: the note as it stands, when there is one. *)
Definition rejected_document (s : Store) (ownerID noteID : UUID)
    : M (option store.NoteDocument) :=
  if is_nil noteID then mret None
  else
    loaded ← attempt (store.GetNoteDocumentForOwnerForUpdate s noteID ownerID);
    match loaded with
    | Ok document => mret (Some document)
    | Err e => if store.is_not_found e then mret None else fail e
    end.

(** What [applyOperationBatch] does once the savepoint closure has ended. *)
Definition finish_batch (sv : Service) (s : Store) (ownerID noteID : UUID)
    (out : batch_vars * res unit) : M (option op_outcome) :=
  let '(v, r) := out in
  match r with
  | Err ErrOperationBatchRejected =>
      document ← rejected_document s ownerID noteID;
      mret (Some (OpRejected (rejectedBatchDTO noteID (bv_failed v) document)))
  | Err e => fail e
  | Ok _ =>
      noteVersion ←
        (match st_note (bv_state v) with
         | Some n => if bv_changed v then store_batch sv s ownerID (bv_state v) n
                     else mret (store.Note_CurrentVersion n)
         | None => mret 0
         end);
      mret (Some (OpAccepted (mkAccepted noteID noteVersion (bv_latestCursor v))))
  end.

Definition applyOperationBatch (sv : Service) (s : Store) (ownerID : UUID) (deviceID : string)
    (operations : list ClientOperation) : M (option op_outcome) :=
  match sortedOperations operations with
  | [] => mret None
  | first :: rest =>
      out ← run_closure
              (WithSavepoint s (fun batchTx =>
                 batch_loop batchTx ownerID deviceID (first :: rest)))
              initial_vars;
      finish_batch sv s ownerID (NoteID first) out
  end.

(** ** The push request *)

(** The device checks of every sync request. *)
Definition check_device (found : res store.SyncDevice) : res store.SyncDevice :=
  match found with
  | Err e =>
      if store.is_not_found e
      then Err (ErrAPI (Forbidden "Device does not belong to the authenticated user."))
      else Err e
  | Ok device =>
      match store.Dev_RevokedAt device with
      | Some _ => Err (ErrAPI (NewError StatusForbidden CodeDeviceRevoked
                                 "Device has been revoked."))
      | None => Ok device
      end
  end.

(** The loop over the note batches, with the response so far and the latest
    committed cursor. *)
Fixpoint sync_loop (sv : Service) (s : Store) (ownerID : UUID) (deviceID : string)
    (groups : list (list ClientOperation)) (resp : Response) (committedCursor : Z)
    : M (Response * Z) :=
  match groups with
  | [] => mret (resp, committedCursor)
  | g :: rest =>
      o ← applyOperationBatch sv s ownerID deviceID g;
      match o with
      | Some (OpRejected r) =>
          sync_loop sv s ownerID deviceID rest
            (mkResponse (Resp_Accepted resp) (Resp_Rejected resp ++ [r])) committedCursor
      | Some (OpAccepted a) =>
          sync_loop sv s ownerID deviceID rest
            (mkResponse (Resp_Accepted resp ++ [a]) (Resp_Rejected resp))
            (if committedCursor <? Acc_GlobalSequence a
             then Acc_GlobalSequence a else committedCursor)
      | None => sync_loop sv s ownerID deviceID rest resp committedCursor
      end
  end.

(** The event handed to the bus.  What the bus answers is only logged. *)
Definition publishCommittedSyncAvailable (sv : Service) (ownerID : UUID) (deviceID : string)
    (latestCursor : Z) : option SyncAvailableEvent :=
  if latestCursor <=? 0 then None
  else
    match eventBus sv with
    | None => None
    | Some _ => Some (mkEvent ownerID deviceID latestCursor)
    end.

(** The transaction of a push. *)
Definition sync_tx (sv : Service) (ownerID : UUID) (req : Request) (tx : Store)
    : M (Response * Z) :=
  found ← attempt (store.GetDeviceForOwnerForUpdate tx (Req_DeviceID req) ownerID);
  _ ← lift (check_device found);
  sync_loop sv tx ownerID (Req_DeviceID req)
    (group_operations (sortedOperations (Req_Operations req))) (mkResponse [] []) 0.

Definition Sync (sv : Service) (ownerID : UUID) (req : Request)
    : M (Response * option SyncAvailableEvent) :=
  _ ← lift (Request_Validate req (maxOperations sv));
  '(resp, committedCursor) ← WithTx Pool (sync_tx sv ownerID req);
  mret (resp, publishCommittedSyncAvailable sv ownerID (Req_DeviceID req) committedCursor).

End with_external.
