(* ===== verification/SyncPull.v ===== *)
(** * Pulling changes and reading notes

    [internal/sync/services]: the pull request and the availability request
    ([pull_service.go]) and the full-note request ([full_note_service.go]). *)

From S2P Require Import Prelude GoText GoFloat Json HttpApi Constants External SyncOperations.
From S2P Require Import Schema Queries Store SyncModels RealtimeMessage SyncService SyncPush.

Definition nextCursor (start : Z) (changes : list PulledChange) : Z :=
  foldl (fun next change => if next <? PC_GlobalSequence change
                            then PC_GlobalSequence change else next) start changes.

Definition pull_limit (sv : Service) : Z :=
  if maxPullLimit sv <? defaultPullLimit sv then maxPullLimit sv else defaultPullLimit sv.

(** One page out of the rows fetched: the page and whether rows are left.
    [limit] is an int32; slicing past either end is a run-time panic. *)
Definition page {A} (limit : Z) (rows : list A) : res (list A * bool) :=
  if limit <? wrap32 (Z.of_nat (length rows))
  then if limit <? 0 then Err ErrPanic else Ok (take (Z.to_nat limit) rows, true)
  else Ok (rows, false).

Section with_external.
Context {X : External Db}.

Definition pull_tx (sv : Service) (ownerID : UUID) (req : PullRequest) (tx : Store)
    : M PullResponse :=
  found ← attempt (store.GetDeviceForOwnerForUpdate tx (Pull_DeviceID req) ownerID);
  _ ← lift (check_device found);
  let limit := pull_limit sv in
  changes ← store.GetChangesAfterCursor tx ownerID (Pull_Cursor req) (Pull_DeviceID req)
              (wrap32 (limit + 1));
  '(changes, hasMore) ← lift (page limit changes);
  pulled ← lift (traverse PulledChange_FromEntity changes);
  let next := nextCursor (Pull_Cursor req) pulled in
  _ ← store.UpdateDeviceCursor tx (Pull_DeviceID req) ownerID next;
  mret (mkPullResponse pulled hasMore next).

Definition Pull (sv : Service) (ownerID : UUID) (req : PullRequest) : M PullResponse :=
  _ ← lift (PullRequest_Validate req);
  WithTx Pool (pull_tx sv ownerID req).

Definition UpdatesAvailable (ownerID : UUID) (req : UpdatesAvailableRequest)
    : M UpdatesAvailableResponse :=
  _ ← lift (UpdatesAvailableRequest_Validate req);
  found ← attempt (store.GetDeviceForOwner Pool (UAR_DeviceID req) ownerID);
  device ← lift (check_device found);
  available ← store.HasChangesAfterCursor Pool ownerID (store.Dev_LastGlobalCursor device)
                (UAR_DeviceID req);
  mret (mkUpdatesAvailableResponse available).

Definition FullNoteRequest_check (sv : Service) (req : FullNoteRequest) : res unit :=
  if negb (ValidDeviceID (FNR_DeviceID req))
  then Err (ErrAPI (InvalidRequest
         (RequestKeyDeviceID ++ " is required and must be 30 characters or fewer.")))
  else if Z.of_nat (length (FNR_NoteIDs req)) =? 0
  then Err (ErrAPI (InvalidRequest "noteIds must contain at least one note ID."))
  else if maxOperations sv <? Z.of_nat (length (FNR_NoteIDs req))
  then Err (ErrAPI (NewError StatusRequestEntityTooLarge CodePayloadTooLarge
         "The full-note request contains too many note IDs."))
  else if existsb is_nil (FNR_NoteIDs req)
  then Err (ErrAPI (InvalidRequest "noteIds must contain valid UUIDs."))
  else Ok tt.

Fixpoint full_notes (ownerID : UUID) (ids : list UUID) : M (list NoteSnapshot) :=
  match ids with
  | [] => mret []
  | noteID :: rest =>
      r ← attempt (store.GetNoteDocument Pool noteID ownerID);
      match r with
      | Err e => if store.is_not_found e then fail (ErrAPI (NotFound "Note not found."))
                 else fail e
      | Ok document =>
          snapshot ← lift (NoteSnapshot_FromEntity document);
          snapshots ← full_notes ownerID rest;
          mret (snapshot :: snapshots)
      end
  end.

Definition SyncFullNote (sv : Service) (ownerID : UUID) (req : FullNoteRequest)
    : M (list NoteSnapshot) :=
  _ ← lift (FullNoteRequest_check sv req);
  found ← attempt (store.GetDeviceForOwner Pool (FNR_DeviceID req) ownerID);
  _ ← lift (check_device found);
  full_notes ownerID (FNR_NoteIDs req).

End with_external.
