(* ===== verification/SyncFacts.v ===== *)
(** * Text deltas, operation order and pages

    The pure parts of the sync service: a text delta edits exactly the runes
    it names and can be undone, the operations of a request are applied in a
    stable order and split into one batch per note, and a page's cursor is the
    last sequence number of the page. *)

From S2P Require Import Prelude GoText GoFloat Json HttpApi Constants External SyncOperations.
From S2P Require Import Schema Queries Store SyncModels SyncService SyncPush SyncPull.

(** ** Text deltas *)

(** The delta lies inside the text. *)
Definition delta_in_range (text : string) (delta : TextDelta) : Prop :=
  0 <= Index delta /\ 0 <= DeleteCount delta
  /\ Index delta + DeleteCount delta <= rune_count text.

(** The runes of the edited text. *)
Definition edited_runes (text : string) (delta : TextDelta) : list Z :=
  take (Z.to_nat (Index delta)) (runes text) ++ runes (InsertText delta)
  ++ drop (Z.to_nat (Index delta + DeleteCount delta)) (runes text).

(** The delta that takes the edited text back. *)
Definition inverse_delta (text : string) (delta : TextDelta) : TextDelta :=
  mkTextDelta (Index delta) (rune_count (InsertText delta))
    (string_of_runes (take (Z.to_nat (DeleteCount delta))
                        (drop (Z.to_nat (Index delta)) (runes text)))).

(** Replacing a range of a list and putting it back. *)
Lemma undo_splice {A} (i d : nat) (l ins : list A) :
  (i + d <= length l)%nat ->
  let e := take i l ++ ins ++ drop (i + d) l in
  take i e ++ take d (drop i l) ++ drop (i + length ins) e = l.
Proof.
  intros H e. subst e.
  rewrite take_app_le, take_take, Nat.min_id by (rewrite length_take; lia).
  rewrite (drop_app_ge (take i l)) by (rewrite length_take; lia).
  rewrite length_take, Nat.min_l by lia.
  replace (i + length ins - i)%nat with (length ins) by lia.
  rewrite drop_app_length, <- drop_drop, take_drop, take_drop. done.
Qed.

Lemma edited_runes_scalar text delta :
  Forall (fun r => is_scalar r = true) (edited_runes text delta).
Proof.
  unfold edited_runes. rewrite !Forall_app.
  split_and!; [apply Forall_take|apply runes_scalar|apply Forall_drop]; apply runes_scalar.
Qed.

Lemma applyTextDelta_in_range text delta :
  delta_in_range text delta -> rune_count text <= int64_max ->
  applyTextDelta text delta = Ok (string_of_runes (edited_runes text delta)).
Proof.
  unfold delta_in_range, rune_count, applyTextDelta. intros (Hi & Hd & Hr) Hn. cbv zeta.
  replace (Index delta <? 0) with false by (symmetry; apply Z.ltb_ge; lia).
  replace (Z.of_nat (length (runes text)) <? Index delta) with false
    by (symmetry; apply Z.ltb_ge; lia).
  replace (DeleteCount delta <? 0) with false by (symmetry; apply Z.ltb_ge; lia).
  replace (Z.of_nat (length (runes text)) - Index delta <? DeleteCount delta) with false
    by (symmetry; apply Z.ltb_ge; lia).
  cbn [orb]. rewrite wrap64_id by (unfold int64_min; lia). reflexivity.
Qed.

Lemma applyTextDelta_out_of_range text delta :
  ~ delta_in_range text delta -> exists e, applyTextDelta text delta = Err e.
Proof.
  unfold delta_in_range, rune_count, applyTextDelta. intros H. cbv zeta.
  repeat (case_match; [by eexists|]). to_prop. destruct H. lia.
Qed.

Lemma runes_edited text delta :
  runes (string_of_runes (edited_runes text delta)) = edited_runes text delta.
Proof. apply runes_string_of_runes, edited_runes_scalar. Qed.

(** ** Order of operations *)

Lemma op_leb_spec a b :
  op_leb a b = true <->
  (NoteID a < NoteID b)%N \/ (NoteID a = NoteID b /\ Sequence a <= Sequence b).
Proof.
  unfold op_leb, op_less. rewrite negb_true_iff.
  destruct (N.compare_spec (NoteID b) (NoteID a)) as [E|E|E]; rewrite ?Z.ltb_ge; split;
    intros; try done; lia.
Qed.

Lemma op_leb_total a b : op_leb a b = true \/ op_leb b a = true.
Proof. rewrite !op_leb_spec. lia. Qed.

Lemma op_leb_trans a b c : op_leb a b = true -> op_leb b c = true -> op_leb a c = true.
Proof. rewrite !op_leb_spec. lia. Qed.

Lemma sortedOperations_sorted ops :
  StronglySorted (fun a b => op_leb a b = true) (sortedOperations ops).
Proof. apply sort_by_sorted; [apply op_leb_total|apply op_leb_trans]. Qed.

(** A batch is never empty and holds the operations of one note. *)
Definition uniform (g : list ClientOperation) : Prop :=
  exists op rest, g = op :: rest /\ Forall (fun o => NoteID o = NoteID op) rest.

Definition batch_note (g : list ClientOperation) : UUID :=
  default uuid_Nil (NoteID <$> head g).

Lemma group_operations_cons op ops :
  group_operations (op :: ops) =
  match group_operations ops with
  | (x :: g) :: rest =>
      if N.eqb (NoteID op) (NoteID x) then (op :: x :: g) :: rest
      else [op] :: group_operations ops
  | _ => [op] :: group_operations ops
  end.
Proof.
  unfold group_operations at 1. cbn [foldr]. fold (group_operations ops).
  by destruct (group_operations ops) as [|[|x g] rest].
Qed.

Lemma group_operations_concat ops : concat (group_operations ops) = ops.
Proof.
  induction ops as [|op ops IH]; [done|]. rewrite group_operations_cons.
  destruct (group_operations ops) as [|[|x g] rest]; cbn in *; [by subst|by subst|].
  case_match; cbn; by rewrite IH.
Qed.

Lemma group_operations_uniform ops : Forall uniform (group_operations ops).
Proof.
  induction ops as [|op ops IH]; [constructor|]. rewrite group_operations_cons.
  assert (uniform [op]) by (exists op, []; done).
  destruct (group_operations ops) as [|[|x g] rest]; [by repeat constructor| |].
  { by constructor. }
  apply Forall_cons in IH as [(o & r & Heq & Hg) Hrest]. injection Heq as -> ->.
  destruct (N.eqb_spec (NoteID op) (NoteID o)) as [E|E].
  - constructor; [|done]. exists op, (o :: r). split; [done|].
    constructor; [done|]. eapply Forall_impl; [exact Hg|]. cbn. congruence.
  - constructor; [done|]. constructor; [by exists o, r|done].
Qed.

(** The notes of the batches of a sorted list, in strictly increasing order:
    no note has two batches. *)
Lemma group_operations_notes ops :
  StronglySorted (fun a b => op_leb a b = true) ops ->
  StronglySorted N.lt (map batch_note (group_operations ops)) /\
  Forall (fun n => exists op, op ∈ ops /\ NoteID op = n) (map batch_note (group_operations ops)).
Proof.
  induction 1 as [|op ops Hs [IH1 IH2] Hop]; [repeat constructor|].
  assert (Hw : forall l, Forall (fun n => exists o, o ∈ ops /\ NoteID o = n) l ->
    Forall (fun n => exists o, o ∈ op :: ops /\ NoteID o = n) l).
  { intros l Hl. eapply Forall_impl; [exact Hl|]. cbn. intros n (o & Ho & <-).
    exists o. split; [by right|done]. }
  assert (Hself : exists o, o ∈ op :: ops /\ NoteID o = NoteID op)
    by (exists op; split; [left|done]).
  rewrite group_operations_cons.
  destruct (group_operations ops) as [|[|x g] rest] eqn:E.
  - cbn. repeat constructor. done.
  - exfalso. pose proof (group_operations_uniform ops) as Hu. rewrite E in Hu.
    apply Forall_cons in Hu as [(o & r & [=] & _) _].
  - cbn [map] in IH1, IH2. destruct (N.eqb_spec (NoteID op) (NoteID x)) as [En|En].
    + cbn [map]. change (batch_note (op :: x :: g)) with (NoteID op). rewrite En.
      split; [done|]. by apply Hw.
    + cbn [map]. change (batch_note [op]) with (NoteID op).
      change (batch_note (x :: g)) with (NoteID x) in *.
      split; [|constructor; [done|by apply Hw]]. constructor; [done|].
      assert (Hx : x ∈ ops) by (rewrite <- (group_operations_concat ops), E; left).
      pose proof (proj1 (Forall_forall _ _) Hop x Hx) as Hle. apply op_leb_spec in Hle.
      assert (Hlt : (NoteID op < NoteID x)%N) by lia.
      inversion IH1 as [|? ? _ Hf]; subst. constructor; [done|].
      eapply Forall_impl; [exact Hf|]. cbn. lia.
Qed.

(** ** Pages *)

Lemma nextCursor_spec start changes :
  start <= nextCursor start changes /\
  (nextCursor start changes = start \/
   exists c, c ∈ changes /\ PC_GlobalSequence c = nextCursor start changes) /\
  Forall (fun c => PC_GlobalSequence c <= nextCursor start changes) changes.
Proof.
  unfold nextCursor. revert start. induction changes as [|c cs IH]; intros start; cbn.
  { split; [lia|]. split; [by left|constructor]. }
  pose proof (IH (if start <? PC_GlobalSequence c then PC_GlobalSequence c else start))
    as (H1 & H2 & H3).
  set (next := foldl _ _ cs) in *. destruct (Z.ltb_spec start (PC_GlobalSequence c)).
  all: split; [lia|]; split; [|constructor; [lia|done]].
  - right. destruct H2 as [->|(c' & Hc & <-)]; [exists c|exists c'];
      (split; [by repeat constructor|done]).
  - destruct H2 as [->|(c' & Hc & <-)]; [by left|]. right. exists c'. split; [by right|done].
Qed.

(** ** Properties *)

(** C15: a text delta that lies inside the text replaces exactly the runes it
    names by the runes of its insertion, and any other delta is refused. *)
Theorem applyTextDelta_edits (text : string) (delta : TextDelta)
    (Hlen : rune_count text <= int64_max) :
  match applyTextDelta text delta with
  | Ok out => delta_in_range text delta /\ runes out = edited_runes text delta
  | Err _ => ~ delta_in_range text delta
  end.
Proof.
  destruct (decide (0 <= Index delta /\ 0 <= DeleteCount delta
    /\ Index delta + DeleteCount delta <= rune_count text)) as [H|H].
  - rewrite applyTextDelta_in_range by done. split; [done|apply runes_edited].
  - destruct (applyTextDelta_out_of_range text delta H) as [e ->]. done.
Qed.

Lemma applyTextDelta_edits_witness :
  match applyTextDelta "héllo" (mkTextDelta 1 2 "u") with
  | Ok out => delta_in_range "héllo" (mkTextDelta 1 2 "u")
              /\ runes out = edited_runes "héllo" (mkTextDelta 1 2 "u")
  | Err _ => ~ delta_in_range "héllo" (mkTextDelta 1 2 "u")
  end /\ applyTextDelta "héllo" (mkTextDelta 1 2 "u") = Ok "hulo"%string.
Proof.
  split; [|vm_compute; reflexivity].
  apply (applyTextDelta_edits "héllo" (mkTextDelta 1 2 "u")). vm_compute. discriminate.
Defined.

(** An edit can be undone: the inverse delta applies to the edited text and
    gives back the runes of the original text. *)
Theorem applyTextDelta_undo (text out : string) (delta : TextDelta)
    (Hlen : rune_count text <= int64_max) (Hout : rune_count out <= int64_max)
    (Hok : applyTextDelta text delta = Ok out) :
  applyTextDelta out (inverse_delta text delta) = Ok (string_of_runes (runes text)).
Proof.
  destruct (decide (0 <= Index delta /\ 0 <= DeleteCount delta
    /\ Index delta + DeleteCount delta <= rune_count text)) as [H|H].
  2:{ destruct (applyTextDelta_out_of_range text delta H) as [e He]. congruence. }
  rewrite applyTextDelta_in_range in Hok by done. injection Hok as <-.
  destruct H as (Hi & Hd & Hr). unfold rune_count in *. rewrite runes_edited in Hout.
  pose proof (runes_edited text delta) as Hre.
  assert (Hdel : runes (InsertText (inverse_delta text delta))
    = take (Z.to_nat (DeleteCount delta)) (drop (Z.to_nat (Index delta)) (runes text))).
  { apply runes_string_of_runes, Forall_take, Forall_drop, runes_scalar. }
  rewrite applyTextDelta_in_range.
  - do 2 f_equal. unfold edited_runes at 1. rewrite Hdel, Hre.
    unfold inverse_delta, edited_runes, rune_count. cbn [Index DeleteCount].
    rewrite !Z2Nat.inj_add, Nat2Z.id by lia. apply undo_splice. lia.
  - unfold delta_in_range, rune_count. rewrite Hre. unfold inverse_delta, edited_runes, rune_count.
    cbn [Index DeleteCount]. rewrite !length_app, length_take, length_drop. lia.
  - unfold rune_count. by rewrite Hre.
Qed.

Lemma applyTextDelta_undo_witness :
  applyTextDelta "hulo" (inverse_delta "hello" (mkTextDelta 1 2 "u"))
  = Ok (string_of_runes (runes "hello")).
Proof.
  apply (applyTextDelta_undo "hello" "hulo" (mkTextDelta 1 2 "u"));
    [vm_compute; discriminate|vm_compute; discriminate|vm_compute; reflexivity].
Defined.

(** The operations of a request are only reordered, into order of note and
    client sequence, and operations with the same note and sequence keep the
    order of the request. *)
Theorem sortedOperations_stable_sort (operations : list ClientOperation) :
  sortedOperations operations ≡ₚ operations /\
  StronglySorted (fun a b => (NoteID a < NoteID b)%N
                             \/ (NoteID a = NoteID b /\ Sequence a <= Sequence b))
    (sortedOperations operations) /\
  forall noteID sequence,
    filter (fun op => NoteID op = noteID /\ Sequence op = sequence) (sortedOperations operations)
    = filter (fun op => NoteID op = noteID /\ Sequence op = sequence) operations.
Proof.
  split; [apply sort_by_perm|]. split.
  - pose proof (sortedOperations_sorted operations) as H.
    induction H as [|a l _ IH Ha]; constructor; [done|].
    eapply Forall_impl; [exact Ha|]. intros b. apply op_leb_spec.
  - intros n s. apply sort_by_stable. intros a b [Ha Hsa] [Hb Hsb].
    apply op_leb_spec. right. split; [congruence|lia].
Qed.

(** The batches of a request hold its operations in order, each batch is
    non-empty and concerns one note, and no note has two batches. *)
Theorem batches_partition_operations (operations : list ClientOperation) :
  let batches := group_operations (sortedOperations operations) in
  concat batches = sortedOperations operations /\ Forall uniform batches /\
  StronglySorted N.lt (map batch_note batches).
Proof.
  split; [apply group_operations_concat|]. split; [apply group_operations_uniform|].
  apply group_operations_notes, sortedOperations_sorted.
Qed.
