(* ===== verification/SyncFrame.v ===== *)
(** * What a push preserves

    The statements a push issues, as an interface: whatever relation on
    database states they all respect, the handlers, the batch under its
    savepoint and the whole request respect, on success, on rejection and on
    error. *)

From S2P Require Import Prelude GoText GoFloat Json HttpApi Constants External SyncOperations.
From S2P Require Import Schema Queries DbInvariant Store Frame SyncModels RealtimeMessage.
From S2P Require Import SyncService SyncPush SyncPull.

(** The statements that write, on the tables of the sync service. *)
Class SyncWrites {X : External Db} (R : World -> World -> Prop) : Prop := {
  sw_framed :: Framed R;
  sw_CreateNote : forall id o t p v, sat R (exec Tx (q.CreateNote id o t p v));
  sw_UpdateNoteState : forall id o t p v del,
    sat R (exec Tx (q.UpdateNoteState id o t p v del));
  sw_DeleteNote : forall id o v, sat R (exec Tx (q.DeleteNote id o v));
  sw_CreateBlock : forall id n bt t pos p, sat R (exec Tx (q.CreateBlock id n bt t pos p));
  sw_UpdateBlockState : forall id n bt t pos p del,
    sat R (exec Tx (q.UpdateBlockState id n bt t pos p del));
  sw_DeleteBlock : forall id n, sat R (exec Tx (q.DeleteBlock id n));
  sw_CreateCategory : forall id o n, sat R (exec Tx (q.CreateCategory id o n));
  sw_UpdateCategory : forall id o n, sat R (exec Tx (q.UpdateCategory id o n));
  sw_DeleteCategory : forall id o, sat R (exec Tx (q.DeleteCategory id o));
  sw_InsertNoteChange : forall id o n b dev op t bv rv f sv data,
    sat R (exec Tx (q.InsertNoteChange id o n b dev op t bv rv f sv data));
  sw_EnqueueOutboxJob : forall t p at_, sat R (exec Tx (q.EnqueueOutboxJob t p at_))
}.

#[export] Hint Resolve sw_CreateNote sw_UpdateNoteState sw_DeleteNote sw_CreateBlock
  sw_UpdateBlockState sw_DeleteBlock sw_CreateCategory sw_UpdateCategory sw_DeleteCategory
  sw_InsertNoteChange sw_EnqueueOutboxJob : frame.

#[export] Instance evolves_writes {X : External Db} : SyncWrites (on_db evolves).
Proof. split; [apply _|..]; intros; apply sat_exec_tx; auto with frame; apply _. Qed.

#[export] Instance stays_broken_writes {X : External Db} : SyncWrites stays_broken.
Proof. split; [apply _|..]; intros; apply exec_tx_broken. Qed.

#[export] Instance later_writes {X : External Db} : SyncWrites later.
Proof. split; [apply _|..]; intros; apply later_exec. Qed.

Section sync_frame.
Context {X : External Db} (R : World -> World -> Prop) `{!SyncWrites R}.

(** ** The batch state *)

Ltac walk := frame_walk.

Lemma sat_ensureNote o n st : sat R (ensureNote Tx o n st).
Proof. unfold ensureNote, store.GetNoteForOwnerForUpdate. walk. Qed.

Lemma sat_ensureBlock n b st : sat R (ensureBlock Tx n b st).
Proof. unfold ensureBlock, store.GetBlockForNoteForUpdate. walk. Qed.

Lemma sat_insertChange o dev op b bv rv : sat R (insertChange Tx o dev op b bv rv).
Proof. unfold insertChange, store.InsertNoteChange. walk. Qed.

Hint Resolve sat_ensureNote sat_ensureBlock sat_insertChange : frame.

Lemma sat_acceptOperationChange o dev n op b : sat R (acceptOperationChange Tx o dev n op b).
Proof. unfold acceptOperationChange. walk. Qed.

Lemma sat_enqueueSnapshotIfNeeded sv n o v : sat R (enqueueSnapshotIfNeeded sv Tx n o v).
Proof.
  unfold enqueueSnapshotIfNeeded, store.EnqueueSnapshotJob,
    store.CountChangesSinceLastSnapshot, store.SumChangeBytesSinceLastSnapshot. walk.
Qed.

Lemma sat_reject st r : sat R (reject st r).
Proof. unfold reject. walk. Qed.

Lemma sat_accept st m : sat R m -> sat R (accept st m).
Proof. unfold accept. walk. Qed.

Lemma sat_existingNote o st op : sat R (existingNote Tx o st op).
Proof. unfold existingNote. walk. Qed.

Hint Resolve sat_acceptOperationChange sat_enqueueSnapshotIfNeeded sat_reject sat_accept
  sat_existingNote : frame.

(** ** The handlers *)

Lemma sat_create_blocks op blocks st : sat R (create_blocks Tx op blocks st).
Proof.
  revert st. induction blocks as [|b bs IH]; intros st; cbn;
    unfold store.CreateBlock; walk.
Qed.

Hint Resolve sat_create_blocks : frame.

Lemma sat_createNote o dev st op : sat R (createNote Tx o dev st op).
Proof. unfold createNote, store.CreateNote. walk. Qed.

Lemma sat_deleteNote o dev st op : sat R (deleteNote Tx o dev st op).
Proof. unfold deleteNote, store.DeleteNote, store.GetNoteForOwnerForUpdate. walk. Qed.

Lemma sat_modifyNoteProperty o dev st op : sat R (modifyNoteProperty Tx o dev st op).
Proof. unfold modifyNoteProperty. walk. Qed.

Lemma sat_modifyNoteTitle o dev st op : sat R (modifyNoteTitle Tx o dev st op).
Proof. unfold modifyNoteTitle. walk. Qed.

Lemma sat_createBlock o dev st op : sat R (createBlock Tx o dev st op).
Proof. unfold createBlock, store.CreateBlock. walk. Qed.

Lemma sat_deleteBlock o dev st op : sat R (deleteBlock Tx o dev st op).
Proof. unfold deleteBlock, store.UpdateBlockState, store.DeleteBlock. walk. Qed.

Lemma sat_modifyBlock o dev st op : sat R (modifyBlock Tx o dev st op).
Proof. unfold modifyBlock. walk. Qed.

Lemma sat_acceptCategoryChange o dev op : sat R (acceptCategoryChange Tx o dev op).
Proof. unfold acceptCategoryChange. walk. Qed.

Hint Resolve sat_acceptCategoryChange : frame.

Lemma sat_createCategory o dev op : sat R (createCategory Tx o dev op).
Proof. unfold createCategory, store.CreateCategory. walk. Qed.

Lemma sat_deleteCategory o dev op : sat R (deleteCategory Tx o dev op).
Proof. unfold deleteCategory, store.LockCategoryForOwner, store.DeleteCategory. walk. Qed.

Lemma sat_modifyCategory o dev op : sat R (modifyCategory Tx o dev op).
Proof. unfold modifyCategory, store.LockCategoryForOwner, store.UpdateCategory. walk. Qed.

Hint Resolve sat_createNote sat_deleteNote sat_modifyNoteProperty sat_modifyNoteTitle
  sat_createBlock sat_deleteBlock sat_modifyBlock sat_createCategory sat_deleteCategory
  sat_modifyCategory : frame.

Lemma sat_dispatch o dev st op : sat R (dispatch Tx o dev st op).
Proof. unfold dispatch. walk. Qed.

Hint Resolve sat_dispatch : frame.

Lemma sat_applyOperation o dev st op : sat R (applyOperation Tx o dev st op).
Proof. unfold applyOperation, store.FindProcessedOperation. walk. Qed.

(** ** The batch and the request *)

Lemma sat_batch_loop o dev ops : sat_closure R (batch_loop Tx o dev ops).
Proof using All.
  induction ops as [|op ops IH]; intros v w w' out H; cbn in H.
  { by injection H as <- _. }
  destruct (applyOperation Tx o dev (bv_state v) op w) as [w1 [[[st oc] ch]|e]] eqn:E;
    pose proof (sat_applyOperation _ _ _ _ _ _ _ E) as H1; [|by injection H as <- _].
  destruct oc; [|by injection H as <- _]. rewrite H1. by eapply IH.
Qed.

Lemma sat_update_dirty blocks ids : sat R (update_dirty Tx blocks ids).
Proof. induction ids as [|id ids IH]; cbn; unfold store.UpdateBlockState; walk. Qed.

Hint Resolve sat_batch_loop sat_update_dirty : frame.

Lemma sat_rejected_document o n : sat R (rejected_document Tx o n).
Proof.
  unfold rejected_document, store.GetNoteDocumentForOwnerForUpdate, store.ListBlocksForNote,
    store.GetLastAppliedCursorForNote. walk.
Qed.

Lemma sat_store_batch sv o st n : sat R (store_batch sv Tx o st n).
Proof. unfold store_batch, store.UpdateNoteState. walk. Qed.

Hint Resolve sat_rejected_document sat_store_batch : frame.

Lemma sat_finish_batch sv o n out : sat R (finish_batch sv Tx o n out).
Proof. unfold finish_batch. walk. Qed.

Hint Resolve sat_finish_batch : frame.

Lemma sat_applyOperationBatch sv o dev ops : sat R (applyOperationBatch sv Tx o dev ops).
Proof. unfold applyOperationBatch, run_closure. walk. Qed.

Hint Resolve sat_applyOperationBatch : frame.

Lemma sat_sync_loop sv o dev groups resp c : sat R (sync_loop sv Tx o dev groups resp c).
Proof. revert resp c. induction groups; intros; cbn; walk. Qed.

Hint Resolve sat_sync_loop : frame.

Lemma sat_sync_tx sv o req : sat R (sync_tx sv o req Tx).
Proof. unfold sync_tx, store.GetDeviceForOwnerForUpdate. walk. Qed.

End sync_frame.

(** A push, from the state its transaction begins in. *)
Lemma Sync_sat {X : External Db} (R : Db -> Db -> Prop) `{!Rollable R} `{!SyncWrites (on_db R)}
    sv o req w w' r :
  Sync sv o req w = (w', r) ->
  w' = w \/ R (others (w_step w) (w_db w)) (w_db w').
Proof.
  unfold Sync. rewrite M_bind_eq. unfold lift.
  destruct (Request_Validate req (maxOperations sv)); [|intros [= <- _]; by left].
  rewrite M_bind_eq. destruct (WithTx Pool (sync_tx sv o req) w) as [w1 r1] eqn:E.
  pose proof (WithTx_sat R _ _ _ _ (sat_sync_tx (on_db R) sv o req) E) as HR.
  destruct r1 as [[resp c]|e]; intros [= <- _]; by right.
Qed.
