(* ===== verification/BatchRefinement.v ===== *)
(** * A batch does what the operations mean

    The batch state caches the note and its blocks and defers the writes of
    modified blocks, while creations and deletions are written at once.  [Inv]
    ties the state to the database and [overlay] is the document the two
    stand for; every accepted operation takes the overlay from document to
    document as NoteSpec.v says, and the end of the batch writes it back. *)

From S2P Require Import Prelude GoText GoFloat Json HttpApi Constants External SyncOperations.
From S2P Require Import Schema Queries DbInvariant Store Frame SyncModels RealtimeMessage.
From S2P Require Import SyncService NoteSpec SyncPush SyncPull SyncFacts SyncFrame.

(** The document a batch state and the database stand for together. *)
Definition overlay_blocks (n : UUID) (st : noteBatchState) (d : Db) : gmap UUID BlockDoc :=
  (entity_block <$> st_blocks st) ∪ blocks_of d n.

Definition overlay (o n : UUID) (st : noteBatchState) (d : Db) : option NoteDoc :=
  (fun e => entity_note e (overlay_blocks n st d)) <$>
  match st_note st with
  | Some e => Some e
  | None => store.fromDBNote <$> q.owned_note d n o
  end.

(** The note part of the invariant. *)
Definition note_inv (o n : UUID) (st : noteBatchState) (d : Db) : Prop :=
  match st_note st with
  | Some e =>
      st_noteLoaded st = true /\ store.Note_ID e = n /\ store.Note_OwnerID e = o /\
      exists row, q.owned_note d n o = Some row /\
                  db.n_current_version row = store.Note_CurrentVersion e
  | None => st_blocks st = ∅ /\ (st_noteLoaded st = true -> q.owned_note d n o = None)
  end.

(** A cached block is the row the database holds, unless it is dirty. *)
Definition block_inv (n : UUID) (dirty : gset UUID) (d : Db) (id : UUID)
    (b : store.NoteBlock) : Prop :=
  store.Block_ID b = id /\ store.Block_NoteID b = n /\
  exists row, q.note_block d id n = Some row /\ (id ∉ dirty -> row_block row = entity_block b).

Record Inv (o n : UUID) (st : noteBatchState) (d : Db) : Prop := mkInv {
  inv_wf : wf d;
  inv_note : note_inv o n st d;
  inv_blocks : forall id b, st_blocks st !! id = Some b ->
    block_inv n (st_dirtyBlocks st) d id b;
  inv_dirty : forall id, id ∈ st_dirtyBlocks st -> is_Some (st_blocks st !! id)
}.

(** An accepted operation, from [st] and [d] to [st'] and [d']. *)
Record op_done {X : External Db} (o : UUID) (dev : string) (op : ClientOperation)
    (st : noteBatchState) (d : Db) (st' : noteBatchState) (d' : Db) (seq : Z) : Prop := mkDone {
  od_inv : Inv o (NoteID op) st' d';
  od_doc : exists doc, apply_op o (overlay o (NoteID op) st d) op = Some doc /\
    overlay o (NoteID op) st' d' = Some doc /\
    exists c, note_changes d' = note_changes d ++ [c] /\ logs o dev (nd_version doc) op c /\
      db.ch_global_sequence c = seq;
  od_only : only_note (NoteID op) d d';
  od_seq : change_seq d' = seq /\ seq = change_seq d + 1;
  od_note : is_Some (st_note st')
}.

(** ** The overlay under updates *)

Lemma overlay_new o n d : overlay o n newNoteBatchState d = note_doc d o n.
Proof.
  unfold overlay, note_doc, overlay_blocks. cbn. rewrite fmap_empty, (left_id_L ∅ _).
  by destruct (q.owned_note d n o).
Qed.

Lemma Inv_new o n d : wf d -> Inv o n newNoteBatchState d.
Proof. intros Hw. split; [done|by split|done|set_solver]. Qed.

Lemma lookup_overlay_blocks n st d id :
  overlay_blocks n st d !! id =
  match st_blocks st !! id with
  | Some b => Some (entity_block b)
  | None => row_block <$> q.note_block d id n
  end.
Proof.
  unfold overlay_blocks. rewrite lookup_union, lookup_fmap, lookup_blocks_of.
  destruct (st_blocks st !! id), (q.note_block d id n); done.
Qed.

Lemma overlay_Some o n st d e :
  st_note st = Some e -> overlay o n st d = Some (entity_note e (overlay_blocks n st d)).
Proof. intros H. unfold overlay. by rewrite H. Qed.

(** Caching and writing a block both insert it into the document. *)
Lemma overlay_put n st d d' id b :
  (forall j, j <> id -> q.note_block d' j n = q.note_block d j n) ->
  overlay_blocks n (put_block id b st) d' = <[id := entity_block b]> (overlay_blocks n st d).
Proof.
  intros H. apply map_eq. intros j. rewrite lookup_overlay_blocks. cbn.
  destruct (decide (id = j)) as [<-|Hne]; [by rewrite !lookup_insert_eq|].
  rewrite !lookup_insert_ne, lookup_overlay_blocks, H by done. done.
Qed.

Lemma note_block_insert d n id b j :
  db.b_note_id b = n ->
  q.note_block (set_blocks <[id := b]> d) j n = if decide (id = j) then Some b else q.note_block d j n.
Proof.
  intros <-. unfold q.note_block. cbn. case_decide as E.
  - subst j. rewrite lookup_insert_eq. cbn. by rewrite N.eqb_refl.
  - by rewrite lookup_insert_ne.
Qed.

Lemma owned_note_insert d id o n :
  db.n_owner_id n = o -> q.owned_note (set_notes <[id := n]> d) id o = Some n.
Proof. intros <-. unfold q.owned_note. cbn. rewrite lookup_insert_eq. cbn. by rewrite N.eqb_refl. Qed.

(** The invariant only reads the notes and the blocks. *)
Lemma Inv_tables o n st d d' :
  Inv o n st d -> wf d' -> notes d' = notes d -> note_blocks d' = note_blocks d -> Inv o n st d'.
Proof.
  intros [Hw Hn Hb Hd] Hw' En Eb.
  assert (Eo : q.owned_note d' n o = q.owned_note d n o) by (unfold q.owned_note; by rewrite En).
  assert (Ek : forall id, q.note_block d' id n = q.note_block d id n)
    by (intros; unfold q.note_block; by rewrite Eb).
  split; [done| | |done].
  - unfold note_inv in *. by rewrite Eo.
  - intros id b Hid. unfold block_inv. rewrite Ek. by apply Hb.
Qed.

Lemma overlay_tables o n st d d' :
  notes d' = notes d -> note_blocks d' = note_blocks d -> overlay o n st d' = overlay o n st d.
Proof.
  intros En Eb. unfold overlay, overlay_blocks, blocks_of, q.owned_note. by rewrite En, Eb.
Qed.

Lemma set_note_same st : set_note (st_note st) (st_noteLoaded st) st = st.
Proof. by destruct st. Qed.

(** Caching a block that is in the database, or that was just written there. *)
Lemma Inv_put o n st d d' id b row dirty :
  Inv o n st d -> wf d' -> is_Some (st_note st) ->
  q.owned_note d' n o = q.owned_note d n o ->
  (forall j, q.note_block d' j n = if decide (id = j) then Some row else q.note_block d j n) ->
  store.Block_ID b = id -> store.Block_NoteID b = n ->
  (id ∉ dirty -> row_block row = entity_block b) ->
  (forall j, j <> id -> j ∈ dirty <-> j ∈ st_dirtyBlocks st) ->
  Inv o n (set_dirty (fun _ => dirty) (put_block id b st)) d'.
Proof.
  intros [Hw Hn Hb Hd] Hw' [e He] Eo Ek Hid Hnid Hrow Hdirty. split; cbn; [done| | |].
  - unfold note_inv in *. cbn. rewrite He in *. by rewrite Eo.
  - intros j c Hj. unfold block_inv. rewrite Ek. case_decide as E.
    + subst j. rewrite lookup_insert_eq in Hj. injection Hj as <-. eauto 6.
    + rewrite lookup_insert_ne in Hj by done. destruct (Hb _ _ Hj) as (? & ? & r & Hr & Hs).
      split_and!; [done|done|]. exists r. split; [done|]. intros Hnd. apply Hs.
      by rewrite <- Hdirty.
  - intros j Hj. destruct (decide (id = j)) as [->|Hne]; [by rewrite lookup_insert_eq|].
    rewrite lookup_insert_ne by done. apply Hd. by apply Hdirty.
Qed.

Section refinement.
Context {X : External Db}.

(** ** Loading *)

(** A statement that only reads and found a row. *)
Lemma ran_one {A} (f : Db -> option A) (q : Stmt A) w w' a :
  (forall now d, q now d = one d (f d)) ->
  ran q w w' a -> w_db w' = w_db w /\ f (w_db w) = Some a.
Proof. intros Hq (_ & _ & d & H & ->). rewrite Hq in H. by apply one_Ok in H as [-> ?]. Qed.

Lemma mapped_Ok {A B} (q : Stmt A) (f : A -> B) w w' b :
  (a ← store.map_err store.mapNoRows (exec Tx q); mret (f a)) w = (w', Ok b) <->
  exists a, ran q w w' a /\ b = f a.
Proof.
  rewrite M_bind_Ok. setoid_rewrite map_err_Ok. split.
  - intros (w1 & a & H1 & [= <- <-]). apply exec_tx_Ok in H1. eauto.
  - intros (a & H & ->). exists w', a. split; [by apply exec_tx_Ok|done].
Qed.

(** The "not found" of a statement whose rows are decided by [f]. *)
Lemma mapped_not_found {A B} (f : Db -> option A) (q : Stmt A) (g : A -> B) w w' e :
  (forall now d, q now d = one d (f d)) ->
  (a ← store.map_err store.mapNoRows (exec Tx q); mret (g a)) w = (w', Err e) ->
  store.is_not_found e = true -> w_db w' = w_db w /\ w_tx w' = w_tx w /\ f (w_db w) = None.
Proof.
  intros Hq H Hnf. rewrite M_bind_eq in H. unfold store.map_err in H.
  destruct (exec Tx q w) as [w1 [a|e1]] eqn:E; [done|]. injection H as <- <-.
  assert (e1 = ErrNoRows \/ e1 = ErrNotFound) as [->| ->]
    by (destruct e1; cbn in Hnf; try done; auto).
  - apply exec_tx_no_rows in E as (-> & Ht & Hr). rewrite Hq in Hr.
    by destruct (f (w_db w)).
  - exfalso. unfold exec, exec_tx in E. destruct (w_tx w); [|done..].
    destruct (round_trip (w_step w)); [|done..]. rewrite Hq in E.
    by destruct (f (w_db w)).
Qed.

Lemma ensureNote_Ok o n st w w' st' :
  ensureNote Tx o n st w = (w', Ok st') -> Inv o n st (w_db w) ->
  w_db w' = w_db w /\ Inv o n st' (w_db w) /\
  overlay o n st' (w_db w) = overlay o n st (w_db w) /\ st_noteLoaded st' = true.
Proof.
  unfold ensureNote. destruct (st_noteLoaded st) eqn:El; [by intros [= <- <-]|].
  intros H HI. m_inv H. pose proof (inv_note _ _ _ _ HI) as Hni. unfold note_inv in Hni.
  destruct (st_note st) as [e|] eqn:Ee; [destruct Hni; congruence|]. destruct a as [e|e].
  - injection H as <- <-. apply mapped_Ok in Hrun as (row & Hran & ->).
    apply (ran_one (fun d => q.owned_note d n o)) in Hran as [Hd Hrow]; [|done].
    split; [done|]. pose proof (proj1 (owned_note_Some _ _ _ _) Hrow) as [Hk Ho].
    split_and!; [| |done].
    + split; [apply HI| |apply HI|apply HI]. unfold note_inv. cbn.
      split_and!; [done|by apply (wf_note_key _ (inv_wf _ _ _ _ HI))|done|by exists row].
    + unfold overlay. cbn. by rewrite Ee, Hrow.
  - destruct (store.is_not_found e) eqn:Ef; [|done]. injection H as <- <-.
    apply (mapped_not_found (fun d => q.owned_note d n o)) in Hrun as (Hd & _ & Hrow); [|done..].
    split; [done|]. split_and!; [|by unfold overlay; cbn; rewrite Ee|done].
    split; [apply HI| |apply HI|apply HI]. unfold note_inv. cbn. by destruct Hni.
Qed.

Lemma existingNote_Ok o st op w w' st' note :
  existingNote Tx o st op w = (w', Ok (st', inl note)) -> Inv o (NoteID op) st (w_db w) ->
  w_db w' = w_db w /\ Inv o (NoteID op) st' (w_db w) /\
  overlay o (NoteID op) st' (w_db w) = overlay o (NoteID op) st (w_db w) /\
  st_note st' = Some note /\ store.Note_CurrentVersion note = BaseNoteVersion op.
Proof.
  unfold existingNote. intros H HI. m_inv H. apply ensureNote_Ok in Hrun as (Hd & HI' & Ho & _); [|done].
  destruct (st_note a) as [m|] eqn:Em; [|done].
  destruct (store.Note_CurrentVersion m =? BaseNoteVersion op) eqn:Ev; [|done].
  injection H as <- <- <-. apply Z.eqb_eq in Ev. done.
Qed.

Lemma ensureBlock_Ok o n id st e w w' st' b :
  ensureBlock Tx n id st w = (w', Ok (st', Some b)) -> Inv o n st (w_db w) ->
  st_note st = Some e ->
  w_db w' = w_db w /\ Inv o n st' (w_db w) /\
  overlay o n st' (w_db w) = overlay o n st (w_db w) /\
  st_note st' = Some e /\ st_blocks st' !! id = Some b.
Proof.
  unfold ensureBlock. intros H HI He. destruct (st_blocks st !! id) as [b0|] eqn:Eb.
  { by injection H as <- <- <-. }
  case_decide; [done|]. m_inv H. destruct a as [b0|e0].
  2:{ by destruct (store.is_not_found e0). }
  injection H as <- <- <-. apply mapped_Ok in Hrun as (row & Hran & ->).
  apply (ran_one (fun d => q.note_block d id n)) in Hran as [Hd Hrow]; [|done].
  split; [done|]. pose proof (proj1 (note_block_Some _ _ _ _) Hrow) as [Hk Ho].
  split_and!; [| |done|by cbn; rewrite lookup_insert_eq].
  - change (put_block id (store.fromDBBlock row) st)
      with (set_dirty (fun _ => st_dirtyBlocks st) (put_block id (store.fromDBBlock row) st)).
    apply (Inv_put o n st (w_db w) _ _ _ row); try done; [apply HI|..].
    + intros j. case_decide; [by subst|done].
    + cbn. by apply (wf_block _ (inv_wf _ _ _ _ HI)).
  - unfold overlay. cbn. rewrite He. cbn. do 2 f_equal.
    rewrite (overlay_put _ _ (w_db w)) by done.
    apply insert_id. rewrite lookup_overlay_blocks, Eb, Hrow. done.
Qed.

(** ** Recording the operation *)

Lemma insertChange_Ok o dev op b bv rv w w' change :
  insertChange Tx o dev op b bv rv w = (w', Ok change) ->
  exists row, w_db w' = append_change row (w_db w) /\
    (forall s, db.ch_global_sequence (row s) = s) /\
    change = store.fromDBChange (row (change_seq (w_db w) + 1)) /\
    forall s, db.ch_owner_id (row s) = o /\ db.ch_note_id (row s) = nullableUUID (NoteID op) /\
      db.ch_device_id (row s) = dev /\ db.ch_client_operation_id (row s) = OperationID op /\
      db.ch_operation_type (row s) = OperationType op /\
      db.ch_base_note_version (row s) = bv /\ db.ch_resulting_note_version (row s) = rv /\
      db.ch_change_data (row s) = store.jsonb_param (ChangeData op).
Proof.
  unfold insertChange, store.InsertNoteChange. intros H. m_inv H.
  injection Hrun as <- <-. apply lift_Ok in Hrun0 as [-> He]. injection H as <- <-.
  apply exec_tx_Ok in Hrun1 as (_ & _ & d & Hq & ->). cbn in Hq.
  unfold ClientOperation_Entity in He. res_inv He. split_match He.
  unfold q.InsertNoteChange in Hq. split_match Hq.
  eexists. split_and!; [reflexivity|done|reflexivity|]. intros s. by split_and!.
Qed.

(** The end of every note and block operation. *)
Lemma accept_done o dev op b st d st' note w w' st'' a doc note' :
  NoteID op <> uuid_Nil ->
  accept st' (acceptOperationChange Tx o dev note op b) w = (w', Ok (st'', OpAccepted a)) ->
  Inv o (NoteID op) st' (w_db w) ->
  apply_op o (overlay o (NoteID op) st d) op = Some doc ->
  overlay o (NoteID op) st' (w_db w) = Some doc ->
  nd_version doc = store.Note_CurrentVersion note -> st_note st' = Some note' ->
  only_note (NoteID op) d (w_db w) ->
  note_changes (w_db w) = note_changes d -> change_seq (w_db w) = change_seq d ->
  op_done o dev op st d st'' (w_db w') (Acc_GlobalSequence a).
Proof.
  intros Hnil H HI Hap Hov Hv Hn' Hon Hl Hs. unfold accept in H. m_inv H. injection H as <- <- ->.
  pose proof (sat_acceptOperationChange (on_db evolves) _ _ _ _ _ _ _ _ Hrun) as Hev.
  unfold on_db in Hev. unfold acceptOperationChange in Hrun. m_inv Hrun. injection Hrun as <- <-.
  apply insertChange_Ok in Hrun0 as (row & Hd & Hseq & -> & Hrow).
  destruct (Hrow (change_seq (w_db w) + 1)) as (R1 & R2 & R3 & R4 & R5 & R6 & R7 & R8).
  rewrite Hd in *. cbn. rewrite Hseq. split.
  - eapply Inv_tables; [exact HI| |done|done]. apply Hev, HI.
  - exists doc. split; [done|]. rewrite (overlay_tables _ _ _ (w_db w)) by done. split; [done|].
    exists (row (change_seq (w_db w) + 1)). cbn. rewrite Hl. split_and!; [done| |by rewrite Hseq].
    unfold logs, nullableUUID in *. apply is_nil_false in Hnil. rewrite Hnil in R2.
    rewrite Hv. by split_and!.
  - etransitivity; [exact Hon|]. by split.
  - cbn. by rewrite Hs.
  - by rewrite Hn'.
Qed.

(** A handler that edits the cached note. *)
Lemma Inv_set_note o n st d e e' :
  Inv o n st d -> st_note st = Some e -> store.Note_ID e' = store.Note_ID e ->
  store.Note_OwnerID e' = store.Note_OwnerID e ->
  store.Note_CurrentVersion e' = store.Note_CurrentVersion e ->
  Inv o n (set_note (Some e') (st_noteLoaded st) st) d.
Proof.
  intros [Hw Hn Hb Hd] He Hi Ho Hv. split; [done| |done|done].
  unfold note_inv in *. cbn. rewrite He in Hn. by rewrite Hi, Ho, Hv.
Qed.

Lemma overlay_version o n st d doc e :
  st_note st = Some e -> overlay o n st d = Some doc ->
  nd_version doc = store.Note_CurrentVersion e.
Proof. intros He H. rewrite (overlay_Some _ _ _ _ _ He) in H. by injection H as <-. Qed.

(** An edit at the right version. *)
Lemma apply_op_edit o op st d e :
  OperationType op <> OperationCreateNote -> st_note st = Some e ->
  store.Note_CurrentVersion e = BaseNoteVersion op ->
  apply_op o (overlay o (NoteID op) st d) op
  = edit_doc op (entity_note e (overlay_blocks (NoteID op) st d)).
Proof.
  intros Ht He Hv. rewrite (overlay_Some _ _ _ _ _ He). unfold apply_op.
  apply String.eqb_neq in Ht. rewrite Ht. cbn. by rewrite Hv, Z.eqb_refl.
Qed.

Ltac op_type Ht := unfold edit_doc; rewrite Ht; cbn [String.eqb Ascii.eqb Bool.eqb andb].

Lemma modifyNoteProperty_done o dev st op w w' st' a :
  NoteID op <> uuid_Nil -> OperationType op = OperationModifyNoteProperty ->
  modifyNoteProperty Tx o dev st op w = (w', Ok (st', OpAccepted a)) ->
  Inv o (NoteID op) st (w_db w) ->
  op_done o dev op st (w_db w) st' (w_db w') (Acc_GlobalSequence a).
Proof.
  intros Hnil Ht H HI. unfold modifyNoteProperty in H.
  destruct (NoteMutation_FromRequest _ _) as [m|e] eqn:Em; [|done]. m_inv H.
  destruct a0 as [st1 [note|r]]; [|done].
  apply existingNote_Ok in Hrun as (Hd & HI1 & Hov & Hn & Hv); [|done].
  rewrite <- Hd in *. eapply (accept_done _ _ _ _ _ _ _ _ _ _ _ _
    (entity_note (note_with_properties note (NM_NoteProperties m))
       (overlay_blocks (NoteID op) st1 (w_db w0)))); try done.
  - by eapply Inv_set_note.
  - rewrite <- Hov, (apply_op_edit _ _ _ _ note); [|by rewrite Ht|done|done].
    op_type Ht. by rewrite Em.
Qed.

Lemma modifyNoteTitle_done o dev st op w w' st' a :
  NoteID op <> uuid_Nil -> OperationType op = OperationModifyNoteTitle ->
  modifyNoteTitle Tx o dev st op w = (w', Ok (st', OpAccepted a)) ->
  Inv o (NoteID op) st (w_db w) ->
  op_done o dev op st (w_db w) st' (w_db w') (Acc_GlobalSequence a).
Proof.
  intros Hnil Ht H HI. unfold modifyNoteTitle in H.
  destruct (NoteMutation_FromRequest _ _) as [m|e] eqn:Em; [|done]. m_inv H.
  destruct a0 as [st1 [note|r]]; [|done].
  apply existingNote_Ok in Hrun as (Hd & HI1 & Hov & Hn & Hv); [|done].
  destruct (applyTextDelta (store.Note_Title note) (NM_TextDelta m)) as [title|e] eqn:Et; [|done].
  rewrite <- Hd in *. eapply (accept_done _ _ _ _ _ _ _ _ _ _ _ _
    (entity_note (note_with_title note title)
       (overlay_blocks (NoteID op) st1 (w_db w0)))); try done.
  - by eapply Inv_set_note.
  - rewrite <- Hov, (apply_op_edit _ _ _ _ note); [|by rewrite Ht|done|done].
    op_type Ht. rewrite Em. cbn. by rewrite Et.
Qed.

Lemma Inv_set_missing o n st d f : Inv o n st d -> Inv o n (set_missing f st) d.
Proof. intros []. by split. Qed.

Lemma set_dirty_same st : set_dirty (fun _ => st_dirtyBlocks st) st = st.
Proof. by destruct st. Qed.

Lemma deleteNote_done o dev st op w w' st' a :
  NoteID op <> uuid_Nil -> OperationType op = OperationDeleteNote ->
  deleteNote Tx o dev st op w = (w', Ok (st', OpAccepted a)) ->
  Inv o (NoteID op) st (w_db w) ->
  op_done o dev op st (w_db w) st' (w_db w') (Acc_GlobalSequence a).
Proof.
  intros Hnil Ht H HI. unfold deleteNote in H. m_inv H. destruct a0 as [del|e].
  2:{ destruct (store.is_not_found e); [|done]. m_inv H. destruct a0 as [c|e0]; [done|].
      by destruct (store.is_not_found e0). }
  apply mapped_Ok in Hrun as (row' & (_ & _ & d1 & Hq & ->) & ->).
  pose proof (keeps_DeleteNote _ _ _ _ _ _ _ Hq) as Hev. unfold q.DeleteNote in Hq.
  split_match Hq. apply Z.eqb_eq in E0. pose proof (proj1 (owned_note_Some _ _ _ _) E) as [Hk Ho].
  set (row' := db.mkNote _ _ _ _ _ _ _ _) in *. pose proof (inv_wf _ _ _ _ HI) as Hw.
  assert (Hrow' : q.owned_note (set_notes <[NoteID op := row']> (w_db w)) (NoteID op) o = Some row')
    by (by apply owned_note_insert).
  pose proof (inv_note _ _ _ _ HI) as Hni. unfold note_inv in Hni.
  set (note := match st_note st with None => _ | Some _ => _ end) in *.
  assert (Hn : store.Note_ID note = NoteID op /\ store.Note_OwnerID note = o /\
    store.Note_CurrentVersion note = db.n_current_version row').
  { subst note. destruct (st_note st) as [e|]; cbn.
    - destruct Hni as (_ & ? & ? & r & Hr & Hv). rewrite E in Hr. by injection Hr as <-.
    - by rewrite (wf_note_key _ Hw _ _ Hk). }
  eapply (accept_done _ _ _ _ _ _ _ _ _ _ _ _
    (entity_note note (overlay_blocks (NoteID op) st (w_db w)))); try done; cbn.
  - split; [by apply Hev| |apply HI|apply HI]. unfold note_inv. cbn.
    destruct Hn as (? & ? & ?). split_and!; [done..|]. by exists row'.
  - unfold apply_op, overlay. rewrite Ht, E. cbn.
    subst note. destruct (st_note st) as [e|] eqn:Ee; cbn.
    + destruct Hni as (_ & _ & _ & r & Hr & Hv). rewrite E in Hr. injection Hr as <-.
      rewrite <- Hv, E0, Z.eqb_refl. op_type Ht. done.
    + rewrite E0, Z.eqb_refl. op_type Ht. done.
  - by apply only_note_insert_note.
Qed.

Lemma BlockModel_Entity_Ok m n b :
  BlockModel_Entity m n = Ok b ->
  store.Block_ID b = BlkM_BlockId m /\ store.Block_NoteID b = n /\ store.Block_DeletedAt b = None.
Proof.
  unfold BlockModel_Entity. intros H. destruct (_ || _); [done|]. res_inv H. by split_match H.
Qed.

(** The row [CreateBlock] stores for a new block is the block. *)
Lemma row_block_new id n b now :
  store.Block_DeletedAt b = None ->
  row_block (db.mkNoteBlock id n (store.Block_BlockType b) (store.Block_TextContent b)
    (store.Block_Position b) (store.jsonb_param (store.Block_BlockProperties b)) now now None)
  = entity_block b.
Proof.
  intros Hd. unfold row_block, entity_block. cbn. rewrite Hd. f_equal.
  by destruct (store.Block_BlockProperties b) as [[]|].
Qed.

(** The row [UpdateBlockState] stores for a block is the block. *)
Lemma row_block_update id n b created now :
  row_block (db.mkNoteBlock id n (store.Block_BlockType b) (store.Block_TextContent b)
    (store.Block_Position b) (store.jsonb_param (store.Block_BlockProperties b)) created now
    (store.Block_DeletedAt b)) = entity_block b.
Proof.
  unfold row_block, entity_block. cbn. f_equal.
  by destruct (store.Block_BlockProperties b) as [[]|].
Qed.

Lemma CreateBlock_Ok b w w' u :
  store.CreateBlock Tx b w = (w', Ok u) ->
  note_blocks (w_db w) !! store.Block_ID b = None /\
  exists row, db.b_note_id row = store.Block_NoteID b /\
    (store.Block_DeletedAt b = None -> row_block row = entity_block b) /\
    w_db w' = set_blocks <[store.Block_ID b := row]> (w_db w) /\
    evolves (w_db w) (w_db w').
Proof.
  intros H. apply exec_tx_Ok in H as (_ & _ & d & Hq & ->).
  pose proof (keeps_CreateBlock _ _ _ _ _ _ _ _ _ _ Hq) as Hev.
  unfold q.CreateBlock in Hq. split_match Hq. split; [done|]. eexists.
  split_and!; [| |reflexivity|done]; [done|]. intros Hd. by apply row_block_new.
Qed.

Lemma createBlock_done o dev st op w w' st' a :
  NoteID op <> uuid_Nil -> OperationType op = OperationCreateBlock ->
  createBlock Tx o dev st op w = (w', Ok (st', OpAccepted a)) ->
  Inv o (NoteID op) st (w_db w) ->
  op_done o dev op st (w_db w) st' (w_db w') (Acc_GlobalSequence a).
Proof.
  intros Hnil Ht H HI. unfold createBlock in H.
  destruct (BlockModel_FromCreateOperation _) as [m|e] eqn:Em; [|done].
  destruct (BlockModel_Entity m (NoteID op)) as [block|e] eqn:Eb; [|done].
  destruct (BlockModel_Entity_Ok _ _ _ Eb) as (_ & Hbn & Hbd).
  m_inv H. destruct a0 as [st1 [note|r]]; [|done].
  apply existingNote_Ok in Hrun as (Hd & HI1 & Hov & Hn & Hv); [|done].
  destruct (st_blocks st1 !! store.Block_ID block) eqn:Es; [done|]. m_inv H.
  destruct a0 as [u|e]; [|by destruct (store.IsUniqueViolation e)].
  apply CreateBlock_Ok in Hrun as (Hfree & row & Hrn & Hrb & Hd1 & Hev).
  rewrite Hd in *. rewrite Hbn in Hrn.
  assert (Hnb : forall j, q.note_block (w_db w1) j (NoteID op)
    = if decide (store.Block_ID block = j) then Some row else q.note_block (w_db w) j (NoteID op))
    by (intros j; rewrite Hd1; by apply note_block_insert).
  eapply (accept_done _ _ _ _ _ _ _ _ _ _ _ _
    (entity_note note (<[store.Block_ID block := entity_block block]>
       (overlay_blocks (NoteID op) st1 (w_db w))))); try done.
  - apply Inv_set_missing. rewrite <- (set_dirty_same (put_block _ _ _)).
    eapply (Inv_put o _ st1 (w_db w)); [done|by apply Hev, HI|by exists note|by rewrite Hd1|exact Hnb|
      done|done|by intros _; apply Hrb|done].
  - rewrite <- Hov, (apply_op_edit _ _ _ _ note); [|by rewrite Ht|done|done].
    op_type Ht. rewrite Em. cbn. rewrite Eb. cbn.
    rewrite lookup_overlay_blocks, Es. unfold q.note_block. by rewrite Hfree.
  - unfold overlay. cbn. rewrite Hn. cbn. do 2 f_equal.
    etransitivity; [|apply (overlay_put _ _ (w_db w) (w_db w1))]; [done|].
    intros j Hj. rewrite Hnb. by rewrite decide_False.
  - rewrite Hd1. apply only_note_insert_block; [done|]. intros b0. congruence.
  - by rewrite Hd1.
  - by rewrite Hd1.
Qed.

Lemma UpdateBlockState_Ok b row0 w w' u :
  store.UpdateBlockState Tx b w = (w', Ok u) ->
  q.note_block (w_db w) (store.Block_ID b) (store.Block_NoteID b) = Some row0 ->
  exists row, db.b_note_id row = store.Block_NoteID b /\ row_block row = entity_block b /\
    w_db w' = set_blocks <[store.Block_ID b := row]> (w_db w) /\
    evolves (w_db w) (w_db w').
Proof.
  intros H Hrow. apply exec_tx_Ok in H as (_ & _ & d & Hq & ->).
  pose proof (keeps_UpdateBlockState _ _ _ _ _ _ _ _ _ _ _ Hq) as Hev.
  unfold q.UpdateBlockState in Hq. rewrite Hrow in Hq. injection Hq as <- _. eexists.
  split_and!; [| |reflexivity|done]; [|apply row_block_update].
  by apply note_block_Some in Hrow as [_ ->].
Qed.

(** A block of the note replaced, in the database and in the cache. *)
Lemma replaced_block o n st d d' note id b row :
  Inv o n st d -> st_note st = Some note -> evolves d d' ->
  d' = set_blocks <[id := row]> d -> db.b_note_id row = n ->
  is_Some (q.note_block d id n) -> row_block row = entity_block b ->
  store.Block_ID b = id -> store.Block_NoteID b = n ->
  Inv o n (set_dirty (fun dirty => dirty ∖ {[id]}) (put_block id b st)) d' /\
  overlay o n (put_block id b st) d'
    = Some (entity_note note (<[id := entity_block b]> (overlay_blocks n st d))) /\
  only_note n d d'.
Proof.
  intros HI Hn Hev -> Hrn [row0 Hrow0] Hrb Hid Hbn. split_and!.
  - change (set_dirty (fun dirty => dirty ∖ {[id]}) (put_block id b st))
      with (set_dirty (fun _ => st_dirtyBlocks st ∖ {[id]}) (put_block id b st)).
    eapply (Inv_put o n st d); [done|by apply Hev, HI|by exists note|done| |done|done|done|set_solver].
    intros j. by apply note_block_insert.
  - unfold overlay. cbn. rewrite Hn. cbn. do 2 f_equal. apply overlay_put.
    intros j Hj. rewrite note_block_insert by done. by rewrite decide_False.
  - apply only_note_insert_block; [done|]. apply note_block_Some in Hrow0 as [Hk ?].
    intros b0 Hb0. congruence.
Qed.

Lemma deleteBlock_done o dev st op w w' st' a :
  NoteID op <> uuid_Nil -> OperationType op = OperationDeleteBlock ->
  deleteBlock Tx o dev st op w = (w', Ok (st', OpAccepted a)) ->
  Inv o (NoteID op) st (w_db w) ->
  op_done o dev op st (w_db w) st' (w_db w') (Acc_GlobalSequence a).
Proof.
  intros Hnil Ht H HI. unfold deleteBlock in H.
  destruct (BlockMutation_FromRequest _ _) as [m|e] eqn:Em; [|done].
  m_inv H. destruct a0 as [st1 [note|r]]; [|done].
  apply existingNote_Ok in Hrun as (Hd & HI1 & Hov & Hn & Hv); [|done].
  destruct (st_blocks st1 !! BM_ID m) as [block|] eqn:Es; m_inv H.
  - injection Hrun as <- <-. set (block' := block_with_deletion block _) in *.
    destruct (inv_blocks _ _ _ _ HI1 _ _ Es) as (Hid & Hbn & row0 & Hr0 & _).
    apply (UpdateBlockState_Ok _ row0) in Hrun0 as (row & Hrn & Hrb & Hd1 & Hev); cbn in *;
      [|by rewrite Hd, Hid, Hbn].
    rewrite Hd, ?Hid, ?Hbn in *.
    destruct (replaced_block o (NoteID op) st1 (w_db w) (w_db w2) note (BM_ID m) block' row)
      as (HI2 & Hov2 & Hon); try done.
    eapply accept_done; try done.
    + rewrite <- Hov, (apply_op_edit _ _ _ _ note); [|by rewrite Ht|done|done].
      op_type Ht. rewrite Em. cbn. by rewrite lookup_overlay_blocks, Es.
    + by rewrite Hd1.
    + by rewrite Hd1.
  - destruct a0 as [del|e]; [|by destruct (store.is_not_found e)].
    apply mapped_Ok in Hrun as (row & (_ & _ & d1 & Hq & ->) & ->). rewrite Hd in *.
    pose proof (keeps_DeleteBlock _ _ _ _ _ _ Hq) as Hev. unfold q.DeleteBlock in Hq.
    split_match Hq. pose proof (proj1 (note_block_Some _ _ _ _) E) as [Hk Hbn].
    set (row := db.mkNoteBlock _ _ _ _ _ _ _ _ _) in *.
    destruct (replaced_block o (NoteID op) st1 (w_db w) _ note (BM_ID m)
      (store.fromDBBlock row) row HI1 Hn Hev) as (HI2 & Hov2 & Hon); try done.
    { cbn. by apply (wf_block _ (inv_wf _ _ _ _ HI)). }
    eapply accept_done; try done; cbn.
    + split; [apply HI2|apply HI2| |].
      * intros j c Hj. destruct (inv_blocks _ _ _ _ HI2 j c Hj) as (? & ? & r & Hr & Hs).
        split_and!; [done|done|]. exists r. split; [done|]. intros Hnd. apply Hs. set_solver.
      * cbn. intros j Hj. destruct (decide (BM_ID m = j)) as [->|Hne].
        { by rewrite lookup_insert_eq. }
        rewrite lookup_insert_ne by done. by apply HI1.
    + rewrite <- Hov, (apply_op_edit _ _ _ _ note); [|by rewrite Ht|done|done].
      op_type Ht. rewrite Em. cbn. by rewrite lookup_overlay_blocks, Es, E.
Qed.

Lemma modifyBlock_done o dev st op w w' st' a :
  NoteID op <> uuid_Nil -> OperationType op = OperationModifyBlock ->
  modifyBlock Tx o dev st op w = (w', Ok (st', OpAccepted a)) ->
  Inv o (NoteID op) st (w_db w) ->
  op_done o dev op st (w_db w) st' (w_db w') (Acc_GlobalSequence a).
Proof.
  intros Hnil Ht H HI. unfold modifyBlock in H.
  destruct (BlockMutation_FromRequest _ _) as [m|e] eqn:Em; [|done].
  m_inv H. destruct a0 as [st1 [note|r]]; [|done].
  apply existingNote_Ok in Hrun as (Hd & HI1 & Hov & Hn & Hv); [|done].
  m_inv H. destruct a0 as [st2 [block|]]; [|done].
  rewrite <- Hd in HI1. apply (ensureBlock_Ok o _ _ _ note) in Hrun as (Hd2 & HI2 & Hov2 & Hn2 & Hb2);
    [|done|done]. rewrite Hd in *.
  set (block1 := if BM_HasProperties m then _ else _) in *.
  destruct (if BM_HasTextDelta m then _ else _) as [block2|e] eqn:E2; [|done].
  assert (Hids : store.Block_ID block2 = store.Block_ID block /\
    store.Block_NoteID block2 = store.Block_NoteID block).
  { subst block1. destruct (BM_HasTextDelta m), (BM_HasProperties m);
      try (destruct (applyTextDelta _ _)); by simplify_eq/=. }
  destruct (inv_blocks _ _ _ _ HI2 _ _ Hb2) as (Hid & Hbn & row & Hrow & _).
  destruct Hids as [Hid2 Hbn2].
  eapply (accept_done _ _ _ _ _ _ _ _ _ _ _ _ (entity_note note
    (<[BM_ID m := entity_block block2]> (overlay_blocks (NoteID op) st2 (w_db w)))));
    try done; rewrite ?Hd2; try done.
  - change (set_dirty (union {[BM_ID m]}) (put_block (BM_ID m) block2 st2))
      with (set_dirty (fun _ => {[BM_ID m]} ∪ st_dirtyBlocks st2) (put_block (BM_ID m) block2 st2)).
    eapply (Inv_put o _ st2 (w_db w) _ _ _ row); [done|apply HI|by exists note|done| | | | |].
    + intros j. case_decide; [by subst|done].
    + congruence.
    + congruence.
    + set_solver.
    + set_solver.
  - rewrite <- Hov, <- Hov2, (apply_op_edit _ _ _ _ note); [|by rewrite Ht|done|done].
    op_type Ht. rewrite Em. cbn. rewrite lookup_overlay_blocks, Hb2. cbn.
    assert (Htext : store.Block_TextContent block1 = store.Block_TextContent block)
      by (subst block1; by destruct (BM_HasProperties m)).
    rewrite Htext in E2.
    subst block1. destruct (BM_HasTextDelta m); cbn in E2.
    + destruct (applyTextDelta _ _) as [t|e]; [|done]. injection E2 as <-. cbn.
      by destruct (BM_HasProperties m).
    + injection E2 as <-. by destruct (BM_HasProperties m).
  - unfold overlay. cbn. rewrite Hn2. cbn. do 2 f_equal. by apply overlay_put.
Qed.

(** ** Creating a note *)

Lemma traverse_Ok {A B} (f : A -> res B) l l' :
  traverse f l = Ok l' -> Forall2 (fun a b => f a = Ok b) l l'.
Proof.
  revert l'. induction l as [|a l IH]; intros l' H; cbn in H; [by injection H as <-|].
  res_inv H. injection H as <-. constructor; [done|by apply IH].
Qed.

(** What the payload of a creation turns into. *)
Lemma new_document_Ok op o model doc :
  NoteModel_FromRequest op o = Ok model -> NoteModel_Entity model = Ok doc ->
  store.Note_ID (store.Doc_Note doc) = NoteID op /\ store.Note_OwnerID (store.Doc_Note doc) = o /\
  store.Note_CurrentVersion (store.Doc_Note doc) = 0 /\
  store.Note_DeletedAt (store.Doc_Note doc) = None /\
  Forall (fun b => store.Block_NoteID b = NoteID op /\ store.Block_DeletedAt b = None)
    (store.Doc_Blocks doc).
Proof.
  intros Hm He. unfold NoteModel_FromRequest in Hm. destruct (_ || _) in Hm; [done|].
  res_inv Hm. injection Hm as <-. unfold NoteModel_Entity in He. cbn in He.
  destruct (_ || _) in He; [done|]. res_inv He. injection He as <-. split_and!; try done. cbn.
  apply traverse_Ok in Hv7. clear Hv6. induction Hv7 as [|x y l l' Hxy _ IH]; [constructor|].
  constructor; [|done]. by apply BlockModel_Entity_Ok in Hxy as (_ & ? & ?).
Qed.

Definition insert_entity (m : gmap UUID BlockDoc) (b : store.NoteBlock) : gmap UUID BlockDoc :=
  <[store.Block_ID b := entity_block b]> m.

Lemma create_blocks_Ok o op blocks note st w w' st' :
  create_blocks Tx op blocks st w = (w', Ok (st', None)) ->
  Forall (fun b => store.Block_NoteID b = NoteID op /\ store.Block_DeletedAt b = None) blocks ->
  Inv o (NoteID op) st (w_db w) -> st_note st = Some note ->
  blocks_of (w_db w) (NoteID op) = entity_block <$> st_blocks st ->
  Inv o (NoteID op) st' (w_db w') /\ st_note st' = Some note /\
  blocks_of (w_db w') (NoteID op) = entity_block <$> st_blocks st' /\
  entity_block <$> st_blocks st' = foldl insert_entity (entity_block <$> st_blocks st) blocks /\
  only_note (NoteID op) (w_db w) (w_db w') /\
  note_changes (w_db w') = note_changes (w_db w) /\ change_seq (w_db w') = change_seq (w_db w).
Proof.
  revert st w. induction blocks as [|b bs IH]; intros st w H Hb HI Hn Hbo; cbn in H.
  { by injection H as <- <-. }
  inversion Hb as [|? ? [Hbn Hbd] Hbs]; subst. m_inv H.
  destruct a as [u|e]; [|by destruct (store.IsUniqueViolation e)].
  apply CreateBlock_Ok in Hrun as (Hfree & row & Hrn & Hrb & Hd1 & Hev). rewrite Hbn in Hrn.
  specialize (Hrb Hbd).
  assert (Hnb : forall j, q.note_block (w_db w0) j (NoteID op)
    = if decide (store.Block_ID b = j) then Some row else q.note_block (w_db w) j (NoteID op))
    by (intros j; rewrite Hd1; by apply note_block_insert).
  eapply IH in H as (H1 & H2 & H3 & H4 & H5 & H6 & H7); [|done| |done|].
  - split_and!; [done..|by rewrite H4; cbn; rewrite fmap_insert| | |].
    + etransitivity; [|exact H5]. rewrite Hd1. apply only_note_insert_block; [done|]. congruence.
    + by rewrite H6, Hd1.
    + by rewrite H7, Hd1.
  - rewrite <- (set_dirty_same (put_block _ _ _)).
    eapply (Inv_put o _ st (w_db w)); [done|by apply Hev, HI|by exists note|by rewrite Hd1|
      exact Hnb|done|done|done|done].
  - rewrite Hd1, blocks_of_insert by done. cbn. by rewrite fmap_insert, Hbo, Hrb.
Qed.

Lemma createNote_done o dev st op w w' st' a :
  NoteID op <> uuid_Nil -> OperationType op = OperationCreateNote ->
  createNote Tx o dev st op w = (w', Ok (st', OpAccepted a)) ->
  Inv o (NoteID op) st (w_db w) ->
  op_done o dev op st (w_db w) st' (w_db w') (Acc_GlobalSequence a).
Proof.
  intros Hnil Ht H HI. unfold createNote in H.
  destruct (BaseNoteVersion op =? 0) eqn:Eb; [|done]. cbn [negb] in H.
  pose proof (inv_note _ _ _ _ HI) as Hni. unfold note_inv in Hni.
  destruct (st_note st) as [e|] eqn:Ee.
  { destruct Hni as [Hl _]. by rewrite Hl in H. }
  replace (if st_noteLoaded st then None else None) with (@None store.Note) in H
    by (by destruct (st_noteLoaded st)).
  destruct (NoteModel_FromRequest op o) as [model|e] eqn:Em; [|done].
  destruct (NoteModel_Entity model) as [doc|e] eqn:Ed; [|done].
  destruct (new_document_Ok _ _ _ _ Em Ed) as (Hid & Ho & Hver & Hdel & Hblocks).
  m_inv H. destruct a0 as [u|e]; [|by destruct (store.IsUniqueViolation e)].
  apply exec_tx_Ok in Hrun as (_ & _ & d1 & Hq & ->).
  pose proof (keeps_CreateNote _ _ _ _ _ _ _ _ _ Hq) as Hev. unfold q.CreateNote in Hq.
  rewrite Hid, Ho in Hq. destruct (notes (w_db w) !! NoteID op) eqn:Efree; [done|].
  injection Hq as <- _. m_inv H. destruct a0 as [st1 [r|]]; [done|].
  pose proof (inv_wf _ _ _ _ HI) as Hw. destruct Hni as [Hst _].
  set (d1 := set_notes _ _) in *. set (note := store.Doc_Note doc) in *.
  assert (Hnone : q.owned_note (w_db w) (NoteID op) o = None)
    by (unfold q.owned_note; by rewrite Efree).
  assert (HI0 : Inv o (NoteID op) (set_note (Some note) true st) d1).
  { split; [by apply Hev| | |].
    - split_and!; [done..|]. eexists. split; [by apply owned_note_insert|]. done.
    - cbn. rewrite Hst. done.
    - intros id Hin. apply HI in Hin. by rewrite Hst in Hin; destruct Hin. }
  assert (Hbo : blocks_of d1 (NoteID op) = entity_block <$> st_blocks (set_note (Some note) true st)).
  { cbn. rewrite Hst, fmap_empty. by apply (blocks_of_orphan (w_db w)). }
  apply (create_blocks_Ok o _ _ note) in Hrun
    as (HI1 & Hn1 & Hbo1 & Hfold & Hon & Hlog & Hseq); [|done..].
  cbn in Hfold. rewrite Hst, fmap_empty in Hfold.
  eapply (accept_done _ _ _ _ _ _ _ _ _ _ _ _ (entity_note note
    (foldl insert_entity ∅ (store.Doc_Blocks doc)))); try done.
  - unfold apply_op, overlay. rewrite Ee, Hnone, Ht. cbn. rewrite Eb. unfold new_doc.
    rewrite Em. cbn. by rewrite Ed.
  - rewrite (overlay_Some _ _ _ _ note) by done. unfold overlay_blocks.
    rewrite Hbo1, Hfold. by rewrite map_union_idemp.
  - etransitivity; [|exact Hon]. by apply only_note_insert_note.
Qed.

(** ** One operation *)

Lemma find_operation_Some d dev id c :
  List.find (q.is_operation dev id) (note_changes d) = Some c ->
  id ∈ processed d dev.
Proof.
  intros H. apply List.find_some in H as [Hin Hc]. apply elem_of_processed. exists c.
  split; [by apply list_elem_of_In|by apply is_operation_spec].
Qed.

Lemma find_operation_None d dev id :
  List.find (q.is_operation dev id) (note_changes d) = None -> id ∉ processed d dev.
Proof.
  intros H (c & Hin & Hk)%elem_of_processed. apply list_elem_of_In in Hin.
  pose proof (List.find_none _ _ H c Hin) as Hf. apply is_operation_spec in Hk. congruence.
Qed.

(** A valid operation on a note is not a category operation. *)
Lemma valid_note_operation op v :
  Operation_FromRequest op = Ok v -> NoteID op <> uuid_Nil ->
  category_operation (OperationType op) = false.
Proof.
  intros H Hnil. unfold Operation_FromRequest in H. res_inv H. clear H.
  unfold ClientOperation_Validate in Hv. do 2 (destruct (_ : bool) in Hv; [done|]).
  res_inv Hv. destruct (category_operation _); [|done].
  apply is_nil_false in Hnil. by rewrite Hnil in Hv0.
Qed.

Lemma dispatch_done o dev st op w w' st' a :
  NoteID op <> uuid_Nil -> category_operation (OperationType op) = false ->
  dispatch Tx o dev st op w = (w', Ok (st', OpAccepted a)) ->
  Inv o (NoteID op) st (w_db w) ->
  op_done o dev op st (w_db w) st' (w_db w') (Acc_GlobalSequence a).
Proof.
  intros Hnil Hc H HI. unfold dispatch in H. cbv zeta in H. unfold category_operation in Hc.
  cbn in Hc.
  destruct (String.eqb_spec (OperationType op) OperationCreateNote); [by eapply createNote_done|].
  destruct (String.eqb_spec (OperationType op) OperationDeleteNote); [by eapply deleteNote_done|].
  destruct (String.eqb_spec (OperationType op) OperationModifyNoteProperty);
    [by eapply modifyNoteProperty_done|].
  destruct (String.eqb_spec (OperationType op) OperationModifyNoteTitle);
    [by eapply modifyNoteTitle_done|].
  destruct (String.eqb_spec (OperationType op) OperationCreateBlock); [by eapply createBlock_done|].
  destruct (String.eqb_spec (OperationType op) OperationDeleteBlock); [by eapply deleteBlock_done|].
  destruct (String.eqb_spec (OperationType op) OperationModifyBlock); [by eapply modifyBlock_done|].
  apply orb_false_elim in Hc as [Hc1 Hc]. rewrite Hc1 in H.
  apply orb_false_elim in Hc as [Hc2 Hc]. rewrite Hc2 in H.
  apply orb_false_elim in Hc as [Hc3 Hc]. by rewrite Hc3 in H.
Qed.

Lemma applyOperation_done o dev st op w w' st' a changed :
  NoteID op <> uuid_Nil ->
  applyOperation Tx o dev st op w = (w', Ok (st', OpAccepted a, changed)) ->
  Inv o (NoteID op) st (w_db w) ->
  if changed
  then (OperationID op ∉ processed (w_db w) dev) /\
       op_done o dev op st (w_db w) st' (w_db w') (Acc_GlobalSequence a)
  else (OperationID op ∈ processed (w_db w) dev) /\ w_db w' = w_db w /\
       Inv o (NoteID op) st' (w_db w) /\
       overlay o (NoteID op) st' (w_db w) = overlay o (NoteID op) st (w_db w) /\
       st_noteLoaded st' = true.
Proof.
  intros Hnil H HI. unfold applyOperation in H. m_inv H. destruct a0 as [c|e].
  - apply mapped_Ok in Hrun as (row & Hran & ->).
    apply (ran_one (fun d => List.find (q.is_operation dev (OperationID op)) (note_changes d)))
      in Hran as [Hd Hrow]; [|done]. apply find_operation_Some in Hrow.
    apply is_nil_false in Hnil. rewrite Hnil in H. m_inv H. injection H as <- <- <- <-.
    apply ensureNote_Ok in Hrun as (Hd' & HI' & Hov & Hl); rewrite ?Hd in *; [|done]. done.
  - destruct (store.is_not_found e) eqn:Ef; cbn [negb] in H; [|done].
    apply (mapped_not_found (fun d => List.find (q.is_operation dev (OperationID op))
      (note_changes d))) in Hrun as (Hd & _ & Hrow); [|done..]. apply find_operation_None in Hrow.
    destruct (Operation_FromRequest op) as [v|e0] eqn:Eo; [|done]. m_inv H.
    destruct a0 as [st1 oc]. injection H as <- <- -> <-. cbn. split; [done|].
    rewrite <- Hd in *. eapply dispatch_done; eauto using valid_note_operation.
Qed.

(** ** The loop *)

Lemma edit_doc_version op doc doc' : edit_doc op doc = Some doc' -> nd_version doc' = nd_version doc.
Proof.
  unfold edit_doc. intros H. cbv zeta in H.
  repeat (case_match; simplify_eq/=; try done);
    repeat (apply bind_Some in H as (? & ? & H); simplify_eq/=; try case_match; simplify_eq/=; try done).
Qed.

Lemma apply_op_version o doc op doc' :
  apply_op o (Some doc) op = Some doc' -> nd_version doc' = nd_version doc.
Proof.
  unfold apply_op. case_match; [done|]. cbn. case_match; [|done]. apply edit_doc_version.
Qed.

Lemma apply_ops_version o doc ops doc' :
  apply_ops o (Some doc) ops = Some doc' ->
  exists doc2, doc' = Some doc2 /\ nd_version doc2 = nd_version doc.
Proof.
  revert doc. induction ops as [|op ops IH]; intros doc H; cbn in H.
  { injection H as <-. eauto. }
  apply bind_Some in H as (d1 & H1 & H). apply apply_op_version in H1.
  apply IH in H as (d2 & -> & H). exists d2. split; [done|congruence].
Qed.

(** The state of affairs after [todo] was applied between [d] and [d']. *)
Record loop_done (o n : UUID) (dev : string) (todo : list ClientOperation)
    (st : noteBatchState) (d : Db) (st' : noteBatchState) (d' : Db) : Prop := mkLoopDone {
  ld_inv : Inv o n st' d';
  ld_doc : apply_ops o (overlay o n st d) todo = Some (overlay o n st' d');
  ld_only : only_note n d d';
  ld_seq : change_seq d' = change_seq d + Z.of_nat (length todo);
  ld_log : exists cs, note_changes d' = note_changes d ++ cs /\
    Forall2 (logs o dev (doc_version (overlay o n st' d'))) todo cs;
  ld_loaded : st_noteLoaded st = true -> st_noteLoaded st' = true;
  ld_same : todo = [] -> d' = d
}.

Lemma Inv_loaded o n st d : Inv o n st d -> is_Some (st_note st) -> st_noteLoaded st = true.
Proof.
  intros HI [e He]. pose proof (inv_note _ _ _ _ HI) as H. unfold note_inv in H.
  rewrite He in H. by destruct H.
Qed.

Lemma loop_done_nil o n dev st d :
  Inv o n st d -> loop_done o n dev [] st d st d.
Proof.
  intros HI. split; cbn; try done; [lia|].
  exists []. rewrite app_nil_r. split; [done|]. constructor.
Qed.

(** Operations replayed from the log change nothing. *)
Lemma loop_done_skip o n dev todo st d st1 st' d' :
  overlay o n st1 d = overlay o n st d -> st_noteLoaded st1 = true ->
  loop_done o n dev todo st1 d st' d' -> loop_done o n dev todo st d st' d'.
Proof. intros Hov Hl []. split; auto. by rewrite <- Hov. Qed.

Lemma loop_done_cons o dev op todo st d st1 d1 st' d' seq :
  op_done o dev op st d st1 d1 seq -> loop_done o (NoteID op) dev todo st1 d1 st' d' ->
  loop_done o (NoteID op) dev (op :: todo) st d st' d'.
Proof.
  intros [H1 (doc & Hap & Hov & c & Hl & Hc & Hs) H3 [H4 H5] H6] [L1 L2 L3 L4 (cs & Hcs & Hf) L6 _].
  split; try done; cycle 4.
  { intros _. apply L6. by eapply Inv_loaded. }
  - cbn. rewrite Hap. cbn. by rewrite <- Hov.
  - by etransitivity.
  - cbn [length]. lia.
  - exists (c :: cs). split; [by rewrite Hcs, Hl, <- app_assoc|].
    constructor; [|done].
    rewrite Hov in L2. apply apply_ops_version in L2 as (doc2 & Hd2 & Hv).
    rewrite Hd2. unfold doc_version. cbn. by rewrite Hv.
Qed.

(** What the loop leaves in the captured variables. *)
Definition vars_done (todo : list ClientOperation) (v v' : batch_vars) (d d' : Db) : Prop :=
  bv_changed v' = bv_changed v || negb (bool_decide (todo = [])) /\
  (bv_latestCursor v <= change_seq d ->
   bv_latestCursor v' = match todo with [] => bv_latestCursor v | _ => change_seq d' end).

Lemma batch_loop_done o n dev ops v w w' v' u :
  n <> uuid_Nil -> Forall (fun op => NoteID op = n) ops ->
  batch_loop Tx o dev ops v w = (w', (v', Ok u)) -> Inv o n (bv_state v) (w_db w) ->
  let todo := unprocessed (processed (w_db w) dev) ops in
  loop_done o n dev todo (bv_state v) (w_db w) (bv_state v') (w_db w') /\
  vars_done todo v v' (w_db w) (w_db w') /\
  (ops <> [] -> st_noteLoaded (bv_state v') = true).
Proof.
  intros Hnil. revert v w. induction ops as [|op ops IH]; intros v w Hops H HI; cbn in H.
  { injection H as <- <- _. cbn. split; [by apply loop_done_nil|].
    split; [split; [by rewrite orb_false_r|done]|done]. }
  inversion Hops as [|? ? Hop Hops']; subst.
  destruct (applyOperation Tx o dev (bv_state v) op w) as [w1 [[[st1 [a|r]] ch]|e]] eqn:E; try done.
  apply applyOperation_done in E; [|done..]. cbn [unprocessed].
  destruct ch.
  - destruct E as [Hnew Hdone]. rewrite decide_False by done.
    pose proof Hdone as [H1 (doc & Hap & Hov & c & Hl & Hc & Hs) H3 [H4 H5] H6].
    apply IH in H as (Hloop & [Hch Hcur] & _); [|done|done].
    destruct Hc as (_ & _ & Hcd & Hco & _).
    rewrite (processed_append _ _ _ _ Hl Hcd), Hco in *.
    split; [by eapply loop_done_cons|].
    split; [split|intros _; apply (ld_loaded _ _ _ _ _ _ _ _ Hloop); by eapply Inv_loaded].
    + rewrite Hch. cbn. by rewrite orb_true_r.
    + intros Hle. rewrite Hcur; cbn; destruct (Z.ltb_spec (bv_latestCursor v) (Acc_GlobalSequence a));
        try lia.
      pose proof (ld_seq _ _ _ _ _ _ _ _ Hloop) as Hlen.
      destruct (unprocessed _ ops); cbn in Hlen; lia.
  - destruct E as (Hold & Hd & HI1 & Hov & Hld). rewrite decide_True by done. rewrite <- Hd in HI1.
    apply IH in H as (Hloop & [Hch Hcur] & _); [|done|done]. rewrite Hd in *.
    split; [by eapply loop_done_skip|]. split; [split|intros _; by apply (ld_loaded _ _ _ _ _ _ _ _ Hloop)].
    + rewrite Hch. cbn. by rewrite orb_false_r.
    + cbn in Hcur. intros Hle. by apply Hcur.
Qed.

(** ** Writing back *)

Lemma update_dirty_Ok o n note st ids w w' u :
  NoDup ids -> (forall id, id ∈ st_dirtyBlocks st <-> id ∈ ids) ->
  update_dirty Tx (st_blocks st) ids w = (w', Ok u) -> Inv o n st (w_db w) ->
  st_note st = Some note ->
  Inv o n (set_dirty (fun _ => ∅) st) (w_db w') /\
  overlay o n st (w_db w') = overlay o n st (w_db w) /\
  only_note n (w_db w) (w_db w') /\ notes (w_db w') = notes (w_db w) /\
  note_changes (w_db w') = note_changes (w_db w) /\ change_seq (w_db w') = change_seq (w_db w).
Proof.
  revert st w. induction ids as [|id ids IH]; intros st w Hnd Hdirty H HI Hn; cbn in H.
  { injection H as <- _. split_and!; try done. destruct HI as [H1 H2 H3 H4].
    split; [done|done| |set_solver]. intros j b Hj. destruct (H3 _ _ Hj) as (? & ? & r & Hr & Hs).
    split_and!; try done. exists r. split; [done|]. intros _. apply Hs.
    rewrite Hdirty. apply not_elem_of_nil. }
  inversion Hnd as [|? ? Hnotin Hnd']; subst.
  assert (Hin : id ∈ st_dirtyBlocks st) by (apply Hdirty; left).
  destruct (inv_dirty _ _ _ _ HI _ Hin) as [b Hb]. rewrite Hb in H. m_inv H.
  destruct (inv_blocks _ _ _ _ HI _ _ Hb) as (Hid & Hbn & row0 & Hr0 & _).
  apply (UpdateBlockState_Ok _ row0) in Hrun as (row & Hrn & Hrb & Hd1 & Hev);
    [|by rewrite Hid, Hbn]. rewrite Hid, Hbn in *.
  destruct (replaced_block o n st (w_db w) (w_db w0) note id b row) as (HI1 & Hov1 & Hon); try done.
  assert (Est : put_block id b st = st).
  { destruct st. unfold put_block. cbn in *. by rewrite insert_id. }
  rewrite Est in *.
  eapply (IH (set_dirty (fun dirty => dirty ∖ {[id]}) st)) in H as (H1 & H2 & H3 & H4 & H5 & H6);
    [|done| |done|done].
  2:{ intros j. cbn. specialize (Hdirty j). rewrite elem_of_cons in Hdirty.
      rewrite elem_of_difference, elem_of_singleton. naive_solver. }
  split_and!; [exact H1| |by etransitivity|by rewrite H4, Hd1|by rewrite H5, Hd1|by rewrite H6, Hd1].
  change (overlay o n st (w_db w') = overlay o n st (w_db w0)) in H2. rewrite H2, Hov1.
  rewrite (overlay_Some _ _ _ _ note) by done. do 2 f_equal. apply insert_id.
  by rewrite lookup_overlay_blocks, Hb.
Qed.

(** With nothing dirty, the database holds the blocks of the overlay. *)
Lemma overlay_clean o n st d :
  Inv o n st d -> st_dirtyBlocks st = ∅ -> overlay_blocks n st d = blocks_of d n.
Proof.
  intros HI Hd. apply map_eq. intros id. rewrite lookup_overlay_blocks, lookup_blocks_of.
  destruct (st_blocks st !! id) as [b|] eqn:Eb; [|done].
  destruct (inv_blocks _ _ _ _ HI _ _ Eb) as (_ & _ & row & -> & Hs). cbn. f_equal.
  symmetry. apply Hs. rewrite Hd. apply not_elem_of_empty.
Qed.

End refinement.
