(* ===== verification/BatchFacts.v ===== *)
(** * Accepted and rejected batches

    The end of a note batch: an accepted one has written its document back at
    the next version with one log entry per new operation, a rejected one has
    left every table as it was. *)

From S2P Require Import Prelude GoText GoFloat Json HttpApi Constants External SyncOperations.
From S2P Require Import Schema Queries DbInvariant Store Frame SyncModels RealtimeMessage.
From S2P Require Import SyncService NoteSpec SyncPush SyncPull SyncFacts SyncFrame.
From S2P Require Import BatchRefinement.

(** ** Snapshot jobs *)

(** Only jobs were added. *)
Record jobs_only (d d' : Db) : Prop := mkJobsOnly {
  jo_tables : set_jobs (fun _ => ∅) (rollback_to d' empty_db)
              = set_jobs (fun _ => ∅) (rollback_to d empty_db);
  jo_seq : change_seq d' = change_seq d;
  jo_jobs : forall id j, outbox_jobs d !! id = Some j -> id <= job_seq d ->
    outbox_jobs d' !! id = Some j;
  jo_job_seq : job_seq d <= job_seq d'
}.

#[export] Instance jobs_only_preorder : PreOrder jobs_only.
Proof.
  split.
  - by intros d.
  - intros d1 d2 d3 [] []. split; try congruence; [|lia].
    intros id j Hj Hle. apply jo_jobs1; [by apply jo_jobs0|lia].
Qed.

#[export] Instance jobs_only_rollable : Rollable jobs_only.
Proof. split; [apply _|]. intros d0 d []. by split. Qed.

Lemma jobs_only_fields d d' :
  jobs_only d d' ->
  notes d' = notes d /\ note_blocks d' = note_blocks d /\ categories d' = categories d /\
  sync_devices d' = sync_devices d /\ note_changes d' = note_changes d /\
  note_snapshots d' = note_snapshots d /\ file_uploads d' = file_uploads d.
Proof. intros [H _ _ _]. by injection H. Qed.

Section facts.
Context {X : External Db}.

Lemma keeps_Enqueue_jobs_only t p at_ : keeps jobs_only (q.EnqueueOutboxJob t p at_).
Proof.
  intros now d d' r H. unfold q.EnqueueOutboxJob in H. injection H as <- _. split; cbn; try done; [|lia].
  intros id j Hj Hle. by rewrite lookup_insert_ne by lia.
Qed.

Lemma enqueueSnapshotIfNeeded_jobs sv n o v :
  sat (on_db jobs_only) (enqueueSnapshotIfNeeded sv Tx n o v).
Proof.
  unfold enqueueSnapshotIfNeeded, store.EnqueueSnapshotJob,
    store.CountChangesSinceLastSnapshot, store.SumChangeBytesSinceLastSnapshot.
  assert (forall t p at_, sat (on_db jobs_only) (exec Tx (q.EnqueueOutboxJob t p at_)))
    by (intros; apply sat_exec_tx; [apply _|apply keeps_Enqueue_jobs_only]).
  frame_walk.
Qed.

(** ** Storing an accepted batch *)

Lemma entity_note_stored e now row blocks :
  entity_note (store.fromDBNote (db.mkNote (db.n_id row) (db.n_owner_id row) (store.Note_Title e)
    (store.jsonb_param (store.Note_NoteProperties e)) (store.Note_CurrentVersion e)
    (db.n_created_at row) now (store.Note_DeletedAt e))) blocks = entity_note e blocks.
Proof. unfold entity_note. cbn. f_equal. by destruct (store.Note_NoteProperties e) as [[]|]. Qed.

Lemma store_batch_Ok sv o n st e w w' v :
  store_batch sv Tx o st e w = (w', Ok v) -> Inv o n st (w_db w) -> st_note st = Some e ->
  v = wrap64 (store.Note_CurrentVersion e + 1) /\
  note_doc (w_db w') o n = next_version <$> overlay o n st (w_db w) /\
  only_note n (w_db w) (w_db w') /\ note_changes (w_db w') = note_changes (w_db w) /\
  change_seq (w_db w') = change_seq (w_db w).
Proof.
  intros H HI He. unfold store_batch in H. cbv zeta in H. m_inv H. injection H as -> <-.
  split; [done|]. apply exec_tx_Ok in Hrun as (_ & _ & d1 & Hq & ->).
  pose proof (keeps_UpdateNoteState _ _ _ _ _ _ _ _ _ _ Hq) as Hev.
  pose proof (inv_note _ _ _ _ HI) as Hni. unfold note_inv in Hni. rewrite He in Hni.
  destruct Hni as (_ & Hid & Ho & row & Hrow & Hv). unfold q.UpdateNoteState in Hq. cbn in Hq.
  rewrite Hid, Ho, Hrow in Hq. injection Hq as <- _. set (row' := db.mkNote _ _ _ _ _ _ _ _) in *.
  pose proof (proj1 (owned_note_Some _ _ _ _) Hrow) as [Hk Hro].
  set (d1 := set_notes _ _) in *. set (e1 := note_next_version e) in *.
  set (st1 := set_note (Some e1) true st).
  assert (Hrow' : q.owned_note d1 n o = Some row') by (by apply owned_note_insert).
  assert (HI1 : Inv o n st1 d1).
  { split; [by apply Hev, HI| |apply HI|apply HI]. split_and!; [done..|]. by exists row'. }
  apply (update_dirty_Ok o n e1 st1) in Hrun0 as (HI2 & Hov & Hon & Hn & Hl & Hs);
    [|apply NoDup_elements|intros; by rewrite elem_of_elements|done|done].
  apply enqueueSnapshotIfNeeded_jobs in Hrun1 as Hjobs. unfold on_db in Hjobs.
  destruct (jobs_only_fields _ _ Hjobs) as (F1 & F2 & F3 & F4 & F5 & F6 & F7).
  cbn in Hon, Hn, Hl, Hs. split_and!.
  - unfold note_doc. replace (q.owned_note (w_db w') n o) with (Some row').
    2:{ unfold q.owned_note in *. by rewrite F1, Hn. }
    replace (blocks_of (w_db w') n) with (overlay_blocks n st (w_db w)).
    2:{ unfold blocks_of. rewrite F2. change (overlay_blocks n st (w_db w) = blocks_of (w_db w1) n).
        rewrite <- (overlay_clean o n (set_dirty (fun _ => ∅) st1)) by done.
        rewrite !(overlay_Some _ _ st1 _ e1) in Hov by done. by injection Hov. }
    rewrite (overlay_Some _ _ _ _ e) by done. cbn. f_equal.
    etransitivity; [exact (entity_note_stored e1 _ row _)|]. done.
  - etransitivity; [apply (only_note_insert_note _ n row')|]. etransitivity; [exact Hon|].
    split; [by rewrite F1|by rewrite F2|done..].
  - rewrite F5, Hl. done.
  - rewrite (jo_seq _ _ Hjobs), Hs. done.
Qed.

(** ** The savepoint *)

Lemma exec_no_op w w' r : exec_tx no_op w = (w', r) -> w_db w' = w_db w.
Proof.
  unfold exec_tx, no_op. destruct (w_tx w); [destruct (round_trip (w_step w))|..]; by intros [= <- _].
Qed.

Lemma savepoint_Ok {V} (fn : Store -> Closure V) v v' w w' u :
  WithSavepoint Tx fn v w = (w', (v', Ok u)) ->
  exists w1 w2 u', w_db w1 = w_db w /\ fn Tx v w1 = (w2, (v', Ok u')) /\ w_db w' = w_db w2.
Proof.
  intros H. unfold WithSavepoint in H.
  destruct (exec_tx no_op (count_savepoint w)) as [w1 [u1|e]] eqn:E1; [|done].
  apply exec_no_op in E1. destruct (fn Tx v w1) as [w2 [v2 [u2|e]]] eqn:E2.
  - destruct (exec_tx no_op w2) as [w3 r] eqn:E3. apply exec_no_op in E3.
    injection H as <- <- ->. by exists w1, w2, u2.
  - destruct (rollback_to_savepoint (w_db w1) w2) as [w3 [u3|e3]]; [|done].
    by destruct (exec_tx no_op w3).
Qed.

(** A closure that fails leaves every table as it was, or the transaction is
    broken and will be rolled back as a whole. *)
Lemma savepoint_Err {V} (fn : Store -> Closure V) v v' w w' e :
  WithSavepoint Tx fn v w = (w', (v', Err e)) ->
  same_tables (w_db w) (w_db w') \/ w_tx w' <> TxActive.
Proof.
  intros H. unfold WithSavepoint in H.
  destruct (exec_tx no_op (count_savepoint w)) as [w1 [u1|e1]] eqn:E1; apply exec_no_op in E1;
    [|injection H as <- _ _; left; by rewrite E1].
  cbn in E1. destruct (fn Tx v w1) as [w2 [v2 [u2|e2]]] eqn:E2.
  - destruct (exec_tx no_op w2) as [w3 r] eqn:E3. injection H as <- <- ->. right.
    unfold exec_tx in E3. destruct (w_tx w2) eqn:Et; [destruct (round_trip (w_step w2))|..];
      simplify_eq/=; by rewrite ?Et.
  - destruct (rollback_to_savepoint (w_db w1) w2) as [w3 r3] eqn:E3.
    apply rollback_to_savepoint_db in E3. destruct r3 as [u3|e3].
    + destruct E3 as [Hd _]. destruct (exec_tx no_op w3) as [w4 r4] eqn:E4. apply exec_no_op in E4.
      injection H as <- _ _. left. rewrite E4, Hd, <- E1. done.
    + destruct E3 as [_ Ht]. injection H as <- _ _. right. by rewrite Ht.
Qed.

End facts.
