(* ===== verification/CategoryFacts.v ===== *)
(** * Category batches

    A batch without a note holds category operations; an accepted one applies
    them to the owner's categories as NoteSpec.v says and logs each one. *)

From S2P Require Import Prelude GoText GoFloat Json HttpApi Constants External SyncOperations.
From S2P Require Import Schema Queries DbInvariant Store Frame SyncModels RealtimeMessage.
From S2P Require Import SyncService NoteSpec SyncPush SyncPull SyncFacts SyncFrame.
From S2P Require Import BatchRefinement BatchFacts.

(** What accepting the category operations [todo] means. *)
Record categories_done {X : External Db} (o : UUID) (dev : string)
    (todo : list ClientOperation) (d d' : Db) : Prop := mkCategoriesDone {
  cd_categories : apply_categories todo (categories_of d o) = Some (categories_of d' o);
  cd_only : only_categories o d d';
  cd_seq : change_seq d' = change_seq d + Z.of_nat (length todo);
  cd_log : exists cs, note_changes d' = note_changes d ++ cs /\
    Forall2 (logs_category o dev) todo cs
}.

Section categories.
Context {X : External Db}.

Lemma categories_done_nil o dev d : categories_done o dev [] d d.
Proof.
  split; cbn; try done; [lia|]. exists []. by rewrite app_nil_r.
Qed.

Lemma categories_done_cons o dev op todo d d1 d' :
  categories_done o dev [op] d d1 -> categories_done o dev todo d1 d' ->
  categories_done o dev (op :: todo) d d'.
Proof.
  intros [H1 H2 H3 (cs1 & Hl1 & Hf1)] [G1 G2 G3 (cs2 & Hl2 & Hf2)]. split.
  - cbn in *. apply bind_Some in H1 as (m & -> & [= ->]). done.
  - by etransitivity.
  - cbn [length] in *. lia.
  - exists (cs1 ++ cs2). split; [by rewrite Hl2, Hl1, app_assoc|]. change (op :: todo) with ([op] ++ todo).
    by apply Forall2_app.
Qed.

(** Recording a category operation after its write. *)
Lemma acceptCategoryChange_done o dev op d w w' oc :
  NoteID op = uuid_Nil -> acceptCategoryChange Tx o dev op w = (w', Ok oc) ->
  apply_category op (categories_of d o) = Some (categories_of (w_db w) o) ->
  only_categories o d (w_db w) ->
  note_changes (w_db w) = note_changes d -> change_seq (w_db w) = change_seq d ->
  categories_done o dev [op] d (w_db w') /\
  exists a, oc = OpAccepted a /\ Acc_GlobalSequence a = change_seq (w_db w').
Proof.
  intros Hnil H Hap Hon Hl Hs. unfold acceptCategoryChange, insertChange in H. m_inv H.
  injection H as -> <-. m_inv Hrun. injection Hrun0 as <- <-. apply lift_Ok in Hrun1 as [-> He].
  unfold store.InsertNoteChange in Hrun. m_inv Hrun. injection Hrun as -> <-.
  apply exec_tx_Ok in Hrun0 as (_ & _ & d1 & Hq & ->). cbn in Hq.
  unfold ClientOperation_Entity in He. res_inv He. split_match He.
  unfold nullableUUID in Hq. rewrite Hnil in Hq. unfold is_nil in Hq. cbn in Hq.
  unfold q.InsertNoteChange in Hq. split_match Hq. split.
  - split; cbn; try done.
    + rewrite Hap. done.
    + etransitivity; [exact Hon|]. by split.
    + lia.
    + eexists. rewrite Hl. split; [done|]. by repeat constructor.
  - eexists. split; [done|]. done.
Qed.

(** The lock of a category of the owner that is not deleted. *)
Lemma LockCategoryForOwner_Ok id o w w' u :
  store.LockCategoryForOwner Tx id o w = (w', Ok u) ->
  w_db w' = w_db w /\ exists c, q.active_category (w_db w) id o = Some c.
Proof.
  intros H. apply mapped_Ok in H as (i & Hran & _).
  apply (ran_one (fun d => db.cat_id <$> q.active_category d id o)) in Hran as [Hd Hc]; [|done].
  split; [done|]. destruct (q.active_category (w_db w) id o); [eauto|done].
Qed.

Lemma active_category_of d id o c :
  q.active_category d id o = Some c ->
  categories d !! id = Some c /\ db.cat_owner_id c = o /\
  categories_of d o !! id = Some (db.cat_name c, false).
Proof.
  intros (Hc & Ho & Hd)%active_category_Some. split_and!; [done|done|].
  rewrite lookup_categories_of, Hc. cbn. by rewrite Ho, N.eqb_refl, Hd.
Qed.

Lemma dispatch_category_done o dev st op w w' st' oc :
  NoteID op = uuid_Nil -> category_operation (OperationType op) = true ->
  dispatch Tx o dev st op w = (w', Ok (st', oc)) -> is_accepted oc = true ->
  st' = st /\ categories_done o dev [op] (w_db w) (w_db w') /\
  exists a, oc = OpAccepted a /\ Acc_GlobalSequence a = change_seq (w_db w').
Proof.
  intros Hnil Hc H Hacc.
  assert (Ht : OperationType op = OperationCreateCategory \/
    OperationType op = OperationDeleteCategory \/ OperationType op = OperationModifyCategory).
  { unfold category_operation in Hc. cbn in Hc. rewrite !orb_true_iff, !String.eqb_eq in Hc.
    naive_solver. }
  unfold dispatch in H. cbv zeta in H.
  destruct Ht as [Ht|[Ht|Ht]]; rewrite Ht in H;
    cbn [String.eqb Ascii.eqb Bool.eqb andb OperationCreateNote OperationDeleteNote
      OperationModifyNoteProperty OperationModifyNoteTitle OperationCreateBlock
      OperationDeleteBlock OperationModifyBlock OperationCreateCategory OperationDeleteCategory
      OperationModifyCategory] in H; unfold accept in H; m_inv H;
    injection H as -> <- ->; (split; [done|]).
  - unfold createCategory in Hrun. destruct (Category_FromRequest _ _) as [c|e] eqn:Ec.
    2:{ by injection Hrun as <- <-. }
    m_inv Hrun. apply exec_tx_Ok in Hrun0 as (_ & _ & d1 & Hq & ->).
    unfold q.CreateCategory in Hq. split_match Hq.
    eapply acceptCategoryChange_done in Hrun; try done; cbn.
    + unfold apply_category. rewrite Ht. cbn. rewrite Ec. cbn.
      rewrite lookup_categories_of, E. cbn. by rewrite categories_of_insert.
    + apply only_categories_insert; [done|]. congruence.
  - unfold deleteCategory in Hrun. destruct (Category_FromRequest _ _) as [c|e] eqn:Ec.
    2:{ by injection Hrun as <- <-. }
    m_inv Hrun. destruct a as [u|e].
    2:{ destruct (store.is_not_found e); [|done]. by injection Hrun as <- <-. }
    apply LockCategoryForOwner_Ok in Hrun0 as (Hd & cat & Hcat). m_inv Hrun.
    apply exec_tx_Ok in Hrun0 as (_ & _ & d1 & Hq & ->). rewrite Hd in Hq.
    unfold q.DeleteCategory in Hq. rewrite Hcat in Hq. injection Hq as <- _.
    apply active_category_of in Hcat as (Hk & Ho & Hof).
    eapply acceptCategoryChange_done in Hrun; try done; cbn.
    + unfold apply_category. rewrite Ht. cbn. rewrite Ec. cbn. rewrite Hof.
      by rewrite categories_of_insert.
    + apply only_categories_insert; [done|]. congruence.
  - unfold modifyCategory in Hrun. destruct (Category_FromRequest _ _) as [c|e] eqn:Ec.
    2:{ by injection Hrun as <- <-. }
    m_inv Hrun. destruct a as [u|e].
    2:{ destruct (store.is_not_found e); [|done]. by injection Hrun as <- <-. }
    apply LockCategoryForOwner_Ok in Hrun0 as (Hd & cat & Hcat). m_inv Hrun.
    apply exec_tx_Ok in Hrun0 as (_ & _ & d1 & Hq & ->). rewrite Hd in Hq.
    unfold q.UpdateCategory in Hq. rewrite Hcat in Hq. split_match Hq.
    apply active_category_of in Hcat as (Hk & Ho & Hof).
    eapply acceptCategoryChange_done in Hrun; try done; cbn.
    + unfold apply_category. rewrite Ht. cbn. rewrite Ec. cbn. rewrite Hof.
      by rewrite categories_of_insert.
    + apply only_categories_insert; [done|]. congruence.
Qed.

Lemma valid_category_operation op v :
  Operation_FromRequest op = Ok v -> NoteID op = uuid_Nil ->
  category_operation (OperationType op) = true.
Proof.
  intros H Hnil. unfold Operation_FromRequest in H. res_inv H. clear H.
  unfold ClientOperation_Validate in Hv. do 2 (destruct (_ : bool) in Hv; [done|]).
  res_inv Hv. destruct (category_operation _); [done|]. rewrite Hnil in Hv0.
  by destruct (_ || _) in Hv0.
Qed.

Lemma applyOperation_category o dev st op w w' st' a changed :
  NoteID op = uuid_Nil ->
  applyOperation Tx o dev st op w = (w', Ok (st', OpAccepted a, changed)) ->
  st' = st /\
  if changed
  then (OperationID op ∉ processed (w_db w) dev) /\
       categories_done o dev [op] (w_db w) (w_db w') /\ Acc_GlobalSequence a = change_seq (w_db w')
  else (OperationID op ∈ processed (w_db w) dev) /\ w_db w' = w_db w.
Proof.
  intros Hnil H. unfold applyOperation in H. m_inv H. destruct a0 as [c|e].
  - apply mapped_Ok in Hrun as (row & Hran & ->).
    apply (ran_one (fun d => List.find (q.is_operation dev (OperationID op)) (note_changes d)))
      in Hran as [Hd Hrow]; [|done]. apply find_operation_Some in Hrow.
    rewrite Hnil in H. m_inv H. injection Hrun as <- <-. injection H as <- <- <- <-. done.
  - destruct (store.is_not_found e) eqn:Ef; cbn [negb] in H; [|done].
    apply (mapped_not_found (fun d => List.find (q.is_operation dev (OperationID op))
      (note_changes d))) in Hrun as (Hd & _ & Hrow); [|done..]. apply find_operation_None in Hrow.
    destruct (Operation_FromRequest op) as [v|e0] eqn:Eo; [|done]. m_inv H.
    destruct a0 as [st1 oc]. injection H as <- <- -> <-. cbn.
    apply dispatch_category_done in Hrun as (-> & Hdone & a' & [= <-] & Ha);
      [|done|by eapply valid_category_operation|done].
    rewrite <- Hd. split_and!; [done|by rewrite Hd|done|done].
Qed.

Lemma batch_loop_categories o dev ops v w w' v' u :
  Forall (fun op => NoteID op = uuid_Nil) ops ->
  batch_loop Tx o dev ops v w = (w', (v', Ok u)) ->
  let todo := unprocessed (processed (w_db w) dev) ops in
  bv_state v' = bv_state v /\ categories_done o dev todo (w_db w) (w_db w') /\
  vars_done todo v v' (w_db w) (w_db w').
Proof.
  revert v w. induction ops as [|op ops IH]; intros v w Hops H; cbn in H.
  { injection H as <- <- _. cbn. split_and!; [done|apply categories_done_nil|].
    split; [by rewrite orb_false_r|done]. }
  inversion Hops as [|? ? Hop Hops']; subst.
  destruct (applyOperation Tx o dev (bv_state v) op w) as [w1 [[[st1 [a|r]] ch]|e]] eqn:E; try done.
  apply applyOperation_category in E as [-> E]; [|done..]. cbn [unprocessed]. destruct ch.
  - destruct E as (Hnew & Hdone & Ha). rewrite decide_False by done.
    apply IH in H as (Hst & Hloop & [Hch Hcur]); [|done].
    pose proof (cd_seq _ _ _ _ _ Hdone) as Hs. cbn in Hs.
    destruct (cd_log _ _ _ _ _ Hdone) as (cs & Hl & Hf).
    inversion Hf as [|? c ? ? Hc Hf' Heq1 Heq2]; subst. inversion Hf'; subst.
    destruct Hc as (_ & _ & _ & Hcd & Hco & _).
    rewrite (processed_append _ _ _ _ Hl Hcd), Hco in *.
    split_and!; [done|by eapply categories_done_cons|]. split.
    + rewrite Hch. cbn. by rewrite orb_true_r.
    + intros Hle. rewrite Hcur; cbn; destruct (Z.ltb_spec (bv_latestCursor v) (Acc_GlobalSequence a));
        try lia.
      pose proof (cd_seq _ _ _ _ _ Hloop) as Hlen.
      destruct (unprocessed _ ops); cbn in Hlen; lia.
  - destruct E as (Hold & Hd). rewrite decide_True by done.
    apply IH in H as (Hst & Hloop & [Hch Hcur]); [|done]. rewrite Hd in *.
    split_and!; [done|done|]. split.
    + rewrite Hch. cbn. by rewrite orb_false_r.
    + cbn in Hcur. intros Hle. by apply Hcur.
Qed.

Lemma applyOperationBatch_categories sv o dev ops w w' a :
  Forall (fun op => NoteID op = uuid_Nil) ops -> wf (w_db w) ->
  applyOperationBatch sv Tx o dev ops w = (w', Ok (Some (OpAccepted a))) ->
  let todo := unprocessed (processed (w_db w) dev) (sortedOperations ops) in
  categories_done o dev todo (w_db w) (w_db w') /\
  a = mkAccepted uuid_Nil 0 (match todo with [] => 0 | _ => change_seq (w_db w') end).
Proof.
  intros Hops Hw H. unfold applyOperationBatch in H.
  assert (Hops' : Forall (fun op => NoteID op = uuid_Nil) (sortedOperations ops))
    by (unfold sortedOperations; by rewrite sort_by_perm).
  destruct (sortedOperations ops) as [|first rest]; [done|].
  assert (Hfirst : NoteID first = uuid_Nil) by (by inversion Hops').
  m_inv H. unfold run_closure in Hrun.
  destruct (WithSavepoint Tx _ initial_vars w) as [w1 [v [u|e]]] eqn:Esp.
  2:{ injection Hrun as <- <-. cbn in H. destruct e; try done. by m_inv H. }
  injection Hrun as -> <-. cbn in H.
  apply savepoint_Ok in Esp as (wa & wb & u' & Ha & Hloop & Hb).
  apply batch_loop_categories in Hloop as (Hst & Hdone & [_ Hcur]); [|done].
  rewrite Ha, <- Hb in *. cbn in Hst, Hcur. rewrite Hst in H. cbn in H. injection H as <- <-.
  cbv zeta. split; [done|]. rewrite Hfirst, Hcur; [done|]. apply (wf_seq _ Hw).
Qed.

End categories.
