(* ===== verification/PushFacts.v ===== *)
(** * Batches and requests as a whole

    What [applyOperationBatch] and [Sync] do to the database, put together from
    the parts: an accepted batch refines NoteSpec.v, a rejected one has no
    effect, a request is a run of batches inside one transaction, and nothing
    of other owners is touched. *)

From S2P Require Import Prelude GoText GoFloat Json HttpApi Constants External SyncOperations.
From S2P Require Import Schema Queries DbInvariant Store Frame SyncModels RealtimeMessage.
From S2P Require Import SyncService NoteSpec SyncPush SyncPull SyncFacts SyncFrame.
From S2P Require Import BatchRefinement BatchFacts CategoryFacts.

(** The operations of a batch that are new to the device's log, in order. *)
Definition new_operations (d : Db) (dev : string) (ops : list ClientOperation)
    : list ClientOperation :=
  unprocessed (processed d dev) (sortedOperations ops).

(** A document after a batch that applied [todo]. *)
Definition after_batch (todo : list ClientOperation) (doc : option NoteDoc) : option NoteDoc :=
  match todo with
  | [] => doc
  | _ => next_version <$> doc
  end.

(** What accepting a batch of note [n] means. *)
Record accepted_batch {X : External Db} (o : UUID) (dev : string) (n : UUID)
    (ops : list ClientOperation) (d d' : Db) (a : AcceptedDTO) : Prop := mkAcceptedBatch {
  ab_doc : exists doc, apply_ops o (note_doc d o n) (new_operations d dev ops) = Some doc /\
    note_doc d' o n = after_batch (new_operations d dev ops) doc /\
    exists cs, note_changes d' = note_changes d ++ cs /\
      Forall2 (logs o dev (doc_version doc)) (new_operations d dev ops) cs;
  ab_only : only_note n d d';
  ab_wf : wf d';
  ab_seq : change_seq d' = change_seq d + Z.of_nat (length (new_operations d dev ops));
  ab_note : Acc_NoteID a = n;
  ab_version : Acc_ServerNoteVersion a = doc_version (note_doc d' o n);
  ab_cursor : Acc_GlobalSequence a
    = match new_operations d dev ops with [] => 0 | _ => change_seq d' end;
  ab_same : new_operations d dev ops = [] -> d' = d;
  ab_owner : new_operations d dev ops <> [] ->
    forall row, notes d !! n = Some row -> db.n_owner_id row = o
}.

(** What accepting a batch means: a note's, or the one without a note. *)
Definition accepted_effect {X : External Db} (o : UUID) (dev : string)
    (g : list ClientOperation) (d d' : Db) (a : AcceptedDTO) : Prop :=
  if is_nil (batch_note g)
  then categories_done o dev (new_operations d dev g) d d' /\
       a = mkAccepted uuid_Nil 0
             (match new_operations d dev g with [] => 0 | _ => change_seq d' end)
  else accepted_batch o dev (batch_note g) g d d' a.

(** The batches of a request, one after the other: each is accepted with its
    effect or rejected without one. *)
Inductive batches_run {X : External Db} (o : UUID) (dev : string)
    : list (list ClientOperation) -> Db -> Db -> list AcceptedDTO -> list RejectedDTO -> Prop :=
| run_done d : batches_run o dev [] d d [] []
| run_accepted g gs d d1 d' a acc rej :
    accepted_effect o dev g d d1 a -> evolves d d1 -> batches_run o dev gs d1 d' acc rej ->
    batches_run o dev (g :: gs) d d' (a :: acc) rej
| run_rejected g gs d d1 d' r acc rej :
    same_tables d d1 -> evolves d d1 -> batches_run o dev gs d1 d' acc rej ->
    batches_run o dev (g :: gs) d d' acc (r :: rej).

(** The latest cursor among the accepted batches. *)
Definition latest_cursor (c : Z) (acc : list AcceptedDTO) : Z :=
  foldl Z.max c (map Acc_GlobalSequence acc).

(** The largest sequence number among changes, 0 when there is none. *)
Definition newest (cs : list db.NoteChange) : Z :=
  foldl Z.max 0 (map db.ch_global_sequence cs).

(** Nothing of other owners changes: their notes, the blocks of their notes,
    their categories; and no device, snapshot or upload at all. *)
Record foreign_same (o : UUID) (d d' : Db) : Prop := mkForeignSame {
  fs_notes : forall id n, db.n_owner_id n <> o ->
    notes d' !! id = Some n <-> notes d !! id = Some n;
  fs_blocks : forall id b n, notes d !! db.b_note_id b = Some n -> db.n_owner_id n <> o ->
    note_blocks d' !! id = Some b <-> note_blocks d !! id = Some b;
  fs_categories : forall id c, db.cat_owner_id c <> o ->
    categories d' !! id = Some c <-> categories d !! id = Some c;
  fs_devices : sync_devices d' = sync_devices d;
  fs_snapshots : note_snapshots d' = note_snapshots d;
  fs_uploads : file_uploads d' = file_uploads d
}.

(** ** Batches *)

Section batches.
Context {X : External Db}.

Lemma sortedOperations_note n ops :
  Forall (fun op => NoteID op = n) ops -> Forall (fun op => NoteID op = n) (sortedOperations ops).
Proof. intros H. unfold sortedOperations. by rewrite sort_by_perm. Qed.

Lemma overlay_loaded o n st d :
  Inv o n st d -> st_noteLoaded st = true -> st_note st = None -> overlay o n st d = None.
Proof.
  intros HI Hl Hn. pose proof (inv_note _ _ _ _ HI) as H. unfold note_inv in H.
  rewrite Hn in H. destruct H as [_ H]. unfold overlay. by rewrite Hn, H.
Qed.

(** A batch with nothing new. *)
Lemma accepted_unchanged o dev n ops d a :
  wf d -> new_operations d dev ops = [] ->
  a = mkAccepted n (doc_version (note_doc d o n)) 0 -> accepted_batch o dev n ops d d a.
Proof.
  intros Hw Ht ->. split; rewrite ?Ht; cbn [length]; try done; [|lia].
  eexists. split; [done|]. split; [done|]. exists []. by rewrite app_nil_r.
Qed.

Lemma rejected_document_reads o n : sat (on_db same_tables) (rejected_document Tx o n).
Proof.
  unfold rejected_document, store.GetNoteDocumentForOwnerForUpdate, store.ListBlocksForNote,
    store.GetLastAppliedCursorForNote. frame_walk.
Qed.

Lemma applyOperationBatch_accepted sv o dev n ops w w' a :
  n <> uuid_Nil -> Forall (fun op => NoteID op = n) ops -> wf (w_db w) ->
  applyOperationBatch sv Tx o dev ops w = (w', Ok (Some (OpAccepted a))) ->
  accepted_batch o dev n ops (w_db w) (w_db w') a.
Proof.
  intros Hnil Hops Hw H.
  pose proof (sat_applyOperationBatch (on_db evolves) _ _ _ _ _ _ _ H) as Hev. unfold on_db in Hev.
  unfold applyOperationBatch in H.
  apply sortedOperations_note in Hops. set (todo := new_operations (w_db w) dev ops).
  assert (Etodo : todo = unprocessed (processed (w_db w) dev) (sortedOperations ops)) by done.
  destruct (sortedOperations ops) as [|first rest]; [done|].
  assert (Hfirst : NoteID first = n) by (by inversion Hops).
  m_inv H. unfold run_closure in Hrun.
  destruct (WithSavepoint Tx _ initial_vars w) as [w1 [v [u|e]]] eqn:Esp.
  2:{ injection Hrun as <- <-. cbn in H. destruct e; try done. by m_inv H. }
  injection Hrun as -> <-. cbn in H.
  apply savepoint_Ok in Esp as (wa & wb & u' & Ha & Hloop & Hb).
  apply (batch_loop_done o n) in Hloop as (HL & [Hch Hcur] & Hld); [|done|done|].
  2:{ rewrite Ha. by apply Inv_new. }
  rewrite Ha, <- Hb, <- Etodo in *. cbn in HL, Hch, Hcur, Hld.
  destruct HL as [HI Hdoc Hon Hseq (cs & Hcs & Hlogs) _ Hsame]. rewrite overlay_new in Hdoc.
  specialize (Hcur (wf_seq _ Hw)). specialize (Hld ltac:(done)).
  assert (Hchanged : bv_changed v = true <-> todo <> []).
  { rewrite Hch, negb_true_iff, bool_decide_eq_false. done. }
  m_inv H. injection H as -> <-. rewrite Hfirst.
  destruct (st_note (bv_state v)) as [e|] eqn:En; [destruct (bv_changed v)|].
  - (* changed: stored at the next version *)
    destruct (store_batch_Ok _ _ n _ _ _ _ _ Hrun HI En) as (-> & Hd & Hon' & Hl' & Hs').
    pose proof (overlay_Some o n _ (w_db w0) _ En) as Eov. rewrite Eov in *.
    assert (Haf : forall x, after_batch todo x = next_version <$> x)
      by (intros x; destruct todo; [by destruct (proj1 Hchanged eq_refl)|done]).
    assert (Hcu : bv_latestCursor v = change_seq (w_db w'))
      by (destruct todo; [by destruct (proj1 Hchanged eq_refl)|congruence]).
    split; fold todo; cbn [Acc_NoteID Acc_ServerNoteVersion Acc_GlobalSequence].
    + eexists. split; [exact Hdoc|]. rewrite Haf, Hd. split; [done|].
      exists cs. by rewrite Hl'.
    + by etransitivity.
    + by apply Hev.
    + by rewrite Hs'.
    + done.
    + by rewrite Hd.
    + rewrite Hcu. destruct todo; [by destruct (proj1 Hchanged eq_refl)|done].
    + intros Ht. by destruct (proj1 Hchanged eq_refl).
    + intros _ row Hrow. destruct (ev_note_owner _ _ Hev _ _ Hrow) as (row' & Hk & <-).
      unfold note_doc in Hd. destruct (q.owned_note (w_db w') n o) as [r|] eqn:Er; [|done].
      apply owned_note_Some in Er as [Hr <-]. congruence.
  - (* nothing new *)
    injection Hrun as -> <-.
    assert (Htodo : todo = []) by (destruct todo; [done|]; by destruct (proj2 Hchanged)).
    rewrite (Hsame Htodo) in *. apply accepted_unchanged; [done|done|].
    rewrite Htodo in Hdoc, Hcur. cbn in Hdoc. injection Hdoc as Hdoc. rewrite Hdoc, Hcur.
    by rewrite (overlay_Some _ _ _ _ e).
  - (* no note *)
    injection Hrun as -> <-. rewrite (overlay_loaded _ _ _ _ HI Hld En) in Hdoc.
    assert (Htodo : todo = []).
    { destruct todo; [done|]. cbn in Hdoc. apply bind_Some in Hdoc as (x & _ & Hx).
      by apply apply_ops_version in Hx as (y & ? & _). }
    rewrite (Hsame Htodo) in *. apply accepted_unchanged; [done|done|].
    rewrite Htodo in Hdoc, Hcur. cbn in Hdoc. injection Hdoc as Hdoc. by rewrite Hdoc, Hcur.
Qed.

(** A rejected batch leaves every table as it was, unless the transaction is
    broken and will be rolled back as a whole. *)
Lemma applyOperationBatch_rejected sv o dev ops w w' r :
  applyOperationBatch sv Tx o dev ops w = (w', Ok (Some (OpRejected r))) ->
  same_tables (w_db w) (w_db w') \/ w_tx w' <> TxActive.
Proof.
  intros H. unfold applyOperationBatch in H.
  destruct (sortedOperations ops) as [|first rest]; [done|]. m_inv H. unfold run_closure in Hrun.
  destruct (WithSavepoint Tx _ initial_vars w) as [w1 [v [u|e]]] eqn:Esp.
  { injection Hrun as -> <-. cbn in H. by m_inv H. }
  injection Hrun as -> <-. apply savepoint_Err in Esp. cbn in H.
  destruct e; try done. m_inv H. injection H as -> _.
  destruct Esp as [Hs|Hb].
  - left. rewrite Hs. by eapply rejected_document_reads.
  - right. by eapply (sat_rejected_document stays_broken).
Qed.

Lemma uniform_batch_note g :
  uniform g -> Forall (fun op => NoteID op = batch_note g) g.
Proof. intros (op & rest & -> & Hf). by constructor. Qed.

Lemma applyOperationBatch_effect sv o dev g w w' a :
  uniform g -> wf (w_db w) ->
  applyOperationBatch sv Tx o dev g w = (w', Ok (Some (OpAccepted a))) ->
  accepted_effect o dev g (w_db w) (w_db w') a.
Proof.
  intros Hu%uniform_batch_note Hw H. unfold accepted_effect.
  destruct (is_nil (batch_note g)) eqn:En.
  - apply is_nil_spec in En. rewrite En in Hu. by eapply applyOperationBatch_categories.
  - apply is_nil_false in En. by eapply applyOperationBatch_accepted.
Qed.

(** ** The request *)

Lemma sync_loop_run sv o dev groups resp c w w' resp' c' :
  Forall uniform groups -> wf (w_db w) ->
  sync_loop sv Tx o dev groups resp c w = (w', Ok (resp', c')) -> w_tx w' = TxActive ->
  exists acc rej, batches_run o dev groups (w_db w) (w_db w') acc rej /\
    resp' = mkResponse (Resp_Accepted resp ++ acc) (Resp_Rejected resp ++ rej) /\
    c' = latest_cursor c acc.
Proof.
  intros Hg. revert resp c w. induction Hg as [|g gs Hu Hg IH]; intros resp c w Hw H Ht; cbn in H.
  { injection H as <- <- <-. exists [], []. rewrite !app_nil_r. split_and!; [constructor| |done].
    by destruct resp. }
  m_inv H. pose proof (sat_applyOperationBatch (on_db evolves) _ _ _ _ _ _ _ Hrun) as Hev.
  unfold on_db in Hev.
  destruct a as [[a|r]|].
  - apply applyOperationBatch_effect in Hrun; [|done|done].
    apply IH in H as (acc & rej & Hr & -> & ->); [|by apply Hev|done].
    exists (a :: acc), rej. split_and!; [econstructor; [done|exact Hev|done]|by cbn; rewrite <- app_assoc|].
    unfold latest_cursor. cbn. f_equal. destruct (Z.ltb_spec c (Acc_GlobalSequence a)); lia.
  - assert (Hact : w_tx w0 = TxActive).
    { destruct (w_tx w0) eqn:E; [done|exfalso..];
        by eapply (sat_sync_loop stays_broken _ _ _ _ _ _ _ _ _ H); rewrite ?E. }
    apply applyOperationBatch_rejected in Hrun as [Hs|Hb]; [|done].
    apply IH in H as (acc & rej & Hr & -> & ->); [|by apply Hev|done].
    exists acc, (r :: rej). split_and!; [|by cbn; rewrite <- app_assoc|done].
    econstructor; [exact Hs|exact Hev|done].
  - exfalso. destruct Hu as (op & rest & -> & _). unfold applyOperationBatch in Hrun.
    destruct (sortedOperations (op :: rest)) eqn:Es.
    + unfold sortedOperations in Es. apply (f_equal length) in Es. by rewrite sort_by_length in Es.
    + m_inv Hrun. unfold finish_batch in Hrun. destruct a as [v [u|e]]; [by m_inv Hrun|].
      destruct e; try done. by m_inv Hrun.
Qed.

(** The transaction of a push, up to its COMMIT. *)
Lemma sync_tx_run sv o req w w' resp c :
  wf (w_db w) -> sync_tx sv o req Tx w = (w', Ok (resp, c)) -> w_tx w' = TxActive ->
  batches_run o (Req_DeviceID req) (group_operations (sortedOperations (Req_Operations req)))
    (w_db w) (w_db w') (Resp_Accepted resp) (Resp_Rejected resp) /\
  c = latest_cursor 0 (Resp_Accepted resp) /\
  exists v, sync_devices (w_db w) !! Req_DeviceID req = Some v /\ db.d_owner_id v = o /\
            db.d_revoked_at v = None.
Proof.
  intros Hw H Ht. unfold sync_tx in H. m_inv H. apply lift_Ok in Hrun0 as [-> Hdev].
  destruct a as [v|e]; cbn in Hdev; [|by destruct (store.is_not_found e)].
  apply mapped_Ok in Hrun as (row & Hran & ->).
  apply (ran_one (fun d => q.owned_device d (Req_DeviceID req) o)) in Hran as [Hd Hrow]; [|done].
  apply sync_loop_run in H as (acc & rej & Hr & -> & ->);
    [|apply group_operations_uniform|by rewrite Hd|done].
  rewrite Hd in Hr. split; [done|]. split; [done|].
  apply owned_device_Some in Hrow as [Hk Ho]. exists row. split_and!; [done|done|].
  cbn in Hdev. by destruct (db.d_revoked_at row).
Qed.

(** A committed push. *)
Lemma Sync_Ok sv o req w w' resp ev :
  wf (others (w_step w) (w_db w)) -> Sync sv o req w = (w', Ok (resp, ev)) ->
  let d0 := others (w_step w) (w_db w) in
  batches_run o (Req_DeviceID req) (group_operations (sortedOperations (Req_Operations req)))
    d0 (w_db w') (Resp_Accepted resp) (Resp_Rejected resp) /\
  ev = publishCommittedSyncAvailable sv o (Req_DeviceID req)
         (latest_cursor 0 (Resp_Accepted resp)) /\
  exists v, sync_devices d0 !! Req_DeviceID req = Some v /\ db.d_owner_id v = o /\
            db.d_revoked_at v = None.
Proof.
  intros Hw H. unfold Sync in H. m_inv H. apply lift_Ok in Hrun as [-> _].
  destruct a0 as [resp0 c]. injection H as <- <- <-.
  rewrite WithTx_Pool in Hrun0. destruct (round_trip (w_step w)); [|done..]. cbv zeta in Hrun0.
  destruct (sync_tx sv o req Tx (begin_world w)) as [w2 [a2|e]] eqn:E; [|done].
  destruct (w_tx w2) eqn:Et; [|done..]. destruct (round_trip (w_step w2)); [|done..].
  injection Hrun0 as <- ->.
  by destruct (sync_tx_run _ _ _ _ _ _ _ (Hw : wf (w_db (begin_world w))) E Et) as (Hr & -> & Hv).
Qed.

(** What a push did, whatever it answers: also a COMMIT whose answer is lost. *)
Lemma Sync_effect sv o req w w' r :
  wf (others (w_step w) (w_db w)) -> Sync sv o req w = (w', r) ->
  w' = w \/ same_tables (others (w_step w) (w_db w)) (w_db w') \/
  exists acc rej, batches_run o (Req_DeviceID req)
    (group_operations (sortedOperations (Req_Operations req)))
    (others (w_step w) (w_db w)) (w_db w') acc rej.
Proof.
  intros Hw H. unfold Sync in H. rewrite M_bind_eq in H. unfold lift in H.
  destruct (Request_Validate req (maxOperations sv)); [|injection H as <- _; by left].
  rewrite M_bind_eq, WithTx_Pool in H. right.
  destruct (round_trip (w_step w)); [|injection H as <- _; by left..]. cbv zeta in H.
  destruct (sync_tx sv o req Tx (begin_world w)) as [w2 [[resp c]|e2]] eqn:E;
    [|injection H as <- _; by left].
  destruct (w_tx w2) eqn:Et; [|injection H as <- _; by left..].
  destruct (round_trip (w_step w2)) eqn:Er; [|injection H as <- _; by left|];
    destruct (sync_tx_run _ _ _ _ _ _ _ (Hw : wf (w_db (begin_world w))) E Et) as (Hr & _);
    injection H as <- _; right; by eexists _, _.
Qed.

(** A push that fails, when every COMMIT is answered. *)
Lemma Sync_Err sv o req w w' e :
  (forall n, round_trip n <> FailsAfter) -> Sync sv o req w = (w', Err e) ->
  w' = w \/ same_tables (others (w_step w) (w_db w)) (w_db w').
Proof.
  intros Hans H. unfold Sync in H. rewrite M_bind_eq in H. unfold lift in H.
  destruct (Request_Validate req (maxOperations sv)); [|injection H as <- _; by left].
  rewrite M_bind_eq, WithTx_Pool in H. right.
  destruct (round_trip (w_step w)); [|by injection H as <- _..]. cbv zeta in H.
  destruct (sync_tx sv o req Tx (begin_world w)) as [w2 [[r c]|e2]] eqn:E.
  - destruct (w_tx w2); [|by injection H as <- _..].
    destruct (round_trip (w_step w2)) eqn:Er; [done|by injection H as <- _|].
    by destruct (Hans (w_step w2)).
  - by injection H as <- _.
Qed.

(** ** The cursor of a push *)

Lemma foldl_max_spec c l :
  c <= foldl Z.max c l /\ Forall (fun x => x <= foldl Z.max c l) l /\
  (foldl Z.max c l = c \/ foldl Z.max c l ∈ l).
Proof.
  revert c. induction l as [|x l IH]; intros c; cbn; [split_and!; [lia|constructor|by left]|].
  destruct (IH (Z.max c x)) as (H1 & H2 & H3). split_and!; [lia|constructor; [lia|done]|].
  destruct H3 as [H3|H3]; [|right; by right]. rewrite H3.
  destruct (Z.max_spec c x) as [[_ ->]|[_ ->]]; [right; left|by left].
Qed.

Lemma foldl_max_app c l1 l2 :
  0 <= c -> foldl Z.max c (l1 ++ l2) = Z.max (foldl Z.max c l1) (foldl Z.max 0 l2).
Proof.
  intros Hc. rewrite foldl_app. destruct (foldl_max_spec c l1) as (H1 & _). revert H1.
  generalize (foldl Z.max c l1). intros m Hm.
  destruct (foldl_max_spec m l2) as (A1 & A2 & A3), (foldl_max_spec 0 l2) as (B1 & B2 & B3).
  rewrite Forall_forall in A2, B2. destruct A3 as [A3|A3], B3 as [B3|B3]; try lia;
    (try pose proof (A2 _ B3)); (try pose proof (B2 _ A3)); lia.
Qed.

Lemma newest_app cs1 cs2 : newest (cs1 ++ cs2) = Z.max (newest cs1) (newest cs2).
Proof. unfold newest. rewrite map_app. by apply foldl_max_app. Qed.

(** As many distinct numbers as there are up to [hi] include [hi]. *)
Lemma newest_all cs lo hi :
  0 <= lo -> hi = lo + Z.of_nat (length cs) -> cs <> [] ->
  NoDup (map db.ch_global_sequence cs) ->
  Forall (fun c => lo < db.ch_global_sequence c <= hi) cs -> newest cs = hi.
Proof.
  intros Hlo Hhi Hne Hnd Hf. unfold newest. set (l := map db.ch_global_sequence cs) in *.
  assert (Hl : Forall (fun x => lo < x <= hi) l) by (by apply Forall_fmap).
  rewrite Forall_forall in Hl.
  assert (Hlen : length l = length cs) by apply length_map.
  assert (Hp : l ≡ₚ seqZ (lo + 1) (Z.of_nat (length cs))).
  { apply submseteq_length_Permutation; [|rewrite length_seqZ; lia].
    apply NoDup_submseteq; [done|]. intros x Hx%Hl. apply elem_of_seqZ. lia. }
  assert (Hin : hi ∈ l).
  { rewrite Hp. apply elem_of_seqZ. destruct cs; [done|]. cbn in *. lia. }
  destruct (foldl_max_spec 0 l) as (H1 & H2 & H3). rewrite Forall_forall in H2.
  pose proof (H2 _ Hin). destruct H3 as [H3|H3%Hl]; lia.
Qed.

(** The accepted cursor of a batch is the newest sequence number it logged. *)
Lemma accepted_newest o dev g d d1 a :
  wf d -> accepted_effect o dev g d d1 a -> evolves d d1 ->
  exists cs, note_changes d1 = note_changes d ++ cs /\ Acc_GlobalSequence a = newest cs.
Proof.
  intros Hw Ha Hev.
  assert (H : exists cs (todo : list ClientOperation),
    note_changes d1 = note_changes d ++ cs /\ length cs = length todo /\
    change_seq d1 = change_seq d + Z.of_nat (length todo) /\
    Acc_GlobalSequence a = match todo with [] => 0 | _ => change_seq d1 end).
  { unfold accepted_effect in Ha. case_match.
    - destruct Ha as [[_ _ Hs (cs & Hl & Hf)] ->]. exists cs, (new_operations d dev g).
      apply Forall2_length in Hf. by split_and!.
    - destruct (ab_doc _ _ _ _ _ _ _ Ha) as (doc & _ & _ & cs & Hl & Hf).
      exists cs, (new_operations d dev g). apply Forall2_length in Hf. split_and!; [done|done|apply Ha|apply Ha]. }
  destruct H as (cs & todo & Hl & Hlen & Hs & Hc). exists cs. split; [done|]. rewrite Hc.
  destruct todo as [|op todo]; [by destruct cs|]. symmetry.
  pose proof (ev_wf _ _ Hev Hw) as Hw1. destruct (ev_log _ _ Hev) as (cs' & Hl' & Hf).
  rewrite Hl in Hl'. apply app_inv_head in Hl' as <-.
  apply (newest_all _ (change_seq d)); [apply Hw|by rewrite Hs, Hlen|by destruct cs| |done].
  pose proof (wf_log_seqs _ Hw1) as Hnd. rewrite Hl, map_app in Hnd. by apply NoDup_app in Hnd as (_ & _ & ?).
Qed.

Lemma batches_run_wf o dev groups d d' acc rej :
  wf d -> batches_run o dev groups d d' acc rej -> wf d'.
Proof.
  intros Hw H. induction H as [|g gs d d1 d' a acc rej Ha Hev _ IH|g gs d d1 d' r acc rej Hs Hev _ IH];
    [done|apply IH, Hev, Hw..].
Qed.

Lemma newest_positive d cs0 cs :
  wf d -> note_changes d = cs0 ++ cs -> cs <> [] -> 0 < newest cs.
Proof.
  intros Hw Hl Hne. pose proof (wf_log_range _ Hw) as Hf. rewrite Hl in Hf. apply Forall_app in Hf as [_ Hf].
  unfold newest. destruct cs as [|c cs]; [done|]. inversion Hf as [|? ? Hc _]; subst.
  destruct (foldl_max_spec 0 (map db.ch_global_sequence (c :: cs))) as (_ & H & _).
  inversion H; subst. lia.
Qed.

(** The latest cursor of a request is the newest sequence number it logged. *)
Lemma batches_run_newest o dev groups d d' acc rej :
  wf d -> batches_run o dev groups d d' acc rej ->
  exists cs, note_changes d' = note_changes d ++ cs /\ latest_cursor 0 acc = newest cs.
Proof.
  intros Hw H. induction H as [d|g gs d d1 d' a acc rej Ha Hev _ IH|g gs d d1 d' r acc rej Hs Hev _ IH].
  - exists []. by rewrite app_nil_r.
  - destruct (accepted_newest _ _ _ _ _ _ Hw Ha Hev) as (cs1 & Hl1 & Hc1).
    destruct (IH (ev_wf _ _ Hev Hw)) as (cs & Hl & Hc). exists (cs1 ++ cs).
    rewrite Hl, Hl1, app_assoc. split; [done|]. rewrite newest_app, <- Hc, <- Hc1.
    unfold latest_cursor.
    change (map Acc_GlobalSequence (a :: acc))
      with ([Acc_GlobalSequence a] ++ map Acc_GlobalSequence acc).
    rewrite foldl_max_app by done. cbn [foldl]. rewrite Hc1. unfold newest.
    destruct (foldl_max_spec 0 (map db.ch_global_sequence cs1)) as (? & _). lia.
  - destruct IH as (cs & Hl & Hc); [by apply Hev|].
    apply same_tables_fields in Hs as (_ & _ & _ & _ & E & _). exists cs. by rewrite Hl, <- E.
Qed.

(** ** Other owners *)

#[global] Instance foreign_same_preorder o : PreOrder (foreign_same o).
Proof.
  split; [by intros d; split|]. intros d1 d2 d3 [A1 A2 A3 A4 A5 A6] [B1 B2 B3 B4 B5 B6].
  split; try congruence.
  - intros id n Hn. by rewrite B1, A1.
  - intros id b n Hn Ho. rewrite (B2 _ _ n), (A2 _ _ n); try done. by apply A1.
  - intros id c Hc. by rewrite B3, A3.
Qed.

Lemma foreign_same_tables o d d' : same_tables d d' -> foreign_same o d d'.
Proof.
  intros (E1 & E2 & E3 & E4 & E5 & E6 & E7 & E8)%same_tables_fields.
  split; by rewrite ?E1, ?E2, ?E3, ?E4, ?E6, ?E8.
Qed.

Lemma accepted_batch_foreign o dev n ops d d' a :
  accepted_batch o dev n ops d d' a -> foreign_same o d d'.
Proof.
  intros H. destruct (decide (new_operations d dev ops = [])) as [Et|Et].
  { by rewrite (ab_same _ _ _ _ _ _ _ H Et). }
  pose proof (ab_owner _ _ _ _ _ _ _ H Et) as Hown.
  destruct (ab_only _ _ _ _ _ _ _ H) as [O1 O2 O3 O4 O5 O6].
  destruct (ab_doc _ _ _ _ _ _ _ H) as (doc & Hdoc & Hd' & _).
  split; try done; [| |by rewrite O3].
  - intros id m Hm. destruct (decide (id = n)) as [->|Hne]; [|by rewrite O1].
    split; [|by intros Hk%Hown].
    intros Hk. exfalso. assert (Hnone : note_doc d' o n = None).
    { unfold note_doc, q.owned_note. rewrite Hk. cbn. by rewrite (proj2 (N.eqb_neq _ _) Hm). }
    rewrite Hd' in Hnone. destruct (new_operations d dev ops) as [|op todo]; [done|].
    cbn in Hdoc. apply bind_Some in Hdoc as (x & _ & Hx).
    by apply apply_ops_version in Hx as (y & -> & _).
  - intros id b m Hm Ho. apply O2. intros Heq. rewrite Heq in Hm. by apply Hown in Hm.
Qed.

Lemma categories_done_foreign o dev todo d d' :
  categories_done o dev todo d d' -> foreign_same o d d'.
Proof. intros [_ [C1 C2 C3 C4 C5 C6 C7] _ _]. split; try done; [by rewrite C2|by rewrite C3]. Qed.

Lemma batches_run_foreign o dev groups d d' acc rej :
  batches_run o dev groups d d' acc rej -> foreign_same o d d'.
Proof.
  induction 1 as [d|g gs d d1 d' a acc rej Ha _ _ IH|g gs d d1 d' r acc rej Hs _ _ IH]; [done|..].
  - etransitivity; [|exact IH]. unfold accepted_effect in Ha. case_match.
    + destruct Ha as [Ha _]. by eapply categories_done_foreign.
    + by eapply accepted_batch_foreign.
  - etransitivity; [by apply foreign_same_tables|exact IH].
Qed.

(** The log entries of a request are its own. *)
Lemma batches_run_log o dev groups d d' acc rej :
  batches_run o dev groups d d' acc rej ->
  exists cs, note_changes d' = note_changes d ++ cs /\
    Forall (fun c => db.ch_owner_id c = o /\ db.ch_device_id c = dev) cs.
Proof.
  induction 1 as [d|g gs d d1 d' a acc rej Ha _ _ (cs & Hcs & Hf)|g gs d d1 d' r acc rej Hs _ _ (cs & Hcs & Hf)].
  { exists []. by rewrite app_nil_r. }
  - assert (exists cs1, note_changes d1 = note_changes d ++ cs1 /\
      Forall (fun c => db.ch_owner_id c = o /\ db.ch_device_id c = dev) cs1)
      as (cs1 & Hcs1 & Hf1).
    { unfold accepted_effect in Ha. case_match.
      - destruct Ha as [[_ _ _ (cs1 & Hl & Hf2)] _]. exists cs1. split; [done|].
        apply Forall2_Forall_r with (Q := fun c => db.ch_owner_id c = o /\ db.ch_device_id c = dev)
          in Hf2; [done|]. apply Forall_forall. intros x _ c (? & _ & _ & ? & _). done.
      - destruct (ab_doc _ _ _ _ _ _ _ Ha) as (doc & _ & _ & cs1 & Hl & Hf2). exists cs1.
        split; [done|].
        apply Forall2_Forall_r with (Q := fun c => db.ch_owner_id c = o /\ db.ch_device_id c = dev)
          in Hf2; [done|]. apply Forall_forall. intros x _ c (? & _ & ? & _). done. }
    exists (cs1 ++ cs). rewrite Hcs, Hcs1, app_assoc. split; [done|]. by apply Forall_app.
  - apply same_tables_fields in Hs as (_ & _ & _ & _ & E & _). exists cs. by rewrite Hcs, <- E.
Qed.

End batches.
