(* ===== verification/Replay.v ===== *)
(** * Retrying a batch

    After a batch was accepted, all its operations are in the device's log;
    sending it again is accepted and changes nothing, when the database
    answers. *)

From S2P Require Import Prelude GoText GoFloat Json HttpApi Constants External SyncOperations.
From S2P Require Import Schema Queries DbInvariant Store Frame SyncModels RealtimeMessage.
From S2P Require Import SyncService NoteSpec SyncPush SyncPull SyncFacts SyncFrame.
From S2P Require Import BatchRefinement BatchFacts CategoryFacts PushFacts.

(** ** What is processed *)

Lemma unprocessed_nil seen ops :
  unprocessed seen ops = [] <-> Forall (fun op => OperationID op ∈ seen) ops.
Proof.
  revert seen. induction ops as [|op ops IH]; intros seen; cbn; [by split|].
  rewrite Forall_cons. case_decide; rewrite <- ?IH; [naive_solver|]. split; [done|]. by intros [].
Qed.

Lemma unprocessed_all seen ops op :
  op ∈ ops -> OperationID op ∈ seen \/ OperationID op ∈ map OperationID (unprocessed seen ops).
Proof.
  revert seen. induction ops as [|x ops IH]; intros seen Hop; [by apply elem_of_nil in Hop|].
  apply elem_of_cons in Hop as [->|Hop]; cbn; case_decide.
  - by left.
  - right. cbn. left.
  - by apply IH.
  - destruct (IH ({[OperationID x]} ∪ seen) Hop) as [Hin|Hin].
    + apply elem_of_union in Hin as [->%elem_of_singleton|?]; [right; left|by left].
    + right. by right.
Qed.

Section replay.
Context {X : External Db}.

Lemma logged_processed dev (P : ClientOperation -> db.NoteChange -> Prop) todo cs d d' :
  note_changes d' = note_changes d ++ cs -> Forall2 P todo cs ->
  (forall op c, P op c -> operation_key c = (dev, OperationID op)) ->
  forall id, id ∈ processed d dev \/ id ∈ map OperationID todo -> id ∈ processed d' dev.
Proof.
  intros Hl Hf HP id H. apply elem_of_processed. rewrite Hl. destruct H as [H|H].
  - apply elem_of_processed in H as (c & Hc & Hk). exists c. split; [|done]. apply elem_of_app. by left.
  - apply list_elem_of_fmap in H as (op & -> & Hop). apply list_elem_of_lookup in Hop as [i Hi].
    destruct (Forall2_lookup_l _ _ _ _ _ Hf Hi) as (c & Hc & Hpc). exists c. split; [|by apply HP].
    apply elem_of_app. right. by eapply list_elem_of_lookup_2.
Qed.

(** After an accepted batch every operation of it is processed. *)
Lemma accepted_processed o dev g d d' a :
  accepted_effect o dev g d d' a -> Forall (fun op => OperationID op ∈ processed d' dev) g.
Proof.
  intros H. apply Forall_forall. intros op Hop.
  assert (Hor : OperationID op ∈ processed d dev \/
    OperationID op ∈ map OperationID (new_operations d dev g)).
  { apply unprocessed_all. unfold sortedOperations. by apply elem_of_sort_by. }
  unfold accepted_effect in H. case_match.
  - destruct H as [[_ _ _ (cs & Hl & Hf)] _].
    eapply (logged_processed dev); [exact Hl|exact Hf| |exact Hor].
    intros op' c (_ & _ & _ & Hd & Hi & _). unfold operation_key. congruence.
  - destruct (ab_doc _ _ _ _ _ _ _ H) as (doc & _ & _ & cs & Hl & Hf).
    eapply (logged_processed dev); [exact Hl|exact Hf| |exact Hor].
    intros op' c (_ & _ & Hd & Hi & _). unfold operation_key. congruence.
Qed.

(** ** Runs without faults *)

Context `{!Reliable X}.

(** A read in a live transaction answers. *)
Lemma reliable_read {A B} (f : Db -> option A) (q : Stmt A) (g : A -> B) w :
  (forall now d, q now d = one d (f d)) -> w_tx w = TxActive ->
  (a ← store.map_err store.mapNoRows (exec Tx q); mret (g a)) w
  = (tick w, match f (w_db w) with Some a => Ok (g a) | None => Err ErrNotFound end).
Proof using All.
  intros Hq Ht. rewrite M_bind_eq. unfold store.map_err, exec, exec_tx.
  rewrite Ht, always_runs, Hq. destruct (f (w_db w)); cbn; [|done]. by destruct w.
Qed.

Lemma reliable_ensureNote o n st w :
  w_tx w = TxActive -> exists st' w', ensureNote Tx o n st w = (w', Ok st') /\
    w_db w' = w_db w /\ w_tx w' = TxActive.
Proof using All.
  intros Ht. unfold ensureNote. case_match; [by eexists _, _|].
  rewrite M_bind_eq. unfold attempt, store.GetNoteForOwnerForUpdate.
  rewrite (reliable_read (fun d => q.owned_note d n o)) by done. cbn.
  destruct (q.owned_note (w_db w) n o); cbn; by eexists _, _.
Qed.

Lemma reliable_replay o dev st op w :
  w_tx w = TxActive -> OperationID op ∈ processed (w_db w) dev ->
  exists st' a w', applyOperation Tx o dev st op w = (w', Ok (st', OpAccepted a, false)) /\
    w_db w' = w_db w /\ w_tx w' = TxActive.
Proof using All.
  intros Ht Hin. unfold applyOperation. rewrite M_bind_eq. unfold attempt, store.FindProcessedOperation.
  rewrite (reliable_read (fun d => List.find (q.is_operation dev (OperationID op)) (note_changes d)))
    by done. cbn.
  destruct (List.find _ _) as [c|] eqn:Ef; cbn; [|by apply find_operation_None in Ef].
  case_match; [by eexists _, _, _|].
  destruct (reliable_ensureNote o (NoteID op) st (tick w)) as (st' & w' & He & Hd & Ht'); [done|].
  rewrite M_bind_eq, He. cbn. by eexists _, _, _.
Qed.

Lemma reliable_replay_loop o dev ops v w :
  w_tx w = TxActive -> Forall (fun op => OperationID op ∈ processed (w_db w) dev) ops ->
  exists v' w', batch_loop Tx o dev ops v w = (w', (v', Ok tt)) /\
    w_db w' = w_db w /\ w_tx w' = TxActive /\ bv_changed v' = bv_changed v.
Proof using All.
  revert v w. induction ops as [|op ops IH]; intros v w Ht Hops; cbn; [by eexists _, _|].
  inversion Hops as [|? ? Hop Hops']; subst.
  destruct (reliable_replay o dev (bv_state v) op w) as (st' & a & w1 & -> & Hd & Ht1); [done|done|].
  destruct (IH (record_operation v st' (OpAccepted a) false) w1) as (v' & w' & -> & Hd' & Ht' & Hc);
    [done|by rewrite Hd|]. eexists _, _. split_and!; [done|congruence|done|].
  rewrite Hc. cbn. by rewrite orb_false_r.
Qed.

(** Sending processed operations again is accepted. *)
Lemma replay_accepted sv o dev g w :
  w_tx w = TxActive -> g <> [] ->
  Forall (fun op => OperationID op ∈ processed (w_db w) dev) g ->
  exists a w', applyOperationBatch sv Tx o dev g w = (w', Ok (Some (OpAccepted a))) /\
    w_db w' = w_db w.
Proof using All.
  intros Ht Hne Hg. unfold applyOperationBatch.
  assert (Hg' : Forall (fun op => OperationID op ∈ processed (w_db w) dev) (sortedOperations g))
    by (unfold sortedOperations; by rewrite sort_by_perm).
  destruct (sortedOperations g) as [|first rest] eqn:Es.
  { unfold sortedOperations in Es. apply (f_equal length) in Es. rewrite sort_by_length in Es.
    by destruct g. }
  rewrite M_bind_eq. unfold run_closure, WithSavepoint.
  unfold exec_tx at 1. cbn [w_tx w_step count_savepoint]. rewrite Ht, always_runs. cbn [no_op].
  set (w1 := set_db _ _). assert (Hd1 : w_db w1 = w_db w) by done.
  assert (Ht1 : w_tx w1 = TxActive) by done. clearbody w1.
  destruct (reliable_replay_loop o dev (first :: rest) initial_vars w1)
    as (v' & w2 & -> & Hd2 & Ht2 & Hc); [done|by rewrite Hd1|].
  unfold exec_tx. rewrite Ht2, always_runs. cbn. cbn in Hc. rewrite Hc.
  destruct (st_note (bv_state v')); cbn; eexists _, _; (split; [done|]); cbn; congruence.
Qed.

End replay.
