(* ===== verification/PushTheorems.v ===== *)
(** * What a push guarantees

    The theorems about [applyOperationBatch] and [Sync], each with a run of the
    demonstration environment on which its hypotheses hold. *)

From S2P Require Import Prelude GoText GoFloat Json HttpApi Constants External SyncOperations.
From S2P Require Import Schema Queries DbInvariant Store Frame SyncModels RealtimeMessage.
From S2P Require Import SyncService NoteSpec Demo SyncPush SyncPull SyncFacts SyncFrame.
From S2P Require Import BatchRefinement BatchFacts CategoryFacts PushFacts Replay.

(** ** Demonstration runs *)

(** Three operations on [note1], accepted. *)
Definition batch_world : World :=
  fst (applyOperationBatch (X := demo) demo_service Tx alice phone demo_ops demo_world).

Definition batch_accepted : AcceptedDTO := mkAccepted note1 4 3.

(** The same with a stale deletion at the end: rejected. *)
Definition stale_ops : list ClientOperation := demo_ops ++ [op_stale].

Definition stale_run : World * res (option op_outcome) :=
  applyOperationBatch (X := demo) demo_service Tx alice phone stale_ops demo_world.

(** A request with a category, the batch above and a note whose block exists. *)
Definition mixed_request : Request :=
  demo_request (op_create :: op_category 50 60 "food" :: demo_ops).

Definition mixed_run : World * res (Response * option SyncAvailableEvent) :=
  Sync (X := demo) demo_service alice mixed_request demo_world.

(** The same request when the connection is lost at the twentieth round trip. *)
Definition broken_run : World * res (Response * option SyncAvailableEvent) :=
  Sync (X := demo_fails 20) demo_service alice mixed_request demo_world.

Lemma batch_world_run :
  applyOperationBatch (X := demo) demo_service Tx alice phone demo_ops demo_world
  = (batch_world, Ok (Some (OpAccepted batch_accepted))).
Proof. vm_compute. reflexivity. Qed.

Lemma demo_ops_note : Forall (fun op => NoteID op = note1) demo_ops.
Proof. by repeat constructor. Qed.

Lemma batch_world_wf : wf (w_db batch_world).
Proof.
  pose proof batch_world_run as H.
  apply (sat_applyOperationBatch (on_db evolves)) in H. by apply H, demo_db_wf.
Qed.

(** ** Accepted batches *)

(** C1: when a batch of operations on one note is accepted, the note's document
    afterwards is the one the specification computes: the operations the device
    had not sent before, applied in order to the document before, at the next
    version; caching and deferring writes does not show.  The log gains exactly
    one entry per new operation, in order, each taking the note from its version
    to the next, and none for a replayed one.  No other note, no block of another
    note, and no category, device, snapshot or upload is written. *)
Theorem batch_refines_operations {X : External Db} (sv : Service) (o : UUID) (dev : string)
    (n : UUID) (ops : list ClientOperation) (w w' : World) (a : AcceptedDTO)
    (Hnote : n <> uuid_Nil) (Hops : Forall (fun op => NoteID op = n) ops) (Hwf : wf (w_db w))
    (Hrun : applyOperationBatch sv Tx o dev ops w = (w', Ok (Some (OpAccepted a)))) :
  let todo := new_operations (w_db w) dev ops in
  exists doc entries, apply_ops o (note_doc (w_db w) o n) todo = Some doc /\
    note_doc (w_db w') o n = after_batch todo doc /\
    note_changes (w_db w') = note_changes (w_db w) ++ entries /\
    Forall2 (logs o dev (doc_version doc)) todo entries /\
    only_note n (w_db w) (w_db w').
Proof.
  destruct (applyOperationBatch_accepted _ _ _ _ _ _ _ _ Hnote Hops Hwf Hrun)
    as [(doc & H1 & H2 & entries & H3 & H4) ? ? ? ? H5]. by exists doc, entries.
Qed.

Lemma batch_refines_operations_witness :
  let todo := new_operations demo_db phone demo_ops in
  exists doc entries, apply_ops (X := demo) alice (note_doc demo_db alice note1) todo = Some doc /\
    note_doc (w_db batch_world) alice note1 = after_batch todo doc /\
    note_changes (w_db batch_world) = note_changes demo_db ++ entries /\
    Forall2 (logs alice phone (doc_version doc)) todo entries /\
    only_note note1 demo_db (w_db batch_world).
Proof.
  apply (batch_refines_operations (X := demo) demo_service alice phone note1 demo_ops demo_world
    batch_world batch_accepted);
    [discriminate|apply demo_ops_note|apply demo_db_wf|apply batch_world_run].
Defined.

(** An accepted batch adds exactly one log entry per new operation, in
    order: each entry carries the operation and takes the note from its version
    to the next; replayed operations add none. *)
Theorem batch_logs_operations {X : External Db} (sv : Service) (o : UUID) (dev : string)
    (n : UUID) (ops : list ClientOperation) (w w' : World) (a : AcceptedDTO)
    (Hnote : n <> uuid_Nil) (Hops : Forall (fun op => NoteID op = n) ops) (Hwf : wf (w_db w))
    (Hrun : applyOperationBatch sv Tx o dev ops w = (w', Ok (Some (OpAccepted a)))) :
  let todo := new_operations (w_db w) dev ops in
  exists doc entries, apply_ops o (note_doc (w_db w) o n) todo = Some doc /\
    note_changes (w_db w') = note_changes (w_db w) ++ entries /\
    Forall2 (logs o dev (doc_version doc)) todo entries.
Proof.
  destruct (applyOperationBatch_accepted _ _ _ _ _ _ _ _ Hnote Hops Hwf Hrun)
    as [(doc & H1 & _ & cs & H2 & H3)].
  by exists doc, cs.
Qed.

Lemma batch_logs_operations_witness :
  let todo := new_operations demo_db phone demo_ops in
  exists doc entries, apply_ops (X := demo) alice (note_doc demo_db alice note1) todo = Some doc /\
    note_changes (w_db batch_world) = note_changes demo_db ++ entries /\
    Forall2 (logs alice phone (doc_version doc)) todo entries.
Proof.
  apply (batch_logs_operations (X := demo) demo_service alice phone note1 demo_ops demo_world
    batch_world batch_accepted);
    [discriminate|apply demo_ops_note|apply demo_db_wf|apply batch_world_run].
Defined.

(** The response to an accepted batch reports the version the database
    holds and the sequence number of the batch's last log entry, or 0 when
    there was nothing new. *)
Theorem batch_reports_stored_version {X : External Db} (sv : Service) (o : UUID) (dev : string)
    (n : UUID) (ops : list ClientOperation) (w w' : World) (a : AcceptedDTO)
    (Hnote : n <> uuid_Nil) (Hops : Forall (fun op => NoteID op = n) ops) (Hwf : wf (w_db w))
    (Hrun : applyOperationBatch sv Tx o dev ops w = (w', Ok (Some (OpAccepted a)))) :
  Acc_NoteID a = n /\
  Acc_ServerNoteVersion a = doc_version (note_doc (w_db w') o n) /\
  Acc_GlobalSequence a = match new_operations (w_db w) dev ops with
                         | [] => 0
                         | _ => change_seq (w_db w')
                         end /\
  change_seq (w_db w') = change_seq (w_db w)
                         + Z.of_nat (length (new_operations (w_db w) dev ops)).
Proof.
  by destruct (applyOperationBatch_accepted _ _ _ _ _ _ _ _ Hnote Hops Hwf Hrun).
Qed.

Lemma batch_reports_stored_version_witness :
  Acc_NoteID batch_accepted = note1 /\
  Acc_ServerNoteVersion batch_accepted = doc_version (note_doc (w_db batch_world) alice note1) /\
  Acc_GlobalSequence batch_accepted = match new_operations demo_db phone demo_ops with
                                      | [] => 0
                                      | _ => change_seq (w_db batch_world)
                                      end /\
  change_seq (w_db batch_world) = change_seq demo_db
                         + Z.of_nat (length (new_operations demo_db phone demo_ops)).
Proof.
  apply (batch_reports_stored_version (X := demo) demo_service alice phone note1 demo_ops demo_world
    batch_world batch_accepted);
    [discriminate|apply demo_ops_note|apply demo_db_wf|apply batch_world_run].
Defined.

(** An accepted batch writes no note, no block of a note and no category
    but its own note's; devices, snapshots and uploads are not written at all. *)
Theorem batch_touches_only_its_note {X : External Db} (sv : Service) (o : UUID) (dev : string)
    (n : UUID) (ops : list ClientOperation) (w w' : World) (a : AcceptedDTO)
    (Hnote : n <> uuid_Nil) (Hops : Forall (fun op => NoteID op = n) ops) (Hwf : wf (w_db w))
    (Hrun : applyOperationBatch sv Tx o dev ops w = (w', Ok (Some (OpAccepted a)))) :
  only_note n (w_db w) (w_db w').
Proof. by destruct (applyOperationBatch_accepted _ _ _ _ _ _ _ _ Hnote Hops Hwf Hrun). Qed.

Lemma batch_touches_only_its_note_witness : only_note note1 demo_db (w_db batch_world).
Proof.
  apply (batch_touches_only_its_note (X := demo) demo_service alice phone note1 demo_ops demo_world
    batch_world batch_accepted);
    [discriminate|apply demo_ops_note|apply demo_db_wf|apply batch_world_run].
Defined.

(** C12: an accepted batch without a note applies its new category operations to
    the owner's categories in order, logs each of them, and writes nothing
    else. *)
Theorem category_batch_refines {X : External Db} (sv : Service) (o : UUID) (dev : string)
    (ops : list ClientOperation) (w w' : World) (a : AcceptedDTO)
    (Hops : Forall (fun op => NoteID op = uuid_Nil) ops) (Hwf : wf (w_db w))
    (Hrun : applyOperationBatch sv Tx o dev ops w = (w', Ok (Some (OpAccepted a)))) :
  categories_done o dev (new_operations (w_db w) dev ops) (w_db w) (w_db w').
Proof. by destruct (applyOperationBatch_categories _ _ _ _ _ _ _ Hops Hwf Hrun). Qed.

Definition category_ops : list ClientOperation :=
  [op_category 50 60 "food"; op_category 51 61 "work"].

Definition category_run : World * res (option op_outcome) :=
  applyOperationBatch (X := demo) demo_service Tx alice phone category_ops demo_world.

Lemma category_batch_refines_witness :
  categories_done (X := demo) alice phone (new_operations demo_db phone category_ops) demo_db
    (w_db (fst category_run)).
Proof.
  apply (category_batch_refines (X := demo) demo_service alice phone category_ops demo_world
    (fst category_run) (mkAccepted uuid_Nil 0 2));
    [by repeat constructor|apply demo_db_wf|vm_compute; reflexivity].
Defined.

(** ** Rejected batches and failed requests *)

(** C6: a batch one of whose operations is rejected leaves every table as it
    was, whatever its earlier operations wrote, unless the transaction broke
    and cannot commit any more. *)
Theorem rejected_batch_has_no_effect {X : External Db} (sv : Service) (o : UUID) (dev : string)
    (ops : list ClientOperation) (w w' : World) (r : RejectedDTO)
    (Hrun : applyOperationBatch sv Tx o dev ops w = (w', Ok (Some (OpRejected r)))) :
  same_tables (w_db w) (w_db w') \/ w_tx w' <> TxActive.
Proof. by eapply applyOperationBatch_rejected. Qed.

Definition stale_rejection : RejectedDTO :=
  match snd stale_run with
  | Ok (Some (OpRejected r)) => r
  | _ => zero_rejected
  end.

Lemma rejected_batch_has_no_effect_witness :
  same_tables demo_db (w_db (fst stale_run)) \/ w_tx (fst stale_run) <> TxActive.
Proof.
  apply (rejected_batch_has_no_effect (X := demo) demo_service alice phone stale_ops demo_world
    (fst stale_run) stale_rejection). vm_compute. reflexivity.
Defined.

(** C3: a push that returns an error has no effect on any table, also when
    other batches of it had been applied and also when the database fails in
    the middle, as long as COMMIT is answered. *)
Theorem failed_push_has_no_effect {X : External Db} (sv : Service) (o : UUID) (req : Request)
    (w w' : World) (e : goerr) (Hanswered : forall n, round_trip n <> FailsAfter)
    (Hrun : Sync sv o req w = (w', Err e)) :
  w' = w \/ same_tables (others (w_step w) (w_db w)) (w_db w').
Proof. by eapply Sync_Err. Qed.

Lemma failed_push_has_no_effect_witness :
  fst broken_run = demo_world \/ same_tables demo_db (w_db (fst broken_run)).
Proof.
  apply (failed_push_has_no_effect (X := demo_fails 20) demo_service alice mixed_request demo_world
    (fst broken_run) ErrDriver).
  - intros n. cbn. by destruct (Nat.eqb n 20).
  - vm_compute. reflexivity.
Defined.

(** ** Committed requests *)

(** C2: a push that succeeds has run the batches of its request in order
    inside one transaction: each was accepted with exactly its effect or
    rejected without one, and the response lists the outcomes in that order.
    The batches hold the operations in order, each concerns one note, and no
    note has two.  The device was the caller's and not revoked. *)
Theorem push_runs_batches {X : External Db} (sv : Service) (o : UUID) (req : Request)
    (w w' : World) (resp : Response) (ev : option SyncAvailableEvent)
    (Hwf : wf (others (w_step w) (w_db w))) (Hrun : Sync sv o req w = (w', Ok (resp, ev))) :
  let d0 := others (w_step w) (w_db w) in
  let batches := group_operations (sortedOperations (Req_Operations req)) in
  batches_run o (Req_DeviceID req) batches d0 (w_db w') (Resp_Accepted resp) (Resp_Rejected resp) /\
  concat batches = sortedOperations (Req_Operations req) /\ Forall uniform batches /\
  StronglySorted N.lt (map batch_note batches) /\
  exists v, sync_devices d0 !! Req_DeviceID req = Some v /\ db.d_owner_id v = o /\
            db.d_revoked_at v = None.
Proof.
  destruct (Sync_Ok _ _ _ _ _ _ _ Hwf Hrun) as (H1 & _ & H2). split; [exact H1|].
  split_and!; [apply group_operations_concat|apply group_operations_uniform| |exact H2].
  apply group_operations_notes, sortedOperations_sorted.
Qed.

Definition mixed_response : Response * option SyncAvailableEvent :=
  match snd mixed_run with
  | Ok r => r
  | Err _ => (mkResponse [] [], None)
  end.

Lemma mixed_run_eq :
  Sync (X := demo) demo_service alice mixed_request demo_world
  = (fst mixed_run, Ok (fst mixed_response, snd mixed_response)).
Proof. vm_compute. reflexivity. Qed.

Lemma push_runs_batches_witness :
  let d0 := demo_db in
  batches_run (X := demo) alice phone
    (group_operations (sortedOperations (Req_Operations mixed_request)))
    d0 (w_db (fst mixed_run)) (Resp_Accepted (fst mixed_response))
    (Resp_Rejected (fst mixed_response)) /\
  exists v, sync_devices d0 !! phone = Some v /\ db.d_owner_id v = alice /\
            db.d_revoked_at v = None.
Proof.
  destruct (push_runs_batches (X := demo) demo_service alice mixed_request demo_world (fst mixed_run)
    (fst mixed_response) (snd mixed_response) demo_db_wf mixed_run_eq) as (H & _ & _ & _ & Hv).
  split; [exact H|exact Hv].
Defined.

(** C10: whatever a push returns, the invariant of the database is kept, the
    change log only grows at its end, with fresh and larger sequence numbers,
    and no note, block or device changes hands. *)
Theorem push_evolves_database {X : External Db} (sv : Service) (o : UUID) (req : Request)
    (w w' : World) (r : res (Response * option SyncAvailableEvent))
    (Hrun : Sync sv o req w = (w', r)) :
  w' = w \/ evolves (others (w_step w) (w_db w)) (w_db w').
Proof. by eapply (Sync_sat evolves). Qed.

Lemma push_evolves_database_witness :
  fst mixed_run = demo_world \/ evolves demo_db (w_db (fst mixed_run)).
Proof.
  apply (push_evolves_database (X := demo) demo_service alice mixed_request demo_world
    (fst mixed_run) (Ok (fst mixed_response, snd mixed_response))). apply mixed_run_eq.
Defined.

(** A push changes nothing of other owners: not their notes, not the
    blocks of their notes, not their categories; and every log entry it adds is
    the caller's and the device's. *)
Theorem push_isolates_owners {X : External Db} (sv : Service) (o : UUID) (req : Request)
    (w w' : World) (resp : Response) (ev : option SyncAvailableEvent)
    (Hwf : wf (others (w_step w) (w_db w))) (Hrun : Sync sv o req w = (w', Ok (resp, ev))) :
  let d0 := others (w_step w) (w_db w) in
  foreign_same o d0 (w_db w') /\
  exists entries, note_changes (w_db w') = note_changes d0 ++ entries /\
    Forall (fun c => db.ch_owner_id c = o /\ db.ch_device_id c = Req_DeviceID req) entries.
Proof.
  destruct (Sync_Ok _ _ _ _ _ _ _ Hwf Hrun) as (H & _).
  split; [by eapply batches_run_foreign|by eapply batches_run_log].
Qed.

Lemma push_isolates_owners_witness :
  let d0 := demo_db in
  foreign_same alice d0 (w_db (fst mixed_run)) /\
  exists entries, note_changes (w_db (fst mixed_run)) = note_changes d0 ++ entries /\
    Forall (fun c => db.ch_owner_id c = alice /\ db.ch_device_id c = phone) entries.
Proof.
  apply (push_isolates_owners (X := demo) demo_service alice mixed_request demo_world (fst mixed_run)
    (fst mixed_response) (snd mixed_response)); [apply demo_db_wf|apply mixed_run_eq].
Defined.

(** C13: an event is published exactly when the committed push added entries to
    the change log and there is a bus; it carries the caller, the device and the
    largest sequence number among these entries. *)
Theorem push_publishes_after_commit {X : External Db} (sv : Service) (o : UUID) (req : Request)
    (w w' : World) (resp : Response) (ev : option SyncAvailableEvent)
    (Hwf : wf (others (w_step w) (w_db w))) (Hrun : Sync sv o req w = (w', Ok (resp, ev))) :
  exists entries, note_changes (w_db w') = note_changes (others (w_step w) (w_db w)) ++ entries /\
    ev = match entries with
         | [] => None
         | _ => if is_set (eventBus sv)
                then Some (mkEvent o (Req_DeviceID req) (newest entries)) else None
         end.
Proof.
  destruct (Sync_Ok _ _ _ _ _ _ _ Hwf Hrun) as (Hr & -> & _).
  pose proof (batches_run_wf _ _ _ _ _ _ _ Hwf Hr) as Hw'.
  apply batches_run_newest in Hr as (cs & Hl & ->); [|done]. exists cs. split; [done|].
  unfold publishCommittedSyncAvailable. destruct cs as [|c cs]; [done|].
  assert (Hpos : 0 < newest (c :: cs)) by (eapply newest_positive; [exact Hw'|exact Hl|done]).
  rewrite (proj2 (Z.leb_gt _ _) Hpos). by destruct (eventBus sv).
Qed.

Lemma push_publishes_after_commit_witness :
  exists entries, note_changes (w_db (fst mixed_run)) = note_changes demo_db ++ entries /\
    snd mixed_response = match entries with
         | [] => None
         | _ => if is_set (eventBus demo_service)
                then Some (mkEvent alice phone (newest entries)) else None
         end.
Proof.
  apply (push_publishes_after_commit (X := demo) demo_service alice mixed_request demo_world
    (fst mixed_run) (fst mixed_response) (snd mixed_response)); [apply demo_db_wf|apply mixed_run_eq].
Defined.

(** ** Retries *)

(** C9: retrying a batch after it was accepted is accepted again and changes
    nothing, when the database answers: the operations are in the device's log. *)
Theorem retry_changes_nothing {X : External Db} {HR : Reliable X} (sv : Service) (o : UUID)
    (dev : string) (g : list ClientOperation) (w w' : World) (a : AcceptedDTO)
    (Huniform : uniform g) (Hwf : wf (w_db w)) (Hactive : w_tx w' = TxActive)
    (Hrun : applyOperationBatch sv Tx o dev g w = (w', Ok (Some (OpAccepted a)))) :
  exists a' w'', applyOperationBatch sv Tx o dev g w' = (w'', Ok (Some (OpAccepted a'))) /\
    w_db w'' = w_db w'.
Proof.
  apply replay_accepted; [done|by destruct Huniform as (? & ? & -> & _)|].
  eapply accepted_processed, applyOperationBatch_effect; eauto.
Qed.

Lemma retry_changes_nothing_witness :
  exists a' w'', applyOperationBatch (X := demo) demo_service Tx alice phone demo_ops batch_world
    = (w'', Ok (Some (OpAccepted a'))) /\ w_db w'' = w_db batch_world.
Proof.
  apply (retry_changes_nothing (X := demo) (HR := demo_reliable _) demo_service alice phone demo_ops
    demo_world batch_world batch_accepted).
  - exists op_add, [op_title; op_text]. by repeat constructor.
  - apply demo_db_wf.
  - vm_compute. reflexivity.
  - apply batch_world_run.
Defined.
