(* ===== verification/Typing.v ===== *)
(** * What stored documents look like

    A type discipline for documents: block types are the known ones, positions
    are the canonical text of a non-negative float, properties are JSON objects,
    category names are not blank, logged operations are known ones.  Every
    operation of a push takes typed documents to typed documents, so a push
    keeps a typed database typed. *)

From S2P Require Import Prelude GoText GoFloat Json HttpApi Constants External SyncOperations.
From S2P Require Import Schema Queries DbInvariant Store SyncModels RealtimeMessage SyncService.
From S2P Require Import NoteSpec Demo SyncPush BatchRefinement BatchFacts CategoryFacts PushFacts.
From S2P Require Import PushTheorems.

(** ** Definitions the statements use *)

Definition is_object (v : json) : bool :=
  match v with
  | JObj _ => true
  | _ => false
  end.

(** The text of the float it reads as, which is not below zero. *)
Definition position_text (p : string) : bool :=
  match parse_float p with
  | Some f => negb (float_negative f) && String.eqb (format_float f) p
  | None => false
  end.

Record typed_block (b : BlockDoc) : Prop := mkTypedBlock {
  tb_type : bd_type b ∈ allowedBlockTypes;
  tb_position : position_text (bd_position b) = true;
  tb_properties : is_object (bd_properties b) = true
}.

Record typed_doc (doc : NoteDoc) : Prop := mkTypedDoc {
  tyd_properties : is_object (nd_properties doc) = true;
  tyd_blocks : forall id b, nd_blocks doc !! id = Some b -> typed_block b
}.

Definition known_operation (t : string) : bool :=
  note_operation t || block_operation t || category_operation t.

(** The rows as the store reads them. *)
Record typed_db (d : Db) : Prop := mkTypedDb {
  ty_notes : map_Forall (fun _ n =>
    is_object (store.jsonb_param (Some (db.n_note_properties n))) = true) (notes d);
  ty_blocks : map_Forall (fun _ b => typed_block (row_block b)) (note_blocks d);
  ty_categories : map_Forall (fun _ c => blank (db.cat_name c) = false) (categories d);
  ty_changes : Forall (fun c => known_operation (db.ch_operation_type c) = true) (note_changes d)
}.

#[export] Instance typed_block_dec b : Decision (typed_block b).
Proof.
  refine (cast_if (decide (bd_type b ∈ allowedBlockTypes /\ position_text (bd_position b) = true
                           /\ is_object (bd_properties b) = true)));
    [by abstract (split; tauto)|by abstract (intros []; tauto)].
Defined.

#[export] Instance typed_db_dec d : Decision (typed_db d).
Proof.
  refine (cast_if (decide (map_Forall (fun _ n =>
      is_object (store.jsonb_param (Some (db.n_note_properties n))) = true) (notes d)
    /\ map_Forall (fun _ b => typed_block (row_block b)) (note_blocks d)
    /\ map_Forall (fun _ c => blank (db.cat_name c) = false) (categories d)
    /\ Forall (fun c => known_operation (db.ch_operation_type c) = true) (note_changes d))));
    [by abstract (split; tauto)|by abstract (intros []; tauto)].
Defined.

(** ** Lemmas *)

(** *** Fields *)

Lemma GetObjectField_typed fields key v :
  GetObjectField fields key = Ok (Some v) -> is_object v = true.
Proof.
  intros (raw & _ & H)%get_field_Ok. unfold object_value in H. destruct raw; try done.
  case_match; [by injection H as <-|done].
Qed.

Lemma is_object_stored v : is_object v = true -> is_object (store.jsonb_param (Some v)) = true.
Proof. by destruct v. Qed.

Lemma requires_Ok {A} (v : option A) op key a : requires v op key = Ok a <-> v = Some a.
Proof. destruct v; cbn; split; congruence. Qed.

(** A position is printed to the text of the float a client sent. *)
Lemma format_position f :
  is_float f -> float_negative f = false -> position_text (format_float f) = true.
Proof.
  intros Hf Hn. unfold position_text. rewrite parse_format_float by done.
  destruct (Z.eqb_spec (f_mant f) 0) as [E|E].
  - replace (format_float f) with (format_float (mkFloat (f_neg f) 0 0)).
    + unfold float_negative. cbn. by destruct (f_neg f).
    + unfold format_float. by rewrite E.
  - by rewrite Hn, String.eqb_refl.
Qed.

Lemma GetFloatField_is_float fields key f : GetFloatField fields key = Ok (Some f) -> is_float f.
Proof.
  intros (raw & _ & H)%get_field_Ok. unfold reject_null in H. destruct raw; try done.
  cbn in H. by eapply parse_float_is_float.
Qed.

Section typing.
Context {X : External Db}.

(** *** Blocks *)

Lemma BlockModel_FromRequest_typed raw m :
  BlockModel_FromRequest raw = Ok m ->
  BlkM_BlockType m ∈ allowedBlockTypes /\ position_text (BlkM_Position m) = true /\
  is_object (store.jsonb_param (BlkM_BlockProperties m)) = true.
Proof.
  unfold BlockModel_FromRequest. intros H. res_inv H.
  repeat match goal with Hv : required _ _ = Ok _ |- _ => apply required_Ok in Hv; subst end.
  injection H as <-. cbn.
  match goal with Hv : ValidateBlockType _ = Ok _ |- _ =>
    destruct v3; apply ValidateBlockType_Ok in Hv end.
  split; [done|]. split.
  - destruct (float_negative _) eqn:En; [done|]. apply format_position; [|done].
    by eapply GetFloatField_is_float.
  - apply is_object_stored. destruct v9 as [p|]; [by eapply GetObjectField_typed|done].
Qed.

Lemma BlockModel_Entity_typed m n b :
  BlockModel_Entity m n = Ok b ->
  position_text (BlkM_Position m) = true ->
  is_object (store.jsonb_param (BlkM_BlockProperties m)) = true -> typed_block (entity_block b).
Proof.
  unfold BlockModel_Entity. intros H Hp Ho. case_match; [done|]. res_inv H.
  case_match; [done|]. injection H as <-. destruct v. apply ValidateBlockType_Ok in Hv.
  split; cbn; [done|done|]. by rewrite jsonb_param_normalized.
Qed.

(** What is parsed as a block converts to a typed block. *)
Definition typed_model (m : BlockModel) : Prop :=
  position_text (BlkM_Position m) = true /\
  is_object (store.jsonb_param (BlkM_BlockProperties m)) = true.

Lemma parse_blocks_typed i ids positions raws ms :
  parse_blocks i ids positions raws = Ok ms -> Forall typed_model ms.
Proof.
  revert i ids positions ms. induction raws as [|raw raws IH]; intros i ids positions ms H;
    cbn [parse_blocks] in H.
  { by injection H as <-. }
  destruct (BlockModel_FromRequest (Some raw)) as [m|e] eqn:E; [|done].
  do 2 (case_decide; [done|]). res_inv H. injection H as <-.
  constructor; [|by eapply IH]. by apply BlockModel_FromRequest_typed in E as [_ E].
Qed.

Lemma traverse_Forall {A B} (f : A -> res B) (P : A -> Prop) (Q : B -> Prop) l l' :
  (forall a b, P a -> f a = Ok b -> Q b) -> Forall P l -> traverse f l = Ok l' -> Forall Q l'.
Proof.
  intros Hf Hl. revert l'. induction Hl as [|a l Ha Hl IH]; intros l' H; cbn in H.
  - by injection H as <-.
  - res_inv H. injection H as <-. constructor; [by eapply Hf|by apply IH].
Qed.

Lemma inserted_blocks_typed bs (m : gmap UUID BlockDoc) :
  Forall (fun b => typed_block (entity_block b)) bs ->
  (forall id b, m !! id = Some b -> typed_block b) ->
  forall id b, foldl (fun m b => <[store.Block_ID b := entity_block b]> m) m bs !! id = Some b ->
  typed_block b.
Proof.
  intros Hbs. revert m. induction Hbs as [|b0 bs Hb Hbs IH]; intros m Hm id b; cbn; [apply Hm|].
  apply IH. intros j c. destruct (decide (store.Block_ID b0 = j)) as [->|Hne].
  - rewrite lookup_insert_eq. by intros [= <-].
  - rewrite lookup_insert_ne by done. apply Hm.
Qed.

(** *** Operations *)

Lemma to_option_Some {A} (r : res A) a : to_option r = Some a <-> r = Ok a.
Proof. destruct r; cbn; split; congruence. Qed.

(** Peel the binds of a computation that succeeded. *)
Ltac opt_inv H :=
  repeat (apply bind_Some in H; let a := fresh "v" in let Ha := fresh "Hv" in
    destruct H as (a & Ha & H); try apply to_option_Some in Ha).

Lemma new_doc_typed o op doc : new_doc o op = Some doc -> typed_doc doc.
Proof.
  unfold new_doc. intros H. opt_inv H. injection H as <-.
  unfold NoteModel_FromRequest in Hv. case_match; [done|]. res_inv Hv. injection Hv as <-.
  repeat match goal with Hr : required _ _ = Ok _ |- _ => apply required_Ok in Hr; subst end.
  match goal with Hp : parse_blocks _ _ _ _ = Ok _ |- _ => apply parse_blocks_typed in Hp as Hms end.
  unfold NoteModel_Entity in Hv0. case_match; [done|]. res_inv Hv0. injection Hv0 as <-. split.
  - unfold entity_note. cbn [nd_properties store.Doc_Note store.Note_NoteProperties NoteM_NoteProperties].
    assert (is_object v5 = true) by by eapply GetObjectField_typed. by destruct v5.
  - apply inserted_blocks_typed; [|done].
    eapply (traverse_Forall _ typed_model); [|exact Hms|eassumption].
    intros m b [Hp Ho] Hb. by eapply BlockModel_Entity_typed.
Qed.

Lemma typed_put doc id b :
  typed_doc doc -> typed_block b -> typed_doc (doc_with_blocks <[id := b]> doc).
Proof.
  intros [Hp Hb] Ht. split; [done|]. intros j c. cbn.
  destruct (decide (id = j)) as [->|Hne]; [rewrite lookup_insert_eq; by intros [= <-]|].
  rewrite lookup_insert_ne by done. apply Hb.
Qed.

Lemma BlockMutation_properties raw m :
  BlockMutation_FromRequest raw OperationModifyBlock = Ok m -> BM_HasProperties m = true ->
  is_object (store.jsonb_param (BM_BlockProperties m)) = true.
Proof.
  unfold BlockMutation_FromRequest. intros H Hp. res_inv H. cbn in H. res_inv H.
  assert (Hm : BM_BlockProperties m = v1 /\ BM_HasProperties m = bool_decide (is_Some v1)).
  { destruct v1, v3; try done; by injection H as <-. }
  destruct Hm as [-> Hh]. rewrite Hh in Hp. apply bool_decide_eq_true in Hp as [p ->].
  apply is_object_stored. by eapply GetObjectField_typed.
Qed.

Lemma edit_doc_typed op doc doc' : edit_doc op doc = Some doc' -> typed_doc doc -> typed_doc doc'.
Proof.
  unfold edit_doc. intros H Hd. pose proof Hd as [Hp Hb]. repeat case_match_in H; try done.
  - injection H as <-. by split.
  - opt_inv H. injection H as <-. split; [|done]. cbn.
    unfold NoteMutation_FromRequest in Hv. res_inv Hv. cbn in Hv. res_inv Hv. injection Hv as <-.
    match goal with Hr : requires _ _ _ = Ok _ |- _ => apply requires_Ok in Hr; subst end.
    cbn. apply is_object_stored. by eapply GetObjectField_typed.
  - opt_inv H. injection H as <-. by split.
  - opt_inv H. case_match; [done|]. injection H as <-. apply typed_put; [done|].
    unfold BlockModel_FromCreateOperation in Hv.
    do 3 (apply res_bind_Ok in Hv as (? & _ & Hv)).
    apply BlockModel_FromRequest_typed in Hv as (_ & ? & ?). by eapply BlockModel_Entity_typed.
  - opt_inv H. injection H as <-. apply typed_put; [done|]. by destruct (Hb _ _ Hv0).
  - opt_inv H. injection H as <-. apply typed_put; [done|]. destruct (Hb _ _ Hv0) as [H1 H2 H3].
    split; cbn; [done|done|]. destruct (BM_HasProperties v) eqn:Eh; [|done].
    by eapply BlockMutation_properties.
Qed.

Lemma apply_op_typed o doc op doc' :
  apply_op o doc op = Some doc' -> (forall d, doc = Some d -> typed_doc d) -> typed_doc doc'.
Proof.
  unfold apply_op. intros H Hd. case_match_in H.
  - destruct doc; [done|]. case_match_in H; [|done]. by eapply new_doc_typed.
  - apply bind_Some in H as (d & -> & H). case_match_in H; [|done].
    eapply edit_doc_typed; [exact H|by apply Hd].
Qed.

Lemma apply_ops_typed o ops doc doc' :
  apply_ops o doc ops = Some doc' -> (forall d, doc = Some d -> typed_doc d) ->
  forall d, doc' = Some d -> typed_doc d.
Proof.
  revert doc. induction ops as [|op ops IH]; intros doc H Hd; cbn in H.
  - by injection H as <-.
  - apply bind_Some in H as (d1 & H1 & H). eapply IH; [exact H|].
    intros d [= <-]. by eapply apply_op_typed.
Qed.

(** An operation that applies is a known one. *)
Lemma apply_op_known o doc op doc' :
  apply_op o doc op = Some doc' -> known_operation (OperationType op) = true.
Proof.
  unfold apply_op, edit_doc. intros H.
  repeat match type of H with context [String.eqb ?t ?c] =>
    destruct (String.eqb_spec t c) as [->|]; [reflexivity|] end.
  opt_inv H. by case_match_in H.
Qed.

Lemma apply_ops_known o ops doc doc' :
  apply_ops o doc ops = Some doc' ->
  Forall (fun op => known_operation (OperationType op) = true) ops.
Proof.
  revert doc. induction ops as [|op ops IH]; intros doc H; cbn in H; [done|].
  apply bind_Some in H as (d & H1 & H). constructor; [by eapply apply_op_known|by eapply IH].
Qed.

(** *** Categories *)

Definition named (m : gmap UUID (string * bool)) : Prop := map_Forall (fun _ c => blank c.1 = false) m.

Lemma Category_FromRequest_named raw c : Category_FromRequest raw true = Ok c -> blank (Cat_Name c) = false.
Proof.
  unfold Category_FromRequest. intros H. res_inv H. cbn in H. res_inv H.
  destruct (blank _) eqn:E in H; [done|]. by injection H as <-.
Qed.

Lemma apply_category_typed op m m' :
  apply_category op m = Some m' -> named m -> named m' /\ known_operation (OperationType op) = true.
Proof.
  unfold apply_category. intros H Hm.
  repeat match type of H with context [String.eqb ?t ?c] =>
    destruct (String.eqb_spec t c) as [->|] end; try done; (split; [|reflexivity]);
    opt_inv H; repeat case_match_in H; try done; injection H as <-; apply map_Forall_insert_2; try done.
  - by eapply Category_FromRequest_named.
  - by match goal with Hk : m !! _ = Some _ |- _ => specialize (Hm _ _ Hk) end.
  - by eapply Category_FromRequest_named.
Qed.

Lemma apply_categories_typed ops m m' :
  apply_categories ops m = Some m' -> named m ->
  named m' /\ Forall (fun op => known_operation (OperationType op) = true) ops.
Proof.
  revert m. induction ops as [|op ops IH]; intros m H Hm; cbn in H.
  - by injection H as <-.
  - apply bind_Some in H as (m1 & H1 & H). apply apply_category_typed in H1 as [Hm1 Hk]; [|done].
    apply IH in H as [? ?]; [|done]. split; [done|by constructor].
Qed.

(** *** Databases *)

Lemma typed_row_note d o n doc : note_doc d o n = Some doc -> typed_db d -> typed_doc doc.
Proof.
  unfold note_doc. intros H [Hn Hb _ _]. destruct (q.owned_note d n o) as [row|] eqn:E; [|done].
  injection H as <-. apply owned_note_Some in E as [Hk _]. split;
    [pose proof (Hn _ _ Hk) as H; cbn beta in H; rewrite <- jsonb_param_normalized in H; exact H|]. cbn.
  intros id b Hid. rewrite lookup_blocks_of in Hid. destruct (q.note_block d id n) as [r|] eqn:Er; [|done].
  injection Hid as <-. apply note_block_Some in Er as [Hr _]. by eapply Hb.
Qed.

Lemma next_version_typed doc : typed_doc doc -> typed_doc (next_version doc).
Proof. by intros []. Qed.

Lemma logged_known (P : ClientOperation -> db.NoteChange -> Prop) ops cs :
  (forall op c, P op c -> db.ch_operation_type c = OperationType op) ->
  Forall2 P ops cs -> Forall (fun op => known_operation (OperationType op) = true) ops ->
  Forall (fun c => known_operation (db.ch_operation_type c) = true) cs.
Proof.
  intros HP H. induction H as [|op c ops cs Hc _ IH]; intros Hk; [done|].
  inversion Hk; subst. constructor; [by rewrite (HP _ _ Hc)|by apply IH].
Qed.

Lemma accepted_batch_typed o dev n ops d d' a :
  accepted_batch o dev n ops d d' a -> typed_db d -> typed_db d'.
Proof.
  intros [(doc & Hap & Hdoc & cs & Hcs & Hlogs) Hon _ _ _ _ _ Hsame _] Ht.
  set (todo := new_operations d dev ops) in *. destruct (decide (todo = [])) as [E|Hne];
    [by rewrite (Hsame E)|].
  assert (Hd : forall x, note_doc d' o n = Some x -> typed_doc x).
  { rewrite Hdoc. destruct todo as [|op todo]; [done|]. cbn [after_batch]. intros x Hx.
    apply fmap_Some in Hx as (y & Hy & ->). apply next_version_typed.
    eapply apply_ops_typed; [exact Hap| |exact Hy]. intros z Hz. by eapply typed_row_note. }
  assert (Hown : exists row, q.owned_note d' n o = Some row /\ notes d' !! n = Some row).
  { destruct (q.owned_note d' n o) as [row|] eqn:E; [apply owned_note_Some in E as [? _]; eauto|].
    exfalso. unfold note_doc in Hdoc at 1. rewrite E in Hdoc. destruct todo as [|op todo]; [done|].
    cbn in Hap. apply bind_Some in Hap as (x & _ & Hx).
    apply apply_ops_version in Hx as (y & -> & _). done. }
  destruct Hown as (row & Hrow & Hk). unfold note_doc in Hd. rewrite Hrow in Hd.
  destruct (Hd _ eq_refl) as [Hp Hb]. destruct Ht as [H1 H2 H3 H4]. split.
  - intros id m Hm. destruct (decide (id = n)) as [->|Hid].
    + rewrite Hk in Hm. injection Hm as <-. rewrite <- jsonb_param_normalized. exact Hp.
    + rewrite (on_notes _ _ _ Hon) in Hm by done. by eapply H1.
  - intros id b Hm. destruct (decide (db.b_note_id b = n)) as [En|En].
    + apply (Hb id). cbn. rewrite lookup_blocks_of. by rewrite (proj2 (note_block_Some d' id n b) (conj Hm En)).
    + apply (on_blocks _ _ _ Hon) in Hm; [|done]. by eapply H2.
  - by rewrite (on_categories _ _ _ Hon).
  - rewrite Hcs. apply Forall_app. split; [done|]. eapply (logged_known (logs o dev _)); [|exact Hlogs|].
    + by intros op c (_ & _ & _ & _ & ? & _).
    + by eapply apply_ops_known.
Qed.

Lemma categories_done_typed o dev todo d d' :
  categories_done o dev todo d d' -> typed_db d -> typed_db d'.
Proof.
  intros [Hc [Hoc Hn Hb _ _ _ _] _ (cs & Hcs & Hlogs)] [H1 H2 H3 H4].
  apply apply_categories_typed in Hc as [Hc Hk].
  2:{ intros id c Hid. rewrite lookup_categories_of in Hid.
      destruct (categories d !! id) as [r|] eqn:Er; [|done]. cbn in Hid. case_match; [|done].
      injection Hid as <-. cbn. by eapply H3. }
  split; rewrite ?Hn, ?Hb; try done.
  - intros id c Hid. destruct (decide (db.cat_owner_id c = o)) as [Eo|Eo].
    + apply (Hc id (db.cat_name c, is_set (db.cat_deleted_at c))). rewrite lookup_categories_of, Hid.
      cbn. by rewrite (proj2 (N.eqb_eq _ _) Eo).
    + apply Hoc in Hid; [|done]. by eapply H3.
  - rewrite Hcs. apply Forall_app. split; [done|].
    eapply (logged_known (logs_category o dev)); [|exact Hlogs|done].
    by intros op c (_ & _ & _ & _ & _ & ? & _).
Qed.

Lemma same_tables_typed d d' : same_tables d d' -> typed_db d -> typed_db d'.
Proof.
  intros (H1 & H2 & H3 & _ & H5 & _)%same_tables_fields [].
  split; by rewrite <- ?H1, <- ?H2, <- ?H3, <- ?H5.
Qed.

Lemma batches_run_typed o dev groups d d' acc rej :
  batches_run o dev groups d d' acc rej -> typed_db d -> typed_db d'.
Proof.
  induction 1 as [|g gs d d1 d' a acc rej Ha _ _ IH|g gs d d1 d' r acc rej Hs _ _ IH]; intros Ht.
  - done.
  - apply IH. unfold accepted_effect in Ha. destruct (is_nil _).
    + destruct Ha as [Ha _]. by eapply categories_done_typed.
    + by eapply accepted_batch_typed.
  - apply IH. by eapply same_tables_typed.
Qed.

End typing.

(** ** Theorems *)

(** C11: pushing is type safe.  From a database in which every block has a known
    type, the canonical text of a non-negative number as its position, and a
    JSON object as its properties, every note a JSON object as its properties,
    no category a blank name and every log entry a known operation, a push
    leads to such a database again, whatever it answers and also when it is cut
    off in the middle. *)
Theorem pushes_keep_documents_typed {X : External Db} (sv : Service) (o : UUID) (req : Request)
    (w w' : World) (r : res (Response * option SyncAvailableEvent))
    (Hwf : wf (others (w_step w) (w_db w))) (Ht : typed_db (others (w_step w) (w_db w)))
    (Hrun : Sync sv o req w = (w', r)) :
  w' = w \/ typed_db (w_db w').
Proof.
  destruct (Sync_effect _ _ _ _ _ _ Hwf Hrun) as [?|[Hs|(acc & rej & Hb)]]; [by left|right..].
  - eapply same_tables_typed; [|exact Ht]. exact Hs.
  - by eapply batches_run_typed.
Qed.

Lemma demo_db_typed : typed_db demo_db.
Proof. by apply (bool_decide_unpack _); vm_compute. Qed.

Lemma pushes_keep_documents_typed_witness :
  fst mixed_run = demo_world \/ typed_db (w_db (fst mixed_run)).
Proof.
  apply (pushes_keep_documents_typed (X := demo) demo_service alice mixed_request demo_world
    (fst mixed_run) (Ok (fst mixed_response, snd mixed_response)));
    [apply demo_db_wf|apply demo_db_typed|apply mixed_run_eq].
Defined.
