(* ===== verification/PullFacts.v ===== *)
(** * Pages of the change log

    The log as one device sees it, and what one pull reads of it. *)

From stdpp Require Import sorting.
From S2P Require Import Prelude GoText GoFloat Json HttpApi Constants External SyncOperations.
From S2P Require Import Schema Queries DbInvariant Store Frame SyncModels RealtimeMessage.
From S2P Require Import SyncService NoteSpec SyncPush SyncPull SyncFacts BatchRefinement.
From S2P Require Import BatchFacts Replay.

(** The changes other devices of [o] made after cursor [c], oldest first. *)
Definition remote_log (d : Db) (o : UUID) (dev : string) (c : Z) : list db.NoteChange :=
  sort_by q.by_sequence (filter (q.remote_change o c dev) (note_changes d)).

(** A change as the client receives it. *)
Definition pulled (c : db.NoteChange) : PulledChange :=
  let e := store.fromDBChange c in
  mkPulledChange (store.Change_NoteID e) (store.Change_DeviceID e) (store.Change_OperationType e)
    (store.Change_BaseNoteVersion e) (store.Change_ResultingNoteVersion e)
    (store.Change_ChangeFormat e) (store.Change_SchemaVersion e)
    (store.NormalizeJSON (store.Change_ChangeData e)) (store.Change_GlobalSequence e)
    (store.Change_CreatedAt e).

(** A log every entry of which can be sent: its identifiers are valid. *)
Definition sendable (d : Db) : Prop :=
  Forall (fun c => db.ch_id c <> uuid_Nil /\ db.ch_client_operation_id c <> uuid_Nil /\
                   ValidDeviceID (db.ch_device_id c) = true) (note_changes d).

Definition earlier (a b : db.NoteChange) : Prop :=
  db.ch_global_sequence a < db.ch_global_sequence b.

(** The device row after a pull that reached cursor [c]. *)
Definition advanced (v : db.SyncDevice) (c now : Z) : db.SyncDevice :=
  db.mkSyncDevice (db.d_id v) (db.d_owner_id v) (db.d_device_name v) (db.d_platform v)
    (db.d_app_version v) (db.d_protocol_version v) (Z.max (db.d_last_global_cursor v) c) now
    (db.d_created_at v) (db.d_revoked_at v).

(** A registered device of [o] that is not revoked. *)
Definition live_device (d : Db) (o : UUID) (dev : string) (v : db.SyncDevice) : Prop :=
  q.owned_device d dev o = Some v /\ db.d_revoked_at v = None.

(** ** The log in order *)

Lemma by_sequence_total a b : q.by_sequence a b = true \/ q.by_sequence b a = true.
Proof. unfold q.by_sequence. rewrite !Z.leb_le. lia. Qed.

Lemma by_sequence_trans a b c :
  q.by_sequence a b = true -> q.by_sequence b c = true -> q.by_sequence a c = true.
Proof. unfold q.by_sequence. rewrite !Z.leb_le. lia. Qed.

(** Distinct sequence numbers make the order strict. *)
Lemma sorted_strict l :
  StronglySorted (fun a b => q.by_sequence a b = true) l ->
  NoDup (map db.ch_global_sequence l) -> StronglySorted earlier l.
Proof.
  induction 1 as [|a l Hs IH Ha]; cbn; intros Hnd; [constructor|].
  inversion Hnd as [|? ? Hn Hnd']; subst. constructor; [by apply IH|].
  apply Forall_forall. intros b Hb. pose proof (proj1 (Forall_forall _ _) Ha b Hb) as Hle.
  apply Z.leb_le in Hle. unfold earlier.
  assert (db.ch_global_sequence a <> db.ch_global_sequence b).
  { intros Heq. apply Hn. rewrite Heq. by apply list_elem_of_fmap_2. }
  lia.
Qed.

Lemma filter_all {A} (P : A -> Prop) `{forall x, Decision (P x)} l : Forall P l -> filter P l = l.
Proof. induction 1 as [|x l Hx _ IH]; [done|]. by rewrite filter_cons, decide_True, IH. Qed.

Lemma filter_none {A} (P : A -> Prop) `{forall x, Decision (P x)} l :
  Forall (fun x => ~ P x) l -> filter P l = [].
Proof. induction 1 as [|x l Hx _ IH]; [done|]. by rewrite filter_cons, decide_False, IH. Qed.

Lemma filter_sorted {A} (R : A -> A -> Prop) (P : A -> Prop) `{forall x, Decision (P x)} l :
  StronglySorted R l -> StronglySorted R (filter P l).
Proof.
  induction 1 as [|x l _ IH Hx]; [constructor|]. rewrite filter_cons. case_decide; [|done].
  constructor; [done|]. apply Forall_forall. intros y [_ Hy]%list_elem_of_filter.
  by apply (proj1 (Forall_forall _ _) Hx).
Qed.

Lemma NoDup_map_filter {A B} (f : A -> B) (P : A -> Prop) `{forall x, Decision (P x)} l :
  NoDup (map f l) -> NoDup (map f (filter P l)).
Proof.
  induction l as [|x l IH]; intros Hnd; [constructor|].
  inversion Hnd as [|? ? Hn Hnd']; subst. rewrite filter_cons. case_decide; [|by apply IH].
  cbn. constructor; [|by apply IH]. intros (y & Hy & Hin)%list_elem_of_fmap. apply Hn.
  rewrite Hy. apply list_elem_of_filter in Hin as [_ Hin]. by apply list_elem_of_fmap_2.
Qed.

Lemma remote_log_strict d o dev c : wf d -> StronglySorted earlier (remote_log d o dev c).
Proof.
  intros Hw. apply sorted_strict.
  - apply sort_by_sorted; [apply by_sequence_total|apply by_sequence_trans].
  - unfold remote_log. rewrite sort_by_perm. by apply NoDup_map_filter, wf_log_seqs.
Qed.

Lemma elem_of_remote_log d o dev c x :
  x ∈ remote_log d o dev c <-> q.remote_change o c dev x /\ x ∈ note_changes d.
Proof. unfold remote_log. by rewrite elem_of_sort_by, list_elem_of_filter. Qed.

Lemma earlier_antisym : AntiSymm (=) earlier.
Proof. intros a b H1 H2. unfold earlier in *. lia. Qed.

(** From a later cursor on, the log is the rest of it. *)
Lemma remote_log_later d o dev c c' :
  wf d -> c <= c' ->
  remote_log d o dev c' = filter (fun x => c' < db.ch_global_sequence x) (remote_log d o dev c).
Proof.
  intros Hw Hle. pose proof earlier_antisym as Has.
  apply (StronglySorted_unique earlier).
  - by apply remote_log_strict.
  - apply filter_sorted. by apply remote_log_strict.
  - unfold remote_log. rewrite !sort_by_perm, list_filter_filter.
    apply reflexive_eq, list_filter_iff. intros x. unfold q.remote_change. intuition lia.
Qed.

Lemma filter_later_drop l k c :
  StronglySorted earlier l ->
  Forall (fun x => db.ch_global_sequence x <= c) (take k l) ->
  Forall (fun x => c < db.ch_global_sequence x) (drop k l) ->
  filter (fun x => c < db.ch_global_sequence x) l = drop k l.
Proof.
  intros _ H1 H2. rewrite <- (take_drop k l) at 1. rewrite filter_app.
  rewrite (filter_all _ (drop k l)) by done.
  replace (filter _ (take k l)) with (@nil db.NoteChange); [done|]. symmetry.
  apply filter_none. eapply Forall_impl; [exact H1|]. cbn. lia.
Qed.

(** The cursor of a page: its last sequence number. *)
Lemma nextCursor_page l k c :
  StronglySorted earlier l -> Forall (fun x => c < db.ch_global_sequence x) l ->
  (0 < k)%nat -> (k < length l)%nat ->
  Forall (fun x => nextCursor c (map pulled (take k l)) < db.ch_global_sequence x) (drop k l).
Proof.
  intros Hs Hc Hk Hl.
  destruct (nextCursor_spec c (map pulled (take k l))) as (_ & [Heq|(p & Hp & Heq)] & _).
  - rewrite Heq. by apply Forall_drop.
  - rewrite <- Heq. apply list_elem_of_fmap in Hp as (x & -> & Hx). cbn.
    rewrite <- (take_drop k l) in Hs. apply StronglySorted_app in Hs as (Hlt & _ & _).
    apply Forall_forall. intros y Hy. by apply Hlt.
Qed.

(** ** One pull *)

Lemma FromEntity_pulled c p :
  PulledChange_FromEntity (store.fromDBChange c) = Ok p -> p = pulled c.
Proof. unfold PulledChange_FromEntity. by case_match; [|intros [= <-]]. Qed.

Lemma traverse_pulled l ps :
  traverse PulledChange_FromEntity (map store.fromDBChange l) = Ok ps -> ps = map pulled l.
Proof.
  intros H%traverse_Ok. rewrite Forall2_fmap_l in H.
  induction H as [|c p l ps Hc _ IH]; [done|]. cbn. by rewrite (FromEntity_pulled c p Hc), IH.
Qed.

Lemma FromEntity_sendable c :
  db.ch_id c <> uuid_Nil -> db.ch_client_operation_id c <> uuid_Nil ->
  ValidDeviceID (db.ch_device_id c) = true ->
  PulledChange_FromEntity (store.fromDBChange c) = Ok (pulled c).
Proof.
  intros H1%is_nil_false H2%is_nil_false H3. unfold PulledChange_FromEntity.
  cbn -[is_nil ValidDeviceID]. by rewrite H1, H2, H3.
Qed.

Lemma sendable_traverse l :
  Forall (fun c => db.ch_id c <> uuid_Nil /\ db.ch_client_operation_id c <> uuid_Nil /\
                   ValidDeviceID (db.ch_device_id c) = true) l ->
  traverse PulledChange_FromEntity (map store.fromDBChange l) = Ok (map pulled l).
Proof.
  induction 1 as [|c l (H1 & H2 & H3) _ IH]; [done|]. cbn [traverse map].
  rewrite FromEntity_sendable by done. cbn -[traverse]. by rewrite IH.
Qed.

(** Fetching one row more than the page tells whether there are more. *)
Lemma page_of {A} limit (l : list A) :
  0 <= limit < 2 ^ 31 - 1 ->
  page limit (take (Z.to_nat (wrap32 (limit + 1))) l)
  = Ok (take (Z.to_nat limit) l, limit <? Z.of_nat (length l)).
Proof.
  intros Hl. rewrite (wrap32_id (limit + 1)) by lia. unfold page.
  assert (Hlen : length (take (Z.to_nat (limit + 1)) l)
    = (Z.to_nat (limit + 1) `min` length l)%nat) by apply length_take.
  rewrite (wrap32_id (Z.of_nat _)) by lia. rewrite Hlen.
  destruct (Z.ltb_spec limit (Z.of_nat (length l))).
  - replace (limit <? _) with true by (symmetry; apply Z.ltb_lt; lia).
    replace (limit <? 0) with false by (symmetry; apply Z.ltb_ge; lia).
    rewrite take_take. by replace (Z.to_nat limit `min` Z.to_nat (limit + 1))%nat
      with (Z.to_nat limit) by lia.
  - replace (limit <? _) with false by (symmetry; apply Z.ltb_ge; lia).
    rewrite !take_ge by lia. done.
Qed.

Lemma page_map {A B} (f : A -> B) limit l :
  page limit (map f l) = '(p, more) ← page limit l; Ok (map f p, more).
Proof.
  unfold page. rewrite length_map. repeat case_match; cbn; rewrite ?firstn_map; done.
Qed.

(** The response of a pull on log [d]. *)
Definition pull_response (sv : Service) (d : Db) (o : UUID) (dev : string) (c : Z)
    : PullResponse :=
  let log := remote_log d o dev c in
  let changes := map pulled (take (Z.to_nat (pull_limit sv)) log) in
  mkPullResponse changes (pull_limit sv <? Z.of_nat (length log)) (nextCursor c changes).

Section pulls.
Context {X : External Db}.

Lemma GetDevice_Ok dev o w w' a :
  store.GetDeviceForOwnerForUpdate Tx dev o w = (w', a) -> forall v, check_device a = Ok v ->
  exists row, live_device (w_db w) o dev row /\ w_db w' = w_db w.
Proof.
  intros H v Hc. destruct a as [e|e]; cbn in Hc; [|by destruct (store.is_not_found e)].
  apply mapped_Ok in H as (row & Hran & ->).
  apply (ran_one (fun d => q.owned_device d dev o)) in Hran as [Hd Hrow]; [|done].
  exists row. split; [|done]. split; [done|]. cbn in Hc. by destruct (db.d_revoked_at row).
Qed.

Lemma pull_tx_Ok sv o req w w' resp :
  0 <= pull_limit sv < 2 ^ 31 - 1 -> pull_tx sv o req Tx w = (w', Ok resp) ->
  let d := w_db w in
  resp = pull_response sv d o (Pull_DeviceID req) (Pull_Cursor req) /\
  exists v, live_device d o (Pull_DeviceID req) v /\
    w_db w' = set_devices <[Pull_DeviceID req := advanced v (PR_NextCursor resp) (w_now w)]> d.
Proof.
  intros Hl H. unfold pull_tx in H. m_inv H. apply lift_Ok in Hrun0 as [-> Hdev].
  destruct (GetDevice_Ok _ _ _ _ _ Hrun _ Hdev) as (v & Hlive & Hd).
  assert (Hnow : w_now w0 = w_now w).
  { destruct a as [e|e]; cbn in Hdev; [|by destruct (store.is_not_found e)].
    apply mapped_Ok in Hrun as (row & (_ & _ & d & _ & ->) & _). done. }
  clear Hrun. apply lift_Ok in Hrun2 as [-> Hp]. unfold store.GetChangesAfterCursor in Hrun1.
  m_inv Hrun1. injection Hrun1 as -> <-. apply exec_tx_Ok in Hrun as (_ & _ & d & Hq & ->).
  unfold q.GetChangesAfterCursor in Hq. rewrite Hd in Hq.
  destruct (wrap32 (pull_limit sv + 1) <? 0); [done|]. injection Hq as <- <-.
  fold (remote_log (w_db w) o (Pull_DeviceID req) (Pull_Cursor req)) in Hp.
  rewrite page_map, page_of in Hp by done. cbn in Hp. injection Hp as <-.
  cbv zeta beta iota in H. m_inv H.
  apply lift_Ok in Hrun as [-> Ht]. apply traverse_pulled in Ht as ->. injection H as -> <-.
  split; [done|]. exists v. split; [done|].
  apply exec_tx_Ok in Hrun0 as (_ & _ & d & Hq & ->). cbn in Hq.
  unfold q.UpdateDeviceCursor in Hq. destruct Hlive as [Hv _]. rewrite Hv in Hq.
  injection Hq as <- _. cbn. by rewrite Hnow.
Qed.

Lemma Pull_Ok sv o req w w' resp :
  0 <= pull_limit sv < 2 ^ 31 - 1 -> Pull sv o req w = (w', Ok resp) ->
  let d := others (w_step w) (w_db w) in
  resp = pull_response sv d o (Pull_DeviceID req) (Pull_Cursor req) /\
  exists v, live_device d o (Pull_DeviceID req) v /\
    w_db w' = set_devices
      <[Pull_DeviceID req := advanced v (PR_NextCursor resp) (clock (w_step w))]> d.
Proof.
  intros Hl H. unfold Pull in H. m_inv H. apply lift_Ok in Hrun as [-> _].
  rewrite WithTx_Pool in H. destruct (round_trip (w_step w)); [|done..]. cbv zeta in H.
  destruct (pull_tx sv o req Tx (begin_world w)) as [w2 [r|e]] eqn:E; [|done].
  destruct (w_tx w2); [|done..]. destruct (round_trip (w_step w2)); [|done..].
  injection H as <- ->. by apply pull_tx_Ok in E.
Qed.

(** ** Pulls that succeed *)

Context `{!Reliable X}.

Lemma pull_tx_runs sv o req w v :
  0 <= pull_limit sv < 2 ^ 31 - 1 -> w_tx w = TxActive ->
  live_device (w_db w) o (Pull_DeviceID req) v -> sendable (w_db w) ->
  exists w' resp, pull_tx sv o req Tx w = (w', Ok resp) /\ w_tx w' = TxActive.
Proof using All.
  intros Hl Ht [Hv Hr] Hs. unfold pull_tx. set (dev := Pull_DeviceID req) in *.
  set (log := remote_log (w_db w) o dev (Pull_Cursor req)).
  erewrite M_bind_run.
  2:{ apply attempt_run. unfold store.GetDeviceForOwnerForUpdate.
      apply (reliable_read (fun d => q.owned_device d dev o)); done. }
  rewrite Hv. erewrite M_bind_run.
  2:{ unfold lift. cbn. rewrite Hr. reflexivity. }
  cbv zeta. erewrite M_bind_run.
  2:{ unfold store.GetChangesAfterCursor. erewrite M_bind_run; [reflexivity|].
      apply exec_tx_run; [done|apply always_runs|]. cbn. unfold q.GetChangesAfterCursor.
      fold log. rewrite (proj2 (Z.ltb_ge _ _)); [reflexivity|]. rewrite wrap32_id; lia. }
  erewrite M_bind_run.
  2:{ unfold lift. rewrite page_map, page_of by done. reflexivity. }
  cbv beta iota. erewrite M_bind_run.
  2:{ unfold lift. rewrite sendable_traverse; [reflexivity|].
      apply Forall_take, Forall_forall. intros c [_ Hc]%elem_of_remote_log.
      by apply (proj1 (Forall_forall _ _) Hs). }
  erewrite M_bind_run.
  2:{ apply exec_tx_run; [done|apply always_runs|]. cbn. unfold q.UpdateDeviceCursor.
      fold dev. rewrite Hv. reflexivity. }
  by eexists _, _.
Qed.

(** A pull of a live device succeeds when the database answers. *)
Lemma Pull_runs sv o req w v :
  0 <= pull_limit sv < 2 ^ 31 - 1 -> PullRequest_Validate req = Ok tt ->
  live_device (others (w_step w) (w_db w)) o (Pull_DeviceID req) v ->
  sendable (others (w_step w) (w_db w)) ->
  exists w' resp, Pull sv o req w = (w', Ok resp).
Proof using All.
  intros Hl Hv Hd Hs. unfold Pull. erewrite M_bind_run; [|by unfold lift; rewrite Hv].
  rewrite WithTx_Pool, always_runs. cbv zeta.
  destruct (pull_tx_runs sv o req (begin_world w) v) as (w2 & resp & -> & Ht); try done.
  rewrite Ht, always_runs. by eexists _, _.
Qed.

End pulls.
