(* ===== verification/PullTheorems.v ===== *)
(** * What a pull guarantees

    A pull returns the next page of what other devices did, in order, and a
    client that keeps pulling receives all of it; the device's cursor only
    moves forward.  The same facts show what the cursor cannot do: a change
    whose sequence number was handed out before, and which is committed after,
    the change a client has already seen is never delivered to it. *)

From S2P Require Import Prelude GoText GoFloat Json HttpApi Constants External SyncOperations.
From S2P Require Import Schema Queries DbInvariant Store Frame SyncModels RealtimeMessage.
From S2P Require Import SyncService NoteSpec Demo SyncPush SyncPull SyncFacts BatchRefinement.
From S2P Require Import BatchFacts Replay PullFacts.

Definition pull_request (dev : string) (c : Z) : PullRequest :=
  mkPullRequest ProtocolVersion EmptyString dev c.

(** A client that pulls until there is no more. *)
Fixpoint pull_all {X : External Db} (fuel : nat) (sv : Service) (o : UUID) (dev : string) (c : Z)
    : M (list PulledChange) :=
  match fuel with
  | O => fail ErrPanic
  | S fuel =>
      resp ← Pull sv o (pull_request dev c);
      if PR_HasMore resp then
        rest ← pull_all fuel sv o dev (PR_NextCursor resp);
        mret (PR_Changes resp ++ rest)
      else mret (PR_Changes resp)
  end.

(** A device pulls again and again, from cursor to cursor, each time from the
    database of that moment; between two pulls others may have written. *)
Inductive pulls {X : External Db} (sv : Service) (o : UUID) (dev : string)
    : Z -> list (Db * PullResponse) -> Z -> Prop :=
| pulls_none c : pulls sv o dev c [] c
| pulls_next c w w' resp h c' :
    wf (others (w_step w) (w_db w)) ->
    Pull sv o (pull_request dev c) w = (w', Ok resp) ->
    pulls sv o dev (PR_NextCursor resp) h c' ->
    pulls sv o dev c ((others (w_step w) (w_db w), resp) :: h) c'.

(** The last pull told that there was no more. *)
Definition caught_up (h : list (Db * PullResponse)) : Prop :=
  exists d resp, last h = Some (d, resp) /\ PR_HasMore resp = false.

Definition delivered (row : db.NoteChange) (h : list (Db * PullResponse)) : Prop :=
  exists d resp, (d, resp) ∈ h /\ pulled row ∈ PR_Changes resp.

(** A row committed under a sequence number handed out earlier. *)
Definition late_commit (row : db.NoteChange) (d : Db) : Db :=
  mkDb (categories d) (notes d) (note_blocks d) (sync_devices d) (note_changes d ++ [row])
    (note_snapshots d) (outbox_jobs d) (file_uploads d) (change_seq d) (job_seq d) (upload_seq d).

(** A database a client can pull from. *)
Record pullable (d : Db) (o : UUID) (dev : string) : Prop := mkPullable {
  pb_wf : wf d;
  pb_sendable : sendable d;
  pb_device : exists v, live_device d o dev v
}.

(** ** The example databases *)

(** The laptop's changes, pulled by the phone two at a time. *)
Definition demo_change (id op : UUID) (seq : Z) : db.NoteChange :=
  db.mkNoteChange id alice (Some note1) None laptop op OperationModifyNoteTitle 3 4
    ChangeFormatStructuredV1 1 empty_object seq 1.

Definition log_db (changes : list db.NoteChange) (seq : Z) : Db :=
  mkDb (categories demo_db) (notes demo_db) (note_blocks demo_db) (sync_devices demo_db) changes
    (note_snapshots demo_db) (outbox_jobs demo_db) (file_uploads demo_db) seq 0 0.

Definition three_changes : Db :=
  log_db [demo_change 71 81 1; demo_change 72 82 2; demo_change 73 83 3] 3.

Definition pull_world : World := mkWorld three_changes 0 0 TxActive 1 0.

Definition pull_run : World * res PullResponse :=
  Pull (X := demo) demo_service alice (pull_request phone 0) pull_world.

Definition pulled_page : PullResponse := pull_response demo_service three_changes alice phone 0.

(** Number 1 is handed out but not committed; number 2 is committed. *)
Definition early_db : Db := log_db [demo_change 72 82 2] 2.
Definition late_row : db.NoteChange := demo_change 71 81 1.
Definition late_db : Db := late_commit late_row early_db.

Definition pull_at (d : Db) (c : Z) : World * res PullResponse :=
  Pull (X := demo) demo_service alice (pull_request phone c) (mkWorld d 0 0 TxActive 1 0).

(** ** Lemmas *)

Lemma owned_device_insert d dev o v :
  db.d_owner_id v = o -> q.owned_device (set_devices <[dev := v]> d) dev o = Some v.
Proof.
  intros <-. unfold q.owned_device. cbn. rewrite lookup_insert_eq. cbn. by rewrite N.eqb_refl.
Qed.

Lemma pullable_advanced d o dev v c now :
  pullable d o dev -> live_device d o dev v ->
  pullable (set_devices <[dev := advanced v c now]> d) o dev.
Proof.
  intros [Hw Hs _] [Hv Hr]. apply owned_device_Some in Hv as [Hk Ho]. split.
  - apply wf_insert_device; [done|]. cbn. exact (wf_device_key _ Hw _ _ Hk).
  - done.
  - exists (advanced v c now). split; [by apply owned_device_insert|done].
Qed.

Lemma pull_request_valid dev c :
  dev <> EmptyString -> ValidDeviceID dev = true -> 0 <= c ->
  PullRequest_Validate (pull_request dev c) = Ok tt.
Proof.
  intros He Hv Hc. unfold PullRequest_Validate, pull_request, validate_device_id. cbn -[ValidDeviceID].
  rewrite (proj2 (String.eqb_neq _ _) He), Hv. cbn. by rewrite (proj2 (Z.ltb_ge _ _) Hc).
Qed.

(** The rest of the log after a page that was not the last. *)
Lemma remote_log_next d o dev c k :
  wf d -> (0 < k)%nat -> (k < length (remote_log d o dev c))%nat ->
  remote_log d o dev (nextCursor c (map pulled (take k (remote_log d o dev c))))
  = drop k (remote_log d o dev c).
Proof.
  intros Hw Hk Hl. set (log := remote_log d o dev c) in *.
  destruct (nextCursor_spec c (map pulled (take k log))) as (Hle & _ & Hub).
  rewrite (remote_log_later d o dev c) by done. fold log. apply filter_later_drop.
  - by apply remote_log_strict.
  - rewrite Forall_fmap in Hub. exact Hub.
  - apply nextCursor_page; [by apply remote_log_strict| |done|done].
    apply Forall_forall. intros x [(_ & Hx & _) _]%elem_of_remote_log. done.
Qed.

Lemma pull_all_complete {X : External Db} {HR : Reliable X} {HA : Alone X} sv o dev fuel c w :
  0 < pull_limit sv < 2 ^ 31 - 1 -> dev <> EmptyString -> ValidDeviceID dev = true -> 0 <= c ->
  pullable (w_db w) o dev -> (length (remote_log (w_db w) o dev c) < fuel)%nat ->
  exists w', pull_all fuel sv o dev c w = (w', Ok (map pulled (remote_log (w_db w) o dev c))).
Proof.
  intros Hl He Hv. revert c w. induction fuel as [|fuel IH]; intros c w Hc Hp Hf; [lia|].
  pose proof Hp as [Hw Hs [v Hd]]. cbn [pull_all].
  destruct (Pull_runs sv o (pull_request dev c) w v) as (w1 & resp & Hrun);
    [lia|by apply pull_request_valid|by rewrite nobody_else|by rewrite nobody_else|].
  erewrite M_bind_run by exact Hrun.
  apply Pull_Ok in Hrun as (-> & v' & Hd' & Hw1); [|lia]. rewrite nobody_else in *.
  cbn [pull_request Pull_DeviceID Pull_Cursor] in *. unfold pull_response at 1.
  cbn [PR_HasMore]. destruct (Z.ltb_spec (pull_limit sv) (Z.of_nat (length (remote_log (w_db w) o dev c)))).
  - set (next := PR_NextCursor _) in *.
    assert (Hlog : remote_log (w_db w1) o dev next
      = drop (Z.to_nat (pull_limit sv)) (remote_log (w_db w) o dev c)).
    { rewrite Hw1. change (remote_log (w_db w) o dev next
        = drop (Z.to_nat (pull_limit sv)) (remote_log (w_db w) o dev c)).
      apply remote_log_next; [done|lia|lia]. }
    destruct (IH next w1) as (w' & Hall).
    + subst next. cbn. pose proof (nextCursor_spec c (map pulled
        (take (Z.to_nat (pull_limit sv)) (remote_log (w_db w) o dev c)))) as (? & _). lia.
    + rewrite Hw1. by apply pullable_advanced.
    + rewrite Hlog, length_drop. lia.
    + erewrite M_bind_run by exact Hall. exists w'. rewrite Hlog. cbn [mret M_ret PR_Changes pull_response].
      unfold mret, M_ret. do 2 f_equal. by rewrite <- map_app, take_drop.
  - exists w1. unfold mret, M_ret. do 2 f_equal. cbn. by rewrite take_ge by lia.
Qed.

Lemma wf_late_commit d row :
  wf d -> 0 < db.ch_global_sequence row <= change_seq d ->
  db.ch_global_sequence row ∉ map db.ch_global_sequence (note_changes d) ->
  operation_key row ∉ map operation_key (note_changes d) ->
  db.ch_id row ∉ map db.ch_id (note_changes d) ->
  q.references (notes d) (db.ch_note_id row) = true ->
  is_Some (sync_devices d !! db.ch_device_id row) -> wf (late_commit row d).
Proof.
  intros [] Hr Hs Hk Hi Hn Hd.
  assert (Hsnoc : forall {A} (f : db.NoteChange -> A), f row ∉ map f (note_changes d) ->
    NoDup (map f (note_changes d)) -> NoDup (map f (note_changes d ++ [row]))).
  { intros A f Hf Hnd. rewrite map_app. apply NoDup_app. split_and!; [done| |apply NoDup_singleton].
    intros x Hx ->%list_elem_of_singleton. done. }
  split; cbn; try done; try (by apply Hsnoc); rewrite Forall_app, Forall_singleton; done.
Qed.

(** What a pull sends is in its page of the log. *)
Lemma page_rows sv d o dev c row :
  pulled row ∈ PR_Changes (pull_response sv d o dev c) ->
  exists x, x ∈ note_changes d /\ c < db.ch_global_sequence x /\ pulled row = pulled x.
Proof.
  intros (x & Hx & Hin)%list_elem_of_fmap. exists x.
  apply elem_of_take in Hin as (i & Hi & _). apply list_elem_of_lookup_2 in Hi.
  by apply elem_of_remote_log in Hi as [(_ & Hi & _) Hin].
Qed.

Lemma pulls_cursor {X : External Db} sv o dev c h c' :
  0 <= pull_limit sv < 2 ^ 31 - 1 -> pulls sv o dev c h c' ->
  forall row, delivered row h -> exists d x, d ∈ map fst h /\ x ∈ note_changes d /\
    c < db.ch_global_sequence x /\ pulled row = pulled x.
Proof.
  intros Hl. induction 1 as [c|c w w' resp h c' Hw Hp Hh IH]; intros row (d & r & Hin & Hrow);
    [by apply not_elem_of_nil in Hin|].
  destruct (Pull_Ok _ _ _ _ _ _ Hl Hp) as (E & _). cbn [pull_request Pull_DeviceID Pull_Cursor] in E.
  apply elem_of_cons in Hin as [[= -> ->]|Hin].
  - rewrite E in Hrow. apply page_rows in Hrow as (x & Hx & Hc & Hr).
    eexists _, x. split; [by left|done].
  - destruct (IH row) as (d' & x & Hd & Hx & Hc & Hr); [by exists d, r|].
    exists d', x. split; [by right|]. split_and!; [done| |done].
    rewrite E in Hc. cbn in Hc.
    pose proof (nextCursor_spec c (map pulled (take (Z.to_nat (pull_limit sv))
      (remote_log (others (w_step w) (w_db w)) o dev c)))) as (? & _). lia.
Qed.

(** A change in the log beyond the cursor is sent before the client has caught up. *)
Lemma pulls_deliver {X : External Db} sv o dev c h c' row :
  0 <= pull_limit sv < 2 ^ 31 - 1 -> pulls sv o dev c h c' -> caught_up h ->
  Forall (fun e => row ∈ note_changes e.1) h -> db.ch_owner_id row = o -> db.ch_device_id row <> dev ->
  c < db.ch_global_sequence row -> delivered row h.
Proof.
  intros Hl H Hup Hall Ho Hdev. revert Hup Hall.
  induction H as [c|c w w' resp h c' Hw Hp Hh IH]; intros Hup Hall Hc; [by destruct Hup as (? & ? & ? & _)|].
  apply Forall_cons in Hall as [Hrow Hall]. cbn in Hrow.
  destruct (Pull_Ok _ _ _ _ _ _ Hl Hp) as (E & _). cbn [pull_request Pull_DeviceID Pull_Cursor] in E.
  set (d := others (w_step w) (w_db w)) in *. set (log := remote_log d o dev c).
  set (k := Z.to_nat (pull_limit sv)).
  assert (Hin : row ∈ log) by (by apply elem_of_remote_log).
  rewrite <- (take_drop k log) in Hin. apply elem_of_app in Hin as [Hin|Hin].
  { exists d, resp. split; [left|]. rewrite E. cbn. by apply list_elem_of_fmap_2. }
  assert (Hlen : (k < length log)%nat).
  { apply list_elem_of_lookup in Hin as (i & Hi%lookup_lt_Some). rewrite length_drop in Hi. lia. }
  assert (Hnext : PR_NextCursor resp < db.ch_global_sequence row).
  { rewrite E. cbn. fold d log k. destruct (decide (k = 0%nat)) as [->|Hk]; [done|].
    assert (Hf : Forall (fun x => c < db.ch_global_sequence x) log)
      by (apply Forall_forall; by intros x [(_ & Hx & _) _]%elem_of_remote_log).
    pose proof (nextCursor_page log k c (remote_log_strict d o dev c Hw) Hf ltac:(lia) Hlen) as Hp2.
    by apply (proj1 (Forall_forall _ _) Hp2). }
  destruct (IH) as (d2 & r2 & Hin2 & Hr2); [|done|done|exists d2, r2; by split; [right|]].
  destruct Hup as (d2 & r2 & Hlast & Hmore). destruct h as [|e h]; [|by exists d2, r2].
  cbn in Hlast. injection Hlast as <- <-. rewrite E in Hmore. cbn in Hmore.
  fold d log in Hmore. apply Z.ltb_ge in Hmore. lia.
Qed.

(** Sequence numbers tell changes of a log apart. *)
Lemma same_sequence d x y :
  wf d -> x ∈ note_changes d -> y ∈ note_changes d ->
  db.ch_global_sequence x = db.ch_global_sequence y -> x = y.
Proof.
  intros Hw (i & Hi)%list_elem_of_lookup (j & Hj)%list_elem_of_lookup Heq.
  assert (i = j) as ->; [|congruence].
  eapply (NoDup_lookup _ _ _ _ (wf_log_seqs _ Hw)); rewrite list_lookup_fmap.
  - by rewrite Hi.
  - by rewrite Hj, Heq.
Qed.

(** ** Properties *)

(** C7: a successful pull returns the first page of the changes other devices
    of the caller made after the cursor, in increasing sequence order, tells
    whether there are more, moves the cursor to the last change returned, and
    writes nothing but the device's cursor, which never moves back. *)
Theorem pull_returns_next_page {X : External Db} (sv : Service) (o : UUID) (req : PullRequest)
    (w w' : World) (resp : PullResponse) (Hlimit : 0 <= pull_limit sv < 2 ^ 31 - 1)
    (Hwf : wf (others (w_step w) (w_db w))) (Hrun : Pull sv o req w = (w', Ok resp)) :
  let d := others (w_step w) (w_db w) in
  let log := remote_log d o (Pull_DeviceID req) (Pull_Cursor req) in
  StronglySorted earlier log /\
  PR_Changes resp = map pulled (take (Z.to_nat (pull_limit sv)) log) /\
  PR_HasMore resp = (pull_limit sv <? Z.of_nat (length log)) /\
  PR_NextCursor resp = nextCursor (Pull_Cursor req) (PR_Changes resp) /\
  exists v, live_device d o (Pull_DeviceID req) v /\
    w_db w' = set_devices
      <[Pull_DeviceID req := advanced v (PR_NextCursor resp) (clock (w_step w))]> d.
Proof.
  destruct (Pull_Ok _ _ _ _ _ _ Hlimit Hrun) as (-> & Hv). cbv zeta.
  split; [by apply remote_log_strict|]. by split_and!.
Qed.

Lemma three_changes_wf : wf three_changes.
Proof.
  assert (Hw : wf (log_db [] 3)) by (apply (wf_sequences demo_db 3 0 0 demo_db_wf); cbn; lia).
  apply (wf_late_commit (log_db [demo_change 71 81 1; demo_change 72 82 2] 3));
    [apply (wf_late_commit (log_db [demo_change 71 81 1] 3));
      [apply (wf_late_commit (log_db [] 3)); [done|..]|..]|..];
    try (cbn; lia); try (by apply bool_decide_eq_true; vm_compute);
    try (by eexists); apply (bool_decide_unpack _); by vm_compute.
Qed.

Lemma pull_returns_next_page_witness :
  let log := remote_log three_changes alice phone 0 in
  StronglySorted earlier log /\
  PR_Changes pulled_page = map pulled (take (Z.to_nat (pull_limit demo_service)) log) /\
  PR_HasMore pulled_page = (pull_limit demo_service <? Z.of_nat (length log)) /\
  PR_NextCursor pulled_page = nextCursor 0 (PR_Changes pulled_page) /\
  exists v, live_device three_changes alice phone v /\
    w_db (fst pull_run) = set_devices <[phone := advanced v (PR_NextCursor pulled_page) 1]> three_changes.
Proof.
  apply (pull_returns_next_page (X := demo) demo_service alice (pull_request phone 0) pull_world
    (fst pull_run) pulled_page);
    [vm_compute; split; [discriminate|reflexivity]|apply three_changes_wf|vm_compute; reflexivity].
Defined.

(** C8: a client that keeps pulling from any cursor receives, after finitely
    many pulls, exactly the changes other devices of its owner have made after
    that cursor, each once and in order, when the database answers and nobody
    else writes. *)
Theorem pulling_delivers_everything {X : External Db} {HR : Reliable X} {HA : Alone X}
    (sv : Service) (o : UUID) (dev : string) (c : Z) (w : World)
    (Hlimit : 0 < pull_limit sv < 2 ^ 31 - 1) (Hdev : dev <> EmptyString)
    (Hvalid : ValidDeviceID dev = true) (Hc : 0 <= c) (Hdb : pullable (w_db w) o dev) :
  let log := remote_log (w_db w) o dev c in
  exists w', pull_all (S (length log)) sv o dev c w = (w', Ok (map pulled log)).
Proof. by apply pull_all_complete; try done; lia. Qed.

Lemma three_changes_pullable : pullable three_changes alice phone.
Proof.
  split; [apply three_changes_wf| |by eexists].
  by repeat constructor.
Qed.

Lemma pulling_delivers_everything_witness :
  let log := remote_log three_changes alice phone 0 in
  exists w', pull_all (X := demo) (S (length log)) demo_service alice phone 0 pull_world
    = (w', Ok (map pulled log)).
Proof.
  apply (pulling_delivers_everything (X := demo) (HR := demo_reliable _) (HA := demo_alone _)
    demo_service alice phone 0 pull_world);
    [vm_compute; split; reflexivity|discriminate|reflexivity|lia|apply three_changes_pullable].
Defined.

(** C14: sequence numbers are drawn at insertion, and a change that commits
    between two pulls of a device is missed or not by its number: let the device
    have pulled up to cursor [c2] from databases without the change, and then
    from databases that hold it until it has caught up.  Then it has received the
    change exactly when its sequence number exceeds [c2]; a change that drew a
    smaller number and committed late is never received. *)
Theorem late_commit_is_never_pulled {X : External Db} (sv : Service) (o : UUID) (dev : string)
    (c1 c2 c3 : Z) (before after : list (Db * PullResponse)) (d : Db) (row : db.NoteChange)
    (Hlimit : 0 <= pull_limit sv < 2 ^ 31 - 1)
    (Hbefore : pulls sv o dev c1 before c2) (Hafter : pulls sv o dev c2 after c3)
    (Hup : caught_up after) (Hwf : wf d)
    (Hgrow : Forall (fun e => note_changes e.1 ⊆ note_changes d) (before ++ after))
    (Hmissing : Forall (fun e => row ∉ note_changes e.1) before)
    (Hcommitted : Forall (fun e => row ∈ note_changes e.1) after)
    (Howner : db.ch_owner_id row = o) (Hdevice : db.ch_device_id row <> dev) :
  delivered row (before ++ after) <-> c2 < db.ch_global_sequence row.
Proof.
  assert (Hrow : row ∈ note_changes d).
  { destruct Hup as (d2 & r2 & Hin%last_Some_elem_of & _).
    apply (proj1 (Forall_forall _ _) Hgrow (d2, r2)); [by apply elem_of_app; right|].
    by apply (proj1 (Forall_forall _ _) Hcommitted (d2, r2)). }
  split.
  - intros (d1 & r & [Hin|Hin]%elem_of_app & Hr).
    + destruct (pulls_cursor _ _ _ _ _ _ Hlimit Hbefore row) as (d2 & x & Hd2 & Hx & _ & Heq);
        [by exists d1, r|].
      exfalso. apply list_elem_of_fmap in Hd2 as ([d3 r3] & -> & Hin3). cbn in Hx.
      apply (proj1 (Forall_forall _ _) Hmissing _ Hin3). cbn.
      enough (row = x) as -> by done.
      apply (same_sequence d); [done|done| |by apply (f_equal PC_GlobalSequence) in Heq].
      apply (proj1 (Forall_forall _ _) Hgrow (d3, r3)); [by apply elem_of_app; left|done].
    + destruct (pulls_cursor _ _ _ _ _ _ Hlimit Hafter row) as (d2 & x & _ & _ & Hc & Heq);
        [by exists d1, r|]. apply (f_equal PC_GlobalSequence) in Heq. cbn in Heq. lia.
  - intros Hc. destruct (pulls_deliver sv o dev c2 after c3 row) as (d1 & r & Hin & Hr); try done.
    exists d1, r. split; [by apply elem_of_app; right|done].
Qed.

Lemma late_dbs_wf : wf early_db /\ wf late_db.
Proof.
  assert (H0 : wf (log_db [] 2)) by (apply (wf_sequences demo_db 2 0 0 demo_db_wf); cbn; lia).
  assert (H1 : wf early_db).
  { apply (wf_late_commit (log_db [] 2)); [done|..]; try (cbn; lia); try (by eexists);
      apply (bool_decide_unpack _); by vm_compute. }
  split; [done|]. apply (wf_late_commit early_db); [done|..]; try (cbn; lia); try (by eexists);
    apply (bool_decide_unpack _); by vm_compute.
Qed.

(** Before the late commit the phone receives change 2; after it, pulling from
    the cursor it got, it receives nothing, though change 1 is there. *)
Lemma late_commit_is_never_pulled_witness :
  ~ delivered late_row ([(early_db, pull_response demo_service early_db alice phone 0)]
      ++ [(late_db, pull_response demo_service late_db alice phone 2)]).
Proof.
  destruct late_dbs_wf as [H1 H2]. intros H.
  apply (late_commit_is_never_pulled (X := demo) demo_service alice phone 0 2 2
    [(early_db, pull_response demo_service early_db alice phone 0)]
    [(late_db, pull_response demo_service late_db alice phone 2)] late_db late_row) in H.
  - cbn in H. lia.
  - vm_compute. split; [discriminate|reflexivity].
  - apply (pulls_next (X := demo) demo_service alice phone 0 (mkWorld early_db 0 0 TxActive 1 0)
      (fst (pull_at early_db 0)) (pull_response demo_service early_db alice phone 0) [] 2 H1);
      [vm_compute; reflexivity|apply pulls_none].
  - apply (pulls_next (X := demo) demo_service alice phone 2 (mkWorld late_db 0 0 TxActive 1 0)
      (fst (pull_at late_db 2)) (pull_response demo_service late_db alice phone 2) [] 2 H2);
      [vm_compute; reflexivity|apply pulls_none].
  - exists late_db, (pull_response demo_service late_db alice phone 2). by split.
  - exact H2.
  - apply Forall_cons. split; [cbn; set_solver|]. apply Forall_cons. split; [done|]. apply Forall_nil_2.
  - apply Forall_cons. split; [|apply Forall_nil_2]. cbn. intros [=]%list_elem_of_singleton.
  - apply Forall_cons. split; [cbn; set_solver|]. apply Forall_nil_2.
  - reflexivity.
  - discriminate.
Defined.
