(* ===== verification/RealtimeClient.v ===== *)
(** * A connected device

    [internal/realtime/client.go]: the state of one WebSocket connection and
    the bounded queue of pending messages.  [enqueue] runs under the queue
    lock, so no other producer sends meanwhile, but the writer goroutine
    receives from the channel without that lock: it may take messages between
    any two channel operations.  [steal] says how many it takes before the
    n-th one. *)

From S2P Require Import Prelude GoText GoFloat Json HttpApi Constants External RealtimeMessage.

Definition sendQueueSize : nat := 8.

(** The writer goroutine of a connection. *)
Inductive pump := NotStarted | Running | Stopped.

(** Where [Hub.Serve] is with a client: it has not been called, it reads from
    the socket, it has unregistered the client and waits for the writer, or it
    has returned. *)
Inductive serve_phase := NotServing | Reading | Leaving | Gone.

(** [cl_Conn] tells whether there is a socket; [cl_closed] stands for what
    [Close] sets once: [closed], [done] and the closed socket.  [cl_taken] is
    what the writer has received from the channel [cl_Send]. *)
Record Client := mkClient {
  cl_UserID : UUID;
  cl_DeviceID : string;
  cl_Conn : bool;
  cl_Send : list Message;
  cl_taken : list Message;
  cl_closed : bool;
  cl_writer : pump;
  cl_serve : serve_phase
}.

Definition NewClient (userID : UUID) (deviceID : string) (conn : bool) : Client :=
  mkClient userID deviceID conn [] [] false NotStarted NotServing.

(** The whole body of [closeOnce]; a second call does nothing. *)
Definition Client_Close (c : Client) : Client :=
  mkClient (cl_UserID c) (cl_DeviceID c) (cl_Conn c) (cl_Send c) (cl_taken c) true
    (cl_writer c) (cl_serve c).

Definition set_writer (p : pump) (c : Client) : Client :=
  mkClient (cl_UserID c) (cl_DeviceID c) (cl_Conn c) (cl_Send c) (cl_taken c) (cl_closed c)
    p (cl_serve c).

Definition set_serve (p : serve_phase) (c : Client) : Client :=
  mkClient (cl_UserID c) (cl_DeviceID c) (cl_Conn c) (cl_Send c) (cl_taken c) (cl_closed c)
    (cl_writer c) p.

Definition is_hint (m : Message) : bool := String.eqb (Msg_Type m) syncAvailableMessageType.

(** ** The channel *)

(** The messages in the channel and those the writer has taken out of it. *)
Record Chan := mkChan { ch_queue : list Message; ch_taken : list Message }.

Definition writer_takes (k : nat) (c : Chan) : Chan :=
  mkChan (drop k (ch_queue c)) (ch_taken c ++ take k (ch_queue c)).

(** [select { case c.Send <- m: ... default: ... }]. *)
Definition try_send (m : Message) (c : Chan) : option Chan :=
  if (length (ch_queue c) <? sendQueueSize)%nat
  then Some (mkChan (ch_queue c ++ [m]) (ch_taken c)) else None.

(** [select { case queued := <-c.Send: ... default: ... }]. *)
Definition try_recv (c : Chan) : option (Message * Chan) :=
  match ch_queue c with
  | [] => None
  | m :: rest => Some (m, mkChan rest (ch_taken c))
  end.

(** What the draining loop has collected. *)
Record drained := mkDrained {
  dr_pending : list Message;
  dr_highest : Message;
  dr_allSyncHints : bool
}.

Definition drain_step (queued : Message) (d : drained) : drained :=
  mkDrained (dr_pending d ++ [queued])
    (if is_hint queued && (Msg_LatestCursor (dr_highest d) <? Msg_LatestCursor queued)
     then queued else dr_highest d)
    (dr_allSyncHints d && is_hint queued).

(** [None] when the fuel runs out; a queue of n messages needs n+1. *)
Fixpoint drain (fuel : nat) (steal : nat -> nat) (i : nat) (d : drained) (c : Chan)
    : option (nat * drained * Chan) :=
  match fuel with
  | O => None
  | S fuel =>
      let c := writer_takes (steal i) c in
      match try_recv c with
      | None => Some (S i, d, c)
      | Some (queued, c) => drain fuel steal (S i) (drain_step queued d) c
      end
  end.

(** Messages that were drained go back; one that does not fit is dropped. *)
Fixpoint put_back (steal : nat -> nat) (i : nat) (pending : list Message) (c : Chan) : Chan :=
  match pending with
  | [] => c
  | queued :: rest =>
      let c := writer_takes (steal i) c in
      put_back steal (S i) rest (default c (try_send queued c))
  end.

(** The attempt on an empty queue; [None] falls through to the loop. *)
Definition send_if_empty (steal : nat -> nat) (message : Message) (c : Chan) : option Chan :=
  if (length (ch_queue c) =? 0)%nat then try_send message (writer_takes (steal 1%nat) c) else None.

Definition enqueue (steal : nat -> nat) (closed : bool) (message : Message) (c : Chan)
    : option (bool * Chan) :=
  if closed then Some (false, c)
  else
    let c := writer_takes (steal 0%nat) c in
    if negb (is_hint message) then
      match try_send message c with
      | Some c => Some (true, c)
      | None => Some (false, c)
      end
    else
      match send_if_empty steal message c with
      | Some c => Some (true, c)
      | None =>
          match drain (S (length (ch_queue c))) steal 2 (mkDrained [] message true) c with
          | None => None
          | Some (i, d, c) =>
              if dr_allSyncHints d then
                match try_send (dr_highest d) (writer_takes (steal i) c) with
                | Some c => Some (true, c)
                | None => Some (false, c)
                end
              else Some (false, put_back steal i (dr_pending d) c)
          end
      end.

Definition chan_of (c : Client) : Chan := mkChan (cl_Send c) (cl_taken c).

Definition set_chan (ch : Chan) (c : Client) : Client :=
  mkClient (cl_UserID c) (cl_DeviceID c) (cl_Conn c) (ch_queue ch) (ch_taken ch) (cl_closed c)
    (cl_writer c) (cl_serve c).

(** [client.enqueue(message)]. *)
Definition Client_enqueue (steal : nat -> nat) (m : Message) (c : Client)
    : option (bool * Client) :=
  match enqueue steal (cl_closed c) m (chan_of c) with
  | None => None
  | Some (sent, ch) => Some (sent, set_chan ch c)
  end.

(** Every message that went through the channel. *)
Definition history (c : Chan) : list Message := ch_taken c ++ ch_queue c.

(** What [enqueue] achieves for a hint [m]; see the property below. *)
Definition enqueued (m : Message) (c : Chan) (sent : bool) (c' : Chan) : Prop :=
  (length (ch_queue c') <= sendQueueSize)%nat /\
  if sent then
    exists h, ch_queue c' = [h] /\ is_hint h = true /\ (h = m \/ h ∈ ch_queue c) /\
      Msg_LatestCursor m <= Msg_LatestCursor h /\
      Forall (fun x => x ∈ ch_taken c' \/
                       is_hint x = true /\ Msg_LatestCursor x <= Msg_LatestCursor h) (history c)
  else history c' ≡ₚ history c /\ exists x, x ∈ ch_queue c /\ is_hint x = false.

(** A queue of three hints, from which the writer takes one in the meantime. *)
Definition hints_queue : Chan :=
  mkChan (map NewSyncAvailableMessage [4; 9; 6]) [NewSyncAvailableMessage 2].

(** ** Lemmas *)

Lemma history_takes k c : history (writer_takes k c) = history c.
Proof. unfold history. cbn. by rewrite <- app_assoc, take_drop. Qed.

Lemma taken_takes k c : ch_taken c `prefix_of` ch_taken (writer_takes k c).
Proof. by eexists. Qed.

Lemma takes_empty k c : ch_queue c = [] -> writer_takes k c = c.
Proof.
  destruct c as [queue taken]. cbn. intros ->.
  unfold writer_takes. cbn. by rewrite drop_nil, take_nil, app_nil_r.
Qed.

Lemma queue_takes k c : (length (ch_queue (writer_takes k c)) <= length (ch_queue c))%nat.
Proof. cbn. rewrite length_drop. lia. Qed.

Lemma try_send_empty m c : ch_queue c = [] -> try_send m c = Some (mkChan [m] (ch_taken c)).
Proof. unfold try_send. intros ->. done. Qed.

(** The loop leaves an empty queue: every message was taken by the writer or
    collected. *)
Lemma drain_spec fuel steal i d0 c0 :
  (length (ch_queue c0) < fuel)%nat ->
  exists j ms c extra,
    drain fuel steal i d0 c0 = Some (j, foldl (fun d m => drain_step m d) d0 ms, c) /\
    ch_queue c = [] /\ ch_taken c = ch_taken c0 ++ extra /\ ch_queue c0 ≡ₚ extra ++ ms.
Proof.
  revert i d0 c0. induction fuel as [|fuel IH]; intros i d0 c0 Hf; [lia|].
  pose proof (queue_takes (steal i) c0) as Hq.
  pose proof (take_drop (steal i) (ch_queue c0)) as Htd.
  cbn [drain]. unfold try_recv. cbn [writer_takes ch_queue ch_taken] in *.
  destruct (drop (steal i) (ch_queue c0)) as [|m rest] eqn:E.
  - exists (S i), [], (writer_takes (steal i) c0), (take (steal i) (ch_queue c0)).
    split_and!; [done|done|done|by rewrite Htd].
  - destruct (IH (S i) (drain_step m d0)
      (mkChan rest (ch_taken c0 ++ take (steal i) (ch_queue c0))))
      as (j & ms & c & extra & Hd & He & Ht & Hp); [cbn in *; lia|]. cbn in Ht, Hp.
    exists j, (m :: ms), c, (take (steal i) (ch_queue c0) ++ extra).
    split_and!; [done|done|by rewrite Ht, app_assoc|].
    rewrite <- Htd at 1. rewrite <- app_assoc. f_equiv. rewrite Hp. by rewrite Permutation_middle.
Qed.

Lemma drained_fold ms d0 :
  let d := foldl (fun d m => drain_step m d) d0 ms in
  dr_pending d = dr_pending d0 ++ ms /\
  dr_allSyncHints d = dr_allSyncHints d0 && forallb is_hint ms /\
  Msg_LatestCursor (dr_highest d0) <= Msg_LatestCursor (dr_highest d) /\
  Forall (fun m => is_hint m = true ->
                   Msg_LatestCursor m <= Msg_LatestCursor (dr_highest d)) ms /\
  (dr_highest d = dr_highest d0 \/ dr_highest d ∈ ms /\ is_hint (dr_highest d) = true).
Proof.
  revert d0. induction ms as [|m ms IH]; intros d0; cbn.
  { rewrite app_nil_r, andb_true_r. split_and!; [done|done|done|constructor|by left]. }
  destruct (IH (drain_step m d0)) as (Hp & Ha & Hle & Hall & Hor). set (d := foldl _ _ _) in *.
  assert (Hstep : Msg_LatestCursor (dr_highest d0) <= Msg_LatestCursor (dr_highest (drain_step m d0))
    /\ (is_hint m = true -> Msg_LatestCursor m <= Msg_LatestCursor (dr_highest (drain_step m d0)))
    /\ (dr_highest (drain_step m d0) = dr_highest d0
        \/ dr_highest (drain_step m d0) = m /\ is_hint m = true)).
  { cbn. destruct (is_hint m); cbn; [|naive_solver].
    destruct (Z.ltb_spec (Msg_LatestCursor (dr_highest d0)) (Msg_LatestCursor m)); naive_solver lia. }
  destruct Hstep as (H1 & H2 & H3). split_and!.
  - rewrite Hp. cbn. by rewrite <- app_assoc.
  - rewrite Ha. cbn. by rewrite andb_assoc.
  - lia.
  - constructor; [intros; specialize (H2 H); lia|done].
  - destruct Hor as [->|[Hin Hh]]; [|right; by split; [right|]].
    destruct H3 as [->|[-> ?]]; [by left|]. right. split; [left|done].
Qed.

Lemma put_back_spec steal i pending c :
  (length (ch_queue c) + length pending <= sendQueueSize)%nat ->
  history (put_back steal i pending c) = history c ++ pending /\
  (length (ch_queue (put_back steal i pending c)) <= sendQueueSize)%nat.
Proof.
  revert i c. induction pending as [|m rest IH]; intros i c Hl; cbn.
  { cbn in Hl. rewrite app_nil_r. split; [done|lia]. }
  pose proof (queue_takes (steal i) c) as Hq. cbn in Hl, Hq. unfold try_send.
  rewrite (proj2 (Nat.ltb_lt _ _)) by (cbn; lia). cbn.
  destruct (IH (S i) (mkChan (drop (steal i) (ch_queue c) ++ [m])
    (ch_taken c ++ take (steal i) (ch_queue c)))) as [-> Hc].
  { cbn. rewrite length_app. cbn. lia. }
  split; [|done]. unfold history. cbn.
  rewrite <- (take_drop (steal i) (ch_queue c)) at 3. by rewrite <- !app_assoc.
Qed.

(** The messages the writer takes first do not matter. *)
Lemma enqueued_takes k m c sent c' :
  enqueued m (writer_takes k c) sent c' -> enqueued m c sent c'.
Proof.
  pose proof (subseteq_drop k (ch_queue c) : ch_queue (writer_takes k c) ⊆ _) as Hsub.
  intros [Hl H]. split; [done|]. destruct sent.
  - destruct H as (h & ? & ? & Hor & ? & Hall). rewrite history_takes in Hall.
    exists h. split_and!; auto. destruct Hor as [|]; auto.
  - destruct H as (Hp & x & Hx & ?). rewrite history_takes in Hp. eauto.
Qed.

Lemma enqueued_empty m c :
  is_hint m = true -> ch_queue c = [] -> enqueued m c true (mkChan [m] (ch_taken c)).
Proof.
  intros Hm He. split; [cbn; unfold sendQueueSize; lia|]. exists m. split_and!; auto; [lia|].
  unfold history. rewrite He, app_nil_r. apply Forall_forall. by left.
Qed.

Lemma enqueued_highest m c ms extra c2 :
  let d := foldl (fun d m => drain_step m d) (mkDrained [] m true) ms in
  is_hint m = true -> forallb is_hint ms = true ->
  ch_taken c2 = ch_taken c ++ extra -> ch_queue c ≡ₚ extra ++ ms ->
  enqueued m c true (mkChan [dr_highest d] (ch_taken c2)).
Proof.
  intros d Hm Hints Ht Hp. split; [cbn; unfold sendQueueSize; lia|]. exists (dr_highest d).
  destruct (drained_fold ms (mkDrained [] m true)) as (_ & _ & Hle & Hcov & Hor). fold d in Hle, Hcov, Hor.
  cbn in Hle, Hor. split_and!; [done|by destruct Hor as [->|[_ ?]]| |done|].
  { destruct Hor as [->|[Hin _]]; [by left|]. right. rewrite Hp. set_solver. }
  rewrite forallb_forall in Hints. rewrite Forall_forall in Hcov |- *.
  intros x Hx. cbn. rewrite Ht. unfold history in Hx. rewrite Hp, app_assoc in Hx.
  apply elem_of_app in Hx as [Hx|Hx]; [by left|]. right.
  assert (is_hint x = true) by (apply Hints; by apply list_elem_of_In). auto.
Qed.

Lemma enqueued_refused steal j m c ms extra c2 :
  forallb is_hint ms = false -> (length (ch_queue c) <= sendQueueSize)%nat ->
  ch_queue c2 = [] -> ch_taken c2 = ch_taken c ++ extra -> ch_queue c ≡ₚ extra ++ ms ->
  enqueued m c false (put_back steal j ms c2).
Proof.
  intros Hints Hcap He Ht Hp.
  assert (Hl : (length (ch_queue c2) + length ms <= sendQueueSize)%nat).
  { rewrite He. apply Permutation_length in Hp. rewrite length_app in Hp. cbn. lia. }
  destruct (put_back_spec steal j ms c2 Hl) as [Hh Hc]. split; [done|]. split.
  - rewrite Hh. unfold history. by rewrite He, app_nil_r, Ht, Hp, app_assoc.
  - apply forallb_false in Hints as (x & Hx & ?). exists x. rewrite Hp. split; [set_solver|done].
Qed.

Lemma enqueue_hint steal m c :
  is_hint m = true -> (length (ch_queue c) <= sendQueueSize)%nat ->
  exists sent c', enqueue steal false m c = Some (sent, c') /\ enqueued m c sent c'.
Proof.
  intros Hhint Hcap. unfold enqueue. rewrite Hhint. cbn [negb].
  pose proof (queue_takes (steal 0%nat) c) as Hq.
  pose proof (enqueued_takes (steal 0%nat) m c) as Hfirst.
  set (c1 := writer_takes (steal 0%nat) c) in *.
  unfold send_if_empty. destruct (Nat.eqb_spec (length (ch_queue c1)) 0) as [He|Hne].
  - apply length_zero_iff_nil in He. rewrite takes_empty, try_send_empty by done.
    eexists true, _. split; [done|]. apply Hfirst. by apply enqueued_empty.
  - destruct (drain_spec (S (length (ch_queue c1))) steal 2 (mkDrained [] m true) c1)
      as (j & ms & c2 & extra & -> & He & Ht & Hp); [lia|].
    destruct (drained_fold ms (mkDrained [] m true)) as (Hpend & Hall & _).
    rewrite Hall, Hpend. cbn [dr_allSyncHints dr_pending andb app].
    destruct (forallb is_hint ms) eqn:Hints.
    + rewrite takes_empty, try_send_empty by done.
      eexists true, _. split; [done|]. apply Hfirst. by eapply enqueued_highest.
    + eexists false, _. split; [done|]. apply Hfirst. eapply enqueued_refused; eauto. lia.
Qed.

Lemma enqueue_capacity steal closed m c sent c' :
  (length (ch_queue c) <= sendQueueSize)%nat -> enqueue steal closed m c = Some (sent, c') ->
  (length (ch_queue c') <= sendQueueSize)%nat.
Proof.
  intros Hl. destruct closed; [by intros [= _ <-]|]. destruct (is_hint m) eqn:Hm.
  - destruct (enqueue_hint steal m c Hm Hl) as (b & c1 & -> & Hc & _). by intros [= _ <-].
  - unfold enqueue. rewrite Hm. cbn [negb]. unfold try_send.
    pose proof (queue_takes (steal 0%nat) c). case_match eqn:E; intros [= _ <-]; [|lia].
    revert E. destruct (Nat.ltb_spec (length (ch_queue (writer_takes (steal 0%nat) c))) sendQueueSize);
      [|done]. intros [= <-]. cbn [ch_queue]. rewrite length_app. cbn in *. lia.
Qed.

(** ** Properties *)

(** C21: on an open connection whose queue fits, [enqueue] returns, and either
    the hint is sent: then the queue holds one hint, not older than the new
    one, and every message that was pending has been taken by the writer or is
    a hint that this one covers; or a message of another kind was pending: then
    the hint is refused and nothing that was pending is lost.  This holds
    whatever the writer takes from the channel meanwhile. *)
Theorem enqueue_loses_no_hint (steal : nat -> nat) (m : Message) (c : Chan)
    (Hhint : is_hint m = true) (Hcap : (length (ch_queue c) <= sendQueueSize)%nat) :
  exists sent c', enqueue steal false m c = Some (sent, c') /\ enqueued m c sent c'.
Proof.
  by apply enqueue_hint.
Qed.

Lemma enqueue_loses_no_hint_witness :
  exists sent c', enqueue (fun n => if (n =? 2)%nat then 1%nat else 0%nat) false
      (NewSyncAvailableMessage 7) hints_queue = Some (sent, c') /\
    enqueued (NewSyncAvailableMessage 7) hints_queue sent c'.
Proof.
  apply (enqueue_loses_no_hint _ (NewSyncAvailableMessage 7) hints_queue);
    [reflexivity|cbn; unfold sendQueueSize; lia].
Defined.
