(* ===== verification/RealtimeHub.v ===== *)
(** * The connection hub

    [internal/realtime/hub.go] and the connection part of [handler.go]: the
    map of active connections of one process, and the goroutines that use it.

    Clients are shared by pointer, so they live in a heap and the hub holds
    references.  Every method is a critical section under the hub's lock
    followed by work on clients outside it; the sections are functions, the
    sequential methods compose them, and [step] interleaves the sections with
    the owed work of any number of goroutines and with the pumps. *)

From S2P Require Import Prelude GoText GoFloat Json HttpApi Constants External RealtimeMessage.
From S2P Require Import RealtimeClient.

(** A [*Client]. *)
Abbreviation ref := nat.

(** [hub_serving] is the counter of the wait group. *)
Record Hub := mkHub {
  hub_clients : gmap UUID (gmap string ref);
  hub_closed : bool;
  hub_serving : nat
}.

Definition NewHub : Hub := mkHub ∅ false 0.

Abbreviation heap := (gmap ref Client).

Definition user_clients (h : Hub) (userID : UUID) : gmap string ref :=
  default ∅ (hub_clients h !! userID).

Definition registered (h : Hub) (userID : UUID) (deviceID : string) : option ref :=
  user_clients h userID !! deviceID.

(** ** Critical sections *)

(** [Register] under the lock: the new map and the connection replaced. *)
Definition register_section (h : Hub) (r : ref) (c : Client) : res (Hub * option ref) :=
  if is_nil (cl_UserID c) || String.eqb (cl_DeviceID c) EmptyString
  then Err (errorsNew "realtime client identity is invalid")
  else if hub_closed h then Err ErrHubClosed
  else
    let userClients := user_clients h (cl_UserID c) in
    Ok (mkHub (<[cl_UserID c := <[cl_DeviceID c := r]> userClients]> (hub_clients h))
          (hub_closed h) (hub_serving h),
        userClients !! cl_DeviceID c).

(** [if previous != nil && previous != client]. *)
Definition replaced (r : ref) (previous : option ref) : list ref :=
  match previous with
  | Some p => if (p =? r)%nat then [] else [p]
  | None => []
  end.

(** [Unregister] under the lock. *)
Definition unregister_section (h : Hub) (r : ref) (c : Client) : Hub :=
  match hub_clients h !! cl_UserID c with
  | None => h
  | Some userClients =>
      if bool_decide (userClients !! cl_DeviceID c = Some r) then
        let rest := delete (cl_DeviceID c) userClients in
        mkHub (if bool_decide (rest = ∅) then delete (cl_UserID c) (hub_clients h)
               else <[cl_UserID c := rest]> (hub_clients h))
          (hub_closed h) (hub_serving h)
      else h
  end.

(** The clients [PublishSyncAvailable] collects under the read lock. *)
Definition publish_targets (h : Hub) (event : SyncAvailableEvent) : list ref :=
  map snd (filter (fun kv => kv.1 <> Ev_OriginDeviceID event)
             (map_to_list (user_clients h (Ev_UserID event)))).

(** [Serve] under the lock; [None] when the hub is closed. *)
Definition serve_section (h : Hub) : option Hub :=
  if hub_closed h then None
  else Some (mkHub (hub_clients h) (hub_closed h) (S (hub_serving h))).

Definition all_clients (h : Hub) : list ref :=
  concat (map (fun kv => map snd (map_to_list kv.2)) (map_to_list (hub_clients h))).

(** [Close] under the lock; [None] when it was closed before. *)
Definition close_section (h : Hub) : option (Hub * list ref) :=
  if hub_closed h then None
  else Some (mkHub ∅ true (hub_serving h), all_clients h).

Definition ConnectionCount (h : Hub) : nat :=
  foldr (fun kv count => (size kv.2 + count)%nat) 0%nat (map_to_list (hub_clients h)).

(** ** Methods run without interleaving *)

Definition close_client (r : ref) (hp : heap) : heap :=
  match hp !! r with
  | Some c => <[r := Client_Close c]> hp
  | None => hp
  end.

Definition close_all (rs : list ref) (hp : heap) : heap := foldr close_client hp rs.

Definition Register (r : ref) (c : Client) (h : Hub) (hp : heap) : (Hub * heap) * res unit :=
  match register_section h r c with
  | Err e => ((h, hp), Err e)
  | Ok (h', previous) => ((h', close_all (replaced r previous) hp), Ok tt)
  end.

Definition Unregister (r : ref) (c : Client) (h : Hub) (hp : heap) : Hub * heap :=
  (unregister_section h r c, close_client r hp).

(** The loop of [PublishSyncAvailable]; [steal r] is what the writer of [r]
    takes while its message is enqueued. *)
Fixpoint fan_out (steal : ref -> nat -> nat) (m : Message) (rs : list ref) (h : Hub) (hp : heap)
    : Hub * heap :=
  match rs with
  | [] => (h, hp)
  | r :: rest =>
      match hp !! r with
      | None => fan_out steal m rest h hp
      | Some c =>
          match Client_enqueue (steal r) m c with
          | Some (true, c') => fan_out steal m rest h (<[r := c']> hp)
          | Some (false, c') =>
              let '(h', hp') := Unregister r c' h (<[r := c']> hp) in
              fan_out steal m rest h' hp'
          | None => fan_out steal m rest h hp
          end
      end
  end.

Definition PublishSyncAvailable (steal : ref -> nat -> nat) (event : SyncAvailableEvent)
    (h : Hub) (hp : heap) : Hub * heap :=
  match SyncAvailableEvent_Validate event with
  | Err _ => (h, hp)
  | Ok _ =>
      fan_out steal (NewSyncAvailableMessage (Ev_LatestCursor event))
        (publish_targets h event) h hp
  end.

(** [Close] up to the wait for the connections being served. *)
Definition Hub_Close (h : Hub) (hp : heap) : Hub * heap :=
  match close_section h with
  | None => (h, hp)
  | Some (h', rs) => (h', close_all rs hp)
  end.

(** ** Goroutines *)

(** What a goroutine still has to do outside the lock. *)
Inductive task :=
| TClose (r : ref)
| TUnregister (r : ref)
| TFanOut (m : Message) (rs : list ref).

(** [s_known]: the clients [Register] has accepted. *)
Record Sys := mkSys {
  s_hub : Hub;
  s_heap : heap;
  s_tasks : list task;
  s_known : gset ref
}.

Definition initial : Sys := mkSys NewHub ∅ [] ∅.

(** The writer takes messages only while it runs. *)
Definition may_steal (c : Client) (steal : nat -> nat) : Prop :=
  cl_writer c = Running \/ forall n, steal n = 0%nat.

Inductive step : Sys -> Sys -> Prop :=
| step_connect h hp ts k r u d conn :
    hp !! r = None ->
    step (mkSys h hp ts k) (mkSys h (<[r := NewClient u d conn]> hp) ts k)
| step_register h hp ts k r c h' previous :
    hp !! r = Some c -> register_section h r c = Ok (h', previous) ->
    step (mkSys h hp ts k)
      (mkSys h' hp (map TClose (replaced r previous) ++ ts) ({[r]} ∪ k))
| step_register_refused h hp ts k r c e :
    hp !! r = Some c -> register_section h r c = Err e ->
    step (mkSys h hp ts k) (mkSys h hp (TClose r :: ts) k)
| step_serve h hp ts k r c h' :
    hp !! r = Some c -> cl_serve c = NotServing -> serve_section h = Some h' ->
    step (mkSys h hp ts k)
      (mkSys h' (<[r := set_writer Running (set_serve Reading c)]> hp) ts k)
| step_serve_closed h hp ts k r c :
    hp !! r = Some c -> cl_serve c = NotServing -> serve_section h = None ->
    step (mkSys h hp ts k) (mkSys h (<[r := set_serve Gone c]> hp) (TClose r :: ts) k)
| step_reader_ends h hp ts k r c :
    hp !! r = Some c -> cl_serve c = Reading ->
    step (mkSys h hp ts k)
      (mkSys (unregister_section h r c) (<[r := set_serve Leaving c]> hp) (TClose r :: ts) k)
| step_served h hp ts k r c :
    hp !! r = Some c -> cl_serve c = Leaving -> cl_writer c = Stopped ->
    step (mkSys h hp ts k)
      (mkSys (mkHub (hub_clients h) (hub_closed h) (pred (hub_serving h)))
         (<[r := set_serve Gone c]> hp) ts k)
| step_writer_sends h hp ts k r c :
    hp !! r = Some c -> cl_writer c = Running ->
    step (mkSys h hp ts k)
      (mkSys h (<[r := set_chan (writer_takes 1 (chan_of c)) c]> hp) ts k)
| step_writer_fails h hp ts k r c :
    hp !! r = Some c -> cl_writer c = Running ->
    step (mkSys h hp ts k)
      (mkSys h (<[r := set_writer Stopped
                          (Client_Close (set_chan (writer_takes 1 (chan_of c)) c))]> hp) ts k)
| step_ping_fails h hp ts k r c :
    hp !! r = Some c -> cl_writer c = Running ->
    step (mkSys h hp ts k) (mkSys h (<[r := set_writer Stopped (Client_Close c)]> hp) ts k)
| step_writer_done h hp ts k r c :
    hp !! r = Some c -> cl_writer c = Running -> cl_closed c = true \/ cl_Conn c = false ->
    step (mkSys h hp ts k) (mkSys h (<[r := set_writer Stopped c]> hp) ts k)
| step_publish h hp ts k event rs :
    SyncAvailableEvent_Validate event = Ok tt -> rs ≡ₚ publish_targets h event ->
    step (mkSys h hp ts k)
      (mkSys h hp (TFanOut (NewSyncAvailableMessage (Ev_LatestCursor event)) rs :: ts) k)
| step_close h hp ts k h' rs :
    close_section h = Some (h', rs) ->
    step (mkSys h hp ts k) (mkSys h' hp (map TClose rs ++ ts) k)
| step_task_close h hp ts1 ts2 k r :
    step (mkSys h hp (ts1 ++ TClose r :: ts2) k) (mkSys h (close_client r hp) (ts1 ++ ts2) k)
| step_task_unregister h hp ts1 ts2 k r c :
    hp !! r = Some c ->
    step (mkSys h hp (ts1 ++ TUnregister r :: ts2) k)
      (mkSys (unregister_section h r c) hp (ts1 ++ TClose r :: ts2) k)
| step_task_done h hp ts1 ts2 k m :
    step (mkSys h hp (ts1 ++ TFanOut m [] :: ts2) k) (mkSys h hp (ts1 ++ ts2) k)
| step_task_enqueue h hp ts1 ts2 k m r rs c steal sent c' :
    hp !! r = Some c -> may_steal c steal -> Client_enqueue steal m c = Some (sent, c') ->
    step (mkSys h hp (ts1 ++ TFanOut m (r :: rs) :: ts2) k)
      (mkSys h (<[r := c']> hp)
         (ts1 ++ TFanOut m rs :: (if sent then [] else [TUnregister r]) ++ ts2) k).

Definition reachable (s : Sys) : Prop := rtc step initial s.

(** ** The invariant *)

(** [Hub.Serve] is running for this client. *)
Definition serving (c : Client) : bool :=
  match cl_serve c with
  | Reading | Leaving => true
  | NotServing | Gone => false
  end.

Definition serving_count (hp : heap) : nat :=
  length (filter (fun kv => serving kv.2 = true) (map_to_list hp)).

(** The map of connections: each client is filed under its own identity, users
    without a connection are absent, a closed hub has none, and an accepted
    client that is no longer filed is closed or about to be. *)
Record hub_filed (h : Hub) (hp : heap) (ts : list task) (k : gset ref) : Prop := mkHubFiled {
  hf_own : forall u d r, registered h u d = Some r ->
    r ∈ k /\ exists c, hp !! r = Some c /\ cl_UserID c = u /\ cl_DeviceID c = d;
  hf_users : forall u m, hub_clients h !! u = Some m -> m <> ∅;
  hf_closed : hub_closed h = true -> hub_clients h = ∅;
  hf_known : forall r, r ∈ k -> exists c, hp !! r = Some c /\
    (registered h (cl_UserID c) (cl_DeviceID c) = Some r \/ cl_closed c = true
     \/ TClose r ∈ ts)
}.

(** The goroutines: the wait group counts the running [Serve] calls, a writer
    runs only inside one, and no queue is over capacity. *)
Record hub_pumps (h : Hub) (hp : heap) : Prop := mkHubPumps {
  hm_serving : hub_serving h = serving_count hp;
  hm_client : forall r c, hp !! r = Some c ->
    (cl_writer c = Running -> serving c = true) /\ (length (cl_Send c) <= sendQueueSize)%nat
}.

Definition hub_inv (s : Sys) : Prop :=
  hub_filed (s_hub s) (s_heap s) (s_tasks s) (s_known s) /\ hub_pumps (s_hub s) (s_heap s).

(** The same connection, perhaps closed meanwhile. *)
Definition same_client (c c' : Client) : Prop :=
  cl_UserID c' = cl_UserID c /\ cl_DeviceID c' = cl_DeviceID c /\
  (cl_closed c = true -> cl_closed c' = true).

Definition heap_le (hp hp' : heap) : Prop :=
  forall r c, hp !! r = Some c -> exists c', hp' !! r = Some c' /\ same_client c c'.

(** ** Lemmas *)

Lemma registered_register h r c h' previous :
  register_section h r c = Ok (h', previous) ->
  previous = registered h (cl_UserID c) (cl_DeviceID c) /\ hub_closed h = false /\
  hub_closed h' = false /\ hub_serving h' = hub_serving h /\
  (forall u m, hub_clients h' !! u = Some m -> u = cl_UserID c /\ m <> ∅ \/ hub_clients h !! u = Some m) /\
  forall u d, registered h' u d =
    if decide (u = cl_UserID c /\ d = cl_DeviceID c) then Some r else registered h u d.
Proof.
  unfold register_section. case_match; [done|]. destruct (hub_closed h) eqn:Hc; [done|].
  intros [= <- <-]. split_and!; [done|done|done|done| |].
  - intros u m. cbn. rewrite lookup_insert_Some. intros [[<- <-]|[_ ?]]; [left|by right].
    split; [done|]. apply insert_non_empty.
  - intros u d. unfold registered at 1, user_clients at 1. cbn.
    destruct (decide (u = cl_UserID c)) as [->|Hu].
    + rewrite lookup_insert_eq. cbn. destruct (decide (d = cl_DeviceID c)) as [->|Hd].
      * rewrite lookup_insert_eq. by rewrite decide_True.
      * rewrite lookup_insert_ne by done. rewrite decide_False by naive_solver. done.
    + rewrite lookup_insert_ne by done. rewrite decide_False by naive_solver. done.
Qed.

Lemma registered_unregister h r c u d :
  registered (unregister_section h r c) u d =
  if decide (u = cl_UserID c /\ d = cl_DeviceID c /\ registered h u d = Some r)
  then None else registered h u d.
Proof.
  unfold unregister_section, registered, user_clients.
  destruct (hub_clients h !! cl_UserID c) as [m|] eqn:Em.
  2:{ case_decide as Hd; [|done]. destruct Hd as (-> & _ & Hr). rewrite Em in Hr. done. }
  case_bool_decide as Hr; [|by case_decide as Hd; [destruct Hd as (-> & -> & Hd); rewrite Em in Hd|]].
  cbn. destruct (decide (u = cl_UserID c)) as [->|Hu].
  - assert (Hlook : default ∅ ((if bool_decide (delete (cl_DeviceID c) m = ∅)
        then delete (cl_UserID c) (hub_clients h)
        else <[cl_UserID c := delete (cl_DeviceID c) m]> (hub_clients h)) !! cl_UserID c)
      = delete (cl_DeviceID c) m).
    { case_bool_decide as He; [by rewrite lookup_delete_eq, He|by rewrite lookup_insert_eq]. }
    rewrite Hlook, Em. cbn. destruct (decide (d = cl_DeviceID c)) as [->|Hd].
    + rewrite lookup_delete_eq, decide_True by done. done.
    + rewrite lookup_delete_ne by done. rewrite decide_False by naive_solver. done.
  - rewrite decide_False by naive_solver.
    case_bool_decide; [by rewrite lookup_delete_ne|by rewrite lookup_insert_ne].
Qed.

Lemma unregister_fields h r c :
  hub_closed (unregister_section h r c) = hub_closed h /\
  hub_serving (unregister_section h r c) = hub_serving h /\
  (hub_clients h = ∅ -> hub_clients (unregister_section h r c) = ∅) /\
  forall u m, hub_clients (unregister_section h r c) !! u = Some m ->
    m <> ∅ \/ hub_clients h !! u = Some m.
Proof.
  unfold unregister_section. destruct (hub_clients h !! cl_UserID c) as [m0|] eqn:Em; [|naive_solver].
  case_bool_decide; [|naive_solver]. cbn. split_and!; [done|done| |].
  - intros He. by rewrite He, lookup_empty in Em.
  - intros u m. case_bool_decide as Hd.
    + rewrite lookup_delete_Some. naive_solver.
    + rewrite lookup_insert_Some. naive_solver.
Qed.

#[export] Instance heap_le_preorder : PreOrder heap_le.
Proof.
  split; [intros hp r c ->; eexists; by repeat split|].
  intros h1 h2 h3 H12 H23 r c (c2 & (c3 & Hc3 & ? & ? & ?)%H23 & ? & ? & ?)%H12.
  exists c3. split; [done|]. repeat split; [congruence|congruence|auto].
Qed.

Lemma heap_le_insert hp r c c' :
  hp !! r = Some c -> same_client c c' -> heap_le hp (<[r := c']> hp).
Proof.
  intros Hr Hs r' c1 Hc1. destruct (decide (r = r')) as [<-|].
  - rewrite lookup_insert_eq. simplify_eq. eauto.
  - rewrite lookup_insert_ne by done. exists c1. by repeat split.
Qed.

Lemma heap_le_new hp r c : hp !! r = None -> heap_le hp (<[r := c]> hp).
Proof.
  intros Hr r' c1 Hc1. rewrite lookup_insert_ne by congruence. exists c1. by repeat split.
Qed.

Lemma close_client_le r hp : heap_le hp (close_client r hp).
Proof.
  unfold close_client. destruct (hp !! r) as [c|] eqn:Hr; [|reflexivity].
  by eapply heap_le_insert.
Qed.

Lemma close_client_closed r hp c : close_client r hp !! r = Some c -> cl_closed c = true.
Proof.
  unfold close_client. destruct (hp !! r) eqn:Hr; [|congruence].
  rewrite lookup_insert_eq. by intros [= <-].
Qed.

Lemma hub_filed_mono h hp hp' ts ts' k :
  hub_filed h hp ts k -> heap_le hp hp' ->
  (forall r c, TClose r ∈ ts -> hp' !! r = Some c -> TClose r ∈ ts' \/ cl_closed c = true) ->
  hub_filed h hp' ts' k.
Proof.
  intros [Hown Husers Hclosed Hknown] Hle Hts. split; [|done|done|].
  - intros u d r (Hk & c & (c' & ? & ? & ? & _)%Hle & ? & ?)%Hown. split; [done|].
    exists c'. split; [done|]. split; congruence.
  - intros r (c & (c' & Hc' & Hu & Hd & Hcl)%Hle & Hor)%Hknown. exists c'. split; [done|].
    rewrite Hu, Hd. destruct Hor as [?|[?|Ht]]; [auto|auto|].
    destruct (Hts _ _ Ht Hc') as [?|?]; auto.
Qed.

Lemma hub_filed_register h hp ts k r c h' previous :
  hub_filed h hp ts k -> hp !! r = Some c -> register_section h r c = Ok (h', previous) ->
  hub_filed h' hp (map TClose (replaced r previous) ++ ts) ({[r]} ∪ k).
Proof.
  intros [Hown Husers Hclosed Hknown] Hc Hreg.
  apply registered_register in Hreg as (-> & _ & Hopen & _ & Hu & Hlook). split.
  - intros u d r'. rewrite Hlook. case_decide as Hd.
    + intros [= <-]. destruct Hd as [-> ->]. split; [set_solver|eauto].
    + intros (? & ?)%Hown. split; [set_solver|done].
  - intros u m [[_ ?]|?]%Hu; [done|by eapply Husers].
  - congruence.
  - intros r' Hr'. destruct (decide (r' = r)) as [->|Hne].
    + exists c. split; [done|]. left. by rewrite Hlook, decide_True.
    + destruct (Hknown r') as (c' & Hc' & Hor); [set_solver|]. exists c'. split; [done|].
      destruct Hor as [Hreg|[?|?]]; [|auto|right; right; set_solver].
      rewrite Hlook. case_decide as Hd; [|auto]. destruct Hd as [Hu' Hd'].
      right. right. apply elem_of_app. left. rewrite Hu', Hd' in Hreg. rewrite Hreg. cbn.
      rewrite (proj2 (Nat.eqb_neq _ _) Hne). by left.
Qed.

Lemma hub_filed_unregister h hp ts k r c :
  hub_filed h hp ts k -> hp !! r = Some c ->
  hub_filed (unregister_section h r c) hp (TClose r :: ts) k.
Proof.
  intros [Hown Husers Hclosed Hknown] Hc.
  destruct (unregister_fields h r c) as (Hcl & _ & He & Hu). split.
  - intros u d r'. rewrite registered_unregister. case_decide; [done|]. apply Hown.
  - intros u m [?|?]%Hu; [done|by eapply Husers].
  - rewrite Hcl. auto.
  - intros r' Hr'. destruct (Hknown r' Hr') as (c' & Hc' & Hor). exists c'. split; [done|].
    destruct Hor as [Hreg|[?|?]]; [|auto|right; right; by right].
    rewrite registered_unregister. case_decide as Hd; [|auto].
    destruct Hd as (_ & _ & Hr). assert (r' = r) as -> by congruence. right. right. by left.
Qed.

Lemma elem_of_all_clients h u d r : registered h u d = Some r -> r ∈ all_clients h.
Proof.
  unfold registered, user_clients, all_clients. intros Hr.
  destruct (hub_clients h !! u) as [m|] eqn:Em; cbn in Hr; [|by rewrite lookup_empty in Hr].
  apply list_elem_of_In, in_concat. exists (map snd (map_to_list m)). split.
  - apply in_map_iff. exists (u, m). split; [done|].
    by apply list_elem_of_In, elem_of_map_to_list.
  - apply in_map_iff. exists (d, r). split; [done|]. by apply list_elem_of_In, elem_of_map_to_list.
Qed.

Lemma hub_filed_close h hp ts k h' rs :
  hub_filed h hp ts k -> close_section h = Some (h', rs) -> hub_filed h' hp (map TClose rs ++ ts) k.
Proof.
  unfold close_section. intros [Hown Husers Hclosed Hknown]. case_match; [done|]. intros [= <- <-].
  split; [done|done|done|]. intros r Hr. destruct (Hknown r Hr) as (c & Hc & Hor).
  exists c. split; [done|]. destruct Hor as [Hreg|[?|?]]; [|auto|right; right; set_solver].
  right. right. apply elem_of_app. left. apply list_elem_of_fmap. eauto using elem_of_all_clients.
Qed.

(** Counting the clients being served. *)
Lemma serving_count_insert hp r c c' :
  hp !! r = Some c ->
  (serving_count (<[r := c']> hp) + Nat.b2n (serving c)
   = serving_count hp + Nat.b2n (serving c'))%nat.
Proof.
  intros Hr. unfold serving_count.
  rewrite <- (insert_delete_id hp r c Hr) at 2. rewrite <- insert_delete_eq.
  rewrite !map_to_list_insert by apply lookup_delete_eq.
  rewrite !filter_cons. cbn [snd].
  destruct (serving c), (serving c'); repeat case_decide; try done; cbn [length Nat.b2n]; lia.
Qed.

Lemma serving_count_new hp r c :
  hp !! r = None -> serving c = false -> serving_count (<[r := c]> hp) = serving_count hp.
Proof.
  intros Hr Hs. unfold serving_count. rewrite map_to_list_insert by done.
  rewrite filter_cons. cbn [snd]. by rewrite Hs.
Qed.

(** A step of one client that keeps the wait group. *)
Lemma hub_pumps_update h h' hp r c c' :
  hub_pumps h hp -> hp !! r = Some c ->
  (hub_serving h' + Nat.b2n (serving c) = hub_serving h + Nat.b2n (serving c'))%nat ->
  (cl_writer c' = Running -> serving c' = true) ->
  (length (cl_Send c') <= sendQueueSize)%nat ->
  hub_pumps h' (<[r := c']> hp).
Proof.
  intros [Hs Hcl] Hr Hn Hw Hq. split.
  - pose proof (serving_count_insert hp r c c' Hr). lia.
  - intros r' c1. rewrite lookup_insert_Some. intros [[<- <-]|[_ ?]]; [done|by eapply Hcl].
Qed.

Lemma Client_enqueue_keeps steal m c sent c' :
  Client_enqueue steal m c = Some (sent, c') -> (length (cl_Send c) <= sendQueueSize)%nat ->
  same_client c c' /\ cl_writer c' = cl_writer c /\ cl_serve c' = cl_serve c /\
  cl_closed c' = cl_closed c /\ (length (cl_Send c') <= sendQueueSize)%nat.
Proof.
  unfold Client_enqueue. destruct (enqueue _ _ _ _) as [[b ch]|] eqn:E; [|done].
  intros [= <- <-] Hl. split_and!; try done.
  by eapply enqueue_capacity; [|exact E].
Qed.

(** The wait group plays no role in the filing. *)
Lemma hub_filed_serving h n hp ts k :
  hub_filed h hp ts k -> hub_filed (mkHub (hub_clients h) (hub_closed h) n) hp ts k.
Proof. intros []. by split. Qed.

Lemma serve_section_Some h h' :
  serve_section h = Some h' -> h' = mkHub (hub_clients h) (hub_closed h) (S (hub_serving h)).
Proof. unfold serve_section. case_match; congruence. Qed.

Lemma close_section_serving h h' rs :
  close_section h = Some (h', rs) -> hub_serving h' = hub_serving h.
Proof. unfold close_section. case_match; [done|]. by intros [= <- _]. Qed.

(** A step of one client and more owed work keep the filing. *)
Lemma hub_filed_client h hp ts ts' k r c c' :
  hub_filed h hp ts k -> hp !! r = Some c -> same_client c c' ->
  (forall x, TClose x ∈ ts -> TClose x ∈ ts') -> hub_filed h (<[r := c']> hp) ts' k.
Proof. intros Hf Hr Hs Hts. eapply hub_filed_mono; eauto using heap_le_insert. Qed.

Lemma hub_filed_tasks h hp ts ts' k :
  hub_filed h hp ts k -> (forall x, TClose x ∈ ts -> TClose x ∈ ts') -> hub_filed h hp ts' k.
Proof. intros Hf Hts. eapply hub_filed_mono; eauto. reflexivity. Qed.

(** Removing work other than a close from the list of tasks. *)
Lemma close_kept ts1 t ts2 more x :
  (forall r, t <> TClose r) -> TClose x ∈ ts1 ++ t :: ts2 -> TClose x ∈ ts1 ++ more ++ ts2.
Proof. intros Ht. rewrite !elem_of_app, elem_of_cons. naive_solver. Qed.

Lemma step_filed s s' :
  step s s' ->
  (forall r c, s_heap s !! r = Some c -> (length (cl_Send c) <= sendQueueSize)%nat) ->
  hub_filed (s_hub s) (s_heap s) (s_tasks s) (s_known s) ->
  hub_filed (s_hub s') (s_heap s') (s_tasks s') (s_known s').
Proof.
  intros Hstep Hq Hf. destruct Hstep; cbn in *.
  - eapply hub_filed_mono; eauto using heap_le_new.
  - by eapply hub_filed_register.
  - eapply hub_filed_tasks; [done|]. by right.
  - apply serve_section_Some in H1 as ->. apply hub_filed_serving.
    by eapply hub_filed_client; [..|done].
  - eapply hub_filed_client; [done..|]. by right.
  - apply (hub_filed_unregister _ _ _ _ r c) in Hf; [|done]. by eapply hub_filed_client.
  - apply hub_filed_serving. by eapply hub_filed_client.
  - by eapply hub_filed_client.
  - by eapply hub_filed_client.
  - by eapply hub_filed_client.
  - by eapply hub_filed_client.
  - eapply hub_filed_tasks; [done|]. by right.
  - by eapply hub_filed_close.
  - eapply hub_filed_mono; [done|apply close_client_le|].
    intros r' c Ht Hc. rewrite elem_of_app, elem_of_cons in Ht.
    destruct (decide (r' = r)) as [->|Hne]; [right|left; rewrite elem_of_app; naive_solver].
    by eapply close_client_closed.
  - apply (hub_filed_unregister _ _ _ _ r c) in Hf; [|done]. eapply hub_filed_tasks; [done|].
    intros x Hx. rewrite elem_of_cons in Hx. destruct Hx as [->|Hx]; [set_solver|].
    eapply (close_kept _ _ _ [TClose r]) in Hx; [exact Hx|done].
  - eapply hub_filed_tasks; [done|]. intros x. by apply (close_kept _ _ _ []).
  - destruct (Client_enqueue_keeps _ _ _ _ _ H1 (Hq _ _ H)) as (Hs & _).
    eapply hub_filed_client; [done..|]. intros x Hx.
    eapply (close_kept _ _ _ (TFanOut m rs :: _)) in Hx; [exact Hx|done].
Qed.

Lemma step_pumps s s' :
  step s s' -> hub_pumps (s_hub s) (s_heap s) -> hub_pumps (s_hub s') (s_heap s').
Proof.
  intros Hstep Hp. pose proof (hm_client _ _ Hp) as Hcl. destruct Hstep; cbn in *.
  - destruct Hp as [Hs _]. split; [by rewrite serving_count_new|].
    intros r' c'. rewrite lookup_insert_Some. intros [[<- <-]|[_ ?]]; [|by eapply Hcl].
    cbn. split; [done|lia].
  - apply registered_register in H0 as (_ & _ & _ & Hs & _). destruct Hp. split; [congruence|done].
  - done.
  - apply serve_section_Some in H1 as ->. destruct (Hcl _ _ H) as [_ ?].
    eapply hub_pumps_update; try done. unfold serving. rewrite H0. cbn. lia.
  - destruct (Hcl _ _ H) as [Hw ?]. eapply hub_pumps_update; try done.
    + unfold serving. by rewrite H0.
    + cbn. intros Hr. specialize (Hw Hr). unfold serving in Hw. by rewrite H0 in Hw.
  - destruct (Hcl _ _ H) as [_ ?]. destruct (unregister_fields h r c) as (_ & Hs & _).
    eapply hub_pumps_update; try done. rewrite Hs. unfold serving. rewrite H0. done.
  - destruct (Hcl _ _ H) as [_ ?]. eapply hub_pumps_update; try done.
    + pose proof (serving_count_insert hp r c (set_serve Gone c) H) as Hn.
      destruct Hp as [Hs _]. unfold serving in *. rewrite H0 in *. cbn in *. lia.
    + cbn. by rewrite H1.
  - destruct (Hcl _ _ H) as [Hw ?]. eapply hub_pumps_update; try done.
    cbn. rewrite length_drop. lia.
  - destruct (Hcl _ _ H) as [Hw ?]. eapply hub_pumps_update; try done.
    cbn. rewrite length_drop. lia.
  - destruct (Hcl _ _ H) as [Hw ?]. by eapply hub_pumps_update.
  - destruct (Hcl _ _ H) as [Hw ?]. by eapply hub_pumps_update.
  - done.
  - apply close_section_serving in H. destruct Hp. split; [congruence|done].
  - unfold close_client. destruct (hp !! r) as [c|] eqn:Hr.
    + by destruct (Hcl _ _ Hr); eapply hub_pumps_update.
    + done.
  - destruct (unregister_fields h r c) as (_ & Hs & _). destruct Hp. split; [congruence|done].
  - done.
  - destruct (Hcl _ _ H) as [Hw Hq].
    destruct (Client_enqueue_keeps _ _ _ _ _ H1 Hq) as (_ & Hwr & Hse & _ & ?).
    assert (serving c' = serving c) as Hsv by (unfold serving; by rewrite Hse).
    eapply hub_pumps_update; try done; [by rewrite Hsv|by rewrite Hwr, Hsv].
Qed.
