(* ===== verification/RealtimePumps.v ===== *)
(** * The loops of a socket

    [readPump] and [writePump] of [internal/realtime/client.go], and
    [Hub.Serve], which runs them, as steps of one connection inside the hub's
    system: [own] is what the goroutines of [Serve] do, [around] what happens
    meanwhile: time passes, frames arrive, other goroutines use the hub and the
    queue.  Time cannot pass a deadline that has not been dealt with.  The loops
    start when [Serve] does; a message taken from the queue is in flight until
    its write ends, and a write on a socket closed here fails. *)

From S2P Require Import Prelude GoText GoFloat Json HttpApi Constants External GoTime.
From S2P Require Import RealtimeMessage RealtimeClient RealtimeHub.

Definition maxIncomingMessageSize : Z := Z.shiftl 4 10.
Definition writeWait : Z := 10 * second.
Definition pongWait : Z := 60 * second.
Definition pingPeriod : Z := pongWait * 9 / 10.

(** ** Reading *)

(** What may happen at the socket while the reader waits: a frame, the loss of
    the connection, or [Client.Close] of this side. *)
Inductive arrival :=
| DataFrame (size : Z)
| PongFrame
| PingFrame
| CloseFrame (code : Z)
| Lost
| ClosedHere.

(** The errors [ReadMessage] ends with. *)
Inductive read_error := TimedOut | TooLarge | PeerClosed (code : Z) | Broken.

#[export] Instance read_error_eq_dec : EqDecision read_error.
Proof. solve_decision. Defined.

(** Control frames other than a close are handled by the library and reading
    goes on, as after a message that is not too large. *)
Definition ReadMessage (a : arrival) : option read_error :=
  match a with
  | DataFrame size => if maxIncomingMessageSize <? size then Some TooLarge else None
  | PongFrame | PingFrame => None
  | CloseFrame code => Some (PeerClosed code)
  | Lost | ClosedHere => Some Broken
  end.

(** The pong handler. *)
Definition pong_deadline (now : Time) (a : arrival) (deadline : Time) : Time :=
  match a with
  | PongFrame => now + pongWait
  | _ => deadline
  end.

(** The loop waits for a frame until the deadline, or it has returned; [None]
    is the return without a socket. *)
Inductive reader :=
| Waits (deadline : Time)
| Returned (at_ : Time) (err : option read_error).

(** A round of the loop. *)
Definition read_round (now : Time) (a : arrival) (deadline : Time) : reader :=
  match ReadMessage a with
  | Some err => Returned now (Some err)
  | None => Waits (pong_deadline now a deadline)
  end.

Definition readPump (c : Client) (now : Time) : reader :=
  if cl_Conn c then Waits (now + pongWait) else Returned now None.

(** [websocket.IsUnexpectedCloseError] with the codes of going away, a normal
    and an abnormal closure: such an end is logged. *)
Definition unexpected (err : read_error) : bool :=
  match err with
  | PeerClosed code => negb (existsb (Z.eqb code) [1001; 1000; 1006])
  | _ => false
  end.

(** ** Writing *)

Inductive frame :=
| TextMessage (payload : json)
| PingMessage.

(** How long a write takes, or that the connection breaks. *)
Inductive attempt := Takes (duration : Z) | Breaks.

Definition WriteMessage (a : attempt) : bool :=
  match a with
  | Takes duration => duration <? writeWait
  | Breaks => false
  end.

(** The case a round of the loop selects. *)
Inductive choice := Done | Message_of_queue | Tick.

(** What a round of the loop does before it writes, with the frame it is about
    to write; [None] when the case is not ready.  The ticker is due at [tick]. *)
Definition select_round (ch : choice) (now tick : Time) (c : Client)
    : option (Client * option frame) :=
  match ch with
  | Done => if cl_closed c then Some (set_writer Stopped c, None) else None
  | Message_of_queue =>
      match cl_Send c with
      | [] => None
      | message :: _ =>
          Some (set_chan (writer_takes 1 (chan_of c)) c, Some (TextMessage (wirePayload message)))
      end
  | Tick => if tick <=? now then Some (c, Some PingMessage) else None
  end.

(** The rest of the round: a failed write closes the client and ends the loop. *)
Definition fail_write (c : Client) : Client := set_writer Stopped (Client_Close c).

Definition written (a : attempt) (c : Client) : Client := if WriteMessage a then c else fail_write c.

(** A ticker drops the ticks that fall due while one waits to be received. *)
Definition next_tick (ch : choice) (now tick : Time) : Time :=
  match ch with
  | Tick => tick + ((now - tick) / pingPeriod + 1) * pingPeriod
  | _ => tick
  end.

(** ** Serving *)

(** One connection while [Hub.Serve] runs, inside the hub's system: its reader,
    with what has arrived; its writer, with the frame it is writing since some
    time, and what it has written. *)
Record service := mkService {
  sv_now : Time;
  sv_sys : Sys;
  sv_reader : reader;
  sv_arrived : list (Time * arrival);
  sv_tick : Time;
  sv_writing : option (Time * frame);
  sv_sent : list frame
}.

Definition put (r : ref) (c : Client) (s : Sys) : Sys :=
  mkSys (s_hub s) (<[r := c]> (s_heap s)) (s_tasks s) (s_known s).

(** [Hub.Serve] up to the loops: a closed hub only closes the client. *)
Definition Serve (now : Time) (r : ref) (c : Client) (s : Sys) : service :=
  match serve_section (s_hub s) with
  | None =>
      mkService now (put r (Client_Close (set_serve Gone c)) s) (Returned now None) [] now None []
  | Some h =>
      mkService now
        (mkSys h (<[r := set_writer Running (set_serve Reading c)]> (s_heap s)) (s_tasks s) (s_known s))
        (readPump c now) [] (now + pingPeriod) None []
  end.

Definition texts (frames : list frame) : list json :=
  omap (fun f => match f with
                 | TextMessage payload => Some payload
                 | PingMessage => None
                 end) frames.

Definition in_flight (w : option (Time * frame)) : list frame := map snd (option_list w).

(** The deadlines that time cannot pass: the reader's, and the writer's. *)
Definition within_deadlines (st : service) (now : Time) : Prop :=
  match sv_reader st with
  | Waits deadline => now <= deadline
  | Returned _ _ => True
  end /\
  match sv_writing st with
  | Some (since, _) => now <= since + writeWait
  | None => True
  end.

(** The writer's progress while another goroutine takes a step: it may write
    what it receives meanwhile, unless it is writing already or is closed. *)
Definition writer_meanwhile (now : Time) (c c' : Client) (w w' : option (Time * frame))
    (more : list frame) : Prop :=
  exists taken, cl_taken c' = cl_taken c ++ taken /\
    (taken = [] /\ w' = w /\ more = []
     \/ cl_writer c = Running /\ cl_closed c = false /\ w = None /\
        (w' = None \/ exists f, w' = Some (now, f)) /\
        texts (more ++ in_flight w') = map wirePayload taken).

(** The handler registers its client once, before it serves it. *)
Definition registers (r : ref) (s s' : Sys) : Prop :=
  exists u d, registered (s_hub s') u d = Some r /\ registered (s_hub s) u d <> Some r.

(** What the goroutines of [Hub.Serve] do: the two loops, then [Unregister] and
    the wait for the writer. *)
Inductive own (r : ref) : service -> service -> Prop :=
| own_timeout now s deadline arrived tick w sent :
    deadline <= now ->
    own r (mkService now s (Waits deadline) arrived tick w sent)
      (mkService now s (Returned now (Some TimedOut)) arrived tick w sent)
| own_socket_closed now s c deadline arrived tick w sent :
    now < deadline -> s_heap s !! r = Some c -> cl_closed c = true ->
    own r (mkService now s (Waits deadline) arrived tick w sent)
      (mkService now s (read_round now ClosedHere deadline) (arrived ++ [(now, ClosedHere)]) tick w sent)
| own_unregister now h hp ts k c t err arrived tick w sent :
    hp !! r = Some c -> cl_serve c = Reading ->
    own r (mkService now (mkSys h hp ts k) (Returned t err) arrived tick w sent)
      (mkService now
         (mkSys (unregister_section h r c) (<[r := set_serve Leaving c]> hp) (TClose r :: ts) k)
         (Returned t err) arrived tick w sent)
| own_close now h hp ts1 ts2 k c rd arrived tick w sent :
    hp !! r = Some c -> cl_serve c = Leaving -> cl_closed c = false ->
    own r (mkService now (mkSys h hp (ts1 ++ TClose r :: ts2) k) rd arrived tick w sent)
      (mkService now (mkSys h (close_client r hp) (ts1 ++ ts2) k) rd arrived tick w sent)
| own_returns now h hp ts k c rd arrived tick w sent :
    hp !! r = Some c -> cl_serve c = Leaving -> cl_closed c = true -> cl_writer c = Stopped ->
    own r (mkService now (mkSys h hp ts k) rd arrived tick w sent)
      (mkService now
         (mkSys (mkHub (hub_clients h) (hub_closed h) (pred (hub_serving h)))
            (<[r := set_serve Gone c]> hp) ts k) rd arrived tick w sent)
| own_no_socket now s c rd arrived tick sent :
    s_heap s !! r = Some c -> cl_writer c = Running -> cl_Conn c = false ->
    own r (mkService now s rd arrived tick None sent)
      (mkService now (put r (set_writer Stopped c) s) rd arrived tick None sent)
| own_selects now s c ch c' f rd arrived tick sent :
    s_heap s !! r = Some c -> cl_writer c = Running -> cl_Conn c = true ->
    select_round ch now tick c = Some (c', f) ->
    own r (mkService now s rd arrived tick None sent)
      (mkService now (put r c' s) rd arrived (next_tick ch now tick) (pair now <$> f) sent)
| own_written now s c a rd arrived tick since f sent :
    s_heap s !! r = Some c -> cl_writer c = Running ->
    a = Breaks \/ a = Takes (now - since) /\ cl_closed c = false ->
    own r (mkService now s rd arrived tick (Some (since, f)) sent)
      (mkService now (put r (written a c) s) rd arrived tick None
         (if WriteMessage a then sent ++ [f] else sent)).

(** What happens around them: time passes, the peer's frames arrive or its
    connection is lost, other goroutines work on the hub and its clients. *)
Inductive around (r : ref) : service -> service -> Prop :=
| around_time now now' s rd arrived tick w sent :
    now <= now' -> within_deadlines (mkService now s rd arrived tick w sent) now' ->
    around r (mkService now s rd arrived tick w sent) (mkService now' s rd arrived tick w sent)
| around_arrival now s deadline a arrived tick w sent :
    now < deadline -> a <> ClosedHere ->
    around r (mkService now s (Waits deadline) arrived tick w sent)
      (mkService now s (read_round now a deadline) (arrived ++ [(now, a)]) tick w sent)
| around_others now s s' c c' rd arrived tick w w' sent more :
    step s s' -> s_heap s !! r = Some c -> s_heap s' !! r = Some c' ->
    cl_serve c' = cl_serve c -> cl_writer c' = cl_writer c -> ~ registers r s s' ->
    writer_meanwhile now c c' w w' more ->
    around r (mkService now s rd arrived tick w sent)
      (mkService now s' rd arrived tick w' (sent ++ more)).

(** A run of [n] own steps, interleaved with what happens around them. *)
Inductive run (r : ref) : nat -> service -> service -> Prop :=
| run_none st : run r 0 st st
| run_own n st1 st2 st3 : run r n st1 st2 -> own r st2 st3 -> run r (S n) st1 st3
| run_around n st1 st2 st3 : run r n st1 st2 -> around r st2 st3 -> run r n st1 st3.

(** ** What serving achieves *)

Definition is_pong (a : arrival) : bool :=
  match a with
  | PongFrame => true
  | _ => false
  end.

(** No pong arrived between [t0] and [t]. *)
Definition silent_since (t0 : Time) (arrivals : list (Time * arrival)) (t : Time) : Prop :=
  forall now a, (now, a) ∈ arrivals -> is_pong a = true -> now < t -> now <= t0.

(** What the reader returned, and why. *)
Definition reading_ended (t0 : Time) (arrivals : list (Time * arrival)) (t : Time)
    (err : read_error) : Prop :=
  exists last, (last = t0 \/ exists a, (last, a) ∈ arrivals /\ is_pong a = true) /\
    t0 <= last <= t /\ t <= last + pongWait /\ silent_since last arrivals t /\
    (forall now a, (now, a) ∈ arrivals -> now < t -> ReadMessage a = None) /\
    (if decide (err = TimedOut) then t = last + pongWait
     else t < last + pongWait /\ exists a, (t, a) ∈ arrivals /\ ReadMessage a = Some err).

(** The reader still waits: a minute has not passed since the last pong. *)
Definition kept_open (t0 : Time) (arrivals : list (Time * arrival)) (now deadline : Time) : Prop :=
  exists last, (last = t0 \/ exists a, (last, a) ∈ arrivals /\ is_pong a = true) /\
    t0 <= last <= now /\ now <= last + pongWait /\ deadline = last + pongWait /\
    forall t a, (t, a) ∈ arrivals ->
      t <= now /\ ReadMessage a = None /\ (is_pong a = true -> t <= last).

Definition reading (t0 : Time) (c : Client) (st : service) : Prop :=
  match sv_reader st with
  | Waits deadline =>
      cl_Conn c = true /\ cl_serve c = Reading /\ kept_open t0 (sv_arrived st) (sv_now st) deadline
  | Returned _ None => cl_Conn c = false
  | Returned t (Some err) => cl_Conn c = true /\ reading_ended t0 (sv_arrived st) t err
  end.

(** The messages received since [taken] were written, in order and once each,
    except for one that is being written or whose writing failed. *)
Definition writing (taken : list Message) (c : Client) (st : service) : Prop :=
  (cl_writer c = Running \/ cl_writer c = Stopped /\ sv_writing st = None) /\
  exists received last, cl_taken c = taken ++ received /\ (length last <= 1)%nat /\
    map wirePayload received = texts (sv_sent st) ++ last /\
    (cl_writer c = Running -> last = texts (in_flight (sv_writing st))).

(** [Unregister] has begun, or [Serve] has returned. *)
Definition leaving (r : ref) (c : Client) (st : service) : Prop :=
  match cl_serve c with
  | NotServing => False
  | Reading => True
  | Leaving =>
      registered (s_hub (sv_sys st)) (cl_UserID c) (cl_DeviceID c) <> Some r /\
      (cl_closed c = true \/ TClose r ∈ s_tasks (sv_sys st))
  | Gone =>
      registered (s_hub (sv_sys st)) (cl_UserID c) (cl_DeviceID c) <> Some r /\
      cl_closed c = true /\ cl_writer c = Stopped
  end.

(** A connection that is served, from [c0] on at [t0]. *)
Definition in_service (r : ref) (t0 : Time) (c0 : Client) (s0 : Sys) (st : service) (c : Client)
    : Prop :=
  rtc step s0 (sv_sys st) /\ s_heap (sv_sys st) !! r = Some c /\
  same_client c0 c /\ cl_Conn c = cl_Conn c0 /\
  reading t0 c st /\ writing (cl_taken c0) c st /\ leaving r c st.

(** How many steps of its own are left for a connection that is closed. *)
Definition steps_left (c : Client) (st : service) : nat :=
  match sv_reader st with Waits _ => 1 | Returned _ _ => 0 end +
  match cl_serve c with Gone => 0 | Leaving => 1 | _ => 2 end +
  match cl_writer c, sv_writing st with
  | Stopped, _ => 0
  | _, Some _ => 1
  | _, None => 2
  end.

(** ** Lemmas *)

(** *** Reading *)

Lemma kept_open_arrival t0 arrived now deadline a (arrived' := arrived ++ [(now, a)]) :
  kept_open t0 arrived now deadline -> now < deadline ->
  match read_round now a deadline with
  | Waits deadline' => kept_open t0 arrived' now deadline'
  | Returned t (Some err) => t = now /\ reading_ended t0 arrived' t err
  | Returned _ None => False
  end.
Proof.
  intros (last & Hl & Ht & Hn & -> & Ha) Hd. unfold read_round.
  assert (Hin : forall t b, (t, b) ∈ arrived' <-> (t, b) ∈ arrived \/ t = now /\ b = a).
  { intros t b. unfold arrived'. rewrite elem_of_app, list_elem_of_singleton. naive_solver. }
  assert (Hl' : last = t0 \/ exists b, (last, b) ∈ arrived' /\ is_pong b = true).
  { destruct Hl as [?|(b & ? & ?)]; [by left|right]. exists b. rewrite Hin. auto. }
  destruct (ReadMessage a) as [err|] eqn:Hr.
  - split; [done|]. exists last. split_and!; [done|lia..| | |].
    + intros t b Hb Hp Hlt. apply Hin in Hb as [Hb|[-> _]]; [by apply (Ha t b)|lia].
    + intros t b Hb Hlt. apply Hin in Hb as [Hb|[-> _]]; [by apply (Ha t b)|lia].
    + rewrite decide_False by by destruct a; cbn in Hr; repeat case_match; simplify_eq.
      split; [lia|]. exists a. split; [apply Hin; by right|done].
  - destruct (is_pong a) eqn:Hp; (destruct a; try done); cbn [pong_deadline].
    + exists now. split_and!; [right; exists PongFrame; split; [apply Hin; by right|done]
        |lia|lia|assert (0 < pongWait) by done; lia|done|].
      intros t b [Hb|[-> ->]]%Hin; [|done]. destruct (Ha t b Hb) as (? & ? & ?). split_and!; [done..|lia].
    + exists last. split_and!; [done|lia|lia|lia|done|].
      intros t b [Hb|[-> ->]]%Hin; [by apply Ha|done].
    + exists last. split_and!; [done|lia|lia|lia|done|].
      intros t b [Hb|[-> ->]]%Hin; [by apply Ha|done].
Qed.

Lemma kept_open_timeout t0 arrived now deadline :
  kept_open t0 arrived now deadline -> deadline <= now -> reading_ended t0 arrived now TimedOut.
Proof.
  intros (last & Hl & Ht & Hn & -> & Ha) Hd. exists last. split_and!; [done|lia..| | |].
  - intros t b Hb Hp _. by apply (Ha t b).
  - intros t b Hb _. by apply (Ha t b).
  - rewrite decide_True by done. lia.
Qed.

(** The peer answers the first [n] pings within [delay]. *)
Definition answers_pings (start : Time) (arrivals : list (Time * arrival)) (n : nat) (delay : Z)
    : Prop :=
  forall k, (1 <= k <= n)%nat -> exists p, (p, PongFrame) ∈ arrivals /\
    start + Z.of_nat k * pingPeriod <= p <= start + Z.of_nat k * pingPeriod + delay.

(** Pings are frequent enough: with the time between them and the deadline to
    answer, the peer is not timed out. *)
Lemma answered_pings_keep_reading start arrivals t n delay :
  reading_ended start arrivals t TimedOut -> answers_pings start arrivals n delay ->
  delay < pongWait - pingPeriod -> start + Z.of_nat n * pingPeriod + pongWait <= t.
Proof.
  intros (last & _ & Hlast & _ & Hs & _ & Ht) Hp Hd. rewrite decide_True in Ht by done.
  assert (Hall : forall k, (k <= n)%nat -> start + Z.of_nat k * pingPeriod + pongWait <= t).
  { induction k as [|k IH]; intros Hk; [lia|]. specialize (IH ltac:(lia)).
    destruct (Hp (S k) ltac:(lia)) as (p & Hin & Hle). rewrite Nat2Z.inj_succ in *.
    pose proof (Hs _ _ Hin eq_refl ltac:(lia)). lia. }
  by apply Hall.
Qed.

(** *** Steps of the hub *)

Lemma texts_app a b : texts (a ++ b) = texts a ++ texts b.
Proof. apply omap_app. Qed.

(** The same connection, on the same socket. *)
Definition same_socket (c c' : Client) : Prop := same_client c c' /\ cl_Conn c' = cl_Conn c.

Lemma same_socket_insert (hp : heap) r r1 c c1 c2 c' :
  hp !! r = Some c -> hp !! r1 = Some c1 -> same_socket c1 c2 -> <[r1 := c2]> hp !! r = Some c' ->
  same_socket c c'.
Proof. intros Hc Hc1 Hs Hl. rewrite lookup_insert in Hl. case_decide; simplify_eq; [done|by split]. Qed.

Lemma same_socket_close (hp : heap) r r1 c c' :
  hp !! r = Some c -> close_client r1 hp !! r = Some c' -> same_socket c c'.
Proof.
  unfold close_client. intros Hc Hl. destruct (hp !! r1) as [c1|] eqn:H1; [|by simplify_eq].
  eapply (same_socket_insert hp r r1 c c1); [done|done| |exact Hl]. done.
Qed.

(** Whoever acts, a connection keeps its identity and its socket, and what is
    owed to it stays owed or is done. *)
Lemma step_client s s' r c c' :
  step s s' -> s_heap s !! r = Some c -> s_heap s' !! r = Some c' ->
  same_socket c c' /\ (TClose r ∈ s_tasks s -> TClose r ∈ s_tasks s' \/ cl_closed c' = true).
Proof.
  intros Hstep Hc Hc'. destruct Hstep; cbn in *;
    try (split; [eapply (same_socket_insert _ _ _ _ _ _ _ Hc H); [|exact Hc']; done|set_solver]);
    try (simplify_eq; split; [done|set_solver]).
  - rewrite lookup_insert_ne in Hc' by congruence. simplify_eq. split; [done|set_solver].
  - split; [by eapply same_socket_close|]. destruct (decide (r = r0)) as [->|Hne]; [|set_solver].
    intros _. right. by eapply close_client_closed.
  - split; [|set_solver]. eapply same_socket_insert; [done|exact H| |done].
    revert H1. unfold Client_enqueue. repeat case_match; [|done]. by intros [= _ <-].
Qed.

(** *** Serving *)

Lemma in_service_start r now c s (st := Serve now r c s) :
  s_heap s !! r = Some c -> hub_closed (s_hub s) = false ->
  in_service r now c (sv_sys st) st (set_writer Running (set_serve Reading c)).
Proof.
  intros Hc Ho. subst st. unfold Serve, serve_section. rewrite Ho. split_and!; cbn; try done.
  - apply lookup_insert_eq.
  - unfold reading, readPump. destruct (cl_Conn c) eqn:Hs; cbn; [|done].
    split_and!; [done..|]. exists now. split_and!; [by left|lia|lia|assert (0 < pongWait) by done; lia|done|].
    intros t a Hin. by apply elem_of_nil in Hin.
  - split; [by left|]. exists [], []. split_and!; [by rewrite app_nil_r|cbn; lia|done|done].
Qed.

Lemma step_writer_takes r c s message rest :
  s_heap s !! r = Some c -> cl_writer c = Running -> cl_Send c = message :: rest ->
  step s (put r (set_chan (writer_takes 1 (chan_of c)) c) s).
Proof. intros. destruct s. by apply step_writer_sends. Qed.

(** The rounds of the writer, up to the write and after it. *)
Lemma select_round_service r t0 c0 s0 now s c ch c' f rd arrived tick sent :
  in_service r t0 c0 s0 (mkService now s rd arrived tick None sent) c ->
  cl_writer c = Running -> select_round ch now tick c = Some (c', f) ->
  in_service r t0 c0 s0
    (mkService now (put r c' s) rd arrived (next_tick ch now tick) (pair now <$> f) sent) c'.
Proof.
  intros (Hs & Hc & Hid & Hconn & Hr & Hw & Hl) Hrun H.
  destruct Hw as (_ & received & last & Htaken & Hlen & Hsent & Hlast).
  specialize (Hlast Hrun). cbn in Hlast, Hsent, Hs, Hc. subst last. rewrite app_nil_r in Hsent.
  destruct ch; cbn in H.
  - destruct (cl_closed c) eqn:Hcl; [|done]. injection H as <- <-. split_and!; try done.
    + eapply rtc_r; [exact Hs|]. destruct s. apply step_writer_done; auto.
    + apply lookup_insert_eq.
    + split; [by right|]. exists received, []. rewrite app_nil_r. split_and!; [done|cbn; lia|done|done].
    + unfold leaving in *. cbn in *. destruct (cl_serve c); naive_solver.
  - destruct (cl_Send c) as [|message rest] eqn:Hq; [done|]. injection H as <- <-. split_and!; try done.
    + eapply rtc_r; [exact Hs|]. by eapply step_writer_takes.
    + apply lookup_insert_eq.
    + split; [by left|]. exists (received ++ [message]), [wirePayload message]. cbn.
      rewrite Hq, Htaken, map_app, Hsent, app_assoc. split_and!; [done|lia|done|done].
  - destruct (tick <=? now); [|done]. injection H as <- <-. split_and!; try done.
    + destruct s. unfold put. cbn in *. by rewrite insert_id.
    + apply lookup_insert_eq.
    + split; [by left|]. exists received, []. rewrite app_nil_r. split_and!; [done|cbn; lia|done|done].
Qed.

Lemma written_service r t0 c0 s0 now s c a rd arrived tick since f sent :
  in_service r t0 c0 s0 (mkService now s rd arrived tick (Some (since, f)) sent) c ->
  cl_writer c = Running ->
  in_service r t0 c0 s0
    (mkService now (put r (written a c) s) rd arrived tick None
       (if WriteMessage a then sent ++ [f] else sent)) (written a c).
Proof.
  intros (Hs & Hc & Hid & Hconn & Hr & Hw & Hl) Hrun.
  destruct Hw as (_ & received & last & Htaken & Hlen & Hsent & Hlast).
  specialize (Hlast Hrun). cbn in Hlast, Hsent, Hs, Hc. unfold written.
  destruct (WriteMessage a).
  - split_and!; try done.
    + destruct s. unfold put. cbn in *. by rewrite insert_id.
    + apply lookup_insert_eq.
    + split; [by left|]. exists received, []. cbn [sv_sent sv_writing]. rewrite app_nil_r, texts_app, Hsent, Hlast.
      split_and!; [done|cbn; lia|done|done].
  - split_and!; try done.
    + eapply rtc_r; [exact Hs|]. destruct s. by apply step_ping_fails.
    + apply lookup_insert_eq.
    + by destruct Hid as (? & ? & _).
    + split; [by right|]. by exists received, last.
    + unfold leaving in *. cbn in *. destruct (cl_serve c); naive_solver.
Qed.

Lemma unregistered h r c : registered (unregister_section h r c) (cl_UserID c) (cl_DeviceID c) <> Some r.
Proof. rewrite registered_unregister. case_decide; [done|]. naive_solver. Qed.

(** A reference has one client. *)
Ltac same_ref r c :=
  match goal with
  | Hc : _ !! r = Some c, H : _ !! r = Some ?x |- _ =>
      tryif constr_eq x c then fail else (assert (x = c) by congruence; subst x)
  end.

(** A step of the goroutines of [Serve] keeps what is known of the connection. *)
Lemma own_service r t0 c0 s0 st st' c :
  in_service r t0 c0 s0 st c -> own r st st' -> exists c', in_service r t0 c0 s0 st' c'.
Proof.
  intros Hin Hown.
  destruct Hown; pose proof Hin as (Hs & Hc & Hid & Hconn & Hr & Hw & Hl); cbn in Hs, Hc; cbn in *;
    try same_ref r c.
  - exists c. split_and!; try done. destruct Hr as (Hsock & _ & Hr). split; [done|].
    by eapply kept_open_timeout.
  - exists c. split_and!; try done. destruct Hr as (Hsock & _ & Hr). split; [done|].
    by eapply (kept_open_arrival _ _ _ _ ClosedHere Hr).
  - exists (set_serve Leaving c). split_and!; try done.
    + eapply rtc_r; [exact Hs|]. by apply step_reader_ends.
    + apply lookup_insert_eq.
    + split; [apply (unregistered h r c)|right; by left].
  - exists (Client_Close c). unfold close_client. rewrite H. split_and!; try done.
    + eapply rtc_r; [exact Hs|]. pose proof (step_task_close h hp ts1 ts2 k r) as Hstep.
      unfold close_client in Hstep. by rewrite H in Hstep.
    + apply lookup_insert_eq.
    + by destruct Hid as (? & ? & _).
    + unfold leaving in *. cbn in *. destruct (cl_serve c); naive_solver.
  - exists (set_serve Gone c). split_and!; try done.
    + eapply rtc_r; [exact Hs|]. by apply step_served.
    + apply lookup_insert_eq.
    + unfold reading in *. cbn in *. destruct rd; [naive_solver congruence|done].
    + unfold leaving in Hl. rewrite H0 in Hl. cbn in *. naive_solver.
  - exists (set_writer Stopped c). split_and!; try done.
    + eapply rtc_r; [exact Hs|]. destruct s. apply step_writer_done; auto.
    + apply lookup_insert_eq.
    + destruct Hw as (_ & received & last & ? & ? & ? & _). split; [by right|]. by exists received, last.
    + unfold leaving in *. cbn in *. destruct (cl_serve c); naive_solver.
  - exists c'. by eapply select_round_service.
  - exists (written a c). by eapply written_service.
Qed.

Lemma writing_meanwhile taken0 now c c' w w' s s' rd arrived tick sent more :
  writing taken0 c (mkService now s rd arrived tick w sent) -> writer_meanwhile now c c' w w' more ->
  cl_writer c' = cl_writer c -> writing taken0 c' (mkService now s' rd arrived tick w' (sent ++ more)).
Proof.
  intros (Hrun & received & last & Htaken & Hlen & Hsent & Hlast) (new & Hnew & Hcase) Hw.
  unfold writing in *. cbn in *. rewrite Hw.
  destruct Hcase as [(-> & -> & ->)|(Hr & _ & -> & Hw' & Htexts)].
  - rewrite !app_nil_r in *. split; [done|]. exists received, last. by rewrite Hnew.
  - specialize (Hlast Hr). subst last. rewrite app_nil_r in Hsent. split; [by left|].
    exists (received ++ new), (texts (in_flight w')). split_and!; [by rewrite Hnew, Htaken, app_assoc| | |done].
    + destruct Hw' as [->|[[] ->]]; cbn; lia.
    + by rewrite map_app, Hsent, <- Htexts, !texts_app, app_assoc.
Qed.

(** So does what happens around it. *)
Lemma around_service r t0 c0 s0 st st' c :
  in_service r t0 c0 s0 st c -> around r st st' -> exists c', in_service r t0 c0 s0 st' c'.
Proof.
  intros Hin Har.
  destruct Har; pose proof Hin as (Hs & Hc & Hid & Hconn & Hr & Hw & Hl); cbn in Hs, Hc; cbn in *;
    try same_ref r c.
  - exists c. split_and!; try done. unfold reading in *. cbn in *. destruct rd as [deadline|]; [|done].
    destruct Hr as (? & ? & last & ? & ? & ? & ? & Ha), H0 as [Hd _]. split_and!; [done..|].
    cbn in Hd. exists last. split_and!; [done|lia|lia|lia|done|].
    intros t a Hta. destruct (Ha t a Hta) as (? & ? & ?). split_and!; [lia|done..].
  - exists c. split_and!; try done. destruct Hr as (Hsock & Hsv & Hr).
    pose proof (kept_open_arrival _ _ _ _ a Hr H) as Hk.
    unfold reading. cbn. destruct (read_round now a deadline) as [d|t [e|]]; naive_solver.
  - exists c'. destruct (step_client _ _ _ _ _ H Hc H1) as [[Hsame Hsock] Htask].
    destruct Hsame as (Hu & Hd & Hcl).
    split_and!; try done.
    + by eapply rtc_r.
    + destruct Hid as (? & ? & ?). split_and!; [congruence|congruence|auto].
    + congruence.
    + unfold reading in *. cbn in *. rewrite Hsock. destruct rd; [|done]. by rewrite H2.
    + by eapply writing_meanwhile.
    + unfold leaving in *. cbn in *. rewrite H2, Hu, Hd.
      destruct (cl_serve c); [done|done|..].
      * destruct Hl as (Hreg & Hor). split;
          [intros Hx; apply H4; eexists _, _; eauto|].
        destruct Hor as [?|Ht]; [left; auto|destruct (Htask Ht); auto].
      * destruct Hl as (Hreg & ? & ?). split; [|split; [auto|congruence]].
        intros Hx. apply H4. eexists _, _. eauto.
Qed.

Lemma run_service r t0 c0 s0 n st0 st c :
  in_service r t0 c0 s0 st0 c -> run r n st0 st -> exists c', in_service r t0 c0 s0 st c'.
Proof.
  intros Hin Hrun. induction Hrun as [|? ? ? ? _ IH Hown|? ? ? ? _ IH Har]; [by eexists| |];
    destruct (IH Hin) as [c1 Hc1]; [by eapply own_service|by eapply around_service].
Qed.

(** *** The end *)

(** The goroutines of [Serve] are never stuck: one of them can go on, unless the
    reader waits for the peer until its deadline. *)
Lemma own_progress r t0 c0 s0 st c :
  in_service r t0 c0 s0 st c -> cl_serve c <> Gone ->
  (exists st', own r st st') \/ exists deadline, sv_reader st = Waits deadline /\ sv_now st < deadline.
Proof.
  destruct st as [now [h hp ts k] rd arrived tick w sent].
  intros (_ & Hc & _ & _ & Hr & Hw & Hl) Hgone. cbn in Hc.
  destruct rd as [deadline|t err].
  { destruct (Z.lt_ge_cases now deadline); [right; eauto|left]. by eexists; apply own_timeout. }
  left. unfold leaving in Hl. cbn in Hl. destruct (cl_serve c) eqn:Hs; [done|..|done].
  { by eexists; eapply own_unregister. }
  destruct Hl as (_ & Hor). destruct (cl_closed c) eqn:Hcl.
  2:{ destruct Hor as [?|(ts1 & ts2 & ->)%list_elem_of_split]; [done|]. by eexists; eapply own_close. }
  destruct Hw as [[Hrun|[Hstop _]] _]; [|by eexists; eapply own_returns].
  destruct w as [[since f]|].
  - eexists. eapply (own_written _ _ _ _ Breaks); eauto.
  - destruct (cl_Conn c) eqn:Hconn; [|by eexists; eapply own_no_socket].
    eexists. eapply (own_selects _ _ _ _ Done); [done..|]. cbn. by rewrite Hcl.
Qed.

(** Once the connection is closed, what is left to do only decreases. *)
Lemma own_decreases r t0 c0 s0 st st' c :
  in_service r t0 c0 s0 st c -> cl_closed c = true -> own r st st' ->
  exists c', s_heap (sv_sys st') !! r = Some c' /\ cl_closed c' = true /\
    (steps_left c' st' < steps_left c st)%nat.
Proof.
  intros (_ & Hc & _ & _ & Hr & _ & _) Hclosed Hown.
  destruct Hown; cbn in *; try same_ref r c; unfold steps_left; cbn.
  - exists c. split_and!; [done..|lia].
  - exists c. split_and!; [done..|lia].
  - exists (set_serve Leaving c). rewrite lookup_insert_eq. cbn. rewrite H0. split_and!; [done..|lia].
  - congruence.
  - exists (set_serve Gone c). rewrite lookup_insert_eq. cbn. rewrite H0. split_and!; [done..|lia].
  - exists (set_writer Stopped c). rewrite lookup_insert_eq. cbn. rewrite H0. split_and!; [done..|lia].
  - exists c'. rewrite lookup_insert_eq, H0.
    destruct ch; cbn in H2.
    + rewrite Hclosed in H2. injection H2 as <- <-. cbn. split_and!; [done..|lia].
    + destruct (cl_Send c); [done|]. injection H2 as <- <-. cbn. rewrite H0. split_and!; [done..|lia].
    + destruct (tick <=? now); [|done]. injection H2 as <- <-. cbn. rewrite H0. split_and!; [done..|lia].
  - exists (written a c). rewrite lookup_insert_eq, H0. unfold written, WriteMessage.
    destruct H1 as [->|[-> ?]]; [|congruence]. cbn. split_and!; [done..|lia].
Qed.

Lemma around_keeps_left r st st' c :
  s_heap (sv_sys st) !! r = Some c -> cl_closed c = true -> around r st st' ->
  exists c', s_heap (sv_sys st') !! r = Some c' /\ cl_closed c' = true /\
    (steps_left c' st' <= steps_left c st)%nat.
Proof.
  intros Hc Hclosed Har. destruct Har; cbn in *; try same_ref r c; unfold steps_left; cbn.
  - by exists c.
  - exists c. split_and!; [done..|]. unfold read_round. destruct (ReadMessage a); lia.
  - destruct (step_client _ _ _ _ _ H Hc H1) as [[(_ & _ & Hcl) _] _]. exists c'.
    destruct H5 as (new & _ & [(_ & -> & _)|(_ & ? & _)]); [|congruence].
    rewrite H2, H3. split_and!; [done|auto|lia].
Qed.

Lemma run_decreases r t0 c0 s0 n st st' c :
  in_service r t0 c0 s0 st c -> cl_closed c = true -> run r n st st' ->
  exists c', s_heap (sv_sys st') !! r = Some c' /\ cl_closed c' = true /\
    (steps_left c' st' + n <= steps_left c st)%nat.
Proof.
  intros Hin Hclosed Hrun.
  induction Hrun as [|n st1 st2 st3 Hrun IH Hown|n st1 st2 st3 Hrun IH Har].
  - exists c. split_and!; [apply Hin|done|lia].
  - destruct (IH Hin) as (c2 & Hc2 & Hcl & Hle). destruct (run_service _ _ _ _ _ _ _ _ Hin Hrun) as [c2' Hin2].
    assert (c2' = c2) as -> by (destruct Hin2 as (_ & ? & _); congruence).
    destruct (own_decreases _ _ _ _ _ _ _ Hin2 Hcl Hown) as (c3 & ? & ? & ?). exists c3. split_and!; [done..|lia].
  - destruct (IH Hin) as (c2 & Hc2 & Hcl & Hle).
    destruct (around_keeps_left _ _ _ _ Hc2 Hcl Har) as (c3 & ? & ? & ?). exists c3. split_and!; [done..|lia].
Qed.

Lemma steps_left_bound c st : (steps_left c st <= 5)%nat.
Proof. unfold steps_left. repeat case_match; lia. Qed.

(** *** Runs *)

Lemma run_own_first r n st1 st2 st3 : own r st1 st2 -> run r n st2 st3 -> run r (S n) st1 st3.
Proof.
  intros H Hrun. induction Hrun; [|by eapply run_own; [apply IHHrun|]|by eapply run_around; [apply IHHrun|]].
  eapply run_own; [apply run_none|exact H].
Qed.

Lemma run_around_first r n st1 st2 st3 : around r st1 st2 -> run r n st2 st3 -> run r n st1 st3.
Proof.
  intros H Hrun. induction Hrun; [|by eapply run_own; [apply IHHrun|]|by eapply run_around; [apply IHHrun|]].
  eapply run_around; [apply run_none|exact H].
Qed.

Lemma same_hub_registers r s s' : s_hub s' = s_hub s -> ~ registers r s s'.
Proof. intros Hh (u & d & Hyes & Hno). by rewrite Hh in Hyes. Qed.
