(* ===== verification/RealtimeTheorems.v ===== *)
(** * What the connection hub guarantees

    However the goroutines interleave, connections are filed under their own
    identity, a connection that was replaced or removed gets closed, shutdown
    is final, and a published event reaches exactly the other devices of its
    user; a connection that is served leaves the hub in the end. *)

From S2P Require Import Prelude GoText GoFloat Json HttpApi Constants External GoTime.
From S2P Require Import RealtimeMessage RealtimeClient RealtimeHub RealtimePumps.

(** What happened to a target of a publication: the hint is queued, or the
    connection was dropped because it was closed or jammed. *)
Definition hinted (m : Message) (c : Client) (h' : Hub) (hp' : heap) (u : UUID) (d : string)
    (r : ref) : Prop :=
  exists c', hp' !! r = Some c' /\
    (registered h' u d = Some r /\ cl_closed c' = cl_closed c /\
     enqueued m (chan_of c) true (chan_of c')
     \/ registered h' u d = None /\ cl_closed c' = true /\
        (cl_closed c = true \/ exists x, x ∈ cl_Send c /\ is_hint x = false)).

(** ** A run with two devices *)

Definition demo_event : SyncAvailableEvent := mkEvent 1 "phone" 7.

Definition phone_client : Client := NewClient 1 "phone" true.
Definition laptop_client : Client := NewClient 1 "laptop" true.

(** The hub after a registration that is accepted. *)
Definition after_register (h : Hub) (r : ref) (c : Client) : Hub :=
  match register_section h r c with
  | Ok (h', _) => h'
  | Err _ => h
  end.

Definition two_hub : Hub := after_register (after_register NewHub 0%nat phone_client) 1%nat laptop_client.
Definition two_heap : heap := <[1%nat := laptop_client]> (<[0%nat := phone_client]> ∅).
Definition two_known : gset ref := {[1%nat]} ∪ ({[0%nat]} ∪ ∅).

(** Both devices are connected. *)
Definition two_devices : Sys := mkSys two_hub two_heap [] two_known.

(** The hub is closing. *)
Definition closing : Sys :=
  mkSys (mkHub ∅ true 0) two_heap (map TClose (all_clients two_hub) ++ []) two_known.

(** The phone has opened a second connection, not yet registered. *)
Definition phone_again : Sys := mkSys two_hub (<[2%nat := phone_client]> two_heap) [] two_known.

(** ** Lemmas *)

Lemma reachable_inv s : reachable s -> hub_inv s.
Proof.
  intros Hr. refine (rtc_ind_r hub_inv initial _ _ s Hr).
  - split; by split.
  - intros s1 s2 _ Hstep [Hf Hp]. split; [|by eapply step_pumps].
    eapply step_filed; [done| |done]. intros r c Hc. by apply (hm_client _ _ Hp) in Hc as [_ ?].
Qed.

Lemma step_stays_closed s s' : step s s' -> hub_closed (s_hub s) = true -> hub_closed (s_hub s') = true.
Proof.
  intros Hstep. destruct Hstep; cbn; try done.
  - by apply registered_register in H0 as (_ & -> & _).
  - by apply serve_section_Some in H1 as ->.
  - by destruct (unregister_fields h r c) as (-> & _).
  - unfold close_section in H. case_match; [done|]. by injection H as <- _.
  - by destruct (unregister_fields h r c) as (-> & _).
Qed.

Lemma rtc_stays_closed s s' :
  rtc step s s' -> hub_closed (s_hub s) = true -> hub_closed (s_hub s') = true.
Proof. induction 1; eauto using step_stays_closed. Qed.

(** Fan-out does not touch clients that are not targets. *)
Lemma fan_out_other steal m rs h hp r :
  r ∉ rs ->
  snd (fan_out steal m rs h hp) !! r = hp !! r /\
  forall u d, registered h u d = Some r -> registered (fst (fan_out steal m rs h hp)) u d = Some r.
Proof.
  revert h hp. induction rs as [|r0 rest IH]; intros h hp Hr; [done|]. cbn.
  apply not_elem_of_cons in Hr as [Hne Hr].
  destruct (hp !! r0) as [c|] eqn:Hc; [|by apply IH].
  destruct (Client_enqueue _ _ _) as [[[] c']|] eqn:He; [| |by apply IH].
  - destruct (IH h (<[r0 := c']> hp) Hr) as [-> ?]. by rewrite lookup_insert_ne.
  - destruct (IH (unregister_section h r0 c') (close_client r0 (<[r0 := c']> hp)) Hr) as [-> Hreg].
    split.
    + unfold close_client. rewrite lookup_insert_eq. by rewrite !lookup_insert_ne.
    + intros u d Hud. apply Hreg. rewrite registered_unregister. case_decide as Hd; [|done].
      destruct Hd as (_ & _ & Hd). congruence.
Qed.

(** Fan-out registers nobody. *)
Lemma fan_out_shrinks steal m rs h hp u d :
  registered h u d = None -> registered (fst (fan_out steal m rs h hp)) u d = None.
Proof.
  revert h hp. induction rs as [|r0 rest IH]; intros h hp Hn; [done|]. cbn.
  destruct (hp !! r0) as [c|]; [|by apply IH].
  destruct (Client_enqueue _ _ _) as [[[] c']|]; [by apply IH| |by apply IH].
  cbn. apply IH. rewrite registered_unregister. by case_decide.
Qed.

Lemma enqueue_refused steal closed m c c' :
  is_hint m = true -> (length (ch_queue c) <= sendQueueSize)%nat ->
  enqueue steal closed m c = Some (false, c') ->
  closed = true \/ exists x, x ∈ ch_queue c /\ is_hint x = false.
Proof.
  intros Hm Hl. destruct closed; [by left|].
  destruct (enqueue_hint steal m c Hm Hl) as (b & c1 & -> & _ & H). intros [= -> ->]. right.
  by destruct H as [_ ?].
Qed.

Lemma enqueue_returns steal closed m c :
  is_hint m = true -> (length (ch_queue c) <= sendQueueSize)%nat ->
  exists sent c', enqueue steal closed m c = Some (sent, c') /\ (sent = true -> enqueued m c true c').
Proof.
  intros Hm Hl. destruct closed; [by eexists false, _|].
  destruct (enqueue_hint steal m c Hm Hl) as (b & c1 & -> & H). exists b, c1. split; [done|]. by intros ->.
Qed.

(** A target of the fan-out is hinted. *)
Lemma fan_out_target steal m rs h hp r c u d :
  is_hint m = true -> NoDup rs -> r ∈ rs -> hp !! r = Some c -> registered h u d = Some r ->
  cl_UserID c = u -> cl_DeviceID c = d -> (length (cl_Send c) <= sendQueueSize)%nat ->
  hinted m c (fst (fan_out steal m rs h hp)) (snd (fan_out steal m rs h hp)) u d r.
Proof.
  intros Hm. revert h hp. induction rs as [|r0 rest IH]; intros h hp; [by intros _ ?%elem_of_nil|].
  intros [Hr0 Hnd]%NoDup_cons Hin Hc Hreg Hu Hd Hl. cbn.
  destruct (decide (r = r0)) as [<-|Hne].
  - rewrite Hc. unfold Client_enqueue.
    destruct (enqueue_returns (steal r) (cl_closed c) m (chan_of c) Hm Hl) as (sent & ch & He & Hs).
    rewrite He. destruct sent.
    + destruct (fan_out_other steal m rest h (<[r := set_chan ch c]> hp) r Hr0) as [Hl' Hr'].
      eexists. rewrite Hl', lookup_insert_eq. split; [done|]. left. split_and!; [by apply Hr'|done|].
      destruct ch. by apply Hs.
    + set (h1 := unregister_section _ _ _). set (hp1 := close_client _ _).
      destruct (fan_out_other steal m rest h1 hp1 r Hr0) as [Hl' _].
      eexists. rewrite Hl'. subst hp1. unfold close_client. rewrite lookup_insert_eq, lookup_insert_eq.
      split; [done|]. right. split_and!;
        [|done|by apply (enqueue_refused (steal r) _ m (chan_of c) ch)].
      apply fan_out_shrinks. subst h1. rewrite registered_unregister. by rewrite decide_True.
  - apply elem_of_cons in Hin as [|Hin]; [done|].
    destruct (hp !! r0) as [c0|]; [|by apply IH].
    destruct (Client_enqueue _ _ _) as [[[] c']|]; [| |by apply IH].
    + apply IH; try done. by rewrite lookup_insert_ne.
    + cbn. apply IH; try done.
      * unfold close_client. rewrite lookup_insert_eq. by rewrite !lookup_insert_ne.
      * rewrite registered_unregister. case_decide as Hx; [|done]. destruct Hx as (_ & _ & Hx). congruence.
Qed.

Lemma elem_of_publish_targets h event r :
  r ∈ publish_targets h event <->
  exists d, registered h (Ev_UserID event) d = Some r /\ d <> Ev_OriginDeviceID event.
Proof.
  unfold publish_targets, registered. rewrite list_elem_of_fmap. split.
  - intros ([d r'] & -> & [Hd Hin]%list_elem_of_filter). exists d.
    by apply elem_of_map_to_list in Hin.
  - intros (d & Hr & Hd). exists (d, r). split; [done|]. apply list_elem_of_filter. split; [done|].
    by apply elem_of_map_to_list.
Qed.

(** No client is filed twice. *)
Lemma publish_targets_NoDup h hp ts k event :
  hub_filed h hp ts k -> NoDup (publish_targets h event).
Proof.
  intros Hf. unfold publish_targets. apply NoDup_fmap_2_strong; [|apply NoDup_filter, NoDup_map_to_list].
  intros [d1 r1] [d2 r2] [_ H1]%list_elem_of_filter [_ H2]%list_elem_of_filter.
  cbn. intros <-. apply elem_of_map_to_list in H1, H2.
  apply (hf_own _ _ _ _ Hf) in H1 as (_ & c & ? & _ & <-), H2 as (_ & c' & ? & _ & <-). congruence.
Qed.

Lemma not_serving hp r c : hp !! r = Some c -> serving_count hp = 0%nat -> serving c = false.
Proof.
  intros Hr Hz. apply not_true_iff_false. intros Hs. unfold serving_count in Hz.
  apply length_zero_iff_nil in Hz. apply (not_elem_of_nil (r, c)). rewrite <- Hz.
  apply list_elem_of_filter. split; [done|]. by apply elem_of_map_to_list.
Qed.

Lemma two_devices_reachable : reachable two_devices.
Proof.
  eapply rtc_l; [apply (step_connect _ _ _ _ 0%nat 1%N "phone" true); done|].
  eapply rtc_l; [apply (step_register _ _ _ _ 0%nat phone_client (after_register NewHub 0%nat phone_client) None); done|].
  eapply rtc_l; [apply (step_connect _ _ _ _ 1%nat 1%N "laptop" true); done|].
  eapply rtc_l; [apply (step_register _ _ _ _ 1%nat laptop_client two_hub None); done|].
  apply rtc_refl.
Qed.

Lemma closing_reachable : reachable closing.
Proof.
  eapply rtc_r; [apply two_devices_reachable|]. by apply step_close.
Qed.

Lemma phone_again_reachable : reachable phone_again.
Proof.
  eapply rtc_r; [apply two_devices_reachable|].
  by apply (step_connect _ _ _ _ 2%nat 1%N "phone" true).
Qed.

(** ** Properties *)

(** C17: in every reachable state of the hub and its goroutines a connection is
    filed under its own user and device only, every connection that was ever
    accepted and is no longer filed is closed or some goroutine is about to
    close it, the wait group counts the connections being served, and no queue
    exceeds its capacity. *)
Theorem no_connection_leaks (s : Sys) (Hreach : reachable s) :
  (forall u d r, registered (s_hub s) u d = Some r ->
     exists c, s_heap s !! r = Some c /\ cl_UserID c = u /\ cl_DeviceID c = d) /\
  (forall r, r ∈ s_known s -> exists c, s_heap s !! r = Some c /\
     (registered (s_hub s) (cl_UserID c) (cl_DeviceID c) = Some r
      \/ cl_closed c = true \/ TClose r ∈ s_tasks s)) /\
  hub_serving (s_hub s) = serving_count (s_heap s) /\
  forall r c, s_heap s !! r = Some c -> (length (cl_Send c) <= sendQueueSize)%nat.
Proof.
  destruct (reachable_inv s Hreach) as [[Hown _ _ Hknown] [Hs Hcl]]. split_and!; [|done|done|].
  - intros u d r (_ & ?)%Hown. done.
  - by intros r c [_ ?]%Hcl.
Qed.

Lemma no_connection_leaks_witness :
  hub_serving two_hub = serving_count two_heap /\
  forall r, r ∈ two_known -> exists c, two_heap !! r = Some c /\
    (registered two_hub (cl_UserID c) (cl_DeviceID c) = Some r
     \/ cl_closed c = true \/ TClose r ∈ @nil task).
Proof.
  destruct (no_connection_leaks two_devices two_devices_reachable) as (_ & Hk & Hs & _).
  split; [exact Hs|exact Hk].
Defined.

(** Once the hub is closed it stays closed and nobody is filed any more;
    when the wait group has drained no reader or writer is running, and when
    the owed work is done every connection ever accepted is closed. *)
Theorem shutdown_is_final (s s' : Sys) (Hreach : reachable s)
    (Hclosed : hub_closed (s_hub s) = true) (Hlater : rtc step s s') :
  hub_closed (s_hub s') = true /\ (forall u d, registered (s_hub s') u d = None) /\
  (hub_serving (s_hub s') = 0%nat -> forall r c, s_heap s' !! r = Some c ->
     serving c = false /\ cl_writer c <> Running) /\
  (s_tasks s' = [] -> forall r, r ∈ s_known s' ->
     exists c, s_heap s' !! r = Some c /\ cl_closed c = true).
Proof.
  pose proof (rtc_stays_closed _ _ Hlater Hclosed) as Hc.
  assert (Hreach' : reachable s') by (unfold reachable in *; by transitivity s).
  destruct (reachable_inv s' Hreach') as [[_ _ He Hknown] [Hs Hcl]].
  specialize (He Hc).
  assert (Hnone : forall u d, registered (s_hub s') u d = None).
  { intros u d. unfold registered, user_clients. by rewrite He, !lookup_empty. }
  split_and!; [done|done| |].
  - intros Hz r c Hr. rewrite Hs in Hz. pose proof (not_serving _ _ _ Hr Hz) as Hn.
    split; [done|]. intros Hw. apply Hcl in Hr as [Hr _]. rewrite Hr in Hn; done.
  - intros Ht r (c & Hr & Hor)%Hknown. exists c. split; [done|].
    destruct Hor as [Hreg|[?|Hin]]; [by rewrite Hnone in Hreg|done|].
    rewrite Ht in Hin. by apply elem_of_nil in Hin.
Qed.

Lemma shutdown_is_final_witness :
  hub_closed (s_hub closing) = true /\ (forall u d, registered (s_hub closing) u d = None) /\
  (hub_serving (s_hub closing) = 0%nat -> forall r c, s_heap closing !! r = Some c ->
     serving c = false /\ cl_writer c <> Running) /\
  (s_tasks closing = [] -> forall r, r ∈ s_known closing ->
     exists c, s_heap closing !! r = Some c /\ cl_closed c = true).
Proof.
  apply (shutdown_is_final closing closing); [apply closing_reachable|reflexivity|apply rtc_refl].
Defined.

(** C16: publishing a valid event hints every connected device of its user
    except the one the event comes from: its queue then holds one hint at least
    as new, or, if it was closed or jammed, it is dropped and closed.  Every
    other connection, of this or another user, is left as it was. *)
Theorem publish_reaches_other_devices (s : Sys) (steal : ref -> nat -> nat)
    (event : SyncAvailableEvent) (u : UUID) (d : string) (r : ref) (c : Client)
    (Hreach : reachable s) (Hvalid : SyncAvailableEvent_Validate event = Ok tt)
    (Hreg : registered (s_hub s) u d = Some r) (Hc : s_heap s !! r = Some c) :
  let '(h', hp') := PublishSyncAvailable steal event (s_hub s) (s_heap s) in
  if decide (u = Ev_UserID event /\ d <> Ev_OriginDeviceID event)
  then hinted (NewSyncAvailableMessage (Ev_LatestCursor event)) c h' hp' u d r
  else registered h' u d = Some r /\ hp' !! r = Some c.
Proof.
  destruct (reachable_inv s Hreach) as [Hf [_ Hcl]]. destruct (Hcl _ _ Hc) as [_ Hq].
  destruct (hf_own _ _ _ _ Hf _ _ _ Hreg) as (_ & c' & Hc' & Hu & Hd). simplify_eq.
  unfold PublishSyncAvailable. rewrite Hvalid. rewrite (surjective_pairing (fan_out _ _ _ _ _)).
  pose proof (elem_of_publish_targets (s_hub s) event r) as Hin. case_decide as Hdec.
  - destruct Hdec as [Hu Hd]. apply fan_out_target; try done; [by eapply publish_targets_NoDup|].
    apply Hin. exists (cl_DeviceID c). rewrite <- Hu. done.
  - destruct (fan_out_other steal (NewSyncAvailableMessage (Ev_LatestCursor event))
      (publish_targets (s_hub s) event) (s_hub s) (s_heap s) r) as [-> Hr]; [|by auto].
    intros (d & Hd & Hne)%Hin. apply (hf_own _ _ _ _ Hf) in Hd as (_ & c' & Hc' & ? & ?).
    simplify_eq. by apply Hdec.
Qed.

Lemma publish_reaches_other_devices_witness :
  hinted (NewSyncAvailableMessage 7) laptop_client
    (fst (PublishSyncAvailable (fun _ _ => 0%nat) demo_event two_hub two_heap))
    (snd (PublishSyncAvailable (fun _ _ => 0%nat) demo_event two_hub two_heap)) 1%N "laptop" 1%nat.
Proof.
  apply (publish_reaches_other_devices two_devices (fun _ _ => 0%nat) demo_event 1%N "laptop"
    1%nat laptop_client two_devices_reachable); reflexivity.
Defined.

(** C20: a device that connects again takes over: the new connection is filed,
    the previous one is closed, nobody else is affected, and when the goroutine
    of the previous connection unregisters it later, the new one stays. *)
Theorem reconnect_replaces_connection (s : Sys) (r p : ref) (c cp : Client)
    (Hreach : reachable s) (Hc : s_heap s !! r = Some c) (Hopen : hub_closed (s_hub s) = false)
    (Hid : cl_UserID c <> uuid_Nil /\ cl_DeviceID c <> EmptyString)
    (Hprev : registered (s_hub s) (cl_UserID c) (cl_DeviceID c) = Some p) (Hne : p <> r)
    (Hp : s_heap s !! p = Some cp) :
  exists h1 hp1, Register r c (s_hub s) (s_heap s) = ((h1, hp1), Ok tt) /\
    registered h1 (cl_UserID c) (cl_DeviceID c) = Some r /\
    hp1 = <[p := Client_Close cp]> (s_heap s) /\
    (forall u d, (u, d) <> (cl_UserID c, cl_DeviceID c) ->
       registered h1 u d = registered (s_hub s) u d) /\
    forall u d, registered (fst (Unregister p (Client_Close cp) h1 hp1)) u d = registered h1 u d.
Proof.
  destruct (reachable_inv s Hreach) as [Hf _]. unfold Register.
  destruct (register_section (s_hub s) r c) as [[h1 previous]|e] eqn:E.
  2:{ unfold register_section in E. rewrite Hopen in E. destruct Hid as [Hu Hd].
      rewrite (proj2 (is_nil_false _) Hu), (proj2 (String.eqb_neq _ _) Hd) in E. done. }
  apply registered_register in E as (-> & _ & _ & _ & _ & Hlook). rewrite Hprev. cbn.
  rewrite (proj2 (Nat.eqb_neq _ _) Hne). cbn. unfold close_client at 1. rewrite Hp.
  do 2 eexists. split; [done|]. split_and!; [by rewrite Hlook, decide_True|done| |].
  - intros u d Hud. rewrite Hlook, decide_False; [done|]. naive_solver.
  - intros u d. cbn. rewrite registered_unregister. case_decide as Hx; [|done].
    destruct Hx as (_ & _ & Hx). rewrite Hlook in Hx. case_decide as Hud; [congruence|].
    destruct Hud. apply (hf_own _ _ _ _ Hf) in Hprev as (_ & c1 & ? & ? & ?), Hx as (_ & c2 & ? & ? & ?).
    split; congruence.
Qed.

Lemma reconnect_replaces_connection_witness :
  exists h1 hp1, Register 2%nat phone_client two_hub (s_heap phone_again) = ((h1, hp1), Ok tt) /\
    registered h1 1%N "phone" = Some 2%nat /\
    hp1 = <[0%nat := Client_Close phone_client]> (s_heap phone_again) /\
    (forall u d, (u, d) <> (1%N, "phone"%string) -> registered h1 u d = registered two_hub u d) /\
    forall u d, registered (fst (Unregister 0%nat (Client_Close phone_client) h1 hp1)) u d
                = registered h1 u d.
Proof.
  apply (reconnect_replaces_connection phone_again 2%nat 0%nat phone_client phone_client);
    [apply phone_again_reachable|reflexivity|reflexivity|split; discriminate|reflexivity
    |discriminate|reflexivity].
Defined.

(** ** A served connection

    What [Hub.Serve] does with a connection from the first read to the last
    write, while the rest of the hub goes on. *)

(** C19: while [Hub.Serve] serves a connection of an open hub, any other
    goroutine may act on the hub between two steps of its loops, enqueue a hint
    or close the connection; every state of such a run is a reachable state of
    the hub's system, so what holds in those holds throughout.  The payloads
    written are those of the messages taken from the queue, in order and once
    each, except for the last one when it is being written or its writing
    failed.  The reader stops at the first error, at the latest a minute after
    the last pong (or its start); it times out only when no pong has arrived for
    that minute, never while the peer answers each ping within the six seconds
    that are left then.  It ends: the loops are never stuck, one of them can go
    on unless the reader waits for the peer before its deadline, and once the
    connection is closed, by whomever, at most five more of their steps lead to
    the return.  Then it is closed, not filed, and both loops have returned. *)
Theorem served_connection_ends_cleanly (s : Sys) (r : ref) (c : Client) (start : Time)
    (n : nat) (st : service)
    (Hreach : reachable s) (Hc : s_heap s !! r = Some c) (Hnew : cl_serve c = NotServing)
    (Hopen : hub_closed (s_hub s) = false) (Hrun : run r n (Serve start r c s) st) :
  reachable (sv_sys st) /\
  exists c', s_heap (sv_sys st) !! r = Some c' /\ same_client c c' /\
    writing (cl_taken c) c' st /\ reading start c' st /\
    (forall t k delay, sv_reader st = Returned t (Some TimedOut) ->
       answers_pings start (sv_arrived st) k delay -> delay < pongWait - pingPeriod ->
       start + Z.of_nat k * pingPeriod + pongWait <= t) /\
    (cl_serve c' <> Gone ->
       (exists st', own r st st') \/
       exists deadline, sv_reader st = Waits deadline /\ sv_now st < deadline) /\
    (forall m st', cl_closed c' = true -> run r m st st' -> (m <= 5)%nat) /\
    (cl_serve c' = Gone ->
       registered (s_hub (sv_sys st)) (cl_UserID c) (cl_DeviceID c) <> Some r /\
       cl_closed c' = true /\ cl_writer c' = Stopped /\
       exists t err, sv_reader st = Returned t err).
Proof.
  pose proof (in_service_start r start c s Hc Hopen) as Hstart.
  destruct (run_service _ _ _ _ _ _ _ _ Hstart Hrun) as [c' Hin].
  pose proof Hin as (Hsteps & Hc' & Hid & _ & Hread & Hwrite & Hleave). split.
  { unfold reachable in *. etransitivity; [exact Hreach|]. etransitivity; [|exact Hsteps].
    unfold Serve, serve_section. rewrite Hopen. cbn. apply rtc_once. destruct s.
    apply step_serve; [done|done|]. unfold serve_section. cbn in *. by rewrite Hopen. }
  exists c'. split_and!; try done.
  - intros t k delay Hr. unfold reading in Hread. rewrite Hr in Hread. destruct Hread as [_ Hread].
    by apply answered_pings_keep_reading.
  - by eapply own_progress.
  - intros m st' Hcl Hmore. destruct (run_decreases _ _ _ _ _ _ _ _ Hin Hcl Hmore) as (c2 & _ & _ & Hle).
    pose proof (steps_left_bound c' st). lia.
  - intros Hgone. unfold leaving in Hleave. rewrite Hgone in Hleave.
    destruct Hleave as (Hreg & ? & ?), Hid as (Hu & Hd & _). rewrite <- Hu, <- Hd.
    split_and!; [done..|]. unfold reading in Hread.
    destruct (sv_reader st); [destruct Hread as (_ & ? & _); congruence|eauto].
Qed.

(** ** An example: the laptop is told of the phone's push, then goes silent *)

Abbreviation hinted_message := (NewSyncAvailableMessage (Ev_LatestCursor demo_event)).

(** The laptop while it is served: its queue, what its writer took, and where
    the writer and [Serve] are. *)
Definition laptop_now (queue taken : list Message) (closed : bool) (w : pump) (p : serve_phase) : Client :=
  mkClient 1%N "laptop" true queue taken closed w p.

Definition laptop_sys (h : Hub) (c : Client) (ts : list task) : Sys :=
  mkSys h (<[1%nat := c]> two_heap) ts two_known.

Definition serving_hub : Hub := mkHub (hub_clients two_hub) false 1.
Definition left_hub : Hub := unregister_section serving_hub 1%nat laptop_client.

(** Pongs at 54 and 108 seconds, then nothing. *)
Definition laptop_arrivals : list (Time * arrival) :=
  [(54 * second, PongFrame); (100 * second, DataFrame 10); (108 * second, PongFrame)].

Definition laptop_left : service :=
  mkService (168 * second)
    (laptop_sys (mkHub (hub_clients left_hub) false 0)
       (laptop_now [] [hinted_message] true Stopped Gone) [])
    (Returned (168 * second) (Some TimedOut)) laptop_arrivals (216 * second) None
    [TextMessage (wirePayload hinted_message); PingMessage; PingMessage; PingMessage].

Lemma put_laptop h c c' ts : put 1%nat c' (laptop_sys h c ts) = laptop_sys h c' ts.
Proof. unfold put, laptop_sys. cbn. by rewrite insert_insert_eq. Qed.

Abbreviation laptop_reads := (laptop_now [] [hinted_message] false Running Reading).

(** The publication reaches the laptop while it is served; its writer sends it. *)
Lemma laptop_is_hinted n st :
  run 1%nat n (mkService 0 (laptop_sys serving_hub laptop_reads []) (Waits (60 * second)) [] (54 * second)
    None [TextMessage (wirePayload hinted_message)]) st ->
  run 1%nat (S (S n)) (Serve 0 1%nat laptop_client two_devices) st.
Proof.
  intros Hrun. set (idle := laptop_now [] [] false Running Reading).
  assert (Hquiet : forall c c', cl_taken c' = cl_taken c -> writer_meanwhile 0 c c' None None []).
  { intros c c' Ht. exists []. rewrite app_nil_r. split; [done|by left]. }
  eapply run_around_first; [eapply (around_others _ _ _
    (laptop_sys serving_hub idle [TFanOut hinted_message [1%nat]]) _ _ _ _ _ None None _ [])|];
    [by apply (step_publish _ _ _ _ demo_event [1%nat])|done|done|done|done|by apply same_hub_registers
    |by apply Hquiet|].
  eapply run_around_first; [eapply (around_others _ _ _
    (laptop_sys serving_hub (laptop_now [hinted_message] [] false Running Reading)
       [TFanOut hinted_message []]) _ _ _ _ _ None None _ [])|];
    [|done|done|done|done|by apply same_hub_registers|by apply Hquiet|].
  { pose proof (step_task_enqueue serving_hub (<[1%nat := idle]> two_heap) [] [] two_known hinted_message
      1%nat [] idle (fun _ => 0%nat) true (laptop_now [hinted_message] [] false Running Reading)
      eq_refl ltac:(by right) eq_refl) as Hstep.
    by rewrite insert_insert_eq in Hstep. }
  eapply run_around_first; [eapply (around_others _ _ _
    (laptop_sys serving_hub (laptop_now [hinted_message] [] false Running Reading) []) _ _ _ _ _ None None _ [])|];
    [by apply (step_task_done _ _ [] [])|done|done|done|done|by apply same_hub_registers|by apply Hquiet|].
  eapply run_own_first; [by eapply (own_selects _ _ _ _ Message_of_queue)|]. rewrite put_laptop.
  eapply run_own_first; [eapply (own_written _ _ _ _ (Takes 0)); [done|done|by right]|].
  rewrite put_laptop. exact Hrun.
Qed.

(** A ping goes out when the ticker is due. *)
Lemma laptop_pings n now arrived deadline sent st :
  run 1%nat n (mkService now (laptop_sys serving_hub laptop_reads []) (Waits deadline) arrived
    (now + pingPeriod) None (sent ++ [PingMessage])) st ->
  run 1%nat (S (S n)) (mkService now (laptop_sys serving_hub laptop_reads []) (Waits deadline) arrived now
    None sent) st.
Proof.
  intros Hrun. eapply run_own_first; [eapply (own_selects _ _ _ _ Tick); [done..|]|].
  { cbn. by rewrite Z.leb_refl. }
  rewrite put_laptop. cbn [next_tick]. rewrite Z.sub_diag.
  eapply run_own_first; [eapply (own_written _ _ _ _ (Takes 0)); [done|done|right]|].
  { rewrite Z.sub_diag. done. }
  rewrite put_laptop. exact Hrun.
Qed.

Lemma laptop_served : exists n, run 1%nat n (Serve 0 1%nat laptop_client two_devices) laptop_left.
Proof.
  eexists. eapply laptop_is_hinted.
  eapply run_around_first; [apply (around_time _ _ (54 * second)); by vm_compute|].
  eapply laptop_pings.
  eapply run_around_first; [by apply (around_arrival _ _ _ _ PongFrame)|].
  eapply run_around_first; [apply (around_time _ _ (100 * second)); by vm_compute|].
  eapply run_around_first; [by apply (around_arrival _ _ _ _ (DataFrame 10))|].
  eapply run_around_first; [apply (around_time _ _ (108 * second)); by vm_compute|].
  eapply laptop_pings.
  eapply run_around_first; [by apply (around_arrival _ _ _ _ PongFrame)|].
  eapply run_around_first; [apply (around_time _ _ (162 * second)); by vm_compute|].
  eapply laptop_pings.
  eapply run_around_first; [apply (around_time _ _ (168 * second)); by vm_compute|].
  eapply run_own_first; [by apply own_timeout|].
  eapply run_own_first; [by eapply own_unregister|].
  eapply run_own_first; [by eapply (own_close _ _ _ _ [] [])|].
  eapply run_own_first; [by eapply (own_selects _ _ _ _ Done)|].
  eapply run_own_first; [by eapply own_returns|].
  match goal with |- run _ _ ?st _ => replace st with laptop_left by (by vm_compute) end.
  apply run_none.
Qed.

Lemma served_connection_ends_cleanly_witness :
  reading_ended 0 laptop_arrivals (168 * second) TimedOut /\
  registered (s_hub (sv_sys laptop_left)) 1%N "laptop" <> Some 1%nat /\
  reachable (sv_sys laptop_left).
Proof.
  destruct laptop_served as [n Hrun].
  destruct (served_connection_ends_cleanly two_devices 1%nat laptop_client 0 n laptop_left
    two_devices_reachable eq_refl eq_refl eq_refl Hrun)
    as (Hr & c & Hc & _ & _ & Hread & _ & _ & _ & Hgone).
  split_and!; [exact (proj2 Hread)| |exact Hr]. apply Hgone.
  assert (Hg : cl_serve <$> s_heap (sv_sys laptop_left) !! 1%nat = Some Gone) by by vm_compute.
  rewrite Hc in Hg. by injection Hg.
Defined.
