(* ===== verification/RealtimeBus.v ===== *)
(** * The event bus

    [internal/realtime/postgres_event_bus.go]: events travel between processes
    as PostgreSQL notifications.  A notification carries text; a payload is
    modelled as the JSON document of that text, [None] when it is not JSON. *)

From S2P Require Import Prelude GoText GoFloat Json HttpApi Constants External Schema.
From S2P Require Import RealtimeMessage Demo.

(** Durations are in nanoseconds. *)
Definition initialBackoff : Z := 250 * 10 ^ 6.
Definition maxBackoff : Z := 5 * 10 ^ 9.

Definition nextBackoff (current : Z) : Z :=
  let next := wrap64 (current * 2) in
  if maxBackoff <? next then maxBackoff else next.

Definition zero_event : SyncAvailableEvent := mkEvent uuid_Nil EmptyString 0.

Section with_external.
Context {Db : Type} {X : External Db}.

(** [json.Marshal(event)]. *)
Definition marshal_event (e : SyncAvailableEvent) : json :=
  JObj [("userId", JStr (uuid_text (Ev_UserID e)));
        ("originDeviceId", marshal_string (Ev_OriginDeviceID e));
        ("latestCursor", JNum (format_int (Ev_LatestCursor e)))]%string.

(** The payload handed to [pg_notify]. *)
Definition PublishSyncAvailable (pool : bool) (event : SyncAvailableEvent) : res json :=
  if negb pool then Err (errorsNew "postgres realtime event bus has no pool")
  else _ ← SyncAvailableEvent_Validate event; Ok (marshal_event event).

Definition event_fields : list (struct_field SyncAvailableEvent) :=
  [("userId", store_field unmarshal_uuid
      (fun u e => mkEvent u (Ev_OriginDeviceID e) (Ev_LatestCursor e)));
   ("originDeviceId", store_field unmarshal_string
      (fun d e => mkEvent (Ev_UserID e) d (Ev_LatestCursor e)));
   ("latestCursor", store_field unmarshal_int
      (fun c e => mkEvent (Ev_UserID e) (Ev_OriginDeviceID e) c))]%string.

Definition decodeSyncAvailableEvent (payload : RawMessage) : res SyncAvailableEvent :=
  match payload ≫= unmarshal_struct event_fields zero_event with
  | None => Err ErrJSON
  | Some event => _ ← SyncAvailableEvent_Validate event; Ok event
  end.

(** ** Subscribing *)

(** What one turn of the loop meets: no connection, a failing LISTEN, or a
    session with its notifications until it breaks; and whether the UNLISTEN on
    its connection succeeds. *)
Inductive session :=
| AcquireFails
| ListenFails (unlistened : bool)
| Session (notifications : list RawMessage) (unlistened : bool).

(** Where the cancellation of the context finds the loop after its turns: before
    another one, within one more, or while it waits after it. *)
Inductive cancellation :=
| BeforeTurn
| InTurn (s : session)
| InWait (s : session).

Inductive bus_action :=
| Acquired
| Listening
| Handled (event : SyncAvailableEvent)
| Unlisten (ok : bool)
| Released
| Waited (delay : Z)
| Interrupted.

(** The events of a session: payloads that do not decode are skipped. *)
Definition delivered (s : session) : list SyncAvailableEvent :=
  match s with
  | Session notifications _ =>
      omap (fun payload => match decodeSyncAvailableEvent payload with
                           | Ok event => Some event
                           | Err _ => None
                           end) notifications
  | _ => []
  end.

(** What is done with a connection, and whether LISTEN succeeded. *)
Definition listen (s : session) : list bus_action * bool :=
  match s with
  | Session _ _ => (Listening :: map Handled (delivered s), true)
  | _ => ([], false)
  end.

(** The connection is given back also when UNLISTEN failed. *)
Definition releaseListenerConnection (unlistened : bool) : list bus_action :=
  [Unlisten unlistened; Released].

Definition unlistens (s : session) : bool :=
  match s with
  | ListenFails ok | Session _ ok => ok
  | AcquireFails => true
  end.

(** Whether the delay passed, and what was seen of it. *)
Definition waitBackoff (cancelled : bool) (delay : Z) : bool * bus_action :=
  if cancelled then (false, Interrupted) else (true, Waited delay).

(** A turn of the loop up to its wait, with the next delay. *)
Definition turn (backoff : Z) (s : session) : list bus_action * Z :=
  match s with
  | AcquireFails => ([], nextBackoff backoff)
  | _ =>
      let '(actions, ready) := listen s in
      (Acquired :: actions ++ releaseListenerConnection (unlistens s),
       if ready then initialBackoff else nextBackoff backoff)
  end.

(** The loop of [Subscribe], which ends when the context is cancelled. *)
Fixpoint subscribe_loop (backoff : Z) (sessions : list session) (cancelled : cancellation)
    : list bus_action :=
  match sessions with
  | [] =>
      match cancelled with
      | BeforeTurn => []
      | InTurn s => fst (turn backoff s)
      | InWait s => fst (turn backoff s) ++ [snd (waitBackoff true backoff)]
      end
  | s :: rest =>
      let '(actions, next) := turn backoff s in
      actions ++ snd (waitBackoff false backoff) :: subscribe_loop next rest cancelled
  end.

Definition Subscribe (pool handler : bool) (sessions : list session) (cancelled : cancellation)
    : res (list bus_action) :=
  if negb pool then Err (errorsNew "postgres realtime event bus has no pool")
  else if negb handler then Err (errorsNew "postgres realtime event handler is required")
  else Ok (subscribe_loop initialBackoff sessions cancelled).

(** ** Specification *)

(** The events handled and the delays waited. *)
Definition handled (actions : list bus_action) : list SyncAvailableEvent :=
  omap (fun a => match a with Handled e => Some e | _ => None end) actions.

Definition delays (actions : list bus_action) : list Z :=
  omap (fun a => match a with Waited d => Some d | _ => None end) actions.

(** The session the cancellation cut short. *)
Definition last_session (cancelled : cancellation) : list session :=
  match cancelled with
  | BeforeTurn => []
  | InTurn s | InWait s => [s]
  end.

(** The listener's connection: none, one just acquired, one that listens, one on
    which UNLISTEN was tried, which is still subscribed or not; and how many were
    given back still subscribed.  Notifications come on a connection that
    listens; a connection is given back after one UNLISTEN, and before another
    one is taken. *)
Inductive connection := NoConnection | Idle | Listens | Tried (subscribed : bool).

Definition connection_step (c : connection * nat) (a : bus_action) : option (connection * nat) :=
  match c, a with
  | (NoConnection, k), Acquired => Some (Idle, k)
  | (NoConnection, k), (Waited _ | Interrupted) => Some (NoConnection, k)
  | (Idle, k), Listening => Some (Listens, k)
  | (Listens, k), Handled _ => Some (Listens, k)
  | (Idle, k), Unlisten _ => Some (Tried false, k)
  | (Listens, k), Unlisten ok => Some (Tried (negb ok), k)
  | (Tried subscribed, k), Released => Some (NoConnection, if subscribed then S k else k)
  | _, _ => None
  end.

Definition connection_run (c : connection * nat) (actions : list bus_action)
    : option (connection * nat) :=
  foldl (fun c a => c ≫= fun c => connection_step c a) (Some c) actions.

(** A session that listened and could not be ended with UNLISTEN. *)
Definition left_listening (s : session) : bool :=
  match s with
  | Session _ ok => negb ok
  | _ => false
  end.

(** The wait of a turn that follows [n] failures in a row. *)
Definition backoff_after (n : nat) : Z := Z.min maxBackoff (initialBackoff * 2 ^ Z.of_nat n).

(** The delays expected of the sessions after [n] failures in a row. *)
Fixpoint expected_delays (n : nat) (sessions : list session) : list Z :=
  match sessions with
  | [] => []
  | s :: rest =>
      backoff_after n :: expected_delays (match s with Session _ _ => O | _ => S n end) rest
  end.

End with_external.

Definition demo_payload : json := marshal_event (X := demo) (mkEvent 1 "phone" 7).

(** ** Lemmas *)

Lemma backoff_step n : nextBackoff (backoff_after n) = backoff_after (S n).
Proof.
  assert (Hb : forall m, 0 < backoff_after m <= maxBackoff).
  { intros m. unfold backoff_after, maxBackoff, initialBackoff.
    pose proof (Z.pow_pos_nonneg 2 (Z.of_nat m)). lia. }
  unfold nextBackoff. rewrite wrap64_id
    by (pose proof (Hb n); unfold maxBackoff, int64_min, int64_max in *; lia).
  unfold backoff_after. rewrite Nat2Z.inj_succ, Z.pow_succ_r by lia.
  destruct (Z.ltb_spec maxBackoff (Z.min maxBackoff (initialBackoff * 2 ^ Z.of_nat n) * 2));
    unfold maxBackoff, initialBackoff in *; lia.
Qed.

Section bus.
Context {Db : Type} {X : External Db}.

Lemma delays_app a b : delays (a ++ b) = delays a ++ delays b.
Proof. apply omap_app. Qed.

Lemma handled_app a b : handled (a ++ b) = handled a ++ handled b.
Proof. apply omap_app. Qed.

(** A turn waits for nothing, hands on the events of its session, and gives back
    the connection it takes. *)
Lemma turn_spec n k s :
  delays (fst (turn (backoff_after n) s)) = [] /\
  handled (fst (turn (backoff_after n) s)) = delivered s /\
  connection_run (NoConnection, k) (fst (turn (backoff_after n) s))
    = Some (NoConnection, if left_listening s then S k else k) /\
  snd (turn (backoff_after n) s) = backoff_after (match s with Session _ _ => O | _ => S n end).
Proof.
  destruct s as [| |ns ok]; [by rewrite <- backoff_step..|]. cbn [turn listen fst snd].
  generalize (delivered (Session ns ok)). intros events. change (backoff_after 0) with initialBackoff.
  split_and!; [..|done].
  - cbn. unfold delays. rewrite omap_app. cbn. rewrite app_nil_r.
    by induction events as [|e l IH].
  - cbn. unfold handled. rewrite omap_app. cbn. rewrite app_nil_r.
    induction events as [|e l IH]; [done|]. cbn. by rewrite IH.
  - unfold connection_run. cbn [app foldl mbind option_bind connection_step unlistens].
    induction events as [|e l IH]; [by destruct ok|exact IH].
Qed.

Lemma connection_run_app c a b :
  connection_run c (a ++ b) = connection_run c a ≫= fun c => connection_run c b.
Proof.
  unfold connection_run. rewrite foldl_app. destruct (foldl _ (Some c) a) as [c'|]; [done|].
  cbn. by induction b.
Qed.

Lemma count_cons k s l :
  (length (List.filter left_listening (s :: l)) + k
   = length (List.filter left_listening l) + (if left_listening s then S k else k))%nat.
Proof. cbn. destruct (left_listening s); cbn; lia. Qed.

Lemma subscribe_loop_spec n k sessions cancelled :
  let actions := subscribe_loop (backoff_after n) sessions cancelled in
  let met := sessions ++ last_session cancelled in
  handled actions = concat (map delivered met) /\
  delays actions = expected_delays n sessions /\
  connection_run (NoConnection, k) actions
    = Some (NoConnection, (length (List.filter left_listening met) + k)%nat).
Proof.
  cbv zeta. revert n k. induction sessions as [|s rest IH]; intros n k.
  - destruct cancelled as [|s|s]; [done|..]; destruct (turn_spec n k s) as (Hd & Hh & Hc & _);
      cbn [subscribe_loop last_session map concat app expected_delays]; rewrite count_cons.
    + by rewrite app_nil_r.
    + rewrite handled_app, delays_app, connection_run_app, Hd, Hh, Hc. cbn. by rewrite !app_nil_r.
  - destruct (turn_spec n k s) as (Hd & Hh & Hc & Hn). cbn [subscribe_loop expected_delays app].
    rewrite count_cons.
    destruct (turn (backoff_after n) s) as [actions next]. cbn [fst snd] in *. subst next.
    destruct (IH (match s with Session _ _ => O | _ => S n end) (if left_listening s then S k else k))
      as (IHh & IHd & IHc).
    rewrite handled_app, delays_app, connection_run_app, Hd, Hh, Hc.
    cbn [waitBackoff snd app map concat]. split_and!.
    + f_equal. exact IHh.
    + cbn. f_equal. exact IHd.
    + exact IHc.
Qed.

Lemma unmarshal_marshal_event {HT : TextualUUIDs X} u d c :
  string_of_runes (runes d) = d -> 0 <= c <= int64_max ->
  unmarshal_struct event_fields zero_event (marshal_event (mkEvent u d c)) = Some (mkEvent u d c).
Proof.
  intros Hd Hc.
  assert (Hu : forall v e, decode_member event_fields "userId" v e = store_field unmarshal_uuid
      (fun u e => mkEvent u (Ev_OriginDeviceID e) (Ev_LatestCursor e)) v e) by reflexivity.
  assert (Ho : forall v e, decode_member event_fields "originDeviceId" v e
    = store_field unmarshal_string
        (fun d e => mkEvent (Ev_UserID e) d (Ev_LatestCursor e)) v e) by reflexivity.
  assert (Hl : forall v e, decode_member event_fields "latestCursor" v e = store_field unmarshal_int
      (fun c e => mkEvent (Ev_UserID e) (Ev_OriginDeviceID e) c) v e) by reflexivity.
  unfold marshal_event, marshal_string, unmarshal_struct. cbn [Ev_UserID Ev_OriginDeviceID Ev_LatestCursor].
  rewrite Hd. cbn [foldl fst snd mbind option_bind]. rewrite Hu. cbn [store_field unmarshal_uuid].
  rewrite uuid_parse_text. cbn [mbind option_bind]. rewrite Ho.
  cbn [store_field unmarshal_string mbind option_bind]. rewrite Hl. cbn [store_field unmarshal_int].
  rewrite parse_format_int by (unfold int64_min; lia). reflexivity.
Qed.

End bus.

(** ** Properties *)

(** An event that is published arrives: decoding the payload of the
    notification gives the event back. *)
Theorem published_event_arrives {Db} {X : External Db} {HT : TextualUUIDs X}
    (event : SyncAvailableEvent) (payload : json)
    (Hdevice : string_of_runes (runes (Ev_OriginDeviceID event)) = Ev_OriginDeviceID event)
    (Hcursor : Ev_LatestCursor event <= int64_max)
    (Hpublish : PublishSyncAvailable true event = Ok payload) :
  decodeSyncAvailableEvent (Some payload) = Ok event.
Proof.
  unfold PublishSyncAvailable in Hpublish. cbn [negb] in Hpublish.
  destruct (SyncAvailableEvent_Validate event) as [[]|] eqn:Hv; [|done]. injection Hpublish as <-.
  destruct event as [u d c]. cbn in Hdevice, Hcursor.
  assert (Hc : 0 <= c) by by apply SyncAvailableEvent_Validate_Ok in Hv as (_ & _ & ?).
  unfold decodeSyncAvailableEvent. cbn [mbind option_bind].
  rewrite unmarshal_marshal_event by done. cbn. by rewrite Hv.
Qed.

Lemma published_event_arrives_witness :
  decodeSyncAvailableEvent (X := demo) (Some demo_payload) = Ok (mkEvent 1 "phone" 7).
Proof.
  apply (published_event_arrives (X := demo) (HT := demo_textual _ _) (mkEvent 1 "phone" 7) demo_payload);
    [reflexivity|discriminate|reflexivity].
Defined.

(** C22: whatever sessions the listener goes through and wherever it is
    cancelled, the handler receives exactly the valid events of their
    notifications, in order, malformed ones being skipped; the wait of a turn
    that follows n failures in a row is 250 ms * 2^n, at most 5 s, and a session
    that could listen resets the delay; the listener holds one connection at a
    time, gives every one back after trying UNLISTEN once, also when that fails,
    and ends without one; the connections it gives back still subscribed are
    exactly those that listened and whose UNLISTEN failed. *)
Theorem subscription_delivers_and_backs_off {Db} {X : External Db} (sessions : list session)
    (cancelled : cancellation) :
  let met := sessions ++ last_session cancelled in
  exists actions, Subscribe true true sessions cancelled = Ok actions /\
    handled actions = concat (map delivered met) /\
    delays actions = expected_delays 0 sessions /\
    connection_run (NoConnection, O) actions
      = Some (NoConnection, length (List.filter left_listening met)).
Proof.
  eexists. split; [reflexivity|].
  destruct (subscribe_loop_spec 0 0 sessions cancelled) as (H1 & H2 & H3).
  rewrite Nat.add_0_r in H3. by split_and!.
Qed.
