(* ===== verification/GoMime.v ===== *)
(** * Go text helpers and media types

    What the upload code uses of [strings], [unicode] and [mime]: prefixes,
    suffixes, case, control characters and [mime.ParseMediaType].  Strings are
    handled as their bytes. *)

From S2P Require Import Prelude GoText.

(** ** Bytes of literals *)

Definition quote_byte : Z := 34.
Definition backslash : Z := 92.
Definition semicolon : Z := 59.
Definition slash : Z := 47.
Definition equals_sign : Z := 61.

(** ** Prefixes and suffixes *)

Fixpoint strip_prefix (p bs : list Z) : option (list Z) :=
  match p, bs with
  | [], _ => Some bs
  | x :: p, b :: bs => if x =? b then strip_prefix p bs else None
  | _, [] => None
  end.

(** [strings.HasPrefix]. *)
Definition has_prefix (s prefix : string) : bool :=
  match strip_prefix (bytes_of prefix) (bytes_of s) with
  | Some _ => true
  | None => false
  end.

(** [strings.TrimPrefix]. *)
Definition trim_prefix (s prefix : string) : string :=
  match strip_prefix (bytes_of prefix) (bytes_of s) with
  | Some rest => of_bytes rest
  | None => s
  end.

(** [strings.HasSuffix]. *)
Definition has_suffix (s suffix : string) : bool :=
  match strip_prefix (reverse (bytes_of suffix)) (reverse (bytes_of s)) with
  | Some _ => true
  | None => false
  end.

(** [strings.TrimSuffix]. *)
Definition trim_suffix (s suffix : string) : string :=
  match strip_prefix (reverse (bytes_of suffix)) (reverse (bytes_of s)) with
  | Some rest => of_bytes (reverse rest)
  | None => s
  end.

(** [strings.ContainsAny] with ASCII characters. *)
Definition contains_any (s : string) (chars : list Z) : bool :=
  existsb (fun b => existsb (Z.eqb b) chars) (bytes_of s).

(** ** Case and control characters *)

(** Lower case of a rune.  Besides the ASCII letters only U+212A and U+0130
    have an ASCII lower case; other runes are kept, the results being compared
    with ASCII text only. *)
Definition lower_rune (r : Z) : Z :=
  if between 65 r 90 then r + 32
  else if r =? 0x212A then 107
  else if r =? 0x130 then 105
  else r.

(** [strings.ToLower]; invalid bytes become the replacement character. *)
Definition to_lower (s : string) : string := string_of_runes (map lower_rune (runes s)).

(** [unicode.IsControl]. *)
Definition is_control (r : Z) : bool := between 0 r 0x1F || between 0x7F r 0x9F.

(** ** [mime.ParseMediaType] *)

(** Parentheses, angle and square brackets, at sign, comma, semicolon, colon,
    backslash, quote, slash, question mark and equals sign. *)
Definition is_tspecial (b : Z) : bool :=
  existsb (Z.eqb b) [40; 41; 60; 62; 64; 44; 59; 58; 92; 34; 47; 91; 93; 63; 61].

Definition is_token_char (b : Z) : bool := (0x20 <? b) && (b <? 0x7F) && negb (is_tspecial b).

Fixpoint consume_token (bs : list Z) : list Z * list Z :=
  match bs with
  | [] => ([], [])
  | b :: rest =>
      if is_token_char b then let '(t, r) := consume_token rest in (b :: t, r) else ([], bs)
  end.

(** The body of a quoted string: its value and what follows the end quote;
    [None] when it does not end. *)
Fixpoint consume_quoted (bs : list Z) : option (list Z * list Z) :=
  match bs with
  | [] => None
  | b :: rest =>
      if b =? quote_byte then Some ([], rest)
      else if (b =? 13) || (b =? 10) then None
      else
        match rest with
        | c :: rest' =>
            if (b =? backslash) && is_tspecial c
            then '(v, r) ← consume_quoted rest'; Some (c :: v, r)
            else '(v, r) ← consume_quoted rest; Some (b :: v, r)
        | [] => None
        end
  end.

Definition consume_value (bs : list Z) : list Z * list Z :=
  match bs with
  | [] => ([], [])
  | b :: rest =>
      if b =? quote_byte then
        match consume_quoted rest with
        | Some (v, r) => (v, r)
        | None => ([], bs)
        end
      else consume_token bs
  end.

(** [strings.TrimLeftFunc(s, unicode.IsSpace)]. *)
Definition trim_left (bs : list Z) : list Z := concat (map snd (drop_spaces (decode_seg bs))).

Definition lower_bytes (bs : list Z) : list Z := bytes_of (to_lower (of_bytes bs)).

(** One parameter: its name, its value and the rest; [None] when malformed. *)
Definition consume_param (bs : list Z) : option (list Z * list Z * list Z) :=
  match trim_left bs with
  | b :: rest =>
      if b =? semicolon then
        let '(param, rest) := consume_token (trim_left rest) in
        match param, trim_left rest with
        | _ :: _, e :: rest =>
            if e =? equals_sign then
              let start := trim_left rest in
              let '(value, rest) := consume_value start in
              if bool_decide (value = []) && bool_decide (rest = start) then None
              else Some (lower_bytes param, value, rest)
            else None
        | _, _ => None
        end
      else None
  | [] => None
  end.

(** The parameter loop: whether it ends without error.  Equal duplicates are
    allowed.  Every round consumes at least the semicolon, so the number of
    bytes bounds the rounds. *)
Fixpoint params_ok (fuel : nat) (seen : list (list Z * list Z)) (bs : list Z) : bool :=
  match fuel with
  | O => true
  | S fuel =>
      match trim_left bs with
      | [] => true
      | bs =>
          match consume_param bs with
          | None => bool_decide (trim_space (of_bytes bs) = of_bytes [semicolon])
          | Some (key, value, rest) =>
              match List.find (fun kv => bool_decide (kv.1 = key)) seen with
              | Some (_, v) => if bool_decide (v = value) then params_ok fuel seen rest else false
              | None => params_ok fuel ((key, value) :: seen) rest
              end
          end
      end
  end.

(** [checkMediaTypeDisposition]. *)
Definition media_type_ok (bs : list Z) : bool :=
  match consume_token bs with
  | ([], _) => false
  | (_, []) => true
  | (_, b :: rest) =>
      (b =? slash) && match consume_token rest with
                      | (_ :: _, []) => true
                      | _ => false
                      end
  end.

Fixpoint before_semicolon (bs : list Z) : list Z :=
  match bs with
  | [] => []
  | b :: rest => if b =? semicolon then [] else b :: before_semicolon rest
  end.

(** The media type, or [None] for an error. *)
Definition ParseMediaType (v : string) : option string :=
  let bs := bytes_of v in
  let base := before_semicolon bs in
  let mediatype := trim_space (to_lower (of_bytes base)) in
  if media_type_ok (bytes_of mediatype)
  then if params_ok (S (length bs)) [] (drop (length base) bs) then Some mediatype else None
  else None.

(** ** Examples *)

Example parse_media_type_examples :
  (ParseMediaType "Image/PNG", ParseMediaType "text/plain; charset=utf-8 ;",
   ParseMediaType "text/plain; charset", ParseMediaType "a b", ParseMediaType "image/",
   ParseMediaType "a/b; x=1; x=2", ParseMediaType "a/b; x=1; X=1")
  = (Some "image/png", Some "text/plain", None, None, None, None, Some "a/b")%string.
Proof. vm_compute. reflexivity. Qed.
