(* ===== verification/GoStrings.v ===== *)
(** * Cutting and splitting text

    Functions of [strings] and [bufio] on byte strings, for one-byte
    separators. *)

From S2P Require Import Prelude GoText.

(** Around the first [sep]. *)
Fixpoint cut_bytes (sep : Z) (bs : list Z) : option (list Z * list Z) :=
  match bs with
  | [] => None
  | b :: rest =>
      if b =? sep then Some ([], rest)
      else '(before, after) ← cut_bytes sep rest; Some (b :: before, after)
  end.

(** At every [sep]; never empty. *)
Fixpoint split_bytes (sep : Z) (bs : list Z) : list (list Z) :=
  match bs with
  | [] => [[]]
  | b :: rest =>
      if b =? sep then [] :: split_bytes sep rest
      else match split_bytes sep rest with
           | [] => [[b]]
           | part :: parts => (b :: part) :: parts
           end
  end.

Fixpoint join_bytes (sep : list Z) (parts : list (list Z)) : list Z :=
  match parts with
  | [] => []
  | [part] => part
  | part :: rest => part ++ sep ++ join_bytes sep rest
  end.

Fixpoint drop_byte (c : Z) (bs : list Z) : list Z :=
  match bs with
  | b :: rest => if b =? c then drop_byte c rest else bs
  | [] => []
  end.

(** [strings.Cut]. *)
Definition cut (s : string) (sep : Z) : option (string * string) :=
  '(before, after) ← cut_bytes sep (bytes_of s); Some (of_bytes before, of_bytes after).

(** [strings.Split]. *)
Definition split (s : string) (sep : Z) : list string :=
  map of_bytes (split_bytes sep (bytes_of s)).

(** [strings.Join]. *)
Definition join (parts : list string) (sep : string) : string :=
  of_bytes (join_bytes (bytes_of sep) (map bytes_of parts)).

(** [strings.TrimRight], [strings.Trim] with one character. *)
Definition trim_right_char (c : Z) (s : string) : string :=
  of_bytes (reverse (drop_byte c (reverse (bytes_of s)))).

Definition trim_char (c : Z) (s : string) : string :=
  trim_right_char c (of_bytes (drop_byte c (bytes_of s))).

(** ** Lines ([bufio.Scanner] with its default split function and limit) *)

Definition max_token : Z := 64 * 1024.

(** A final line without line feed counts when it is not empty. *)
Definition raw_lines (bs : list Z) : list (list Z) :=
  let parts := split_bytes 10 bs in
  match reverse parts with
  | [] :: before => reverse before
  | _ => parts
  end.

Definition drop_cr (line : list Z) : list Z :=
  match reverse line with
  | 13 :: before => reverse before
  | _ => line
  end.

(** The lines up to the first that does not fit the buffer; the boolean tells
    that there was one. *)
Fixpoint fitting (lines : list (list Z)) : list string * bool :=
  match lines with
  | [] => ([], false)
  | line :: rest =>
      if max_token <=? Z.of_nat (length line) then ([], true)
      else let '(ok, long) := fitting rest in (of_bytes (drop_cr line) :: ok, long)
  end.

Definition scan_lines (bs : list Z) : list string * bool := fitting (raw_lines bs).

(** ** Lemmas *)

Lemma split_bytes_join sep bs : join_bytes [sep] (split_bytes sep bs) = bs.
Proof.
  induction bs as [|b bs IH]; [done|]. cbn. destruct (Z.eqb_spec b sep) as [->|_].
  - destruct (split_bytes sep bs) eqn:E; [by destruct bs as [|x ?]; cbn in E; repeat case_match|].
    cbn in *. by rewrite IH.
  - destruct (split_bytes sep bs) as [|part parts] eqn:E; [by cbn in IH; subst|].
    cbn in *. destruct parts; cbn in *; by rewrite <- IH.
Qed.

Lemma split_bytes_no_sep sep bs : Forall (fun part => sep ∉ part) (split_bytes sep bs).
Proof.
  induction bs as [|b bs IH]; cbn; [repeat constructor; set_solver|].
  destruct (Z.eqb_spec b sep) as [->|Hne]; [constructor; [set_solver|done]|].
  destruct (split_bytes sep bs) as [|part parts]; [repeat constructor; set_solver|].
  inversion IH; subst. constructor; [set_solver|done].
Qed.

Lemma cut_bytes_spec sep bs before after :
  cut_bytes sep bs = Some (before, after) -> bs = before ++ sep :: after /\ sep ∉ before.
Proof.
  revert before. induction bs as [|b bs IH]; intros before; cbn; [done|].
  destruct (Z.eqb_spec b sep) as [->|Hne].
  - intros [= <- <-]. split; [done|set_solver].
  - destruct (cut_bytes sep bs) as [[x y]|]; [|done]. intros [= <- <-].
    destruct (IH x eq_refl) as [-> Hx]. split; [done|set_solver].
Qed.

(** Splitting undoes joining parts without the separator. *)
Lemma split_bytes_part sep part bs :
  sep ∉ part -> split_bytes sep (part ++ sep :: bs) = part :: split_bytes sep bs.
Proof.
  induction part as [|b part IH]; intros Hp; cbn; [by rewrite Z.eqb_refl|].
  apply not_elem_of_cons in Hp as [Hne Hp]. destruct (Z.eqb_spec b sep) as [->|_]; [done|].
  by rewrite IH.
Qed.

Lemma split_bytes_last sep part : sep ∉ part -> split_bytes sep part = [part].
Proof.
  induction part as [|b part IH]; intros Hp; [done|]. cbn.
  apply not_elem_of_cons in Hp as [Hne Hp]. destruct (Z.eqb_spec b sep) as [->|_]; [done|].
  by rewrite IH.
Qed.

Lemma split_join_bytes sep parts :
  parts <> [] -> Forall (fun part => sep ∉ part) parts ->
  split_bytes sep (join_bytes [sep] parts) = parts.
Proof.
  intros Hne H. induction H as [|part parts Hp Hps IH]; [done|]. destruct parts as [|part' parts].
  - by apply split_bytes_last.
  - cbn [join_bytes app]. rewrite split_bytes_part by done. f_equal. by apply IH.
Qed.

Lemma split_bytes_all P sep bs : Forall P bs -> Forall (Forall P) (split_bytes sep bs).
Proof.
  induction 1 as [|b bs Hb _ IH]; cbn; [by repeat constructor|]. case_match; [by constructor|].
  destruct (split_bytes sep bs); [by repeat constructor|].
  inversion IH; subst. by repeat constructor.
Qed.

Lemma split_bytes_some sep bs : split_bytes sep bs <> [].
Proof. destruct bs as [|b bs]; cbn; [done|]. case_match; [done|]. by case_match. Qed.

Lemma map_bytes_of_bytes parts :
  Forall (Forall is_byte) parts -> map bytes_of (map of_bytes parts) = parts.
Proof.
  induction 1 as [|part parts Hp _ IH]; [done|]. cbn. by rewrite bytes_of_bytes, IH.
Qed.

Lemma bytes_of_split s sep : map bytes_of (split s sep) = split_bytes sep (bytes_of s).
Proof. apply map_bytes_of_bytes, split_bytes_all, bytes_of_is_byte. Qed.

Lemma join_bytes_all P sep parts :
  Forall P sep -> Forall (Forall P) parts -> Forall P (join_bytes sep parts).
Proof.
  intros Hs. induction 1 as [|part parts Hp Hps IH]; [constructor|]. cbn.
  destruct parts; [done|]. by rewrite !Forall_app.
Qed.

Lemma bytes_of_join parts sep :
  bytes_of (join parts sep) = join_bytes (bytes_of sep) (map bytes_of parts).
Proof.
  apply bytes_of_bytes, join_bytes_all; [apply bytes_of_is_byte|].
  rewrite Forall_fmap. apply Forall_true. intros x. apply bytes_of_is_byte.
Qed.

(** [strings.Split] and [strings.Join] undo each other. *)
Lemma join_split s sep : is_byte sep -> join (split s sep) (of_bytes [sep]) = s.
Proof.
  intros Hs. unfold join. rewrite bytes_of_bytes by by apply Forall_singleton.
  by rewrite bytes_of_split, split_bytes_join, of_bytes_of.
Qed.

Lemma split_join parts sep :
  is_byte sep -> parts <> [] -> Forall (fun part => sep ∉ bytes_of part) parts ->
  split (join parts (of_bytes [sep])) sep = parts.
Proof.
  intros Hs Hne H. unfold split. rewrite bytes_of_join, bytes_of_bytes by by apply Forall_singleton.
  rewrite split_join_bytes; [|by destruct parts|by rewrite Forall_fmap].
  rewrite map_map. erewrite map_ext; [apply map_id|]. apply of_bytes_of.
Qed.
