(* ===== verification/GoUrl.v ===== *)
(** * URLs

    Functions of [net/url]: percent encoding, parsing, printing, resolving a
    reference and reading a query.  The syntax of an authority (user
    information, host and port), which changed between releases of the library,
    is a parameter. *)

From S2P Require Import Prelude GoText GoMime GoStrings.

(** ** Percent encoding *)

Inductive encoding :=
| encodePath | encodePathSegment | encodeHost | encodeQueryComponent | encodeFragment.

Definition one_of (c : Z) (chars : string) : bool := existsb (Z.eqb c) (bytes_of chars).

Definition is_alnum (c : Z) : bool := between 97 c 122 || between 65 c 90 || between 48 c 57.

Definition shouldEscape (c : Z) (mode : encoding) : bool :=
  if is_alnum c then false
  else if match mode with
          | encodeHost => one_of c "!$&'()*+,;=:[]<>" || (c =? quote_byte)
          | _ => false
          end then false
  else if one_of c "-_.~" then false
  else if one_of c "$&+,/:;=?@" then
    match mode with
    | encodePath => c =? 63
    | encodePathSegment => one_of c "/;,?"
    | encodeQueryComponent | encodeHost => true
    | encodeFragment => false
    end
  else match mode with
       | encodeFragment => negb (one_of c "!()*")
       | _ => true
       end.

Definition percent : Z := 37.
Definition plus : Z := 43.

Definition upper_hex (d : Z) : Z := if d <? 10 then 48 + d else 55 + d.

Definition escape_byte (mode : encoding) (c : Z) : list Z :=
  if shouldEscape c mode then
    match mode with
    | encodeQueryComponent => 
        if c =? 32 then [plus] else [percent; upper_hex (c / 16); upper_hex (c mod 16)]
    | _ => [percent; upper_hex (c / 16); upper_hex (c mod 16)]
    end
  else [c].

Definition escape (mode : encoding) (s : string) : string :=
  of_bytes (concat (map (escape_byte mode) (bytes_of s))).

(** [url.PathEscape]. *)
Definition PathEscape : string -> string := escape encodePathSegment.

Definition unhex (c : Z) : option Z :=
  if between 48 c 57 then Some (c - 48)
  else if between 97 c 102 then Some (c - 87)
  else if between 65 c 70 then Some (c - 55)
  else None.

Definition unescape_plain (mode : encoding) (c : Z) : Z :=
  match mode with
  | encodeQueryComponent => if c =? plus then 32 else c
  | _ => c
  end.

Fixpoint unescape_bytes (mode : encoding) (bs : list Z) : option (list Z) :=
  match bs with
  | [] => Some []
  | c :: rest =>
      if c =? percent then
        match rest with
        | h :: l :: rest =>
            a ← unhex h; b ← unhex l; bs ← unescape_bytes mode rest; Some (16 * a + b :: bs)
        | _ => None
        end
      else bs ← unescape_bytes mode rest; Some (unescape_plain mode c :: bs)
  end.

Definition unescape (mode : encoding) (s : string) : option string :=
  of_bytes <$> unescape_bytes mode (bytes_of s).

(** An encoding of a path or fragment that may be kept as it is. *)
Definition validEncoded (s : string) (mode : encoding) : bool :=
  forallb (fun c => one_of c "!$&'()*+,;=:@[]%" || negb (shouldEscape c mode)) (bytes_of s).

(** ** URLs *)

(** [User] is the user information as it is printed. *)
Record URL := mkURL {
  Scheme : string; Opaque : string; User : option string; Host : string;
  Path : string; RawPath : string; OmitHost : bool; ForceQuery : bool; RawQuery : string;
  Fragment : string; RawFragment : string
}.

Definition with_path (u : URL) (path rawpath : string) : URL :=
  mkURL (Scheme u) (Opaque u) (User u) (Host u) path rawpath (OmitHost u) (ForceQuery u)
    (RawQuery u) (Fragment u) (RawFragment u).

Definition IsAbs (u : URL) : bool := negb (String.eqb (Scheme u) EmptyString).

(** The decoded form with the encoding when it is not the default one. *)
Definition decoded_form (mode : encoding) (s : string) : option (string * string) :=
  plain ← unescape mode s;
  Some (plain, if String.eqb (escape mode plain) s then EmptyString else s).

Definition encoded_form (mode : encoding) (plain raw : string) : string :=
  if negb (String.eqb raw EmptyString) && validEncoded raw mode
     && bool_decide (unescape mode raw = Some plain)
  then raw
  else if String.eqb plain "*" && match mode with encodePath => true | _ => false end then "*"
  else escape mode plain.

Definition EscapedPath (u : URL) : string := encoded_form encodePath (Path u) (RawPath u).

Definition EscapedFragment (u : URL) : string := encoded_form encodeFragment (Fragment u) (RawFragment u).

Definition setPath (u : URL) (p : string) : option URL :=
  '(path, raw) ← decoded_form encodePath p; Some (with_path u path raw).

(** ** Parsing *)

(** An authority: user information and host. *)
Class Authorities := { parseAuthority : string -> option (option string * string) }.

Definition colon : Z := 58.
Definition question : Z := 63.
Definition hash : Z := 35.

Definition is_letter (c : Z) : bool := between 97 c 122 || between 65 c 90.

(** [scheme ++ ":"] in front, if any; [None] when it is missing before the
    colon. *)
Fixpoint scheme_bytes (first : bool) (before bs : list Z) : option (list Z * list Z) :=
  let no_scheme := Some ([], reverse before ++ bs) in
  match bs with
  | [] => no_scheme
  | c :: rest =>
      if is_letter c then scheme_bytes false (c :: before) rest
      else if is_digit c || one_of c "+-." then
        if first then no_scheme else scheme_bytes false (c :: before) rest
      else if c =? colon then
        if first then None else Some (reverse before, rest)
      else no_scheme
  end.

(** [strings.Cut], everything being before a separator that is missing. *)
Definition cut_or (s : string) (sep : Z) : string * string := default (s, EmptyString) (cut s sep).

Section parsing.
Context {A : Authorities}.

Definition split_query (rest : string) : string * string * bool :=
  if has_suffix rest "?" && bool_decide (length (split rest question) = 2%nat)
  then ((cut_or rest question).1, EmptyString, true)
  else (cut_or rest question, false).

(** After [//]: the authority up to the next slash. *)
Definition split_authority (rest : string) : string * string :=
  match cut rest slash with
  | Some (authority, path) => (authority, "/" ++ path)%string
  | None => (rest, EmptyString)
  end.

Definition parse_url (raw : string) : option URL :=
  if existsb (fun b => (b <? 32) || (b =? 0x7F)) (bytes_of raw) then None
  else if String.eqb raw "*" then
    Some (mkURL EmptyString EmptyString None EmptyString "*" EmptyString false false EmptyString
            EmptyString EmptyString)
  else
    '(scheme, rest) ← scheme_bytes true [] (bytes_of raw);
    let scheme := to_lower (of_bytes scheme) in
    let '(rest, query, force) := split_query (of_bytes rest) in
    let url opaque user host omit :=
      mkURL scheme opaque user host EmptyString EmptyString omit force query EmptyString EmptyString in
    let absolute := negb (String.eqb scheme EmptyString) in
    if negb (has_prefix rest "/") && absolute then Some (url rest None EmptyString false)
    else if negb (has_prefix rest "/") && contains_any (cut_or rest slash).1 [colon] then None
    else if (absolute || negb (has_prefix rest "///")) && has_prefix rest "//" then
      let '(authority, rest) := split_authority (trim_prefix rest "//") in
      '(user, host) ← parseAuthority authority;
      setPath (url EmptyString user host false) rest
    else setPath (url EmptyString None EmptyString (absolute && has_prefix rest "/")) rest.

(** [url.Parse]. *)
Definition url_Parse (raw : string) : option URL :=
  let '(u, frag) := cut_or raw hash in
  url ← parse_url u;
  if String.eqb frag EmptyString then Some url
  else
    '(fragment, rawfragment) ← decoded_form encodeFragment frag;
    Some (mkURL (Scheme url) (Opaque url) (User url) (Host url) (Path url) (RawPath url)
            (OmitHost url) (ForceQuery url) (RawQuery url) fragment rawfragment).

End parsing.

(** ** Printing *)

Definition authority_text (u : URL) : string :=
  if OmitHost u && String.eqb (Host u) EmptyString && bool_decide (User u = None) then EmptyString
  else
    (if negb (String.eqb (Host u) EmptyString) || negb (String.eqb (Path u) EmptyString)
        || negb (bool_decide (User u = None)) then "//" else "")
    ++ match User u with
       | Some user => user ++ "@"
       | None => ""
       end
    ++ escape encodeHost (Host u).

Definition url_String (u : URL) : string :=
  let scheme := if IsAbs u then (Scheme u ++ ":")%string else EmptyString in
  let body :=
    if negb (String.eqb (Opaque u) EmptyString) then (scheme ++ Opaque u)%string
    else
      let authority :=
        if IsAbs u || negb (String.eqb (Host u) EmptyString) || negb (bool_decide (User u = None))
        then authority_text u else EmptyString in
      let path := EscapedPath u in
      let rooted :=
        if negb (String.eqb path EmptyString) && negb (has_prefix path "/")
           && negb (String.eqb (Host u) EmptyString) then "/"%string else EmptyString in
      let front := (scheme ++ authority ++ rooted)%string in
      let dotted :=
        if String.eqb front EmptyString && contains_any (cut_or path slash).1 [colon]
        then "./"%string else EmptyString in
      (front ++ dotted ++ path)%string in
  (body ++ (if ForceQuery u || negb (String.eqb (RawQuery u) EmptyString) then "?" ++ RawQuery u else "")
   ++ (if negb (String.eqb (Fragment u) EmptyString) then "#" ++ EscapedFragment u else ""))%string.

(** ** References *)

Definition before_last (c : Z) (bs : list Z) : option (list Z) :=
  reverse ∘ snd <$> cut_bytes c (reverse bs).

Definition dot : list Z := [46].
Definition dot_dot : list Z := [46; 46].

(** One element of a path: what was written, and whether none was yet. *)
Definition resolve_step (st : list Z * bool) (elem : list Z) : list Z * bool :=
  let '(dst, first) := st in
  if bool_decide (elem = dot) then (dst, false)
  else if bool_decide (elem = dot_dot) then
    match before_last slash (tail dst) with
    | None => ([slash], true)
    | Some before => (slash :: before, first)
    end
  else ((if first then dst else dst ++ [slash]) ++ elem, false).

Definition resolvePath (base ref : string) : string :=
  let full :=
    if String.eqb ref EmptyString then base
    else if has_prefix ref "/" then ref
    else match before_last slash (bytes_of base) with
         | None => ref
         | Some dir => (of_bytes dir ++ "/" ++ ref)%string
         end in
  if String.eqb full EmptyString then EmptyString
  else
    let elems := split_bytes slash (bytes_of full) in
    let '(dst, _) := foldl resolve_step ([slash], true) elems in
    let dst := if bool_decide (last elems = Some dot) || bool_decide (last elems = Some dot_dot)
               then dst ++ [slash] else dst in
    of_bytes match dst with
             | _ :: 47 :: rest => 47 :: rest
             | _ => dst
             end.

(** A path that fails to decode leaves the URL as it is. *)
Definition set_path (u : URL) (p : string) : URL := default u (setPath u p).

(** [u.ResolveReference(ref)]. *)
Definition ResolveReference (u ref : URL) : URL :=
  let url user host path rawpath opaque query fragment rawfragment :=
    mkURL (if IsAbs ref then Scheme ref else Scheme u) opaque user host path rawpath (OmitHost ref)
      (ForceQuery ref) query fragment rawfragment in
  if IsAbs ref || negb (String.eqb (Host ref) EmptyString) || negb (bool_decide (User ref = None))
  then set_path (url (User ref) (Host ref) (Path ref) (RawPath ref) (Opaque ref) (RawQuery ref)
                   (Fragment ref) (RawFragment ref)) (resolvePath (EscapedPath ref) EmptyString)
  else if negb (String.eqb (Opaque ref) EmptyString)
  then url None EmptyString EmptyString (RawPath ref) (Opaque ref) (RawQuery ref) (Fragment ref)
         (RawFragment ref)
  else
    let bare := String.eqb (Path ref) EmptyString && negb (ForceQuery ref)
                && String.eqb (RawQuery ref) EmptyString in
    let query := if bare then RawQuery u else RawQuery ref in
    let inherit := bare && String.eqb (Fragment ref) EmptyString in
    let fragment := if inherit then Fragment u else Fragment ref in
    let rawfragment := if inherit then RawFragment u else RawFragment ref in
    if String.eqb (Path ref) EmptyString && negb (String.eqb (Opaque u) EmptyString)
    then url None EmptyString EmptyString (RawPath ref) (Opaque u) query fragment rawfragment
    else set_path (url (User u) (Host u) (Path ref) (RawPath ref) (Opaque ref) query fragment
                     rawfragment) (resolvePath (EscapedPath u) (EscapedPath ref)).

(** ** Queries *)

Definition ampersand : Z := 38.

(** The library refuses to parse a query with more parameters. *)
Definition max_query_params : Z := 10000.

Definition query_pair (item : list Z) : option (string * string) :=
  if bool_decide (item = []) || existsb (Z.eqb semicolon) item then None
  else
    let '(key, value) := default (item, []) (cut_bytes equals_sign item) in
    key ← unescape_bytes encodeQueryComponent key;
    value ← unescape_bytes encodeQueryComponent value;
    Some (of_bytes key, of_bytes value).

Definition Query (u : URL) : list (string * string) :=
  let items := split_bytes ampersand (bytes_of (RawQuery u)) in
  if Z.of_nat (length items) <=? max_query_params then omap query_pair items else [].

(** The first value under a key. *)
Definition query_get (u : URL) (key : string) : string :=
  default EmptyString (snd <$> List.find (fun kv => String.eqb kv.1 key) (Query u)).

(** ** Lemmas *)

Lemma upper_hex_alnum d : 0 <= d < 16 -> is_alnum (upper_hex d) = true.
Proof.
  intros Hd. unfold is_alnum, upper_hex. case_match; to_prop; apply orb_true_iff;
    [right; apply between_spec; lia|left; apply orb_true_iff; right; apply between_spec; lia].
Qed.

Lemma unhex_upper_hex d : 0 <= d < 16 -> unhex (upper_hex d) = Some d.
Proof.
  intros Hd. unfold unhex, upper_hex, between. repeat case_match; to_prop; try lia; f_equal; lia.
Qed.

Lemma percent_escaped mode : shouldEscape percent mode = true.
Proof. by destruct mode. Qed.

Lemma plus_escaped : shouldEscape plus encodeQueryComponent = true.
Proof. done. Qed.

Lemma unescape_escape_byte mode c rest :
  is_byte c ->
  unescape_bytes mode (escape_byte mode c ++ rest) = cons c <$> unescape_bytes mode rest.
Proof.
  intros Hc. unfold is_byte in Hc. unfold escape_byte.
  assert (Hhex : unescape_bytes mode ([percent; upper_hex (c / 16); upper_hex (c mod 16)] ++ rest)
                 = cons c <$> unescape_bytes mode rest).
  { cbn -[upper_hex]. rewrite !unhex_upper_hex by (Z.div_mod_to_equations; lia).
    cbn. destruct (unescape_bytes mode rest); [|done]. cbn. do 2 f_equal. Z.div_mod_to_equations. lia. }
  destruct (shouldEscape c mode) eqn:Hs.
  - destruct mode; try exact Hhex. destruct (Z.eqb_spec c 32) as [->|_]; [|exact Hhex].
    cbn. by destruct (unescape_bytes _ rest).
  - cbn [app unescape_bytes]. destruct (Z.eqb_spec c percent) as [->|_].
    + by rewrite percent_escaped in Hs.
    + assert (unescape_plain mode c = c) as ->.
      { destruct mode; try done. cbn. destruct (Z.eqb_spec c plus) as [->|_]; [|done].
        by rewrite plus_escaped in Hs. }
      by destruct (unescape_bytes mode rest).
Qed.

Lemma unescape_escape_bytes mode bs :
  Forall is_byte bs -> unescape_bytes mode (concat (map (escape_byte mode) bs)) = Some bs.
Proof.
  induction 1 as [|c bs Hc _ IH]; [done|]. cbn [map concat].
  by rewrite unescape_escape_byte, IH.
Qed.

Lemma escape_byte_bytes mode c : is_byte c -> Forall is_byte (escape_byte mode c).
Proof.
  intros Hc. unfold is_byte in *.
  assert (Hh : forall d, 0 <= d < 16 -> 0 <= upper_hex d < 256).
  { intros d Hd. unfold upper_hex. case_match; lia. }
  assert (Forall (fun b => 0 <= b < 256) [percent; upper_hex (c / 16); upper_hex (c mod 16)]).
  { repeat constructor; try (apply Hh; Z.div_mod_to_equations; lia); unfold percent; lia. }
  unfold escape_byte. destruct (shouldEscape c mode); [|by apply Forall_singleton].
  destruct mode; try done. case_match; [repeat constructor; unfold plus; lia|done].
Qed.

Lemma escape_bytes mode s :
  bytes_of (escape mode s) = concat (map (escape_byte mode) (bytes_of s)).
Proof.
  unfold escape. apply bytes_of_bytes. pose proof (bytes_of_is_byte s) as H.
  induction H as [|c bs Hc _ IH]; [constructor|]. cbn. apply Forall_app. split; [|done].
  by apply escape_byte_bytes.
Qed.

Lemma unescape_escape mode s : unescape mode (escape mode s) = Some s.
Proof.
  unfold unescape. rewrite escape_bytes, unescape_escape_bytes by apply bytes_of_is_byte.
  cbn. by rewrite of_bytes_of.
Qed.

(** What an escaped segment consists of: nothing that ends a segment, a path or
    a query. *)
Definition segment_byte (c : Z) : Prop := is_alnum c || one_of c "-_.~$&+:=@%" = true.

(** Properties of bytes are checked one by one. *)
Lemma each_byte (P : Z -> bool) c :
  forallb P (map Z.of_nat (seq 0 256)) = true -> is_byte c -> P c = true.
Proof.
  intros H Hc. unfold is_byte in Hc. rewrite forallb_forall in H. apply H, in_map_iff.
  exists (Z.to_nat c). split; [lia|]. apply in_seq. lia.
Qed.

Lemma unescaped_segment_byte c :
  is_byte c -> shouldEscape c encodePathSegment || (is_alnum c || one_of c "-_.~$&+:=@%") = true.
Proof.
  apply (each_byte (fun c =>
    shouldEscape c encodePathSegment || (is_alnum c || one_of c "-_.~$&+:=@%"))).
  by vm_compute.
Qed.

Lemma PathEscape_segment s : Forall segment_byte (bytes_of (PathEscape s)).
Proof.
  unfold PathEscape. rewrite escape_bytes. pose proof (bytes_of_is_byte s) as H.
  induction H as [|c bs Hc _ IH]; [constructor|]. cbn. apply Forall_app. split; [|done]. clear IH.
  unfold is_byte in Hc.
  assert (Hh : forall d, 0 <= d < 16 -> segment_byte (upper_hex d)).
  { intros d Hd. unfold segment_byte. by rewrite upper_hex_alnum. }
  unfold escape_byte. destruct (shouldEscape c encodePathSegment) eqn:E.
  - repeat constructor; apply Hh; Z.div_mod_to_equations; lia.
  - apply Forall_singleton. pose proof (unescaped_segment_byte c Hc) as H. by rewrite E in H.
Qed.

Lemma segment_byte_no_slash c : segment_byte c -> c <> slash.
Proof. by intros H ->. Qed.
