(* ===== verification/UploadStore.v ===== *)
(** * Uploads in the database

    [db/queries/uploads.sql] as generated in [db/generated/uploads.sql.go] and
    the store methods of [internal/store/uploads.go].  Every state change is a
    conditional update: its WHERE clause names the statuses it may leave. *)

From S2P Require Import Prelude GoText Json HttpApi Constants External Schema Queries Store.

Definition StatusPending : string := "PENDING".
Definition StatusCompleted : string := "COMPLETED".
Definition StatusFailed : string := "FAILED".
Definition StatusExpired : string := "EXPIRED".
Definition StatusCancelled : string := "CANCELLED".
Definition StatusDeleted : string := "DELETED".

(** ** Statements *)

Module uq.
Section with_external.
Context {X : External Db}.

Definition owned_upload (d : Db) (id owner : UUID) : option db.FileUpload :=
  u ← file_uploads d !! id; if N.eqb (db.up_owner_id u) owner then Some u else None.

Definition has_status (s : string) (u : db.FileUpload) : bool := String.eqb (db.up_status u) s.

(** UPDATE ... WHERE ... RETURNING: at most one row matches. *)
Definition update_one (id : UUID) (found : option db.FileUpload) (may : db.FileUpload -> bool)
    (f : db.FileUpload -> db.FileUpload) (d : Db) : res (Db * db.FileUpload) :=
  match found with
  | Some u => if may u then Ok (set_uploads <[id := f u]> d, f u) else Err ErrNoRows
  | None => Err ErrNoRows
  end.

(** The row with a new status, error message and update time. *)
Definition with_status (status : string) (err : option string) (now : Time)
    (u : db.FileUpload) : db.FileUpload :=
  db.mkFileUpload (db.up_id u) (db.up_note_id u) (db.up_owner_id u) (db.up_block_id u)
    (db.up_original_filename u) (db.up_storage_bucket u) (db.up_storage_path u)
    (db.up_content_type u) (db.up_expected_size u) (db.up_actual_size u)
    (db.up_verified_content_type u) status err (db.up_expires_at u) (db.up_completed_at u)
    (db.up_created_at u) now (db.up_cursor u) (db.up_device_id u).

Definition completed (actual : Z) (verified : option string) (now : Time)
    (u : db.FileUpload) : db.FileUpload :=
  db.mkFileUpload (db.up_id u) (db.up_note_id u) (db.up_owner_id u) (db.up_block_id u)
    (db.up_original_filename u) (db.up_storage_bucket u) (db.up_storage_path u)
    (db.up_content_type u) (db.up_expected_size u) (Some actual) verified StatusCompleted None
    (db.up_expires_at u) (Some now) (db.up_created_at u) now (db.up_cursor u) (db.up_device_id u).

(** CHECK (actual_size IS NULL OR actual_size >= 0) applies to the new row. *)
Definition CompleteFileUpload (id owner : UUID) (actual : Z) (verified : option string)
    : Stmt db.FileUpload := fun now d =>
  match update_one id (owned_upload d id owner) (has_status StatusPending)
          (completed actual verified now) d with
  | Ok r => if actual <? 0 then Err ErrCheckViolation else Ok r
  | Err e => Err e
  end.

Definition CountPendingFileUploads (owner : UUID) : Stmt Z := fun now d =>
  Ok (d, Z.of_nat (length (filter (fun u => db.up_owner_id u = owner /\
      db.up_status u = StatusPending /\ now < db.up_expires_at u) (rows (file_uploads d))))).

Definition path_taken (d : Db) (bucket path : string) : bool :=
  existsb (fun u => String.eqb (db.up_storage_bucket u) bucket
                    && String.eqb (db.up_storage_path u) path) (rows (file_uploads d)).

(** The new row: PENDING by default, under the next cursor. *)
Definition new_upload (id note_id owner block_id : UUID) (filename bucket path ctype : string)
    (expected : Z) (expires_at : Time) (device_id : option string) (cursor : Z) (now : Time)
    : db.FileUpload :=
  db.mkFileUpload id note_id owner block_id filename bucket path ctype expected None None
    StatusPending None expires_at None now now cursor device_id.

Definition note_of_owner (d : Db) (note_id owner : UUID) : bool :=
  match notes d !! note_id with
  | Some n => N.eqb (db.n_owner_id n) owner
  | None => false
  end.

Definition block_of_note (d : Db) (block_id note_id : UUID) : bool :=
  match note_blocks d !! block_id with
  | Some b => N.eqb (db.b_note_id b) note_id
  | None => false
  end.

Definition CreateFileUpload (id note_id owner block_id : UUID)
    (filename bucket path ctype : string) (expected : Z) (expires_at : option Time)
    (device_id : option string) : Stmt db.FileUpload := fun now d =>
  match expires_at with
  | None => Err ErrDriver (* NOT NULL *)
  | Some expires_at =>
      if DeviceIDMaxLength <? rune_count (default EmptyString device_id)
      then Err ErrDriver (* VARCHAR(30) *)
      else if expected <=? 0 then Err ErrCheckViolation
      else if bool_decide (is_Some (file_uploads d !! id)) || path_taken d bucket path
      then Err ErrUniqueViolation
      else if note_of_owner d note_id owner && block_of_note d block_id note_id
              && q.references (sync_devices d) device_id
      then
        let cursor := upload_seq d + 1 in
        let u := new_upload id note_id owner block_id filename bucket path ctype expected
                   expires_at device_id cursor now in
        Ok (with_sequences (change_seq d) (job_seq d) cursor (set_uploads <[id := u]> d), u)
      else Err ErrForeignKeyViolation
  end.

Definition latest_cursor_first (a b : db.FileUpload) : bool := db.up_cursor b <=? db.up_cursor a.

Definition GetFileUploadForBlockForOwner (block_id owner : UUID) : Stmt db.FileUpload :=
  fun now d =>
  one d (head (sort_by latest_cursor_first
    (filter (fun u => db.up_block_id u = block_id /\ db.up_owner_id u = owner)
       (rows (file_uploads d))))).

Definition GetFileUploadForOwner (id owner : UUID) : Stmt db.FileUpload := fun now d =>
  one d (owned_upload d id owner).

Definition earlier_expiry (a b : db.FileUpload) : bool := db.up_expires_at a <=? db.up_expires_at b.

Definition ListExpiredFileUploads (cutoff : option Time) (limit : Z)
    : Stmt (list db.FileUpload) := fun now d =>
  match cutoff with
  | None => Ok (d, []) (* comparison with NULL *)
  | Some cutoff =>
      if limit <? 0 then Err ErrDriver
      else Ok (d, take (Z.to_nat limit) (sort_by earlier_expiry
             (filter (fun u => db.up_status u = StatusPending /\ db.up_expires_at u < cutoff)
                (rows (file_uploads d)))))
  end.

Definition by_cursor (a b : db.FileUpload) : bool := db.up_cursor a <=? db.up_cursor b.

Definition ListFileUploadsAfterCursor (owner : UUID) (cursor : Z) : Stmt (list db.FileUpload) :=
  fun now d =>
  Ok (d, sort_by by_cursor
           (filter (fun u => db.up_owner_id u = owner /\ cursor < db.up_cursor u)
              (rows (file_uploads d)))).

Definition MarkFileUploadCancelled (id owner : UUID) : Stmt db.FileUpload := fun now d =>
  update_one id (owned_upload d id owner) (fun u => negb (has_status StatusDeleted u))
    (fun u => with_status StatusCancelled (db.up_error_message u) now u) d.

Definition MarkFileUploadDeleted (id owner : UUID) : Stmt db.FileUpload := fun now d =>
  update_one id (owned_upload d id owner) (fun u => negb (has_status StatusDeleted u))
    (with_status StatusDeleted None now) d.

Definition MarkFileUploadExpired (id : UUID) (err : option string) : Stmt db.FileUpload :=
  fun now d =>
  update_one id (file_uploads d !! id) (has_status StatusPending) (with_status StatusExpired err now) d.

Definition MarkFileUploadFailed (id owner : UUID) (err : option string) : Stmt db.FileUpload :=
  fun now d =>
  update_one id (owned_upload d id owner) (has_status StatusPending)
    (with_status StatusFailed err now) d.

End with_external.
End uq.

(** ** Store methods *)

Module ustore.

Record FileUpload := mkFileUpload {
  Up_ID : UUID; Up_NoteID : UUID; Up_OwnerID : UUID; Up_BlockID : UUID; Up_Cursor : Z;
  Up_DeviceID : string; Up_OriginalFilename : string; Up_StorageBucket : string;
  Up_StoragePath : string; Up_ContentType : string; Up_ExpectedSize : Z;
  Up_ActualSize : option Z; Up_VerifiedContentType : option string; Up_Status : string;
  Up_ErrorMessage : option string; Up_ExpiresAt : Time; Up_CompletedAt : option Time;
  Up_CreatedAt : Time; Up_UpdatedAt : Time
}.

(** The conversion of the zero row, which a failed call returns. *)
Definition zero_upload : FileUpload :=
  mkFileUpload uuid_Nil uuid_Nil uuid_Nil uuid_Nil 0 EmptyString EmptyString EmptyString
    EmptyString EmptyString 0 None None EmptyString None zero_time None zero_time zero_time.

Definition fromDBFileUpload (u : db.FileUpload) : FileUpload :=
  mkFileUpload (db.up_id u) (db.up_note_id u) (db.up_owner_id u) (db.up_block_id u)
    (db.up_cursor u) (default EmptyString (db.up_device_id u)) (db.up_original_filename u)
    (db.up_storage_bucket u) (db.up_storage_path u) (db.up_content_type u)
    (db.up_expected_size u) (db.up_actual_size u) (db.up_verified_content_type u)
    (db.up_status u) (db.up_error_message u) (db.up_expires_at u) (db.up_completed_at u)
    (db.up_created_at u) (db.up_updated_at u).

(** [pgtype.Text{String: s, Valid: s != EmptyString}]. *)
Definition text_param (s : string) : option string :=
  if String.eqb s EmptyString then None else Some s.

Section with_external.
Context {X : External Db}.

(** One row, with "no rows" as not found. *)
Definition one_row (s : Store) (q : Stmt db.FileUpload) : M FileUpload :=
  row ← store.map_err store.mapNoRows (exec s q);
  mret (fromDBFileUpload row).

Definition CreateFileUpload (s : Store) (u : FileUpload) : M FileUpload :=
  row ← exec s (uq.CreateFileUpload (Up_ID u) (Up_NoteID u) (Up_OwnerID u) (Up_BlockID u)
           (Up_OriginalFilename u) (Up_StorageBucket u) (Up_StoragePath u) (Up_ContentType u)
           (Up_ExpectedSize u) (store.pgTime (Up_ExpiresAt u)) (text_param (Up_DeviceID u)));
  mret (fromDBFileUpload row).

Definition ListFileUploadsAfterCursor (s : Store) (ownerID : UUID) (cursor : Z)
    : M (list FileUpload) :=
  found ← exec s (uq.ListFileUploadsAfterCursor ownerID cursor);
  mret (map fromDBFileUpload found).

Definition GetFileUploadForOwner (s : Store) (uploadID ownerID : UUID) : M FileUpload :=
  one_row s (uq.GetFileUploadForOwner uploadID ownerID).

Definition GetFileUploadForBlockForOwner (s : Store) (blockID ownerID : UUID) : M FileUpload :=
  one_row s (uq.GetFileUploadForBlockForOwner blockID ownerID).

Definition CountPendingFileUploads (s : Store) (ownerID : UUID) : M Z :=
  exec s (uq.CountPendingFileUploads ownerID).

Definition MarkFileUploadFailed (s : Store) (uploadID ownerID : UUID) (msg : string)
    : M FileUpload :=
  one_row s (uq.MarkFileUploadFailed uploadID ownerID (text_param msg)).

Definition CompleteFileUpload (s : Store) (uploadID ownerID : UUID) (actualSize : Z)
    (verifiedContentType : string) : M FileUpload :=
  one_row s (uq.CompleteFileUpload uploadID ownerID actualSize (text_param verifiedContentType)).

Definition MarkFileUploadDeleted (s : Store) (uploadID ownerID : UUID) : M FileUpload :=
  one_row s (uq.MarkFileUploadDeleted uploadID ownerID).

Definition MarkFileUploadCancelled (s : Store) (uploadID ownerID : UUID) : M FileUpload :=
  one_row s (uq.MarkFileUploadCancelled uploadID ownerID).

Definition ListExpiredFileUploads (s : Store) (cutoff : Time) (limit : Z) : M (list FileUpload) :=
  found ← exec s (uq.ListExpiredFileUploads (store.pgTime cutoff) limit);
  mret (map fromDBFileUpload found).

Definition MarkFileUploadExpired (s : Store) (uploadID : UUID) (msg : string) : M FileUpload :=
  one_row s (uq.MarkFileUploadExpired uploadID (text_param msg)).

End with_external.
End ustore.
