(* ===== verification/Storage.v ===== *)
(** * Object storage

    The interface [storage.Storage] of [internal/storage/supabase.go] that the
    upload service and the cleanup job call.  What the store answers depends on
    the moment of the call, given as the step of the calling process. *)

From S2P Require Import Prelude GoText Json HttpApi Constants External Schema.

Record SignedUpload := mkSignedUpload { SU_URL : string; SU_Token : string }.

Record ObjectInfo := mkObjectInfo { OI_Size : Z; OI_ContentType : string }.

Class Storage := {
  signed_upload : nat -> string -> string -> res SignedUpload;
  object_info : nat -> string -> string -> res ObjectInfo;
  signed_download : nat -> string -> string -> Z -> res string;
  delete_object : nat -> string -> string -> res unit
}.

Section with_storage.
Context {S : Storage}.

(** A call takes a step and leaves the database alone. *)
Definition call {A} (f : nat -> res A) : M A := fun w => (tick w, f (w_step w)).

Definition CreateSignedUploadURL (bucket path : string) : M SignedUpload :=
  call (fun n => signed_upload n bucket path).

Definition GetObjectInfo (bucket path : string) : M ObjectInfo :=
  call (fun n => object_info n bucket path).

Definition CreateSignedDownloadURL (bucket path : string) (seconds : Z) : M string :=
  call (fun n => signed_download n bucket path seconds).

Definition DeleteObject (bucket path : string) : M unit :=
  call (fun n => delete_object n bucket path).

End with_storage.
