(* ===== verification/SupabaseClient.v ===== *)
(** * The client of the object storage

    [Client] of [internal/storage/supabase.go], which implements the interface
    of Storage.v over HTTP.  The server is a parameter: it answers a request at
    a step with nothing, or with a status and the first JSON document of the
    body, if any, next to the number of bytes up to its end. *)

From S2P Require Import Prelude GoText GoFloat Json HttpApi External Schema GoMime GoStrings.
From S2P Require Import GoUrl Storage.

Module supabase.

Record request := mkRequest {
  sr_method : string; sr_target : string; sr_headers : list (string * string);
  sr_body : option json
}.

Inductive reply :=
| NoReply
| Replied (status : Z) (document : option (Z * json)).

Class Server := { reply_to : nat -> request -> reply }.

Record Client := mkClient { baseURL : URL; secretKey : string }.

Definition maxResponseBodyBytes : Z := Z.shiftl 1 20.

Definition is_blank (s : string) : bool := String.eqb (trim_space s) EmptyString.

Definition is_empty (s : string) : bool := String.eqb s EmptyString.

(** ** Object URLs *)

Definition invalid_path : goerr := errorsNew "invalid storage object path".

Definition bad_segment (segment : string) : bool :=
  is_empty segment || String.eqb segment "." || String.eqb segment "..".

Definition escapeObjectPath (objectPath : string) : res string :=
  if is_empty objectPath || contains_any objectPath [backslash] || has_prefix objectPath "/"
     || has_suffix objectPath "/" then Err invalid_path
  else
    let segments := split objectPath slash in
    if existsb bad_segment segments then Err invalid_path
    else Ok (join (map PathEscape segments) "/").

Definition objectURL (c : Client) (prefix bucket objectPath : string) : res string :=
  if is_blank bucket || contains_any bucket [slash; backslash]
  then Err (errorsNew "invalid storage bucket")
  else
    escapedPath ← escapeObjectPath objectPath;
    let base := trim_right_char slash (url_String (baseURL c)) in
    Ok (base ++ prefix ++ "/" ++ PathEscape bucket ++ "/" ++ escapedPath)%string.

(** ** Replies *)

(** [json.Number] takes a number or a string that is one. *)
Definition numberFromJSON (raw : RawMessage) : option Z :=
  match raw with
  | Some (JNum literal) => parse_int64 literal
  | Some (JStr text) => parse_int64 text
  | _ => None
  end.

Record object_payload := mkPayload {
  pl_Size : RawMessage; pl_ContentType : string; pl_ContentTypeJSON : string;
  pl_Metadata : option (list (string * json))
}.

(** Members are added to the map that is there; [null] makes it [nil]. *)
Definition store_map (v : json) (m : option (list (string * json)))
    : option (option (list (string * json))) :=
  match v with
  | JNull => Some None
  | JObj members => Some (Some (default [] m ++ members))
  | _ => None
  end.

Definition object_fields : list (struct_field object_payload) :=
  [("size", fun v p => Some (mkPayload (Some v) (pl_ContentType p) (pl_ContentTypeJSON p)
                               (pl_Metadata p)));
   ("content_type", store_field unmarshal_string (fun s p =>
      mkPayload (pl_Size p) s (pl_ContentTypeJSON p) (pl_Metadata p)));
   ("contentType", store_field unmarshal_string (fun s p =>
      mkPayload (pl_Size p) (pl_ContentType p) s (pl_Metadata p)));
   ("metadata", fun v p => m ← store_map v (pl_Metadata p);
      Some (mkPayload (pl_Size p) (pl_ContentType p) (pl_ContentTypeJSON p) m))]%string.

Definition decode_object : json -> option object_payload :=
  unmarshal_struct object_fields (mkPayload None EmptyString EmptyString None).

Definition metadata_field (p : object_payload) (key : string) : RawMessage :=
  pl_Metadata p ≫= fun members => fields_of members !! key.

(** A field that is not text leaves what was read before. *)
Fixpoint metadata_type (p : object_payload) (keys : list string) (contentType : string) : string :=
  match keys with
  | [] => contentType
  | key :: rest =>
      match metadata_field p key with
      | None => metadata_type p rest contentType
      | Some raw =>
          let contentType := match raw with
                             | JStr s => s
                             | _ => contentType
                             end in
          if is_blank contentType then metadata_type p rest contentType else contentType
      end
  end.

Definition payload_size (p : object_payload) : option Z :=
  match numberFromJSON (pl_Size p) with
  | Some size => Some size
  | None => numberFromJSON (metadata_field p "size")
  end.

Definition payload_type (p : object_payload) : string :=
  let contentType := trim_space (pl_ContentType p) in
  let contentType :=
    if is_empty contentType then trim_space (pl_ContentTypeJSON p) else contentType in
  if is_empty contentType
  then metadata_type p ["mimetype"; "contentType"; "content_type"]%string contentType
  else contentType.

Definition one_field (key : string) : json -> option string :=
  unmarshal_struct [(key, store_field unmarshal_string (fun s _ => s))] EmptyString.

(** ** The client *)

Section client.
Context {A : Authorities}.

Definition invalid_url : goerr :=
  errorsNew "Supabase URL must be an absolute URL without credentials or query parameters".

Definition NewClient (projectURL secret : string) (timeout : Z) : res Client :=
  if is_blank projectURL || is_blank secret
  then Err (errorsNew "Supabase URL and secret key are required")
  else if timeout <=? 0 then Err (errorsNew "storage HTTP timeout must be greater than zero")
  else
    match url_Parse (trim_right_char slash (trim_space projectURL)) with
    | None => Err invalid_url
    | Some base =>
        if is_empty (Scheme base) || is_empty (Host base) || negb (bool_decide (User base = None))
           || negb (is_empty (RawQuery base)) || negb (is_empty (Fragment base))
        then Err invalid_url
        else
          let path := trim_right_char slash (Path base) in
          let path :=
            if has_suffix path "/storage/v1" then Path base else (path ++ "/storage/v1")%string in
          Ok (mkClient (with_path base path EmptyString) secret)
    end.

(** A reference as the absolute URL it means. *)
Definition resolve_relative (base parsed : URL) : URL :=
  if has_prefix (Path parsed) "/storage/v1/"
  then ResolveReference (with_path base EmptyString EmptyString) parsed
  else if has_prefix (Path parsed) "/"
  then ResolveReference base
         (mkURL EmptyString EmptyString None EmptyString
            (trim_right_char slash (Path base) ++ Path parsed) EmptyString false false
            (RawQuery parsed) EmptyString EmptyString)
  else ResolveReference base parsed.

Definition resolveSignedURL (c : Client) (raw : string) : res (string * string) :=
  if is_blank raw then Err ErrStorageInvalidResponse
  else
    match url_Parse raw with
    | None => Err ErrStorageInvalidResponse
    | Some parsed =>
        let base := baseURL c in
        if IsAbs parsed
           && (negb (String.eqb (Scheme parsed) (Scheme base))
               || negb (key_matches (Host parsed) (Host base)))
        then Err ErrStorageInvalidResponse
        else
          let parsed := if IsAbs parsed then parsed else resolve_relative base parsed in
          let token := query_get parsed "token" in
          if is_empty token then Err ErrStorageInvalidResponse else Ok (url_String parsed, token)
    end.

Context {V : Server}.

Definition headers (c : Client) (body : option json) : list (string * string) :=
  [("apikey", secretKey c); ("Authorization", "Bearer " ++ secretKey c)]%string
  ++ match body with
     | Some _ => [("Content-Type", "application/json")]%string
     | None => []
     end.

(** What a status that was not asked for means. *)
Definition status_error (status : Z) : goerr :=
  if status =? StatusNotFound then ErrStorageNotFound
  else if (status =? StatusRequestTimeout) || (status =? StatusTooManyRequests) || (500 <=? status)
  then ErrStorageUnavailable
  else ErrStorageUpstream.

(** [result] decodes the document of the answer; there is none to decode when
    it is [None]. *)
Definition doJSON {B} (c : Client) (n : nat) (method target : string) (body : option json)
    (expectedStatus : Z) (result : option (json -> option B)) : res (option B) :=
  match url_Parse target with
  | None => Err ErrStorageOther
  | Some _ =>
      match reply_to n (mkRequest method target (headers c body) body) with
      | NoReply => Err ErrStorageUnavailable
      | Replied status document =>
          let none := match result with None => true | Some _ => false end in
          if negb ((status =? expectedStatus)
                   || none && (expectedStatus =? StatusOK) && (status =? StatusNoContent))
          then Err (status_error status)
          else
            match result with
            | None => Ok None
            | Some decode =>
                match document with
                | None => Err ErrStorageInvalidResponse
                | Some (size, v) =>
                    if maxResponseBodyBytes <? size then Err ErrStorageInvalidResponse
                    else match decode v with
                         | None => Err ErrStorageInvalidResponse
                         | Some b => Ok (Some b)
                         end
                end
            end
      end
  end.

Definition CreateSignedUploadURL (c : Client) (n : nat) (bucket objectPath : string)
    : res SignedUpload :=
  target ← objectURL c "/object/upload/sign" bucket objectPath;
  payload ← doJSON c n "POST" target (Some empty_object) StatusOK (Some (one_field "url"));
  '(signedURL, token) ← resolveSignedURL c (default EmptyString payload);
  Ok (mkSignedUpload signedURL token).

Definition GetObjectInfo (c : Client) (n : nat) (bucket objectPath : string) : res ObjectInfo :=
  target ← objectURL c "/object/info" bucket objectPath;
  decoded ← doJSON c n "GET" target None StatusOK (Some decode_object);
  let payload := default (mkPayload None EmptyString EmptyString None) decoded in
  match payload_size payload with
  | None => Err ErrStorageInvalidResponse
  | Some size =>
      let contentType := payload_type payload in
      if (size <? 0) || is_empty contentType then Err ErrStorageInvalidResponse
      else Ok (mkObjectInfo size contentType)
  end.

Definition CreateSignedDownloadURL (c : Client) (n : nat) (bucket objectPath : string)
    (expiresInSeconds : Z) : res string :=
  if expiresInSeconds <=? 0
  then Err (errorsNew "download URL expiration must be greater than zero")
  else
    target ← objectURL c "/object/sign" bucket objectPath;
    payload ← doJSON c n "POST" target
                (Some (JObj [("expiresIn"%string, JNum (format_int expiresInSeconds))])) StatusOK
                (Some (one_field "signedURL"));
    '(signedURL, _) ← resolveSignedURL c (default EmptyString payload);
    Ok signedURL.

Definition DeleteObject (c : Client) (n : nat) (bucket objectPath : string) : res unit :=
  target ← objectURL c "/object" bucket objectPath;
  _ ← doJSON (B := unit) c n "DELETE" target None StatusOK None;
  Ok tt.

(** The client behind the interface of the services. *)
Definition as_storage (c : Client) : Storage := {|
  signed_upload := CreateSignedUploadURL c;
  object_info := GetObjectInfo c;
  signed_download := CreateSignedDownloadURL c;
  delete_object := DeleteObject c
|}.

End client.
End supabase.
