(* ===== verification/UploadService.v ===== *)
(** * The upload service

    [internal/uploads/models.go] and [service.go]: the lifecycle of a file
    upload, from the request for an authorization to completion, download and
    deletion.  Every statement runs on the pool, so other clients may act
    between any two of them. *)

From S2P Require Import Prelude GoText Json HttpApi Constants External Schema Queries Store.
From S2P Require Import GoMime UploadStore Storage.

Import ustore.

(** ** Requests and responses *)

Record InitiateRequest := mkInitiateRequest {
  IR_NoteID : UUID; IR_BlockID : UUID; IR_DeviceID : string; IR_Filename : string;
  IR_ContentType : string; IR_Size : Z
}.

Record InitiateResponse := mkInitiateResponse {
  IResp_UploadID : UUID; IResp_Cursor : Z; IResp_Status : string; IResp_Bucket : string;
  IResp_Path : string; IResp_ContentType : string; IResp_SignedURL : string;
  IResp_Token : string; IResp_ExpiresAt : Time
}.

Record FileMetadata := mkFileMetadata { FM_Filename : string; FM_ContentType : string; FM_Size : Z }.

Record UploadResponse := mkUploadResponse {
  UR_UploadID : UUID; UR_Cursor : Z; UR_NoteID : UUID; UR_BlockID : UUID; UR_Status : string;
  UR_File : FileMetadata; UR_ExpectedSize : Z; UR_ActualSize : option Z;
  UR_VerifiedContentType : string; UR_Bucket : string; UR_Path : string; UR_ExpiresAt : Time;
  UR_CompletedAt : option Time; UR_CreatedAt : Time; UR_UpdatedAt : Time
}.

Record DownloadURLResponse := mkDownloadURLResponse {
  DU_Cursor : Z; DU_NoteID : UUID; DU_BlockID : UUID; DU_UploadID : UUID;
  DU_SignedURL : string; DU_ExpiresAt : Time
}.

Record DownloadLinksResponse := mkDownloadLinksResponse {
  DL_Links : list DownloadURLResponse; DL_NextCursor : Z
}.

Definition responseFromEntity (u : FileUpload) : UploadResponse :=
  mkUploadResponse (Up_ID u) (Up_Cursor u) (Up_NoteID u) (Up_BlockID u) (Up_Status u)
    (mkFileMetadata (Up_OriginalFilename u)
       (default (Up_ContentType u) (Up_VerifiedContentType u))
       (default (Up_ExpectedSize u) (Up_ActualSize u)))
    (Up_ExpectedSize u) (Up_ActualSize u) (default EmptyString (Up_VerifiedContentType u))
    (Up_StorageBucket u) (Up_StoragePath u) (Up_ExpiresAt u) (Up_CompletedAt u)
    (Up_CreatedAt u) (Up_UpdatedAt u).

(** The service's configuration; durations in nanoseconds. *)
Record UploadConfig := mkUploadConfig {
  uc_bucket : string; uc_maxFileSize : Z; uc_allowedMIMETypes : list string;
  uc_uploadTTL : Z; uc_downloadTTL : Z; uc_maxPending : Z
}.

(** ** Validation *)

Definition normalizedContentType (value : string) : string :=
  match ParseMediaType (trim_space value) with
  | None => EmptyString
  | Some mediaType => to_lower (trim_space mediaType)
  end.

Definition mimeAllowed (contentType : string) (allowed : list string) : bool :=
  existsb (fun value =>
    let value := to_lower (trim_space value) in
    String.eqb value contentType
    || has_suffix value "/*" && has_prefix contentType (trim_suffix value "*")) allowed.

Definition validateDeviceID (deviceID : string) : res unit :=
  if String.eqb deviceID EmptyString
  then Err (ErrAPI (InvalidRequest (RequestKeyDeviceID ++ " is required.")))
  else if negb (ValidDeviceID deviceID)
  then Err (ErrAPI (InvalidRequest (RequestKeyDeviceID ++ " must be 30 characters or fewer.")))
  else Ok tt.

Definition validateCursor (cursor : Z) : res unit :=
  if cursor <? 0
  then Err (ErrAPI (InvalidRequest (RequestKeyCursor ++ " must be greater than or equal to zero.")))
  else Ok tt.

Definition filename_ok (filename : string) : bool :=
  negb (String.eqb filename EmptyString) && (Z.of_nat (length (bytes_of filename)) <=? 255)
  && valid_utf8 filename && negb (contains_any filename [slash; backslash]).

Definition validateRequest (request : InitiateRequest) (maxFileSize : Z)
    (allowedMIMETypes : list string) : res unit :=
  _ ← validateDeviceID (IR_DeviceID request);
  if is_nil (IR_NoteID request) || is_nil (IR_BlockID request)
  then Err (ErrAPI (InvalidRequest "Note ID and block ID are required."))
  else if IR_Size request <=? 0
  then Err (ErrAPI (InvalidRequest "File size must be greater than zero."))
  else if maxFileSize <? IR_Size request
  then Err (ErrAPI (NewError StatusRequestEntityTooLarge CodePayloadTooLarge
                      "The file exceeds the configured size limit."))
  else
    let filename := trim_space (IR_Filename request) in
    if negb (filename_ok filename) || existsb is_control (runes filename)
    then Err (ErrAPI (InvalidRequest "Filename is invalid."))
    else
      let contentType := normalizedContentType (IR_ContentType request) in
      if String.eqb contentType EmptyString || negb (mimeAllowed contentType allowedMIMETypes)
      then Err (ErrAPI (InvalidRequest "File type is not allowed."))
      else Ok tt.

(** [mime.ExtensionsByType] consults the system's tables. *)
Class MimeTables := { extensions_by_type : string -> option (list string) }.

Definition extensionForContentType {T : MimeTables} (contentType : string) : string :=
  if String.eqb contentType "application/pdf" then "pdf"
  else if String.eqb contentType "image/jpeg" then "jpg"
  else if String.eqb contentType "image/png" then "png"
  else
    match extensions_by_type contentType with
    | Some (e :: _) => trim_prefix e "."
    | _ => "bin"
    end.

Definition mapRepositoryError (notFoundMessage : string) (err : goerr) : goerr :=
  if store.is_not_found err then ErrAPI (NotFound notFoundMessage) else err.

Definition storageAPIError (err : goerr) : goerr :=
  match err with
  | ErrStorageUnavailable =>
      ErrAPI (NewError StatusServiceUnavailable CodeStorageUnavailable
                "File storage is temporarily unavailable.")
  | ErrStorageNotFound => ErrAPI (NotFound "Stored file not found.")
  | ErrStorageUpstream | ErrStorageInvalidResponse =>
      ErrAPI (NewError StatusBadGateway CodeStorageUnavailable
                "File storage returned an invalid response.")
  | _ => err
  end.

Definition is_storage_not_found (err : goerr) : bool :=
  match err with
  | ErrStorageNotFound => true
  | _ => false
  end.

(** [errors.Is(err, store.ErrNotFound)] turned into another error. *)
Definition if_not_found (e' : goerr) (err : goerr) : goerr :=
  if store.is_not_found err then e' else err.

Definition conflict (code msg : string) : goerr := ErrAPI (NewError StatusConflict code msg).

(** ** Operations *)

Section service.
Context {X : External Db} {S : Storage} {T : MimeTables} (sv : UploadConfig).

Definition validateDevice (ownerID : UUID) (deviceID : string) : M unit :=
  _ ← lift (validateDeviceID deviceID);
  device ← store.map_err
             (if_not_found (ErrAPI (Forbidden "Device does not belong to the authenticated user.")))
             (store.GetDeviceForOwner Pool deviceID ownerID);
  match store.Dev_RevokedAt device with
  | Some _ => fail (ErrAPI (NewError StatusForbidden CodeDeviceRevoked "Device has been revoked."))
  | None => mret tt
  end.

Definition upload_path (noteID blockID uploadID : UUID) (contentType : string) : string :=
  "notes/" ++ uuid_text noteID ++ "/blocks/" ++ uuid_text blockID ++ "/uploads/"
  ++ uuid_text uploadID ++ "." ++ extensionForContentType contentType.

(** Asks the storage for the authorization of a stored row; a refusal is
    recorded on the row, whatever comes of that. *)
Definition authorize (ownerID : UUID) (entity : FileUpload) : M InitiateResponse :=
  signed ← attempt (CreateSignedUploadURL (Up_StorageBucket entity) (Up_StoragePath entity));
  match signed with
  | Err e =>
      _ ← attempt (MarkFileUploadFailed Pool (Up_ID entity) ownerID "storage authorization failed");
      fail (storageAPIError e)
  | Ok signed =>
      mret (mkInitiateResponse (Up_ID entity) (Up_Cursor entity) StatusPending
              (Up_StorageBucket entity) (Up_StoragePath entity) (Up_ContentType entity)
              (SU_URL signed) (SU_Token signed) (Up_ExpiresAt entity))
  end.

(** The row to insert. *)
Definition pending_entity (ownerID uploadID : UUID) (request : InitiateRequest) (expiresAt : Time)
    : FileUpload :=
  let contentType := normalizedContentType (IR_ContentType request) in
  mkFileUpload uploadID (IR_NoteID request) ownerID (IR_BlockID request) 0 (IR_DeviceID request)
    (trim_space (IR_Filename request)) (uc_bucket sv)
    (upload_path (IR_NoteID request) (IR_BlockID request) uploadID contentType)
    contentType (IR_Size request) None None StatusPending None expiresAt None zero_time zero_time.

Definition Initiate (ownerID : UUID) (request : InitiateRequest) : M InitiateResponse :=
  _ ← lift (validateRequest request (uc_maxFileSize sv) (uc_allowedMIMETypes sv));
  _ ← validateDevice ownerID (IR_DeviceID request);
  _ ← store.map_err (if_not_found (ErrAPI (NotFound "Note or block not found.")))
        (store.ValidateUploadTarget Pool (IR_NoteID request) (IR_BlockID request) ownerID);
  pendingCount ← CountPendingFileUploads Pool ownerID;
  if uc_maxPending sv <=? pendingCount
  then fail (ErrAPI (NewError StatusTooManyRequests CodeRateLimited
         "Too many pending uploads. Complete or delete an existing upload first."))
  else
    uploadID ← uuidNew;
    now ← timeNow;
    entity ← CreateFileUpload Pool (pending_entity ownerID uploadID request (now + uc_uploadTTL sv));
    authorize ownerID entity.

(** The failure is recorded, whatever comes of that. *)
Definition rejectMetadata {A} (entity : FileUpload) (msg : string) : M A :=
  _ ← attempt (MarkFileUploadFailed Pool (Up_ID entity) (Up_OwnerID entity)
                 (to_lower (trim_suffix msg ".")));
  fail (ErrAPI (NewError StatusUnprocessableEntity CodeUploadInvalid msg)).

(** The conditional update after the metadata was verified; when another
    request won, its result is read back. *)
Definition finish_complete (ownerID : UUID) (entity : FileUpload) (size : Z) (ctype : string)
    : M UploadResponse :=
  r ← attempt (CompleteFileUpload Pool (Up_ID entity) ownerID size ctype);
  match r with
  | Ok completed => mret (responseFromEntity completed)
  | Err e =>
      if negb (store.is_not_found e) then fail e
      else
        latest ← store.map_err (mapRepositoryError "Upload not found.")
                   (GetFileUploadForOwner Pool (Up_ID entity) ownerID);
        if String.eqb (Up_Status latest) StatusCompleted then mret (responseFromEntity latest)
        else fail (conflict CodeConflict "Upload completion is already being finalized.")
  end.

(** Compares the stored object with the row and finishes or rejects. *)
Definition verify_complete (ownerID : UUID) (entity : FileUpload) : M UploadResponse :=
  r ← attempt (GetObjectInfo (Up_StorageBucket entity) (Up_StoragePath entity));
  match r with
  | Err e =>
      if is_storage_not_found e
      then fail (conflict CodeUploadNotReady "The uploaded object is not ready yet.")
      else fail (storageAPIError e)
  | Ok info =>
      if negb (OI_Size info =? Up_ExpectedSize entity)
      then rejectMetadata entity "The stored file size does not match the declared size."
      else
        let verified := normalizedContentType (OI_ContentType info) in
        if String.eqb verified EmptyString || negb (String.eqb verified (Up_ContentType entity))
        then rejectMetadata entity "The stored file type does not match the declared type."
        else finish_complete ownerID entity (OI_Size info) verified
  end.

Definition Complete (ownerID uploadID : UUID) : M UploadResponse :=
  entity ← store.map_err (mapRepositoryError "Upload not found.")
             (GetFileUploadForOwner Pool uploadID ownerID);
  if String.eqb (Up_Status entity) StatusCompleted then mret (responseFromEntity entity)
  else if negb (String.eqb (Up_Status entity) StatusPending)
  then fail (conflict CodeConflict "Upload is no longer pending.")
  else
    now ← timeNow;
    if Up_ExpiresAt entity <? now
    then fail (conflict CodeUploadNotReady "The upload authorization has expired.")
    else
      _ ← store.map_err
            (if_not_found (ErrAPI (Forbidden "You no longer have access to this note or block.")))
            (store.ValidateUploadTarget Pool (Up_NoteID entity) (Up_BlockID entity) ownerID);
      verify_complete ownerID entity.

Definition Get (ownerID uploadID : UUID) : M UploadResponse :=
  entity ← store.map_err (mapRepositoryError "Upload not found.")
             (GetFileUploadForOwner Pool uploadID ownerID);
  mret (responseFromEntity entity).

(** [int(s.downloadTTL/time.Second)]. *)
Definition download_seconds : Z := Z.quot (uc_downloadTTL sv) (10 ^ 9).

(** The signed link of an entity. *)
Definition download_link (entity : FileUpload) : M DownloadURLResponse :=
  urlValue ← CreateSignedDownloadURL (Up_StorageBucket entity) (Up_StoragePath entity)
               download_seconds;
  now ← timeNow;
  mret (mkDownloadURLResponse (Up_Cursor entity) (Up_NoteID entity) (Up_BlockID entity)
          (Up_ID entity) urlValue (now + uc_downloadTTL sv)).

Definition DownloadURL (ownerID blockID : UUID) : M DownloadURLResponse :=
  entity ← store.map_err (mapRepositoryError "Upload not found.")
             (GetFileUploadForBlockForOwner Pool blockID ownerID);
  if negb (String.eqb (Up_Status entity) StatusCompleted)
  then fail (conflict CodeConflict "Only completed uploads can be downloaded.")
  else
    _ ← store.map_err
          (if_not_found (ErrAPI (Forbidden "You do not have access to this note or block.")))
          (store.ValidateUploadTarget Pool (Up_NoteID entity) (Up_BlockID entity) ownerID);
    store.map_err storageAPIError (download_link entity).

(** The loop over the feed: links so far and the cursor consumed. *)
Fixpoint download_links (ownerID : UUID) (deviceID : string) (entities : list FileUpload)
    (links : list DownloadURLResponse) (next : Z) : M DownloadLinksResponse :=
  match entities with
  | [] => mret (mkDownloadLinksResponse links next)
  | entity :: rest =>
      let next := Up_Cursor entity in
      if String.eqb (Up_DeviceID entity) deviceID
         || negb (String.eqb (Up_Status entity) StatusCompleted)
      then download_links ownerID deviceID rest links next
      else
        target ← attempt (store.ValidateUploadTarget Pool (Up_NoteID entity) (Up_BlockID entity)
                            ownerID);
        match target with
        | Err _ => download_links ownerID deviceID rest links next
        | Ok _ =>
            link ← attempt (download_link entity);
            match link with
            | Err _ => download_links ownerID deviceID rest links next
            | Ok link => download_links ownerID deviceID rest (links ++ [link]) next
            end
        end
  end.

Definition DownloadURLs (ownerID : UUID) (deviceID : string) (cursor : Z)
    : M DownloadLinksResponse :=
  _ ← lift (validateCursor cursor);
  _ ← validateDevice ownerID deviceID;
  entities ← ListFileUploadsAfterCursor Pool ownerID cursor;
  download_links ownerID deviceID entities [] cursor.

(** After a refused conditional update: the row as it stands if it is deleted,
    otherwise the error of the update.  [id] is the identifier re-read. *)
Definition deleted_or (ownerID id : UUID) (err : goerr) : M UploadResponse :=
  if store.is_not_found err then
    latest ← attempt (GetFileUploadForOwner Pool id ownerID);
    match latest with
    | Ok latest => if String.eqb (Up_Status latest) StatusDeleted
                   then mret (responseFromEntity latest) else fail err
    | Err _ => fail err
    end
  else fail err.

(** A missing object is the desired state already. *)
Definition object_gone (removed : res unit) : res unit :=
  match removed with
  | Err e => if is_storage_not_found e then Ok tt else Err (storageAPIError e)
  | Ok _ => Ok tt
  end.

(** Removes the object of a cancelled row and records the deletion. *)
Definition finish_delete (ownerID : UUID) (entity : FileUpload) : M UploadResponse :=
  removed ← attempt (DeleteObject (Up_StorageBucket entity) (Up_StoragePath entity));
  _ ← lift (object_gone removed);
  r ← attempt (MarkFileUploadDeleted Pool (Up_ID entity) ownerID);
  match r with
  | Ok deleted => mret (responseFromEntity deleted)
  | Err e => deleted_or ownerID (Up_ID entity) e
  end.

(** The variable [entity] is assigned by the cancelling call also when that
    call fails: the identifier read back then is that of the zero row. *)
Definition Delete (ownerID uploadID : UUID) : M UploadResponse :=
  entity ← store.map_err (mapRepositoryError "Upload not found.")
             (GetFileUploadForOwner Pool uploadID ownerID);
  if String.eqb (Up_Status entity) StatusDeleted then mret (responseFromEntity entity)
  else
    r ← attempt (MarkFileUploadCancelled Pool (Up_ID entity) ownerID);
    match r with
    | Err e => deleted_or ownerID (Up_ID zero_upload) e
    | Ok entity => finish_delete ownerID entity
    end.

End service.
