(* ===== verification/Cleanup.v ===== *)
(** * Reconciling abandoned uploads

    [internal/jobs/cleanup.go]: a page of uploads that stayed pending past
    their expiry and a grace period is checked against the object storage;
    each is completed, or removed and marked expired. *)

From S2P Require Import Prelude GoText Json HttpApi Constants External Schema Queries Store.
From S2P Require Import GoMime UploadStore Storage UploadService.

Import ustore.

Definition normalizedType (value : string) : string :=
  match ParseMediaType (trim_space value) with
  | None => to_lower (trim_space value)
  | Some mediaType => to_lower mediaType
  end.

Definition joinFirst (first next : option goerr) : option goerr :=
  match first with
  | Some _ => first
  | None => next
  end.

Section cleaner.
Context {X : External Db} {S : Storage}.

(** The error of a conditional update, unless another process was first. *)
Definition update_error {A} (r : res A) : option goerr :=
  match r with
  | Ok _ => None
  | Err e => if store.is_not_found e then None else Some e
  end.

(** The error of removing an object, unless there was none. *)
Definition delete_error (removed : res unit) : option goerr :=
  match removed with
  | Ok _ => None
  | Err e => if is_storage_not_found e then None else Some e
  end.

(** One upload of the page; the result is the error to remember. *)
Definition clean_upload (upload : FileUpload) : M (option goerr) :=
  info ← attempt (GetObjectInfo (Up_StorageBucket upload) (Up_StoragePath upload));
  match info with
  | Ok info =>
      if (OI_Size info =? Up_ExpectedSize upload)
         && String.eqb (normalizedType (OI_ContentType info)) (normalizedType (Up_ContentType upload))
      then
        r ← attempt (CompleteFileUpload Pool (Up_ID upload) (Up_OwnerID upload) (OI_Size info)
                       (normalizedType (OI_ContentType info)));
        mret (update_error r)
      else
        removed ← attempt (DeleteObject (Up_StorageBucket upload) (Up_StoragePath upload));
        match delete_error removed with
        | Some e => mret (Some e)
        | None =>
            r ← attempt (MarkFileUploadExpired Pool (Up_ID upload)
                           "expired upload metadata did not match");
            mret (update_error r)
        end
  | Err e =>
      if is_storage_not_found e then
        r ← attempt (MarkFileUploadExpired Pool (Up_ID upload)
                       "upload authorization expired before an object was stored");
        mret (update_error r)
      else mret (Some e)
  end.

Fixpoint clean_uploads (uploads : list FileUpload) (firstErr : option goerr) : M (option goerr) :=
  match uploads with
  | [] => mret firstErr
  | upload :: rest =>
      e ← clean_upload upload;
      clean_uploads rest (joinFirst firstErr e)
  end.

Definition RunOnce (grace : Z) : M unit :=
  now ← timeNow;
  uploads ← ListExpiredFileUploads Pool (now - grace) 100;
  firstErr ← clean_uploads uploads None;
  match firstErr with
  | Some e => fail e
  | None => mret tt
  end.

End cleaner.
