(* ===== verification/Snapshots.v ===== *)
(** * Note snapshots

    [internal/jobs/snapshots.go]: the document stored for a note, its text and
    checksum, and the transaction that writes it. *)

From S2P Require Import Prelude GoText GoFloat Json GoJsonText GoSha256 HttpApi External GoTime.
From S2P Require Import Schema Queries Store.

Definition SnapshotFormatV1 : string := "note-snapshot-v1".

Record SnapshotNote := mkSnapshotNote {
  SN_ID : UUID; SN_Title : string; SN_NoteProperties : RawMessage; SN_Version : Z;
  SN_DeletedAt : option string
}.

Record SnapshotBlock := mkSnapshotBlock {
  SB_ID : UUID; SB_Type : string; SB_Text : string; SB_Position : string;
  SB_BlockProperties : RawMessage; SB_DeletedAt : option string
}.

Record SnapshotDocument := mkSnapshotDocument {
  SD_SchemaVersion : Z; SD_LastAppliedCursor : Z; SD_Note : SnapshotNote;
  SD_Blocks : list SnapshotBlock
}.

Section snapshots.
Context {X : External Db} {L : LocalZone}.

(** [formatTimePtr] of [store.TimePtr]. *)
Definition formatTimePtr (value : option Time) : option string := format_rfc3339_nano <$> value.

Definition SnapshotBlock_FromEntity (entity : store.NoteBlock) : res SnapshotBlock :=
  if is_nil (store.Block_ID entity) || is_nil (store.Block_NoteID entity)
  then Err (errorsNew "snapshot block must contain valid identifiers")
  else Ok (mkSnapshotBlock (store.Block_ID entity) (store.Block_BlockType entity)
             (store.Block_TextContent entity) (store.Block_Position entity)
             (store.NormalizeJSON (store.Block_BlockProperties entity))
             (formatTimePtr (store.Block_DeletedAt entity))).

(** The loop over the blocks of a document. *)
Fixpoint snapshot_blocks (noteID : UUID) (entities : list store.NoteBlock)
    : res (list SnapshotBlock) :=
  match entities with
  | [] => Ok []
  | entity :: rest =>
      if negb (N.eqb (store.Block_NoteID entity) noteID)
      then Err (errorsNew "snapshot block does not belong to snapshot note")
      else
        block ← SnapshotBlock_FromEntity entity;
        blocks ← snapshot_blocks noteID rest;
        Ok (block :: blocks)
  end.

Definition SnapshotDocument_FromEntity (doc : store.NoteDocument) : res SnapshotDocument :=
  let note := store.Doc_Note doc in
  if is_nil (store.Note_ID note) || is_nil (store.Note_OwnerID note)
  then Err (errorsNew "snapshot note must contain valid identifiers")
  else
    blocks ← snapshot_blocks (store.Note_ID note) (store.Doc_Blocks doc);
    Ok (mkSnapshotDocument 1 (store.Doc_LastAppliedCursor doc)
          (mkSnapshotNote (store.Note_ID note) (store.Note_Title note)
             (store.NormalizeJSON (store.Note_NoteProperties note))
             (store.Note_CurrentVersion note) (formatTimePtr (store.Note_DeletedAt note)))
          blocks).

(** [json.Marshal], member by member in the order of the struct's fields; an
    empty [json.RawMessage] is written as [null]. *)
Definition marshal_snapshot_block (b : SnapshotBlock) : json :=
  JObj [("id", JStr (uuid_text (SB_ID b))); ("type", marshal_string (SB_Type b));
        ("text", marshal_string (SB_Text b)); ("position", marshal_string (SB_Position b));
        ("blockProperties", default JNull (SB_BlockProperties b));
        ("deletedAt", nullable (SB_DeletedAt b))]%string.

Definition marshal_snapshot_note (n : SnapshotNote) : json :=
  JObj [("id", JStr (uuid_text (SN_ID n))); ("title", marshal_string (SN_Title n));
        ("noteProperties", default JNull (SN_NoteProperties n));
        ("version", JNum (format_int (SN_Version n)));
        ("deletedAt", nullable (SN_DeletedAt n))]%string.

Definition marshal_snapshot (doc : SnapshotDocument) : json :=
  JObj [("schemaVersion", JNum (format_int (SD_SchemaVersion doc)));
        ("lastAppliedCursor", JNum (format_int (SD_LastAppliedCursor doc)));
        ("note", marshal_snapshot_note (SD_Note doc));
        ("blocks", JArr (map marshal_snapshot_block (SD_Blocks doc)))]%string.

(** The document and the checksum of its text. *)
Definition EncodeSnapshot (doc : SnapshotDocument) : json * string :=
  let encoded := marshal_snapshot doc in
  (encoded, hex_encode (Sum256 (json_text encoded))).

Definition CreateSnapshot (tx : Store) (payload : store.SnapshotJobPayload) : M store.NoteSnapshot :=
  doc ← store.GetNoteDocument tx (store.SJP_NoteID payload) (store.SJP_OwnerID payload);
  let note := store.Doc_Note doc in
  if store.Note_CurrentVersion note <? store.SJP_ExpectedVersion payload
  then fail (errorsNew "note version is behind snapshot job expectation")
  else
    snapshotDoc ← lift (SnapshotDocument_FromEntity doc);
    let '(encoded, checksum) := EncodeSnapshot snapshotDoc in
    id ← uuidNew;
    store.InsertSnapshot tx
      (store.mkNoteSnapshot id (store.Note_ID note) (store.Note_OwnerID note)
         (store.Note_CurrentVersion note) (store.Doc_LastAppliedCursor doc) SnapshotFormatV1 1
         (Some encoded) checksum zero_time).

End snapshots.

Arguments EncodeSnapshot : simpl never.
Arguments marshal_snapshot : simpl never.
