(* ===== verification/Worker.v ===== *)
(** * The background worker

    [internal/jobs/worker.go]: claims jobs of the outbox one at a time, runs
    them, and records success or a retry; between jobs it reconciles uploads. *)

From S2P Require Import Prelude GoText GoFloat Json HttpApi External GoTime Schema Queries Store.
From S2P Require Import Storage Cleanup Snapshots.

(** Durations are in nanoseconds.  The cleaner is the grace period it runs
    with; the zero time of [lastCleanup] says that none has run. *)
Record Worker := mkWorker {
  wk_workerID : string; wk_lockTimeout : Z; wk_cleaner : option Z; wk_lastCleanup : Time
}.

(** Two's-complement products, as [time.Duration] computes them. *)
Definition retryDelay (attempts : Z) : Z :=
  if attempts <? 1 then second
  else
    let delay := wrap64 (wrap64 (attempts * 5) * second) in
    if 60 * second <? delay then 60 * second else delay.

Section worker.
Context {X : External Db} {S : Storage} {L : LocalZone}.

Definition NewWorker (workerID : string) : M Worker :=
  id ← (if String.eqb workerID EmptyString
        then u ← uuidNew; mret ("worker-" ++ uuid_text u)%string
        else mret workerID);
  mret (mkWorker id (120 * second) None zero_time).

Definition SetCleaner (w : Worker) (grace : Z) : Worker :=
  mkWorker (wk_workerID w) (wk_lockTimeout w) (Some grace) (wk_lastCleanup w).

Definition payload_fields : list (struct_field store.SnapshotJobPayload) :=
  [("noteId", store_field unmarshal_uuid
      (fun u p => store.mkSnapshotJobPayload u (store.SJP_OwnerID p) (store.SJP_ExpectedVersion p)));
   ("ownerId", store_field unmarshal_uuid
      (fun u p => store.mkSnapshotJobPayload (store.SJP_NoteID p) u (store.SJP_ExpectedVersion p)));
   ("expectedVersion", store_field unmarshal_int
      (fun v p => store.mkSnapshotJobPayload (store.SJP_NoteID p) (store.SJP_OwnerID p) v))]%string.

Definition zero_payload : store.SnapshotJobPayload :=
  store.mkSnapshotJobPayload uuid_Nil uuid_Nil 0.

(** [json.Unmarshal(job.Payload, &payload)]. *)
Definition decode_payload (payload : RawMessage) : option store.SnapshotJobPayload :=
  payload ≫= unmarshal_struct payload_fields zero_payload.

Definition processJob (job : store.OutboxJob) : M unit :=
  if String.eqb (store.Job_JobType job) store.JobCreateSnapshot then
    match decode_payload (store.Job_Payload job) with
    | None => fail ErrJSON
    | Some payload => WithTx Pool (fun tx => _ ← CreateSnapshot tx payload; mret tt)
    end
  else fail (errorsNew "unsupported outbox job type").

(** Records a failed job; both errors are returned when that fails too. *)
Definition record_failure (job : store.OutboxJob) (err : goerr) : M (bool * list goerr) :=
  failed ← attempt (store.FailOutboxJob Pool (store.Job_ID job) (error_text err)
                      (retryDelay (store.Job_Attempts job)));
  match failed with
  | Err failErr => mret (true, [err; failErr])
  | Ok _ => mret (true, [err])
  end.

(** The boolean tells whether a job was claimed; the errors joined into the
    returned error are a list, empty for [nil]. *)
Definition ProcessOnce (wk : Worker) : M (bool * list goerr) :=
  claimed ← attempt (store.ClaimOutboxJob Pool (wk_workerID wk) (wk_lockTimeout wk));
  match claimed with
  | Err e => mret (false, if store.is_not_found e then [] else [e])
  | Ok job =>
      processed ← attempt (processJob job);
      match processed with
      | Err e => record_failure job e
      | Ok _ =>
          completed ← attempt (store.CompleteOutboxJob Pool (store.Job_ID job));
          match completed with
          | Err e => mret (true, [e])
          | Ok _ => mret (true, [])
          end
      end
  end.

(** Whether five minutes have passed; the clock is read only after a first
    cleanup.  An error of the cleanup is only logged. *)
Definition cleanup_due (wk : Worker) : M bool :=
  if wk_lastCleanup wk =? zero_time then mret true
  else now ← timeNow; mret (negb (now - wk_lastCleanup wk <? 300 * second)).

Definition maybeCleanup (wk : Worker) : M Worker :=
  match wk_cleaner wk with
  | None => mret wk
  | Some grace =>
      due ← cleanup_due wk;
      if (due : bool) then
        now ← timeNow;
        _ ← attempt (RunOnce grace);
        mret (mkWorker (wk_workerID wk) (wk_lockTimeout wk) (wk_cleaner wk) now)
      else mret wk
  end.

(** The loop of [Run], one iteration per element: whether the context is
    cancelled while the iteration waits for the next tick.  At the end of the
    list the context is found cancelled at the top of the loop.  The error is
    the context's, [context.Canceled]. *)
Fixpoint Run (cancelled : list bool) (wk : Worker) : M (Worker * goerr) :=
  match cancelled with
  | [] => mret (wk, ErrCanceled)
  | stop :: rest =>
      r ← ProcessOnce wk;
      if negb (fst r) && stop then mret (wk, ErrCanceled)
      else wk' ← maybeCleanup wk; Run rest wk'
  end.

End worker.
