(* ===== verification/Devices.v ===== *)
(** * Devices

    [internal/devices]: registering a device, listing the devices of an owner
    and revoking one. *)

From S2P Require Import Prelude GoText Json HttpApi Constants External Schema Queries Store.

(** ** Requests and responses ([types.go]) *)

Record RegisterDeviceRequest := mkRegisterDeviceRequest {
  RDR_DeviceID : string; RDR_DeviceName : option string; RDR_Platform : option string;
  RDR_AppVersion : option string; RDR_ProtocolVersion : Z
}.

Record DeviceResponse := mkDeviceResponse {
  DR_ID : string; DR_DeviceName : option string; DR_Platform : option string;
  DR_AppVersion : option string; DR_ProtocolVersion : Z; DR_LastGlobalCursor : Z;
  DR_LastSeenAt : Time; DR_CreatedAt : Time; DR_RevokedAt : option Time
}.

(** ** The model between them ([models.go]) *)

Record Device := mkDevice {
  Device_ID : string; Device_OwnerID : UUID; Device_DeviceName : option string;
  Device_Platform : option string; Device_AppVersion : option string;
  Device_ProtocolVersion : Z; Device_LastGlobalCursor : Z; Device_LastSeenAt : Time;
  Device_CreatedAt : Time; Device_RevokedAt : option Time
}.

Definition unsupported_protocol : goerr :=
  ErrAPI (NewError StatusBadRequest CodeUnsupportedProtocol
            "The requested sync protocol is not supported.").

(** The checks on a device identifier that [FromRequest] and [Revoke] share. *)
Definition check_device_id (id : string) : res unit :=
  if String.eqb id EmptyString
  then Err (ErrAPI (InvalidRequest (RequestKeyDeviceID ++ " is required.")))
  else if negb (ValidDeviceID id)
  then Err (ErrAPI (InvalidRequest (RequestKeyDeviceID ++ " must be 30 characters or fewer.")))
  else Ok tt.

(** The fields a request does not set keep their zero values. *)
Definition Device_FromRequest (req : RegisterDeviceRequest) : res Device :=
  _ ← check_device_id (RDR_DeviceID req);
  let protocolVersion := if RDR_ProtocolVersion req =? 0 then 1 else RDR_ProtocolVersion req in
  if negb (protocolVersion =? 1) then Err unsupported_protocol
  else Ok (mkDevice (RDR_DeviceID req) uuid_Nil (RDR_DeviceName req) (RDR_Platform req)
             (RDR_AppVersion req) protocolVersion 0 zero_time zero_time None).

Definition Device_FromEntity (entity : store.SyncDevice) : res Device :=
  if negb (ValidDeviceID (store.Dev_ID entity)) || is_nil (store.Dev_OwnerID entity)
  then Err (errorsNew "device entity must contain valid identifiers")
  else if negb (store.Dev_ProtocolVersion entity =? 1)
  then Err (errorsNew "device entity has an unsupported protocol version")
  else Ok (mkDevice (store.Dev_ID entity) (store.Dev_OwnerID entity) (store.Dev_DeviceName entity)
             (store.Dev_Platform entity) (store.Dev_AppVersion entity)
             (store.Dev_ProtocolVersion entity) (store.Dev_LastGlobalCursor entity)
             (store.Dev_LastSeenAt entity) (store.Dev_CreatedAt entity)
             (store.Dev_RevokedAt entity)).

Definition Device_Entity (m : Device) (ownerID : UUID) : res store.CreateDeviceParams :=
  if is_nil ownerID || negb (ValidDeviceID (Device_ID m))
  then Err (ErrAPI (InvalidRequest "device identifiers are required."))
  else if negb (Device_ProtocolVersion m =? 1) then Err unsupported_protocol
  else Ok (store.mkCreateDeviceParams (Device_ID m) ownerID (Device_DeviceName m)
             (Device_Platform m) (Device_AppVersion m) (Device_ProtocolVersion m)).

Definition Device_Response (m : Device) : DeviceResponse :=
  mkDeviceResponse (Device_ID m) (Device_DeviceName m) (Device_Platform m) (Device_AppVersion m)
    (Device_ProtocolVersion m) (Device_LastGlobalCursor m) (Device_LastSeenAt m)
    (Device_CreatedAt m) (Device_RevokedAt m).

Definition DeviceResponse_FromEntity (entity : store.SyncDevice) : res DeviceResponse :=
  model ← Device_FromEntity entity;
  Ok (Device_Response model).

(** The first entity that does not convert fails the list. *)
Fixpoint ListDevicesResponse_FromEntities (entities : list store.SyncDevice)
    : res (list DeviceResponse) :=
  match entities with
  | [] => Ok []
  | entity :: rest =>
      response ← DeviceResponse_FromEntity entity;
      responses ← ListDevicesResponse_FromEntities rest;
      Ok (response :: responses)
  end.

(** ** The service ([service.go]) *)

Section service.
Context {X : External Db}.

Definition Register (ownerID : UUID) (req : RegisterDeviceRequest) : M DeviceResponse :=
  model ← lift (Device_FromRequest req);
  params ← lift (Device_Entity model ownerID);
  device ← store.CreateDevice Pool params;
  lift (DeviceResponse_FromEntity device).

Definition List (ownerID : UUID) : M (list DeviceResponse) :=
  devices ← store.ListDevices Pool ownerID;
  lift (ListDevicesResponse_FromEntities devices).

Definition Revoke (ownerID : UUID) (deviceID : string) : M unit :=
  _ ← lift (check_device_id deviceID);
  store.map_err (fun e => if store.is_not_found e then ErrAPI (NotFound "Device not found.") else e)
    (store.RevokeDevice Pool deviceID ownerID).

End service.
