(* ===== verification/NotesApi.v ===== *)
(** * Reading notes

    [internal/notes]: the note document and the latest snapshot, for the owner. *)

From S2P Require Import Prelude GoText Json HttpApi Constants External Schema Queries Store.

(** ** Responses ([types.go]) *)

Record BlockResponse := mkBlockResponse {
  BR_ID : UUID; BR_NoteID : UUID; BR_BlockType : string; BR_TextContent : string;
  BR_Position : string; BR_BlockProperties : RawMessage; BR_CreatedAt : Time;
  BR_UpdatedAt : Time; BR_DeletedAt : option Time
}.

Record NoteResponse := mkNoteResponse {
  NR_ID : UUID; NR_OwnerID : UUID; NR_Title : string; NR_NoteProperties : RawMessage;
  NR_CurrentVersion : Z; NR_CreatedAt : Time; NR_UpdatedAt : Time; NR_DeletedAt : option Time;
  NR_Blocks : list BlockResponse
}.

Record SnapshotResponse := mkSnapshotResponse {
  SR_ID : UUID; SR_NoteID : UUID; SR_OwnerID : UUID; SR_Version : Z; SR_LastAppliedCursor : Z;
  SR_SnapshotFormat : string; SR_SchemaVersion : Z; SR_SnapshotData : RawMessage;
  SR_Checksum : string; SR_CreatedAt : Time
}.

(** ** The models between them and the entities ([models.go]) *)

Record Block := mkBlock {
  Bl_ID : UUID; Bl_NoteID : UUID; Bl_BlockType : string; Bl_TextContent : string;
  Bl_Position : string; Bl_BlockProperties : RawMessage; Bl_CreatedAt : Time;
  Bl_UpdatedAt : Time; Bl_DeletedAt : option Time
}.

Record Note := mkNote {
  Nt_ID : UUID; Nt_OwnerID : UUID; Nt_Title : string; Nt_NoteProperties : RawMessage;
  Nt_CurrentVersion : Z; Nt_CreatedAt : Time; Nt_UpdatedAt : Time; Nt_DeletedAt : option Time;
  Nt_Blocks : list Block
}.

Definition Block_FromEntity (entity : store.NoteBlock) : res Block :=
  if is_nil (store.Block_ID entity) || is_nil (store.Block_NoteID entity)
  then Err (errorsNew "block entity must contain valid identifiers")
  else Ok (mkBlock (store.Block_ID entity) (store.Block_NoteID entity)
             (store.Block_BlockType entity) (store.Block_TextContent entity)
             (store.Block_Position entity)
             (store.NormalizeJSON (store.Block_BlockProperties entity))
             (store.Block_CreatedAt entity) (store.Block_UpdatedAt entity)
             (store.Block_DeletedAt entity)).

Definition Block_Entity (m : Block) : res store.NoteBlock :=
  if is_nil (Bl_ID m) || is_nil (Bl_NoteID m)
  then Err (errorsNew "block identifiers are required")
  else Ok (store.mkNoteBlock (Bl_ID m) (Bl_NoteID m) (Bl_BlockType m) (Bl_TextContent m)
             (Bl_Position m) (store.NormalizeJSON (Bl_BlockProperties m)) (Bl_CreatedAt m)
             (Bl_UpdatedAt m) (Bl_DeletedAt m)).

Definition Block_Response (m : Block) : BlockResponse :=
  mkBlockResponse (Bl_ID m) (Bl_NoteID m) (Bl_BlockType m) (Bl_TextContent m) (Bl_Position m)
    (store.NormalizeJSON (Bl_BlockProperties m)) (Bl_CreatedAt m) (Bl_UpdatedAt m)
    (Bl_DeletedAt m).

Definition BlockResponse_FromEntity (entity : store.NoteBlock) : res BlockResponse :=
  model ← Block_FromEntity entity;
  Ok (Block_Response model).

(** The loops over the blocks, which stop at the first that does not convert. *)
Fixpoint note_blocks_from (noteID : UUID) (entities : list store.NoteBlock) : res (list Block) :=
  match entities with
  | [] => Ok []
  | entity :: rest =>
      if negb (N.eqb (store.Block_NoteID entity) noteID)
      then Err (errorsNew "block entity does not belong to note entity")
      else
        block ← Block_FromEntity entity;
        blocks ← note_blocks_from noteID rest;
        Ok (block :: blocks)
  end.

Fixpoint note_blocks_to (noteID : UUID) (models : list Block) : res (list store.NoteBlock) :=
  match models with
  | [] => Ok []
  | model :: rest =>
      block ← Block_Entity model;
      if negb (N.eqb (store.Block_NoteID block) noteID)
      then Err (errorsNew "block model does not belong to note model")
      else
        blocks ← note_blocks_to noteID rest;
        Ok (block :: blocks)
  end.

Definition Note_FromEntity (entity : store.NoteDocument) : res Note :=
  let n := store.Doc_Note entity in
  if is_nil (store.Note_ID n) || is_nil (store.Note_OwnerID n)
  then Err (errorsNew "note entity must contain valid identifiers")
  else
    blocks ← note_blocks_from (store.Note_ID n) (store.Doc_Blocks entity);
    Ok (mkNote (store.Note_ID n) (store.Note_OwnerID n) (store.Note_Title n)
          (store.NormalizeJSON (store.Note_NoteProperties n)) (store.Note_CurrentVersion n)
          (store.Note_CreatedAt n) (store.Note_UpdatedAt n) (store.Note_DeletedAt n) blocks).

(** The cursor of the document is left at zero. *)
Definition Note_Entity (m : Note) : res store.NoteDocument :=
  if is_nil (Nt_ID m) || is_nil (Nt_OwnerID m)
  then Err (errorsNew "note identifiers are required")
  else
    blocks ← note_blocks_to (Nt_ID m) (Nt_Blocks m);
    Ok (store.mkNoteDocument
          (store.mkNote (Nt_ID m) (Nt_OwnerID m) (Nt_Title m)
             (store.NormalizeJSON (Nt_NoteProperties m)) (Nt_CurrentVersion m) (Nt_CreatedAt m)
             (Nt_UpdatedAt m) (Nt_DeletedAt m))
          blocks 0).

Definition Note_Response (m : Note) : NoteResponse :=
  mkNoteResponse (Nt_ID m) (Nt_OwnerID m) (Nt_Title m) (store.NormalizeJSON (Nt_NoteProperties m))
    (Nt_CurrentVersion m) (Nt_CreatedAt m) (Nt_UpdatedAt m) (Nt_DeletedAt m)
    (map Block_Response (Nt_Blocks m)).

Definition NoteResponse_FromEntity (entity : store.NoteDocument) : res NoteResponse :=
  model ← Note_FromEntity entity;
  Ok (Note_Response model).

Definition SnapshotResponse_FromEntity (entity : store.NoteSnapshot) : res SnapshotResponse :=
  if is_nil (store.Snap_ID entity) || is_nil (store.Snap_NoteID entity)
     || is_nil (store.Snap_OwnerID entity)
  then Err (errorsNew "snapshot entity must contain valid identifiers")
  else Ok (mkSnapshotResponse (store.Snap_ID entity) (store.Snap_NoteID entity)
             (store.Snap_OwnerID entity) (store.Snap_Version entity)
             (store.Snap_LastAppliedCursor entity) (store.Snap_SnapshotFormat entity)
             (store.Snap_SchemaVersion entity) (store.NormalizeJSON (store.Snap_SnapshotData entity))
             (store.Snap_Checksum entity) (store.Snap_CreatedAt entity)).

(** ** The service ([service.go]) *)

Section service.
Context {X : External Db}.

(** [errors.Is(err, store.ErrNotFound)] turned into an API error. *)
Definition or_not_found (msg : string) (e : goerr) : goerr :=
  if store.is_not_found e then ErrAPI (NotFound msg) else e.

Definition Get (ownerID noteID : UUID) : M NoteResponse :=
  doc ← store.map_err (or_not_found "Note not found.") (store.GetNoteDocument Pool noteID ownerID);
  lift (NoteResponse_FromEntity doc).

Definition LatestSnapshot (ownerID noteID : UUID) : M SnapshotResponse :=
  snapshot ← store.map_err (or_not_found "Snapshot not found.")
               (store.GetLatestSnapshotForNote Pool noteID ownerID);
  lift (SnapshotResponse_FromEntity snapshot).

End service.
