(* ===== verification/RealtimeHandler.v ===== *)
(** * Admitting a socket

    [internal/realtime/handler.go]: the checks of [ServeHTTP] before the
    upgrade.  The upgrade itself is done by the socket library. *)

From S2P Require Import Prelude GoText Json HttpApi Constants External Schema Queries Store.

Section handler.
Context {X : External Db}.

(** The identity a socket is opened for; [userID] is the one the middleware
    found, if any. *)
Definition ServeHTTP_admit (userID : option UUID) (deviceID : string) : M (UUID * string) :=
  match userID with
  | None => fail (ErrAPI Unauthorized)
  | Some userID =>
      if negb (ValidDeviceID deviceID)
      then fail (ErrAPI (InvalidRequest
             (RequestKeyDeviceID ++ " must be a registered device identifier.")))
      else
        device ← store.map_err
          (fun e => if store.is_not_found e
                    then ErrAPI (Forbidden "Device does not belong to the authenticated user.") else e)
          (store.GetDeviceForOwner Pool deviceID userID);
        match store.Dev_RevokedAt device with
        | Some _ => fail (ErrAPI (NewError StatusForbidden CodeDeviceRevoked
                                    "Device has been revoked."))
        | None => mret (userID, deviceID)
        end
  end.

End handler.
