(* ===== verification/DemoServices.v ===== *)
(** * Concrete services

    Executable choices for what the services take from outside: the object
    storage, the MIME tables and the time zone, for the examples. *)

From S2P Require Import Prelude GoText HttpApi Constants External GoTime Storage UploadService.
From S2P Require Import Worker.

(** A storage that has every object, and one that never answers. *)
Definition demo_storage : Storage := {|
  signed_upload := fun _ _ _ => Ok (mkSignedUpload "https://storage/upload" "token");
  object_info := fun _ _ _ => Ok (mkObjectInfo 10 "image/png");
  signed_download := fun _ _ path _ => Ok path;
  delete_object := fun _ _ _ => Ok tt
|}.

Definition idle_storage : Storage := {|
  signed_upload := fun _ _ _ => Err ErrStorageUnavailable;
  object_info := fun _ _ _ => Err ErrStorageUnavailable;
  signed_download := fun _ _ _ _ => Err ErrStorageUnavailable;
  delete_object := fun _ _ _ => Err ErrStorageUnavailable
|}.

Definition demo_mime : MimeTables := {| extensions_by_type := fun _ => None |}.

Definition utc : LocalZone := {| zone_offset := fun _ => 0 |}.

Definition demo_uploads : UploadConfig :=
  mkUploadConfig "files" 1000 ["image/*"]%string 3600 (60 * 10 ^ 9) 5.

Definition demo_worker : Worker := mkWorker "worker" (120 * second) (Some 0) zero_time.
