(* ===== verification/Config.v ===== *)
(** * Configuration

    [internal/config/config.go]: the settings of the processes, read from the
    environment after an optional [.env] file was put into it, with defaults
    and validation. *)

From S2P Require Import Prelude GoText HttpApi GoTime RealtimeMessage SyncService GoMime.
From S2P Require Import GoStrings UploadService Worker.

(** Durations are in nanoseconds. *)
Record Config := mkConfig {
  AppEnv : string; Port : string; WebSocketPort : string; LogLevel : string;
  DatabaseURL : string; MaxDBConnections : Z;
  JWTIssuer : string; JWTAudience : string; JWTJWKSURL : string;
  SyncMaxOperations : Z; SyncDefaultPullLimit : Z; SyncMaxPullLimit : Z;
  SnapshotChangeThreshold : Z; SnapshotByteThreshold : Z; ChangeRetentionDays : Z;
  RequestTimeout : Z; MaxCompressedRequestBytes : Z; MaxDecompressedRequestBytes : Z;
  SupabaseURL : string; SupabaseSecretKey : string; SupabaseStorageBucket : string;
  SupabaseStorageMaxFileSize : Z; SupabaseStorageAllowedMimeTypes : list string;
  SupabaseStorageMaxPendingUploads : Z; SupabaseStorageUploadTTL : Z;
  SupabaseStorageDownloadTTL : Z; SupabaseStorageCleanupGrace : Z;
  SupabaseStorageHTTPTimeout : Z
}.

(** ** The environment of the process ([os.Getenv], [os.Setenv]) *)

Definition Environ : Type := gmap string string.

Definition Getenv (env : Environ) (key : string) : string := default EmptyString (env !! key).

(** A name with ["="] or a NUL, an empty name, or a value with a NUL is an
    error and sets nothing. *)
Definition settable (key value : string) : bool :=
  negb (String.eqb key EmptyString) && negb (contains_any key [equals_sign; 0])
  && negb (contains_any value [0]).

Definition Setenv (env : Environ) (key value : string) : Environ :=
  if settable key value then <[key := value]> env else env.

Definition get (env : Environ) (key fallback : string) : string :=
  let value := trim_space (Getenv env key) in
  if String.eqb value EmptyString then fallback else value.

Definition getInt (env : Environ) (key : string) (fallback : Z) : Z :=
  let value := trim_space (Getenv env key) in
  if String.eqb value EmptyString then fallback
  else match parse_int64 value with
       | None => fallback
       | Some parsed => parsed
       end.

(** ["<key>"] in the environment, a number of seconds, as a [time.Duration]. *)
Definition getSeconds (env : Environ) (key : string) (fallback : Z) : Z :=
  wrap64 (getInt env key fallback * second).

Definition comma : Z := 44.

Definition getCSV (env : Environ) (key fallback : string) : list string :=
  let parts := map (fun part => to_lower (trim_space part)) (split (get env key fallback) comma) in
  List.filter (fun part => negb (String.eqb part EmptyString)) parts.

(** ** The [.env] file *)

Definition apostrophe : Z := 39.

(** What one line assigns. *)
Definition assignment (line : string) : option (string * string) :=
  let line := trim_space line in
  if String.eqb line EmptyString || has_prefix line "#" then None
  else
    '(key, value) ← cut line equals_sign;
    let key := trim_space key in
    let value := trim_char apostrophe (trim_char quote_byte (trim_space value)) in
    if String.eqb key EmptyString then None else Some (key, value).

Definition set_line (env : Environ) (line : string) : Environ :=
  match assignment line with
  | Some (key, value) => Setenv env key value
  | None => env
  end.

(** [file] is the content, [None] when it cannot be opened. *)
Definition loadDotEnv (env : Environ) (file : option string) : Environ * res unit :=
  match file with
  | None => (env, Err (errorsNew "open .env: no such file or directory"))
  | Some content =>
      let '(lines, long) := scan_lines (bytes_of content) in
      (foldl set_line env lines,
       if long then Err (errorsNew "bufio.Scanner: token too long") else Ok tt)
  end.

(** ** Validation *)

(** A Go map is ranged over in an order of its own. *)
Class MapOrder := {
  range_map : list (string * string) -> list (string * string);
  range_map_perm : forall entries, range_map entries ≡ₚ entries
}.

Definition required (c : Config) : list (string * string) :=
  [("DATABASE_URL", DatabaseURL c); ("JWT_ISSUER", JWTIssuer c);
   ("JWT_AUDIENCE", JWTAudience c); ("JWT_JWKS_URL", JWTJWKSURL c);
   ("SUPABASE_URL", SupabaseURL c); ("SUPABASE_SECRET_KEY", SupabaseSecretKey c);
   ("SUPABASE_STORAGE_BUCKET", SupabaseStorageBucket c)]%string.

Definition blank (value : string) : bool := String.eqb (trim_space value) EmptyString.

Definition missing {O : MapOrder} (c : Config) : list string :=
  map fst (List.filter (fun kv => blank kv.2) (range_map (required c))).

Definition Validate {O : MapOrder} (c : Config) : res unit :=
  if negb (bool_decide (missing c = []))
  then Err (errorsNew ("missing required environment variables: " ++ join (missing c) ", "))
  else if MaxDBConnections c <? 1
  then Err (errorsNew "MAX_DB_CONNECTIONS must be greater than zero")
  else if SyncMaxOperations c <? 1
  then Err (errorsNew "SYNC_MAX_OPERATIONS must be greater than zero")
  else if (SyncDefaultPullLimit c <? 1) || (SyncMaxPullLimit c <? SyncDefaultPullLimit c)
  then Err (errorsNew "sync pull limits are invalid")
  else if RequestTimeout c <=? 0
  then Err (errorsNew "REQUEST_TIMEOUT_SECONDS must be greater than zero")
  else if (MaxCompressedRequestBytes c <=? 0) || (MaxDecompressedRequestBytes c <=? 0)
  then Err (errorsNew "request byte limits must be greater than zero")
  else if SupabaseStorageMaxFileSize c <=? 0
  then Err (errorsNew "SUPABASE_STORAGE_MAX_FILE_SIZE must be greater than zero")
  else if contains_any (SupabaseStorageBucket c) [slash; backslash]
  then Err (errorsNew "SUPABASE_STORAGE_BUCKET must be a single bucket name")
  else if Z.of_nat (length (SupabaseStorageAllowedMimeTypes c)) =? 0
  then Err (errorsNew
         "SUPABASE_STORAGE_ALLOWED_MIME_TYPES must contain at least one MIME type")
  else if SupabaseStorageMaxPendingUploads c <=? 0
  then Err (errorsNew "SUPABASE_STORAGE_MAX_PENDING_UPLOADS must be greater than zero")
  else if (SupabaseStorageUploadTTL c <=? 0) || (2 * 3600 * second <? SupabaseStorageUploadTTL c)
  then Err (errorsNew "SUPABASE_STORAGE_UPLOAD_TTL_SECONDS must be between 1 and 7200")
  else if SupabaseStorageDownloadTTL c <=? 0
  then Err (errorsNew "SUPABASE_STORAGE_DOWNLOAD_TTL_SECONDS must be greater than zero")
  else if (SupabaseStorageCleanupGrace c <=? 0) || (SupabaseStorageHTTPTimeout c <=? 0)
  then Err (errorsNew "Supabase cleanup grace and HTTP timeout must be greater than zero")
  else Ok tt.

(** ** Loading *)

Definition settings (env : Environ) : Config := {|
  AppEnv := get env "APP_ENV" "development";
  Port := get env "PORT" "8080";
  WebSocketPort := get env "WEBSOCKET_PORT" "8082";
  LogLevel := get env "LOG_LEVEL" "info";
  DatabaseURL := Getenv env "DATABASE_URL";
  JWTIssuer := Getenv env "JWT_ISSUER";
  JWTAudience := Getenv env "JWT_AUDIENCE";
  JWTJWKSURL := Getenv env "JWT_JWKS_URL";
  MaxDBConnections := wrap32 (getInt env "MAX_DB_CONNECTIONS" 10);
  SyncMaxOperations := getInt env "SYNC_MAX_OPERATIONS" 500;
  SyncDefaultPullLimit := getInt env "SYNC_DEFAULT_PULL_LIMIT" 500;
  SyncMaxPullLimit := getInt env "SYNC_MAX_PULL_LIMIT" 1000;
  SnapshotChangeThreshold := getInt env "SNAPSHOT_CHANGE_THRESHOLD" 100;
  SnapshotByteThreshold := getInt env "SNAPSHOT_BYTE_THRESHOLD" 524288;
  ChangeRetentionDays := getInt env "CHANGE_RETENTION_DAYS" 30;
  RequestTimeout := getSeconds env "REQUEST_TIMEOUT_SECONDS" 30;
  MaxCompressedRequestBytes := getInt env "MAX_COMPRESSED_REQUEST_BYTES" (2 * 1024 * 1024);
  MaxDecompressedRequestBytes := getInt env "MAX_DECOMPRESSED_REQUEST_BYTES" (10 * 1024 * 1024);
  SupabaseURL := Getenv env "SUPABASE_URL";
  SupabaseSecretKey := Getenv env "SUPABASE_SECRET_KEY";
  SupabaseStorageBucket := get env "SUPABASE_STORAGE_BUCKET" "documents";
  SupabaseStorageMaxFileSize := getInt env "SUPABASE_STORAGE_MAX_FILE_SIZE" (10 * 1024 * 1024);
  SupabaseStorageAllowedMimeTypes := getCSV env "SUPABASE_STORAGE_ALLOWED_MIME_TYPES"
    "application/pdf,image/jpeg,image/png";
  SupabaseStorageMaxPendingUploads := getInt env "SUPABASE_STORAGE_MAX_PENDING_UPLOADS" 20;
  SupabaseStorageUploadTTL := getSeconds env "SUPABASE_STORAGE_UPLOAD_TTL_SECONDS" 7200;
  SupabaseStorageDownloadTTL := getSeconds env "SUPABASE_STORAGE_DOWNLOAD_TTL_SECONDS" 600;
  SupabaseStorageCleanupGrace := getSeconds env "SUPABASE_STORAGE_CLEANUP_GRACE_SECONDS" 3600;
  SupabaseStorageHTTPTimeout := getSeconds env "SUPABASE_STORAGE_HTTP_TIMEOUT_SECONDS" 15
|}%string.

(** The environment the process is left with, and the configuration. *)
Definition Load {O : MapOrder} (env : Environ) (file : option string) : Environ * res Config :=
  let env := fst (loadDotEnv env file) in
  let cfg := settings env in
  (env, _ ← Validate cfg; Ok cfg).

(** ** The services built from it ([sync/services/service.go],
    [uploads/service.go]): limits are converted to [int32] *)

Definition NewService (cfg : Config) (bus : option Publisher) : Service :=
  mkService (SyncMaxOperations cfg) (wrap32 (SyncDefaultPullLimit cfg))
    (wrap32 (SyncMaxPullLimit cfg)) (SnapshotChangeThreshold cfg) (SnapshotByteThreshold cfg) bus.

Definition NewUploadService (cfg : Config) : UploadConfig :=
  mkUploadConfig (SupabaseStorageBucket cfg) (SupabaseStorageMaxFileSize cfg)
    (SupabaseStorageAllowedMimeTypes cfg) (SupabaseStorageUploadTTL cfg)
    (SupabaseStorageDownloadTTL cfg) (SupabaseStorageMaxPendingUploads cfg).
