(* ===== verification/ConfigTheorems.v ===== *)
(** * What a loaded configuration guarantees

    Loading accepts exactly the settings within their bounds; within the range
    of [int32] the pull limits reach the sync service as configured. *)

From S2P Require Import Prelude GoText HttpApi GoTime RealtimeMessage SyncService SyncPull GoMime.
From S2P Require Import GoStrings UploadService Worker Config.

(** ** Definitions the statements use *)

Record valid_config (c : Config) : Prop := mkValid {
  vc_required : Forall (fun kv => trim_space kv.2 <> EmptyString) (required c);
  vc_connections : 1 <= MaxDBConnections c;
  vc_operations : 1 <= SyncMaxOperations c;
  vc_pull : 1 <= SyncDefaultPullLimit c <= SyncMaxPullLimit c;
  vc_timeout : 0 < RequestTimeout c;
  vc_compressed : 0 < MaxCompressedRequestBytes c;
  vc_decompressed : 0 < MaxDecompressedRequestBytes c;
  vc_file_size : 0 < SupabaseStorageMaxFileSize c;
  vc_bucket : Forall (fun b => b <> slash /\ b <> backslash) (bytes_of (SupabaseStorageBucket c));
  vc_types : SupabaseStorageAllowedMimeTypes c <> [];
  vc_pending : 0 < SupabaseStorageMaxPendingUploads c;
  vc_upload : 0 < SupabaseStorageUploadTTL c <= 7200 * second;
  vc_download : 0 < SupabaseStorageDownloadTTL c;
  vc_grace : 0 < SupabaseStorageCleanupGrace c;
  vc_http : 0 < SupabaseStorageHTTPTimeout c
}.

(** The numbers of a configuration fit their Go types. *)
Definition within (n : Z) (z : Z) : Prop := - 2 ^ n <= z < 2 ^ n.

(** The assignments of a file, in the order of its lines. *)
Definition assignments (file : string) : list (string * string) :=
  omap assignment (fst (scan_lines (bytes_of file))).

(** The last of [assigned] for [key] that can be set. *)
Definition last_for (key : string) (assigned : list (string * string)) : option string :=
  snd <$> last (List.filter (fun kv => String.eqb kv.1 key && settable kv.1 kv.2) assigned).

(** *** An example *)

Definition in_order : MapOrder := {|
  range_map := fun entries => entries;
  range_map_perm := fun entries => Permutation_refl entries
|}.

Definition demo_environ : Environ :=
  list_to_map
    [("DATABASE_URL", "postgres://db"); ("JWT_ISSUER", "issuer"); ("JWT_AUDIENCE", "notes");
     ("JWT_JWKS_URL", "https://keys"); ("SUPABASE_URL", "https://storage");
     ("SUPABASE_SECRET_KEY", "secret"); ("SYNC_DEFAULT_PULL_LIMIT", " 50 ")]%string.

(** A comment, an assignment with quotes, and one that another line repeats. *)
Definition demo_dotenv : string :=
  of_bytes (bytes_of "# local" ++ [10] ++ bytes_of "PORT = '9000'" ++ [13; 10]
    ++ bytes_of "SYNC_MAX_OPERATIONS=10" ++ [10] ++ bytes_of "SYNC_MAX_OPERATIONS=20").

Definition demo_config : Config :=
  settings (fst (Load (O := in_order) demo_environ (Some demo_dotenv))).

(** ** Lemmas *)

Lemma missing_nil {O : MapOrder} c :
  missing c = [] <-> Forall (fun kv => trim_space kv.2 <> EmptyString) (required c).
Proof.
  unfold missing. pose proof (range_map_perm (required c)) as Hp.
  transitivity (Forall (fun kv => trim_space kv.2 <> EmptyString) (range_map (required c)));
    [|by rewrite Hp]. clear Hp.
  induction (range_map (required c)) as [|kv l IH]; cbn; [done|]. unfold blank at 1.
  rewrite Forall_cons. destruct (String.eqb_spec (trim_space kv.2) EmptyString); cbn.
  - split; [done|]. by intros [? _].
  - rewrite IH. tauto.
Qed.

Lemma bucket_spec s :
  contains_any s [slash; backslash] = false <->
  Forall (fun b => b <> slash /\ b <> backslash) (bytes_of s).
Proof.
  unfold contains_any. induction (bytes_of s) as [|b l IH]; cbn; [done|].
  rewrite Forall_cons, <- IH, !orb_false_iff, !Z.eqb_neq. tauto.
Qed.

Lemma Validate_spec {O : MapOrder} c : Validate c = Ok tt <-> valid_config c.
Proof.
  unfold Validate. split.
  - intros H. repeat (case_match; [discriminate|]). to_prop.
    match goal with H : missing _ = [] |- _ => apply missing_nil in H end.
    match goal with H : contains_any _ _ = false |- _ => apply bucket_spec in H end.
    split; try done; try lia. by destruct (SupabaseStorageAllowedMimeTypes c).
  - intros []. rewrite bool_decide_true by (by apply missing_nil). rewrite (proj2 (bucket_spec _)) by done. cbn [negb].
    repeat (rewrite (proj2 (Z.ltb_ge _ _)) by lia). repeat (rewrite (proj2 (Z.leb_gt _ _)) by lia).
    destruct (SupabaseStorageAllowedMimeTypes c); done.
Qed.

Lemma getInt_range env key fallback :
  within 63 fallback -> within 63 (getInt env key fallback).
Proof.
  intros H. unfold getInt. case_match; [done|]. destruct (parse_int64 _) as [z|] eqn:E; [|done].
  apply parse_int64_range in E. unfold within, int64_min, int64_max in *. lia.
Qed.

Lemma wrap32_range z : within 31 (wrap32 z).
Proof. unfold within, wrap32. pose proof (Z.mod_pos_bound (z + 2 ^ 31) (2 ^ 32)). lia. Qed.

(** *** The file *)

Lemma assignment_key line key value : assignment line = Some (key, value) -> key <> EmptyString.
Proof.
  unfold assignment. case_match; [done|]. destruct (cut _ _) as [[k v]|]; [|done]. cbn.
  destruct (String.eqb_spec (trim_space k) EmptyString); [done|]. by intros [= <- _].
Qed.

Lemma set_lines_lookup lines env key :
  foldl set_line env lines !! key =
    match last_for key (omap assignment lines) with
    | Some value => Some value
    | None => env !! key
    end.
Proof.
  revert env. induction lines as [|line lines IH]; intros env; [done|]. cbn [foldl omap list_omap].
  rewrite IH. unfold set_line. destruct (assignment line) as [[k v]|] eqn:Ha; [|done].
  unfold last_for. cbn [List.filter fst snd].
  destruct (String.eqb_spec k key) as [->|Hne]; cbn [andb].
  - unfold Setenv. destruct (settable key v); [|done]. rewrite last_cons.
    destruct (last _); cbn; [done|]. unfold Environ. by rewrite lookup_insert_eq.
  - destruct (last _); [done|]. cbn [fmap option_fmap option_map]. unfold Setenv.
    destruct (settable k v); [|done]. unfold Environ. by rewrite lookup_insert_ne.
Qed.

(** ** Theorems *)

(** C38: the environment after loading has, for every name, the last value the
    file assigns to it, else what it had; the configuration is read from it and
    accepted exactly when every setting is within its bounds; and if the
    maximal pull limit fits an [int32] with room for one more row, then the
    sync service pulls pages of the configured default limit, which is within
    the range its pulls need. *)
Theorem accepted_settings_are_bounded {O : MapOrder} (env : Environ) (file : option string)
    (bus : option Publisher) :
  let env' := fst (Load env file) in
  let cfg := settings env' in
  (forall key, env' !! key = match last_for key (default [] (assignments <$> file)) with
                             | Some value => Some value
                             | None => env !! key
                             end) /\
  (valid_config cfg -> snd (Load env file) = Ok cfg) /\
  (~ valid_config cfg -> exists e, snd (Load env file) = Err e) /\
  within 31 (MaxDBConnections cfg) /\ within 63 (SyncMaxOperations cfg) /\
  within 63 (SyncMaxPullLimit cfg) /\ within 63 (RequestTimeout cfg) /\
  (valid_config cfg -> SyncMaxPullLimit cfg < 2 ^ 31 - 1 ->
     pull_limit (NewService cfg bus) = SyncDefaultPullLimit cfg /\
     0 < pull_limit (NewService cfg bus) < 2 ^ 31 - 1).
Proof.
  cbv zeta. unfold Load. cbn [fst snd]. set (env' := fst (loadDotEnv env file)).
  split_and!.
  - intros key. subst env'. destruct file as [content|]; [|done]. cbn [loadDotEnv].
    unfold assignments. cbn [fmap option_fmap option_map default from_option id].
    destruct (scan_lines _) as [lines long]. cbn. apply set_lines_lookup.
  - by intros ->%Validate_spec.
  - intros Hn. destruct (Validate (settings env')) as [[]|e] eqn:E; [by apply Validate_spec in E|].
    by exists e.
  - apply wrap32_range.
  - by apply getInt_range.
  - by apply getInt_range.
  - cbn. unfold getSeconds. pose proof (wrap64_range (getInt env' "REQUEST_TIMEOUT_SECONDS" 30 * second)).
    unfold within, int64_min, int64_max in *. lia.
  - intros [] Hmax. unfold pull_limit, NewService. cbn [maxPullLimit defaultPullLimit].
    rewrite !wrap32_id by lia. case_match; to_prop; lia.
Qed.

Lemma accepted_settings_are_bounded_witness :
  pull_limit (NewService demo_config None) = 50 /\
  0 < pull_limit (NewService demo_config None) < 2 ^ 31 - 1.
Proof.
  refine (proj2 (proj2 (proj2 (proj2 (proj2 (proj2 (proj2 (accepted_settings_are_bounded
    (O := in_order) demo_environ (Some demo_dotenv) None))))))) _ _).
  - apply (Validate_spec (O := in_order)). vm_compute. reflexivity.
  - vm_compute. reflexivity.
Defined.

(** Settings that are accepted but do not survive the conversion to [int32]. *)
Lemma accepted_limit_is_truncated :
  let env := <["SYNC_MAX_PULL_LIMIT" := "2147483648"]> demo_environ in
  valid_config (settings env)%string /\ pull_limit (NewService (settings env) None) = - 2 ^ 31.
Proof. split; [apply (Validate_spec (O := in_order)); vm_compute; reflexivity|vm_compute; reflexivity]. Qed.

Example demo_load :
  let r := Load (O := in_order) demo_environ (Some demo_dotenv) in
  (fun c => (Port c, SyncMaxOperations c, SyncDefaultPullLimit c)) <$> snd r = Ok ("9000", 20, 50)%string.
Proof. vm_compute. reflexivity. Qed.
