(* ===== verification/GoBase64.v ===== *)
(** * Base64 and numbers as bytes

    [base64.RawURLEncoding] of [encoding/base64] and the big-endian bytes of
    [math/big.Int]. *)

From S2P Require Import Prelude GoText GoSha256.

(** ** The alphabet *)

Definition char_of_sextet (v : Z) : Z :=
  if v <? 26 then 65 + v
  else if v <? 52 then 97 + (v - 26)
  else if v <? 62 then 48 + (v - 52)
  else if v =? 62 then 45 else 95.

Definition sextet_of_char (c : Z) : option Z :=
  if between 65 c 90 then Some (c - 65)
  else if between 97 c 122 then Some (c - 97 + 26)
  else if between 48 c 57 then Some (c - 48 + 52)
  else if c =? 45 then Some 62
  else if c =? 95 then Some 63 else None.

(** ** Groups *)

Fixpoint sextets_of_bytes (bs : list Z) : list Z :=
  match bs with
  | [] => []
  | [a] => [a / 4; a mod 4 * 16]
  | [a; b] => [a / 4; a mod 4 * 16 + b / 16; b mod 16 * 4]
  | a :: b :: c :: rest =>
      a / 4 :: a mod 4 * 16 + b / 16 :: b mod 16 * 4 + c / 64 :: c mod 64
      :: sextets_of_bytes rest
  end.

(** Surplus bits of a final group are ignored; a single character is an error. *)
Fixpoint bytes_of_sextets (vs : list Z) : option (list Z) :=
  match vs with
  | [] => Some []
  | [_] => None
  | [a; b] => Some [a * 4 + b / 16]
  | [a; b; c] => Some [a * 4 + b / 16; b mod 16 * 16 + c / 4]
  | a :: b :: c :: d :: rest =>
      tail ← bytes_of_sextets rest;
      Some (a * 4 + b / 16 :: b mod 16 * 16 + c / 4 :: c mod 4 * 64 + d :: tail)
  end.

(** [EncodeToString]. *)
Definition base64_encode (bs : list Z) : string :=
  of_bytes (map char_of_sextet (sextets_of_bytes bs)).

(** [DecodeString]: line breaks are skipped. *)
Definition base64_decode (s : string) : option (list Z) :=
  sextets ← mapM sextet_of_char
    (List.filter (fun c => negb ((c =? 10) || (c =? 13))) (bytes_of s));
  bytes_of_sextets sextets.

(** ** Numbers *)

(** [big.Int.Bytes] of a number that is not negative: as few as possible. *)
Definition int_bytes (n : Z) : list Z :=
  if n <=? 0 then [] else big_endian (Z.to_nat (Z.log2 n / 8 + 1)) n.

(** [big.Int.SetBytes]. *)
Definition int_of_bytes (bs : list Z) : Z := foldl (fun n b => n * 256 + b) 0 bs.

(** ** Lemmas *)

Definition is_sextet (v : Z) : Prop := 0 <= v < 64.

Lemma bytes_ind3 (P : list Z -> Prop) :
  P [] -> (forall a, P [a]) -> (forall a b, P [a; b]) ->
  (forall a b c rest, P rest -> P (a :: b :: c :: rest)) -> forall bs, P bs.
Proof.
  intros H0 H1 H2 H3 bs. assert (H : P bs /\ (forall a, P (a :: bs)) /\ (forall a b, P (a :: b :: bs))).
  { induction bs as [|x bs (IH1 & IH2 & IH3)]; [by auto|]. split_and!; auto. }
  apply H.
Qed.

Lemma sextets_range bs : Forall is_byte bs -> Forall is_sextet (sextets_of_bytes bs).
Proof.
  induction bs as [|a|a b|a b c rest IH] using bytes_ind3; intros H; cbn;
    rewrite ?Forall_cons in H; decompose [and] H; unfold is_byte in *;
    repeat (constructor; [unfold is_sextet; Z.div_mod_to_equations; lia|]); auto.
Qed.

Lemma bytes_of_sextets_of_bytes bs :
  Forall is_byte bs -> bytes_of_sextets (sextets_of_bytes bs) = Some bs.
Proof.
  induction bs as [|a|a b|a b c rest IH] using bytes_ind3; intros H; [done|..];
    rewrite ?Forall_cons in H; decompose [and] H; unfold is_byte in *.
  - cbn. do 2 f_equal; Z.div_mod_to_equations; lia.
  - cbn. do 2 f_equal; [|f_equal]; Z.div_mod_to_equations; lia.
  - cbn -[bytes_of_sextets]. cbn [bytes_of_sextets]. rewrite IH by done. cbn.
    f_equal. f_equal; [|f_equal; [|f_equal]]; Z.div_mod_to_equations; lia.
Qed.

Lemma sextet_of_char_of_sextet v : is_sextet v -> sextet_of_char (char_of_sextet v) = Some v.
Proof.
  unfold is_sextet, sextet_of_char, char_of_sextet, between. intros H.
  repeat case_match; to_prop; try (f_equal; lia); exfalso; lia.
Qed.

Lemma char_of_sextet_range v :
  is_sextet v -> is_byte (char_of_sextet v) /\ char_of_sextet v <> 10 /\ char_of_sextet v <> 13.
Proof. unfold is_sextet, is_byte, char_of_sextet. intros H. repeat case_match; to_prop; lia. Qed.

(** What is encoded decodes to itself. *)
Lemma base64_decode_encode bs : Forall is_byte bs -> base64_decode (base64_encode bs) = Some bs.
Proof.
  intros H. pose proof (sextets_range _ H) as Hs. unfold base64_decode, base64_encode.
  rewrite bytes_of_bytes.
  2:{ rewrite Forall_fmap. eapply Forall_impl; [exact Hs|]. intros v Hv. by apply char_of_sextet_range. }
  rewrite <- (bytes_of_sextets_of_bytes bs H). generalize (sextets_of_bytes bs) Hs. clear H Hs bs.
  intros vs Hs. transitivity (Some vs ≫= bytes_of_sextets); [|done]. f_equal.
  induction Hs as [|v vs Hv _ IH]; [done|]. cbn.
  destruct (char_of_sextet_range v Hv) as (_ & H1%Z.eqb_neq & H2%Z.eqb_neq). rewrite H1, H2. cbn.
  rewrite sextet_of_char_of_sextet by done. cbn. cbn in IH. by rewrite IH.
Qed.

Lemma big_endian_bytes n x : Forall is_byte (big_endian n x).
Proof.
  revert x. induction n as [|n IH]; intros x; cbn; [constructor|]. rewrite Forall_app.
  split; [done|]. repeat constructor; apply Z.mod_pos_bound; lia.
Qed.

Lemma int_of_big_endian n x :
  0 <= x < 256 ^ Z.of_nat n -> int_of_bytes (big_endian n x) = x.
Proof.
  revert x. induction n as [|n IH]; intros x Hx; [cbn in *; lia|]. cbn [big_endian].
  unfold int_of_bytes. rewrite foldl_app. cbn. fold (int_of_bytes (big_endian n (x / 256))).
  rewrite IH; [Z.div_mod_to_equations; lia|]. rewrite Nat2Z.inj_succ, Z.pow_succ_r in Hx by lia.
  split; [Z.div_mod_to_equations; lia|]. apply Z.div_lt_upper_bound; lia.
Qed.

Lemma int_bytes_bytes n : Forall is_byte (int_bytes n).
Proof. unfold int_bytes. case_match; [constructor|apply big_endian_bytes]. Qed.

Lemma int_bytes_enough n : 0 < n -> n < 256 ^ Z.of_nat (Z.to_nat (Z.log2 n / 8 + 1)).
Proof.
  intros Hn. pose proof (Z.log2_nonneg n). rewrite Z2Nat.id by (Z.div_mod_to_equations; lia).
  change 256 with (2 ^ 8). rewrite <- Z.pow_mul_r by (Z.div_mod_to_equations; lia).
  eapply Z.lt_le_trans; [apply Z.log2_spec; lia|]. apply Z.pow_le_mono_r; [lia|].
  Z.div_mod_to_equations. lia.
Qed.

Lemma int_of_int_bytes n : 0 <= n -> int_of_bytes (int_bytes n) = n.
Proof.
  intros Hn. unfold int_bytes. case_match; to_prop; [cbn; lia|].
  apply int_of_big_endian. split; [lia|]. apply int_bytes_enough. lia.
Qed.

(** The vectors of RFC 4648. *)
Example base64_foobar :
  map base64_encode [[]; [102]; [102; 111]; [102; 111; 111]; [102; 111; 111; 98]]
  = [""; "Zg"; "Zm8"; "Zm9v"; "Zm9vYg"]%string.
Proof. reflexivity. Qed.

Example base64_skips_lines :
  base64_decode (of_bytes [90; 109; 10; 56]) = Some [102; 111] /\ base64_decode "Z" = None.
Proof. by vm_compute. Qed.
