(* ===== verification/Auth.v ===== *)
(** * Authentication

    [internal/auth]: the cache of public keys ([jwks.go]) and the verification
    of bearer tokens ([middleware.go], [claims.go]).  Parsing a token and
    checking its signature and registered claims is the JWT library's. *)

From S2P Require Import Prelude GoText GoFloat Json HttpApi External GoTime Schema GoMime.
From S2P Require Import GoStrings Worker GoBase64.

(** ** Public keys *)

Record PublicKey := mkPublicKey { rsa_N : Z; rsa_E : Z }.

(** The exponent is accumulated in an [int]. *)
Definition exponent_of (bs : list Z) : Z :=
  foldl (fun exponent b => wrap64 (wrap64 (exponent * 256) + b)) 0 bs.

Definition rsaPublicKey (n64 e64 : string) : option PublicKey :=
  modulusBytes ← base64_decode n64;
  exponentBytes ← base64_decode e64;
  let exponent := exponent_of exponentBytes in
  if exponent =? 0 then None else Some (mkPublicKey (int_of_bytes modulusBytes) exponent).

(** ** The key set document *)

Record jwkKey := mkJwkKey {
  jwk_Kty : string; jwk_Kid : string; jwk_Use : string; jwk_Alg : string;
  jwk_N : string; jwk_E : string
}.

Definition zero_jwk : jwkKey :=
  mkJwkKey EmptyString EmptyString EmptyString EmptyString EmptyString EmptyString.

Definition jwk_fields : list (struct_field jwkKey) :=
  [("kty", store_field unmarshal_string (fun s k =>
      mkJwkKey s (jwk_Kid k) (jwk_Use k) (jwk_Alg k) (jwk_N k) (jwk_E k)));
   ("kid", store_field unmarshal_string (fun s k =>
      mkJwkKey (jwk_Kty k) s (jwk_Use k) (jwk_Alg k) (jwk_N k) (jwk_E k)));
   ("use", store_field unmarshal_string (fun s k =>
      mkJwkKey (jwk_Kty k) (jwk_Kid k) s (jwk_Alg k) (jwk_N k) (jwk_E k)));
   ("alg", store_field unmarshal_string (fun s k =>
      mkJwkKey (jwk_Kty k) (jwk_Kid k) (jwk_Use k) s (jwk_N k) (jwk_E k)));
   ("n", store_field unmarshal_string (fun s k =>
      mkJwkKey (jwk_Kty k) (jwk_Kid k) (jwk_Use k) (jwk_Alg k) s (jwk_E k)));
   ("e", store_field unmarshal_string (fun s k =>
      mkJwkKey (jwk_Kty k) (jwk_Kid k) (jwk_Use k) (jwk_Alg k) (jwk_N k) s))]%string.

Definition keySet : Type := slice jwkKey.

Definition keyset_fields : list (struct_field keySet) :=
  [("keys"%string, store_slice (unmarshal_struct jwk_fields) zero_jwk)].

Definition decode_keyset (v : json) : option keySet := unmarshal_struct keyset_fields nil_slice v.

(** A key that is not RSA, has no identifier, or does not convert is skipped. *)
Definition usable_key (raw : jwkKey) : option (string * PublicKey) :=
  if negb (String.eqb (jwk_Kty raw) "RSA") || String.eqb (jwk_Kid raw) EmptyString then None
  else key ← rsaPublicKey (jwk_N raw) (jwk_E raw); Some (jwk_Kid raw, key).

Definition usable_keys (set : keySet) : gmap string PublicKey :=
  foldl (fun keys kv => <[kv.1 := kv.2]> keys) ∅ (omap usable_key (slice_elements set)).

(** ** The cache *)

Record jwksCache := mkCache { jc_keys : gmap string PublicKey; jc_loadedAt : Time }.

Definition newJWKSCache : jwksCache := mkCache ∅ zero_time.

Definition ttl : Z := 300 * second.

(** What the endpoint answers at a step: nothing, or a status and a body, which
    may not be a document. *)
Inductive fetched :=
| Unreachable
| Answered (status : Z) (body : option json).

Class JwksEndpoint := { jwks_fetch : nat -> fetched }.

(** Requests share the cache: what the others have made of it at a step. *)
Class Peers := { peer_refreshes : nat -> jwksCache -> jwksCache }.

Section cache.
Context {X : External Db} {J : JwksEndpoint} {P : Peers}.

Definition load_keys (answer : fetched) : res (gmap string PublicKey) :=
  match answer with
  | Unreachable => Err ErrDriver
  | Answered status body =>
      if (status <? 200) || (300 <=? status)
      then Err (errorsNew ("jwks endpoint returned status " ++ format_int status))
      else
        match body ≫= decode_keyset with
        | None => Err ErrJSON
        | Some set =>
            if bool_decide (usable_keys set = ∅)
            then Err (errorsNew "jwks contained no usable RSA keys")
            else Ok (usable_keys set)
        end
  end.

Definition fetch : M fetched := fun w => (tick w, Ok (jwks_fetch (w_step w))).

Definition refresh (c : jwksCache) : M (jwksCache * res unit) :=
  answer ← fetch;
  match load_keys answer with
  | Err e => mret (c, Err e)
  | Ok keys => now ← timeNow; mret (mkCache keys now, Ok tt)
  end.

Definition observe (c : jwksCache) : M jwksCache := fun w => (w, Ok (peer_refreshes (w_step w) c)).

(** A cache never loaded is centuries old. *)
Definition fresh (c : jwksCache) (now : Time) : bool :=
  negb (jc_loadedAt c =? zero_time) && (now - jc_loadedAt c <? ttl).

(** A stale or missing key is read from a cache filled anew. *)
Definition reload (c : jwksCache) (kid : string) : M (jwksCache * res PublicKey) :=
  '(c, refreshed) ← refresh c;
  match refreshed with
  | Err e => mret (c, Err e)
  | Ok _ =>
      c ← observe c;
      mret (c, match jc_keys c !! kid with
               | None => Err (ErrText [Text "jwt key "; Quoted kid; Text " not found"])
               | Some key => Ok key
               end)
  end.

Definition cache_get (c : jwksCache) (kid : string) : M (jwksCache * res PublicKey) :=
  c ← observe c;
  now ← timeNow;
  match jc_keys c !! kid with
  | Some key => if fresh c now then mret (c, Ok key) else reload c kid
  | None => reload c kid
  end.

End cache.

(** ** Verifying tokens *)

(** A token parsed without its signature: whether its method is RSA, the [kid]
    of its header when that is text, its subject. *)
Record jwt_token := mkToken { tk_rsa : bool; tk_kid : option string; tk_subject : string }.

Class JwtLibrary := {
  jwt_unverified : string -> option jwt_token;
  (** Signature under the key, issuer, audience, expiry present and not past. *)
  jwt_valid : string -> PublicKey -> string -> string -> Time -> bool
}.

Record Claims := mkClaims { UserID : UUID }.

Record Verifier := mkVerifier { vf_issuer : string; vf_audience : string }.

Section verifier.
Context {X : External Db} {J : JwksEndpoint} {P : Peers} {W : JwtLibrary}.

Definition NewVerifier (issuer audience : string) : M (Verifier * jwksCache) :=
  '(cache, refreshed) ← refresh newJWKSCache;
  match refreshed with
  | Err e => fail e
  | Ok _ => mret (mkVerifier issuer audience, cache)
  end.

Definition select_key (c : jwksCache) (token : jwt_token) : M (jwksCache * res PublicKey) :=
  if negb (tk_rsa token) then mret (c, Err (errorsNew "unexpected jwt signing method"))
  else
    let kid := default EmptyString (tk_kid token) in
    if String.eqb kid EmptyString then mret (c, Err (errorsNew "jwt kid is required"))
    else cache_get c kid.

(** [jwt.ParseWithClaims] with the key function above. *)
Definition ParseWithClaims (v : Verifier) (c : jwksCache) (text : string)
    : M (jwksCache * option jwt_token) :=
  match jwt_unverified text with
  | None => mret (c, None)
  | Some token =>
      '(c, selected) ← select_key c token;
      match selected with
      | Err _ => mret (c, None)
      | Ok key =>
          now ← timeNow;
          mret (c, if jwt_valid text key (vf_issuer v) (vf_audience v) now
                   then Some token else None)
      end
  end.

Definition Verify (v : Verifier) (c : jwksCache) (text : string) : M (jwksCache * res Claims) :=
  '(c, parsed) ← ParseWithClaims v c text;
  mret (c, match parsed with
           | None => Err (errorsNew "invalid token")
           | Some token =>
               match uuid_parse (tk_subject token) with
               | None => Err (errorsNew "invalid subject")
               | Some userID => Ok (mkClaims userID)
               end
           end).

(** The token of an [Authorization] header. *)
Definition bearer_token (header : string) : option string :=
  if String.eqb header EmptyString then None
  else
    '(scheme, token) ← cut header 32;
    if negb (key_matches scheme "Bearer") || String.eqb (trim_space token) EmptyString then None
    else Some (trim_space token).

End verifier.
