(* ===== verification/DevAuth.v ===== *)
(** * The development key helper

    [cmd/devauth/main.go]: generating a development fixture (a key, its key set,
    a token, metadata and settings), serving the key set and verifying the
    token.  Key generation and signing are the libraries'.

    A file is a JSON document or another text; flags are taken as parsed. *)

From S2P Require Import Prelude GoText Json HttpApi External GoTime Schema GoMime GoStrings.
From S2P Require Import Config GoBase64 Auth.

Module devauth.

Definition defaultOutDir : string := ".dev/auth".
Definition defaultIssuer : string := "notes-dev".
Definition defaultAudience : string := "notes-api".
Definition defaultJWKSURL : string := "http://localhost:8081/.well-known/jwks.json".

(** ** Keys *)

Definition publicJWK (key : PublicKey) (kid : string) : jwkKey :=
  mkJwkKey "RSA" kid "sig" "RS256" (base64_encode (int_bytes (rsa_N key)))
    (base64_encode (int_bytes (rsa_E key))).

(** [json.MarshalIndent] of the structs. *)
Definition marshal_jwk (k : jwkKey) : json :=
  JObj [("kty", marshal_string (jwk_Kty k)); ("kid", marshal_string (jwk_Kid k));
        ("use", marshal_string (jwk_Use k)); ("alg", marshal_string (jwk_Alg k));
        ("n", marshal_string (jwk_N k)); ("e", marshal_string (jwk_E k))]%string.

Definition marshal_jwks (keys : list jwkKey) : json :=
  JObj [("keys"%string, JArr (map marshal_jwk keys))].

(** A file holds a JSON document or another text. *)
Inductive content :=
| TextFile (text : string)
| JsonFile (v : json).

Definition json_of (file : content) : option json :=
  match file with
  | JsonFile v => Some v
  | TextFile _ => None
  end.

(** The answer for the file as it is when the request arrives. *)
Definition jwks_handler (file : option content) : fetched :=
  match file with
  | None => Answered StatusInternalServerError None
  | Some data => Answered StatusOK (json_of data)
  end.

(** The paths the server answers; any other gets a text. *)
Definition jwksMux (file : option content) (path : string) : fetched :=
  if String.eqb path "/.well-known/jwks.json" || String.eqb path "/jwks.json"
  then jwks_handler file else Answered StatusOK None.

Definition publicKeys (data : option json) : res (gmap string PublicKey) :=
  match data ≫= decode_keyset with
  | None => Err ErrJSON
  | Some set =>
      if bool_decide (usable_keys set = ∅) then Err (errorsNew "jwks contained no usable RSA keys")
      else Ok (usable_keys set)
  end.

(** ** Files *)

(** Contents with the permissions a file was created with, by path. *)
Notation Disk := (gmap string (Z * content)).

(** [filepath.Join], what creating a directory or writing a file fails with,
    and the order in which a Go map is ranged over. *)
Class Files := {
  path_join : string -> string -> string;
  MkdirAll : string -> res unit;
  write_fate : string -> res unit;
  range_files : list (string * content) -> list (string * content);
  range_files_perm : forall files, range_files files ≡ₚ files
}.

(** [os.WriteFile]: permissions count only when the file is created. *)
Definition WriteFile {F : Files} (path : string) (data : content) (mode : Z) (disk : Disk)
    : Disk * res unit :=
  match write_fate path with
  | Err e => (disk, Err e)
  | Ok _ =>
      (<[path := (match disk !! path with
                  | Some (mode, _) => mode
                  | None => mode
                  end, data)]> disk, Ok tt)
  end.

Definition file_mode (name : string) : Z :=
  if existsb (String.eqb name) ["jwks.json"; "metadata.json"; "env"; "WARNING.txt"]%string
  then 420 else 384.

Fixpoint write_files {F : Files} (dir : string) (files : list (string * content)) (disk : Disk)
    : Disk * res unit :=
  match files with
  | [] => (disk, Ok tt)
  | (name, data) :: rest =>
      match WriteFile (path_join dir name) data (file_mode name) disk with
      | (disk, Err e) => (disk, Err e)
      | (disk, Ok _) => write_files dir rest disk
      end
  end.

Definition ReadFile (disk : Disk) (path : string) : option content := snd <$> disk !! path.

(** ** Metadata *)

Record metadata := mkMetadata {
  md_Issuer : string; md_Audience : string; md_Subject : string; md_KeyID : string;
  md_Algorithm : string; md_IssuedAt : Time; md_ExpiresAt : Time; md_JWKSURL : string
}.

Definition zero_metadata : metadata :=
  mkMetadata EmptyString EmptyString EmptyString EmptyString EmptyString zero_time zero_time
    EmptyString.

Definition marshal_metadata (m : metadata) : option json :=
  issuedAt ← marshal_utc (md_IssuedAt m);
  expiresAt ← marshal_utc (md_ExpiresAt m);
  Some (JObj [("issuer", marshal_string (md_Issuer m)); ("audience", marshal_string (md_Audience m));
              ("subject", marshal_string (md_Subject m)); ("kid", marshal_string (md_KeyID m));
              ("algorithm", marshal_string (md_Algorithm m)); ("issuedAt", issuedAt);
              ("expiresAt", expiresAt); ("jwksUrl", marshal_string (md_JWKSURL m))]%string).

Definition metadata_fields : list (struct_field metadata) :=
  [("issuer", store_field unmarshal_string (fun s m => mkMetadata s (md_Audience m) (md_Subject m)
      (md_KeyID m) (md_Algorithm m) (md_IssuedAt m) (md_ExpiresAt m) (md_JWKSURL m)));
   ("audience", store_field unmarshal_string (fun s m => mkMetadata (md_Issuer m) s (md_Subject m)
      (md_KeyID m) (md_Algorithm m) (md_IssuedAt m) (md_ExpiresAt m) (md_JWKSURL m)));
   ("subject", store_field unmarshal_string (fun s m => mkMetadata (md_Issuer m) (md_Audience m) s
      (md_KeyID m) (md_Algorithm m) (md_IssuedAt m) (md_ExpiresAt m) (md_JWKSURL m)));
   ("kid", store_field unmarshal_string (fun s m => mkMetadata (md_Issuer m) (md_Audience m)
      (md_Subject m) s (md_Algorithm m) (md_IssuedAt m) (md_ExpiresAt m) (md_JWKSURL m)));
   ("algorithm", store_field unmarshal_string (fun s m => mkMetadata (md_Issuer m) (md_Audience m)
      (md_Subject m) (md_KeyID m) s (md_IssuedAt m) (md_ExpiresAt m) (md_JWKSURL m)));
   ("issuedAt", store_field unmarshal_time (fun t m => mkMetadata (md_Issuer m) (md_Audience m)
      (md_Subject m) (md_KeyID m) (md_Algorithm m) t (md_ExpiresAt m) (md_JWKSURL m)));
   ("expiresAt", store_field unmarshal_time (fun t m => mkMetadata (md_Issuer m) (md_Audience m)
      (md_Subject m) (md_KeyID m) (md_Algorithm m) (md_IssuedAt m) t (md_JWKSURL m)));
   ("jwksUrl", store_field unmarshal_string (fun s m => mkMetadata (md_Issuer m) (md_Audience m)
      (md_Subject m) (md_KeyID m) (md_Algorithm m) (md_IssuedAt m) (md_ExpiresAt m) s))]%string.

(** A file that is missing or does not decode reads as the zero value. *)
Definition readMetadata (disk : Disk) (path : string) : metadata :=
  default zero_metadata
    (file ← ReadFile disk path; v ← json_of file; unmarshal_struct metadata_fields zero_metadata v).

(** ** Generating *)

Record generate_flags := mkGenerateFlags {
  gf_out : string; gf_issuer : string; gf_audience : string; gf_subject : string;
  gf_kid : string; gf_days : Z; gf_jwksURL : string
}.

Definition envOrDefault (env : Environ) (key fallback : string) : string :=
  let value := trim_space (Getenv env key) in
  if String.eqb value EmptyString then fallback else value.

Definition generate_defaults (env : Environ) : generate_flags :=
  mkGenerateFlags defaultOutDir (envOrDefault env "JWT_ISSUER" defaultIssuer)
    (envOrDefault env "JWT_AUDIENCE" defaultAudience) EmptyString EmptyString 365 defaultJWKSURL.

(** [jwt.RegisteredClaims]; dates have a precision of seconds. *)
Record RegisteredClaims := mkRegisteredClaims {
  rc_Issuer : string; rc_Subject : string; rc_Audience : list string;
  rc_ExpiresAt : Time; rc_NotBefore : Time; rc_IssuedAt : Time; rc_ID : string
}.

Definition NewNumericDate (t : Time) : Time := t - t mod second.

(** RSA keys and signing: [sign_token] is [SignedString] with the key's
    identifier in the header. *)
Class Signer := {
  PrivateKey : Type;
  GenerateKey : nat -> res PrivateKey;
  public_key : PrivateKey -> PublicKey;
  privateKeyPEM : PrivateKey -> string;
  sign_token : PrivateKey -> string -> RegisteredClaims -> res string
}.

Definition dash : Z := 45.

Definition newline : string := of_bytes [10].

Definition warning : string :=
  "Development-only fake auth fixture. Do not use this private key or token for live user authentication.".

Section generate.
Context {X : External Db} {G : Signer} {F : Files}.

Definition subjectUUID (raw : string) : M (res UUID) :=
  let raw := trim_space raw in
  if String.eqb raw EmptyString then id ← uuidNew; mret (Ok id)
  else mret (match uuid_parse raw with
             | None => Err (errorsNew "subject must be a UUID")
             | Some id => Ok id
             end).

(** [raw\[:12\]] panics on a shorter text. *)
Definition key_id (kid : string) : M string :=
  let kid := trim_space kid in
  if negb (String.eqb kid EmptyString) then mret kid
  else
    id ← uuidNew;
    let raw := List.filter (fun b => negb (b =? dash)) (bytes_of (uuid_text id)) in
    if (length raw <? 12)%nat then fail ErrPanic else mret ("dev-" ++ of_bytes (take 12 raw))%string.

Definition generate_key : M (res PrivateKey) := fun w => (tick w, Ok (GenerateKey (w_step w))).

(** [time.Duration(days) * 24 * time.Hour]. *)
Definition lifetime (days : Z) : Z := wrap64 (wrap64 (days * 24) * (3600 * second)).

Definition env_text (issuer audience url : string) : string :=
  "JWT_ISSUER=" ++ issuer ++ newline ++ "JWT_AUDIENCE=" ++ audience ++ newline
  ++ "JWT_JWKS_URL=" ++ url ++ newline.

(** What is written, from what was drawn. *)
Definition fixture (f : generate_flags) (key : PrivateKey) (keyID : string)
    (claims : RegisteredClaims) (signed : string) (now expiresAt : Time)
    : option (list (string * content)) :=
  meta ← marshal_metadata (mkMetadata (rc_Issuer claims) (hd EmptyString (rc_Audience claims))
    (rc_Subject claims) keyID "RS256" now expiresAt (trim_space (gf_jwksURL f)));
  Some [("private_key.pem", TextFile (privateKeyPEM key));
        ("jwks.json", JsonFile (marshal_jwks [publicJWK (public_key key) keyID]));
        ("token.txt", TextFile (signed ++ newline));
        ("metadata.json", JsonFile meta);
        ("env", TextFile (env_text (rc_Issuer claims) (hd EmptyString (rc_Audience claims))
                            (trim_space (gf_jwksURL f))));
        ("WARNING.txt", TextFile (warning ++ newline))]%string.

Definition claims_of (f : generate_flags) (userID : UUID) (now expiresAt : Time) (id : UUID)
    : RegisteredClaims :=
  mkRegisteredClaims (trim_space (gf_issuer f)) (uuid_text userID) [trim_space (gf_audience f)]
    (NewNumericDate expiresAt) (NewNumericDate now) (NewNumericDate now) (uuid_text id).

(** The files after the call, and its error. *)
Definition generate (f : generate_flags) (disk : Disk) : M (Disk * res unit) :=
  if blank (gf_issuer f) then mret (disk, Err (errorsNew "issuer is required"))
  else if blank (gf_audience f) then mret (disk, Err (errorsNew "audience is required"))
  else if gf_days f <? 1 then mret (disk, Err (errorsNew "days must be greater than zero"))
  else
    subject ← subjectUUID (gf_subject f);
    match subject with
    | Err e => mret (disk, Err e)
    | Ok userID =>
        keyID ← key_id (gf_kid f);
        generated ← generate_key;
        match generated with
        | Err e => mret (disk, Err e)
        | Ok key =>
            now ← timeNow;
            let expiresAt := now + lifetime (gf_days f) in
            id ← uuidNew;
            let claims := claims_of f userID now expiresAt id in
            match sign_token key keyID claims with
            | Err e => mret (disk, Err e)
            | Ok signed =>
                match MkdirAll (gf_out f) with
                | Err e => mret (disk, Err e)
                | Ok _ =>
                    match fixture f key keyID claims signed now expiresAt with
                    | None => fail ErrPanic
                    | Some files => mret (write_files (gf_out f) (range_files files) disk)
                    end
                end
            end
        end
    end.

End generate.

(** ** Verifying *)

Record verify_flags := mkVerifyFlags {
  vfl_dir : string; vfl_token : string; vfl_jwks : string; vfl_issuer : string;
  vfl_audience : string
}.

Definition verify_defaults : verify_flags :=
  mkVerifyFlags defaultOutDir EmptyString EmptyString EmptyString EmptyString.

Fixpoint firstNonEmpty (values : list string) : string :=
  match values with
  | [] => EmptyString
  | value :: rest => if blank value then firstNonEmpty rest else trim_space value
  end.

Section verify.
Context {X : External Db} {F : Files} {W : JwtLibrary}.

(** The key function of the parser. *)
Definition verify_key (keys : gmap string PublicKey) (token : jwt_token) : option PublicKey :=
  if negb (tk_rsa token) then None
  else
    let kid := default EmptyString (tk_kid token) in
    if String.eqb kid EmptyString then None else keys !! kid.

Definition not_verified : goerr := errorsNew "token did not verify".

(** The subject that is printed, or the error. *)
Definition verify (env : Environ) (f : verify_flags) (disk : Disk) : M (res string) :=
  let tokenPath := if String.eqb (vfl_token f) EmptyString
                   then path_join (vfl_dir f) "token.txt" else vfl_token f in
  let jwksPath := if String.eqb (vfl_jwks f) EmptyString
                  then path_join (vfl_dir f) "jwks.json" else vfl_jwks f in
  let meta := readMetadata disk (path_join (vfl_dir f) "metadata.json") in
  let issuer := firstNonEmpty [vfl_issuer f; md_Issuer meta; envOrDefault env "JWT_ISSUER" defaultIssuer] in
  let audience := firstNonEmpty [vfl_audience f; md_Audience meta;
                                 envOrDefault env "JWT_AUDIENCE" defaultAudience] in
  match ReadFile disk tokenPath, ReadFile disk jwksPath with
  | None, _ | _, None => mret (Err (errorsNew "no such file or directory"))
  | Some token, Some jwks =>
      match publicKeys (json_of jwks) with
      | Err e => mret (Err e)
      | Ok keys =>
          match token with
          | JsonFile _ => mret (Err not_verified)
          | TextFile text =>
              let text := trim_space text in
              now ← timeNow;
              mret (match jwt_unverified text with
                    | None => Err not_verified
                    | Some parsed =>
                        match verify_key keys parsed with
                        | None => Err not_verified
                        | Some key =>
                            if negb (jwt_valid text key issuer audience now) then Err not_verified
                            else match uuid_parse (tk_subject parsed) with
                                 | None => Err (errorsNew "subject is not a UUID")
                                 | Some _ => Ok (tk_subject parsed)
                                 end
                        end
                    end)
          end
      end
  end.

End verify.

(** ** The command *)

(** The server of the directory: its answer to a path, with the files of then. *)
Definition serve {F : Files} (dir : string) (disk : Disk) : res (Disk -> string -> fetched) :=
  let jwksPath := path_join dir "jwks.json" in
  match ReadFile disk jwksPath with
  | None => Err (errorsNew "jwks file is not available")
  | Some _ => Ok (fun disk path => jwksMux (ReadFile disk jwksPath) path)
  end.

(** What a run of the program was asked for. *)
Inductive command :=
| Generate (f : generate_flags)
| Serve (dir : string)
| Verify (f : verify_flags)
| NoCommand.

(** How a run ends: the files, and the exit status or the server it leaves running. *)
Inductive outcome :=
| Exits (status : Z)
| Serves (answer : Disk -> string -> fetched).

Definition exit_of {A} (r : res A) : outcome :=
  match r with
  | Ok _ => Exits 0
  | Err _ => Exits 1
  end.

Definition main {X : External Db} {G : Signer} {F : Files} {W : JwtLibrary} (env : Environ)
    (c : command) (disk : Disk) : M (Disk * outcome) :=
  match c with
  | NoCommand => mret (disk, Exits 2)
  | Generate f => done ← generate f disk; mret (done.1, exit_of done.2)
  | Serve dir =>
      mret (disk, match serve dir disk with
                  | Ok answer => Serves answer
                  | Err _ => Exits 1
                  end)
  | Verify f => printed ← verify env f disk; mret (disk, exit_of printed)
  end.

End devauth.

