(* ===== verification/AuthTheorems.v ===== *)
(** * What authentication guarantees

    An identity is accepted only for a token the library validates under a key
    that the configured endpoint published, and what the development helper
    [cmd/devauth] publishes is loaded as it is. *)

From S2P Require Import Prelude GoText GoFloat Json HttpApi External GoTime Schema Frame Demo.
From S2P Require Import GoMime GoStrings GoBase64 Auth DevAuth.

(** ** Definitions the statements use *)

Section definitions.
Context {X : External Db} {J : JwksEndpoint} {P : Peers}.

(** The cache holds the keys of the document that the endpoint answered with at
    step [k] and that was put in the cache at step [m]. *)
Definition stored (k m : nat) (c : jwksCache) : Prop :=
  load_keys (jwks_fetch k) = Ok (jc_keys c) /\ jc_loadedAt c = clock m /\ (k < m)%nat.

(** A new cache, or one filled before step [b]. *)
Definition cache_ok (b : nat) (c : jwksCache) : Prop :=
  c = newJWKSCache \/ exists k m, stored k m c /\ (m < b)%nat.

(** The other requests only refresh the cache, as this one does: what they leave
    at a step is the cache as it was, or one filled before that step and no
    earlier than the one it replaces. *)
Class PeersRefresh := {
  peers_refresh : forall n c, peer_refreshes n c = c \/
    exists k m, stored k m (peer_refreshes n c) /\ (m < n)%nat /\
      jc_loadedAt c <= jc_loadedAt (peer_refreshes n c)
}.

(** Between the steps [a] and [b] the library accepts the text as a token of
    [user] under the key that a document of the endpoint has under the token's
    key name; at a moment between these steps that document has been in the
    cache for less than five minutes. *)
Definition vouched {W : JwtLibrary} (a b : nat) (v : Verifier) (text : string) (user : UUID) : Prop :=
  exists token kid key keys k m n t,
    jwt_unverified text = Some token /\ tk_rsa token = true /\ tk_kid token = Some kid /\
    load_keys (jwks_fetch k) = Ok keys /\ keys !! kid = Some key /\
    (k < m < b)%nat /\ (a <= n < b)%nat /\ clock n - clock m < ttl /\
    (a <= t < b)%nat /\ jwt_valid text key (vf_issuer v) (vf_audience v) (clock t) = true /\
    uuid_parse (tk_subject token) = Some user.

End definitions.

(** A key the Go types can hold, under a name that is text. *)
Definition publishable (kv : string * PublicKey) : Prop :=
  kv.1 <> EmptyString /\ string_of_runes (runes kv.1) = kv.1 /\ 0 <= rsa_N kv.2 /\
  0 < rsa_E kv.2 < 2 ^ 63.

Definition publication (keys : list (string * PublicKey)) : json :=
  devauth.marshal_jwks (map (fun kv => devauth.publicJWK kv.2 kv.1) keys).

(** *** An example *)

Definition demo_keys : list (string * PublicKey) :=
  [("dev-1", mkPublicKey 3233 65537); ("dev-2", mkPublicKey 8633 17)]%string.

(** The development server, with nobody else and a library that accepts one
    token for one key. *)
Definition demo_endpoint : JwksEndpoint :=
  {| jwks_fetch := fun _ => devauth.jwks_handler (Some (devauth.JsonFile (publication demo_keys))) |}.

Definition no_peers : Peers := {| peer_refreshes := fun _ c => c |}.

Definition demo_jwt : JwtLibrary := {|
  jwt_unverified := fun text => if String.eqb text "token"
                                then Some (mkToken true (Some "dev-1"%string) (demo_text alice)) else None;
  jwt_valid := fun text key issuer audience now =>
    (rsa_N key =? 3233) && String.eqb issuer "issuer" && String.eqb audience "notes"
|}.

Definition demo_verifier : Verifier := mkVerifier "issuer" "notes".

(** ** Lemmas *)

(** *** Round trip of keys *)

Lemma int_of_bytes_ge m bs :
  Forall is_byte bs -> 0 <= m -> m <= foldl (fun n b => n * 256 + b) m bs.
Proof.
  intros H. revert m. induction H as [|b bs Hb _ IH]; intros m Hm; cbn; [lia|].
  unfold is_byte in Hb. etransitivity; [|apply IH]; lia.
Qed.

(** An exponent that fits is accumulated without wrapping around. *)
Lemma exponent_of_fits n bs :
  0 <= n -> Forall is_byte bs -> foldl (fun n b => n * 256 + b) n bs < 2 ^ 63 ->
  foldl (fun exponent b => wrap64 (wrap64 (exponent * 256) + b)) n bs
  = foldl (fun n b => n * 256 + b) n bs.
Proof.
  intros Hn Hbs. revert n Hn. induction Hbs as [|b bs Hb Hbs IH]; intros n Hn Hlt; [done|].
  cbn in *. unfold is_byte in Hb. pose proof (int_of_bytes_ge (n * 256 + b) bs Hbs ltac:(lia)).
  rewrite (wrap64_id (n * 256)) by (unfold int64_min, int64_max; lia).
  rewrite (wrap64_id (n * 256 + b)) by (unfold int64_min, int64_max; lia).
  apply IH; [lia|done].
Qed.

Lemma rsaPublicKey_publicJWK key kid :
  0 <= rsa_N key -> 0 < rsa_E key < 2 ^ 63 ->
  let k := devauth.publicJWK key kid in rsaPublicKey (jwk_N k) (jwk_E k) = Some key.
Proof.
  intros HN HE. cbv zeta. unfold devauth.publicJWK, rsaPublicKey. cbn [jwk_N jwk_E].
  rewrite !base64_decode_encode by apply int_bytes_bytes.
  cbn [mbind option_bind]. unfold exponent_of.
  pose proof (int_of_int_bytes (rsa_E key) ltac:(lia)) as Hint. unfold int_of_bytes in Hint.
  rewrite exponent_of_fits; [|lia|apply int_bytes_bytes|rewrite Hint; lia].
  rewrite Hint. cbv zeta.
  rewrite (proj2 (Z.eqb_neq _ _)) by lia. rewrite int_of_int_bytes by done. by destruct key.
Qed.

Lemma ascii_segments bs :
  Forall (fun b => 0 <= b < 128) bs -> decode_runes bs = bs.
Proof.
  induction 1 as [|b bs Hb _ IH]; [done|]. unfold decode_runes in *. cbn.
  destruct (Z.ltb_spec b 128); [|lia]. cbn. by rewrite IH.
Qed.

Lemma ascii_text s : Forall (fun b => 0 <= b < 128) (bytes_of s) -> string_of_runes (runes s) = s.
Proof.
  intros H. unfold string_of_runes, runes. rewrite ascii_segments by done.
  rewrite <- (of_bytes_of s) at 2. f_equal. unfold encode_runes.
  induction H as [|b bs Hb _ IH]; [done|]. cbn. rewrite IH. unfold encode_rune, is_scalar, between.
  rewrite !(proj2 (Z.leb_le _ _)) by lia. cbn. unfold encode_scalar.
  by rewrite (proj2 (Z.ltb_lt _ _)) by lia.
Qed.

Lemma base64_text bs : Forall is_byte bs -> string_of_runes (runes (base64_encode bs)) = base64_encode bs.
Proof.
  intros H%sextets_range. apply ascii_text. unfold base64_encode.
  assert (Hr : Forall (fun b => 0 <= b < 128) (map char_of_sextet (sextets_of_bytes bs))).
  { rewrite Forall_fmap. eapply Forall_impl; [exact H|]. intros v Hv. unfold is_sextet in Hv. cbn.
    unfold char_of_sextet. repeat case_match; to_prop; lia. }
  rewrite bytes_of_bytes; [done|]. eapply Forall_impl; [exact Hr|]. unfold is_byte. cbn. lia.
Qed.

Lemma decode_jwk_members a b c d e f prev :
  unmarshal_struct jwk_fields prev
    (JObj [("kty", JStr a); ("kid", JStr b); ("use", JStr c); ("alg", JStr d); ("n", JStr e);
           ("e", JStr f)]%string) = Some (mkJwkKey a b c d e f).
Proof. vm_compute. reflexivity. Qed.

Lemma decode_publicJWK kv prev :
  publishable kv ->
  unmarshal_struct jwk_fields prev (devauth.marshal_jwk (devauth.publicJWK kv.2 kv.1))
  = Some (devauth.publicJWK kv.2 kv.1).
Proof.
  intros (_ & Hkid & _). unfold devauth.marshal_jwk, devauth.publicJWK, marshal_string.
  cbn [jwk_Kty jwk_Kid jwk_Use jwk_Alg jwk_N jwk_E]. rewrite decode_jwk_members, Hkid.
  by rewrite !base64_text by apply int_bytes_bytes.
Qed.

Lemma decode_publication keys :
  keys <> [] -> Forall publishable keys ->
  exists set, decode_keyset (publication keys) = Some set /\
    slice_elements set = map (fun kv => devauth.publicJWK kv.2 kv.1) keys.
Proof.
  intros Hne Hp. unfold publication, devauth.marshal_jwks, decode_keyset. cbn [unmarshal_struct foldl].
  cbn [mbind option_bind fst snd].
  assert (Hs : forall backing, exists rest, store_elements (unmarshal_struct jwk_fields) zero_jwk backing
      (map devauth.marshal_jwk (map (fun kv => devauth.publicJWK kv.2 kv.1) keys))
    = Some (map (fun kv => devauth.publicJWK kv.2 kv.1) keys ++ rest)).
  { induction Hp as [|kv keys Hkv _ IH]; intros backing; [by exists backing|].
    cbn [map store_elements]. rewrite decode_publicJWK by done. cbn [mbind option_bind].
    destruct keys as [|kv' keys]; [by exists (tail backing)|].
    destruct (IH ltac:(done) (tail backing)) as (rest & E). rewrite E. by exists rest. }
  destruct (Hs []) as (rest & E). set (ks := map _ keys) in *.
  assert (Hlen : length (map devauth.marshal_jwk ks) = length ks) by apply length_map.
  unfold decode_member, keyset_fields.
  change (key_matches "keys" "keys") with true. cbv iota beta.
  destruct keys as [|kv keys]; [done|]. subst ks. cbn [map] in *. unfold store_slice. cbn [sl_backing nil_slice]. rewrite E. cbn [mbind option_bind].
  eexists. split; [reflexivity|]. unfold slice_elements. cbn [sl_len sl_backing].
  cbn [app length take] in *. f_equal. injection Hlen as Hlen. rewrite Hlen.
  by rewrite take_app_length.
Qed.

Lemma usable_publication keys set :
  Forall publishable keys ->
  slice_elements set = map (fun kv => devauth.publicJWK kv.2 kv.1) keys ->
  omap usable_key (slice_elements set) = keys.
Proof.
  intros H ->. induction H as [|kv keys (Hne & _ & HN & HE) _ IH]; [done|]. cbn.
  unfold usable_key at 1. cbn -[rsaPublicKey].
  pose proof (rsaPublicKey_publicJWK kv.2 kv.1 HN HE) as Hk. cbn -[rsaPublicKey base64_encode] in Hk.
  rewrite Hk, (proj2 (String.eqb_neq _ _) Hne). cbn. destruct kv. cbn in *. by rewrite IH.
Qed.

Lemma foldl_insert_lookup (keys : list (string * PublicKey)) (m : gmap string PublicKey) kid key :
  NoDup (map fst keys) ->
  foldl (fun keys kv => <[kv.1 := kv.2]> keys) m keys !! kid = Some key <->
  (kid, key) ∈ keys \/ (kid ∉ map fst keys /\ m !! kid = Some key).
Proof.
  revert m. induction keys as [|[k v] keys IH]; intros m Hnd; cbn.
  - split; [intros H; right; split; [apply not_elem_of_nil|done]|].
    intros [H|[_ H]]; [by apply not_elem_of_nil in H|done].
  - inversion Hnd as [|? ? Hk Hnd']; subst. rewrite IH by done. rewrite !elem_of_cons.
    destruct (decide (k = kid)) as [->|Hne].
    + rewrite lookup_insert_eq. split.
      * intros [H|[_ [= ->]]]; [|by left; left]. by left; right.
      * intros [[[= ->]|H]|[H _]]; [by right|by left|]. by destruct H; left.
    + rewrite lookup_insert_ne by done. split.
      * intros [H|[H1 H2]]; [by left; right|]. right. split; [|done]. by intros [?|?].
      * intros [[[= ? ?]|H]|[H1 H2]]; [done|by left|]. right. split; [|done]. auto.
Qed.

(** *** The cache *)

Section cache.
Context {X : External Db} {J : JwksEndpoint} {P : Peers}.

Lemma cache_ok_later b b' c : (b <= b')%nat -> cache_ok b c -> cache_ok b' c.
Proof. intros Hb [->|(k & m & H & Hm)]; [by left|right]. exists k, m. split; [done|lia]. Qed.

Lemma vouched_within {W : JwtLibrary} a a' b b' v text user :
  (a' <= a)%nat -> (b <= b')%nat -> vouched a b v text user -> vouched a' b' v text user.
Proof.
  intros Ha Hb (token & kid & key & keys & k & m & n & t & H1 & H2 & H3 & H4 & H5 & H6 & H7 & H8 & H9 & H).
  exists token, kid, key, keys, k, m, n, t. split_and!; try done; try lia; apply H.
Qed.

Lemma refresh_spec c w :
  exists w' c' r, refresh c w = (w', Ok (c', r)) /\ w_db w' = w_db w /\ later w w' /\
    (r = Ok tt -> stored (w_step w) (S (w_step w)) c' /\ w_step w' = S (S (w_step w))) /\
    (r <> Ok tt -> c' = c).
Proof.
  unfold refresh, fetch, timeNow. rewrite M_bind_eq.
  destruct (load_keys (jwks_fetch (w_step w))) as [keys|e] eqn:E.
  - eexists _, _, _. split; [reflexivity|]. split; [done|]. split; [unfold later; cbn; lia|].
    split; [|done]. intros _. split; [|done]. by split_and!; [| |lia].
  - eexists _, _, _. split; [reflexivity|]. split; [done|]. by split; [unfold later; cbn; lia|].
Qed.

Context {HP : PeersRefresh}.

Lemma peers_cache_ok n b c : (n <= b)%nat -> cache_ok b c -> cache_ok b (peer_refreshes n c).
Proof using HP.
  intros Hn Hc. destruct (peers_refresh n c) as [->|(k & m & H & Hm & _)]; [done|].
  right. exists k, m. split; [done|lia].
Qed.

(** The key is in a document put in the cache before the end of a call and less
    than five minutes before a moment of it. *)
Definition recent (a b : nat) (kid : string) (key : PublicKey) : Prop :=
  exists keys k m n, load_keys (jwks_fetch k) = Ok keys /\ keys !! kid = Some key /\
    (k < m < b)%nat /\ (a <= n < b)%nat /\ clock n - clock m < ttl.

Lemma reload_spec c kid w :
  cache_ok (w_step w) c ->
  exists w' c' r, reload c kid w = (w', Ok (c', r)) /\ cache_ok (w_step w') c' /\
    w_db w' = w_db w /\ later w w' /\
    forall key, r = Ok key -> recent (w_step w) (w_step w') kid key.
Proof using HP.
  intros Hc. unfold reload. destruct (refresh_spec c w) as (w1 & c1 & r1 & E & Hd & Hl & Hr1 & Hr2).
  rewrite M_bind_eq, E. destruct r1 as [[]|e].
  2:{ eexists _, _, _. split; [reflexivity|]. split_and!; try done.
      rewrite (Hr2 ltac:(done)). by eapply cache_ok_later. }
  destruct (Hr1 eq_refl) as [(Hload & Hat & _) Hs]. unfold observe. rewrite M_bind_eq. cbv beta iota.
  assert (Hst : exists k m, stored k m (peer_refreshes (w_step w1) c1) /\ (m < w_step w1)%nat /\
    clock (S (w_step w)) <= clock m).
  { destruct (peers_refresh (w_step w1) c1) as [->|(k & m & Hk & Hm & Hle)].
    - exists (w_step w), (S (w_step w)). split; [by split_and!; [| |lia]|]. split; lia.
    - exists k, m. split_and!; [done..|]. destruct Hk as (_ & <- & _). by rewrite <- Hat. }
  destruct Hst as (k & m & Hk & Hm & Hle).
  eexists _, _, _. split; [reflexivity|]. split; [right; by exists k, m|]. split_and!; [done..|].
  intros key Hkey. destruct (_ !! kid) eqn:Hlk; [|done]. injection Hkey as ->.
  destruct Hk as (Hk1 & Hk2 & Hk3).
  exists (jc_keys (peer_refreshes (w_step w1) c1)), k, m, (S (w_step w)).
  split_and!; try done; try lia. unfold ttl, second. lia.
Qed.

Lemma cache_get_spec c kid w :
  cache_ok (w_step w) c ->
  exists w' c' r, cache_get c kid w = (w', Ok (c', r)) /\ cache_ok (w_step w') c' /\
    w_db w' = w_db w /\ later w w' /\
    forall key, r = Ok key -> recent (w_step w) (w_step w') kid key.
Proof using HP.
  intros Hc%(peers_cache_ok (w_step w)); [|done]. unfold cache_get, observe, timeNow.
  rewrite !M_bind_eq. cbv beta iota. set (c1 := peer_refreshes (w_step w) c) in *.
  assert (Hc1 : cache_ok (w_step (tick w)) c1) by (eapply cache_ok_later; [|exact Hc]; cbn; lia).
  destruct (reload_spec c1 kid (tick w) Hc1) as (w' & c' & r & Hrun & Hok & Hdb & Hl & Hkey).
  assert (Hmiss : exists w' c' r, reload c1 kid (tick w) = (w', Ok (c', r)) /\
    cache_ok (w_step w') c' /\ w_db w' = w_db w /\ later w w' /\
    forall key, r = Ok key -> recent (w_step w) (w_step w') kid key).
  { exists w', c', r. unfold later in *. cbn in Hl. split_and!; [done..|lia|]. intros key Hr.
    destruct (Hkey key Hr) as (keys & k & m & n & H1 & H2 & H3 & H4 & H5). cbn in H4.
    exists keys, k, m, n. split_and!; try done; lia. }
  destruct (jc_keys c1 !! kid) as [key|] eqn:Hk; [|exact Hmiss].
  destruct (fresh c1 (clock (w_step w))) eqn:Hf; [|exact Hmiss].
  eexists _, _, _. split; [reflexivity|]. split_and!; [done|done|unfold later; cbn; lia|].
  intros key' [= <-]. destruct Hc as [Hn|(k & m & (H1 & H2 & H3) & Hm)].
  { rewrite Hn in Hk. cbn in Hk. by rewrite lookup_empty in Hk. }
  exists (jc_keys c1), k, m, (w_step w). cbn. split_and!; try done; try lia.
  unfold fresh in Hf. apply andb_prop in Hf as [_ Hf%Z.ltb_lt]. by rewrite <- H2.
Qed.

(** *** Verification *)

(** The remaining goal after a token was refused. *)
Ltac refused_token := eexists _, _, _; split; [reflexivity|]; split_and!; try done; left.

Lemma Verify_spec {W : JwtLibrary} (v : Verifier) c text w :
  cache_ok (w_step w) c ->
  exists w' c' r, Verify v c text w = (w', Ok (c', r)) /\ cache_ok (w_step w') c' /\
    w_db w' = w_db w /\ later w w' /\
    match r with
    | Ok claims => vouched (w_step w) (w_step w') v text (UserID claims)
    | Err e => e = errorsNew "invalid token" \/ e = errorsNew "invalid subject"
    end.
Proof using HP.
  intros Hcache. unfold Verify, ParseWithClaims. rewrite M_bind_eq.
  destruct (jwt_unverified text) as [token|] eqn:Ht; [|by refused_token].
  rewrite M_bind_eq. unfold select_key.
  destruct (tk_rsa token) eqn:Hrsa; [cbn [negb]|by refused_token].
  destruct (tk_kid token) as [kid|] eqn:Hkid; cbn [default from_option id];
    [|by refused_token].
  destruct (String.eqb_spec kid EmptyString) as [_|_]; [by refused_token|].
  destruct (cache_get_spec c kid w Hcache) as (w1 & c1 & r & -> & Hc1 & Hd & Hl & Hr).
  destruct r as [key|e]; [|by refused_token].
  unfold timeNow. rewrite M_bind_eq. cbv beta iota.
  assert (Hc2 : cache_ok (w_step (tick w1)) c1) by (eapply cache_ok_later; [|exact Hc1]; cbn; lia).
  assert (Hl2 : later w (tick w1)) by (unfold later in *; cbn; lia).
  destruct (Hr key eq_refl) as (keys & k & m & n & H1 & H2 & H3 & H4 & H5).
  destruct (jwt_valid _ _ _ _ _) eqn:Hv; [|by refused_token].
  destruct (uuid_parse (tk_subject token)) as [u|] eqn:Hu.
  2:{ eexists _, _, _. split; [cbn; by rewrite Hu|]. split_and!; try done. by right. }
  eexists _, _, _. split; [cbn; by rewrite Hu|]. split_and!; [done..|].
  unfold later in *. exists token, kid, key, keys, k, m, n, (w_step w1). cbn [w_step tick].
  split_and!; try done; lia.
Qed.

End cache.

(** *** Published keys *)

(** The key set that the development helper publishes for RSA keys with
    distinct names is read back as exactly those keys, by the cache when the
    helper serves it and by the helper itself. *)
Lemma published_keys_are_loaded (keys : list (string * PublicKey)) (Hsome : keys <> [])
    (Hkeys : Forall publishable keys) (Hnames : NoDup (map fst keys)) :
  exists loaded,
    load_keys (devauth.jwks_handler (Some (devauth.JsonFile (publication keys)))) = Ok loaded /\
    devauth.publicKeys (Some (publication keys)) = Ok loaded /\
    forall kid key, loaded !! kid = Some key <-> (kid, key) ∈ keys.
Proof.
  destruct (decode_publication keys Hsome Hkeys) as (set & Hd & Hset).
  pose proof (usable_publication keys set Hkeys Hset) as Hu. exists (usable_keys set).
  assert (Hl : forall kid key, usable_keys set !! kid = Some key <-> (kid, key) ∈ keys).
  { intros kid key. unfold usable_keys. rewrite Hu, foldl_insert_lookup by done.
    split; [|by left]. intros [H|[_ H]]; [done|]. by rewrite lookup_empty in H. }
  assert (Hne : bool_decide (usable_keys set = ∅) = false).
  { apply bool_decide_eq_false. intros He. destruct keys as [|[kid key] keys]; [done|].
    pose proof (proj2 (Hl kid key) ltac:(left)) as H. by rewrite He, lookup_empty in H. }
  unfold load_keys, devauth.jwks_handler, devauth.publicKeys. cbn [mbind option_bind devauth.json_of].
  rewrite Hd, Hne. done.
Qed.

(** ** Theorems *)


Lemma no_peers_refresh (X : External Db) (J : JwksEndpoint) : PeersRefresh (P := no_peers).
Proof. split. intros n c. by left. Qed.


Example demo_verified :
  snd <$> snd (Verify (X := demo) (J := demo_endpoint) (P := no_peers) (W := demo_jwt)
    demo_verifier newJWKSCache "token" demo_world) = Ok (Ok (mkClaims alice)).
Proof. vm_compute. reflexivity. Qed.
