(* ===== verification/DevAuthTheorems.v ===== *)
(** * What the development key helper promises

    A fixture that [cmd/devauth generate] wrote is accepted: by its [verify]
    command, and by a server that takes its settings from the written [env] file
    and its keys from [cmd/devauth serve]. *)

From S2P Require Import Prelude GoText GoFloat Json HttpApi External GoTime Schema Frame Demo.
From S2P Require Import GoMime GoStrings Config ConfigTheorems GoBase64 Auth DevAuth AuthTheorems.

(** ** Definitions the statements use *)

Definition is_text (s : string) : Prop := string_of_runes (runes s) = s.

(** A value that reads back from a line of an [env] file: printable, without
    space or quotes, and no longer than a line may be. *)
Definition plain (s : string) : Prop :=
  Forall (fun b => 33 <= b <= 126 /\ b <> quote_byte /\ b <> apostrophe) (bytes_of s) /\
  Z.of_nat (length (bytes_of s)) < 65000.

(** What is relied on of the JWT library ([golang-jwt]) and of RSA: a signed
    token is printable, parses to what was signed, and is valid under the public
    key for its issuer and audiences while it lasts; a public key fits the types
    that hold it. *)
Class SignerLaws {G : devauth.Signer} {W : JwtLibrary} : Prop := {
  public_key_fits : forall key,
    0 <= rsa_N (devauth.public_key key) /\ 0 < rsa_E (devauth.public_key key) < 2 ^ 63;
  signed_printable : forall key kid claims text,
    devauth.sign_token key kid claims = Ok text ->
    Forall (fun b => 33 <= b <= 126) (bytes_of text);
  signed_parses : forall key kid claims text,
    devauth.sign_token key kid claims = Ok text ->
    is_text kid -> is_text (devauth.rc_Subject claims) ->
    jwt_unverified text = Some (mkToken true (Some kid) (devauth.rc_Subject claims));
  signed_valid : forall key kid claims text audience now,
    devauth.sign_token key kid claims = Ok text ->
    is_text (devauth.rc_Issuer claims) -> is_text audience ->
    audience ∈ devauth.rc_Audience claims ->
    0 <= devauth.rc_NotBefore claims <= now ->
    now < devauth.rc_ExpiresAt claims < 2 ^ 53 * second ->
    jwt_valid text (devauth.public_key key) (devauth.rc_Issuer claims) audience now = true
}.

(** google/uuid prints identifiers in ASCII. *)
Class PrintableUUIDs {Db} (X : External Db) : Prop := {
  uuid_text_ascii : forall id, Forall (fun b => 0 <= b < 128) (bytes_of (uuid_text id))
}.

Definition fixture_names : list string :=
  ["private_key.pem"; "jwks.json"; "token.txt"; "metadata.json"; "env"; "WARNING.txt"].

(** The names are joined to a directory without loss. *)
Class FilesLaws (F : devauth.Files) : Prop := {
  path_join_inj : forall dir a b, a ∈ fixture_names -> b ∈ fixture_names ->
    devauth.path_join dir a = devauth.path_join dir b -> a = b
}.

(** The flags hold text that the files can carry. *)
Definition flags_ok (f : devauth.generate_flags) : Prop :=
  plain (trim_space (devauth.gf_issuer f)) /\ plain (trim_space (devauth.gf_audience f)) /\
  plain (trim_space (devauth.gf_jwksURL f)) /\ is_text (trim_space (devauth.gf_kid f)) /\
  devauth.gf_days f <= 106751.

(** The token is in its days of validity; dates count whole seconds. *)
Definition lasts (f : devauth.generate_flags) (issued now : Time) : Prop :=
  issued <= now /\ now + second <= issued + devauth.gf_days f * (86400 * second).

Definition day_ns : Z := 86400 * second.

(** ** Lemmas *)

(** *** Printable text *)

Definition printable (s : string) : Prop := Forall (fun b => 33 <= b <= 126) (bytes_of s).

Lemma printable_text s : printable s -> is_text s.
Proof. intros H. apply ascii_text. eapply Forall_impl; [exact H|]. cbn. lia. Qed.

Lemma plain_printable s : plain s -> printable s.
Proof. intros [H _]. eapply Forall_impl; [exact H|]. cbn. tauto. Qed.

Lemma ascii_seg bs :
  Forall (fun b => 0 <= b < 128) bs -> decode_seg bs = map (fun b => (b, [b])) bs.
Proof.
  induction 1 as [|b bs Hb _ IH]; [done|]. cbn.
  destruct (Z.ltb_spec b 128); [|lia]. by rewrite IH.
Qed.

Lemma not_space b : 33 <= b <= 126 -> is_space b = false.
Proof.
  intros H. unfold is_space. rewrite !orb_false_iff, !between_false, !Z.eqb_neq. lia.
Qed.

Lemma drop_spaces_printable bs rest :
  Forall (fun b => 33 <= b <= 126) bs -> bs <> [] ->
  drop_spaces (map (fun b => (b, [b])) bs ++ rest) = map (fun b => (b, [b])) bs ++ rest.
Proof. intros H Hne. destruct H as [|b bs Hb _]; [done|]. cbn. by rewrite not_space. Qed.

Lemma map_reverse {A B} (f : A -> B) l : map f (reverse l) = reverse (map f l).
Proof. apply (fmap_reverse f). Qed.

(** Surrounding spaces go, printable text stays. *)
Lemma trim_space_line s spaces :
  printable s -> Forall (fun b => b = 32 \/ b = 10) spaces ->
  trim_space (s ++ of_bytes spaces) = s.
Proof.
  intros Hs Hsp. unfold trim_space.
  assert (Hb : bytes_of (s ++ of_bytes spaces) = bytes_of s ++ spaces).
  { rewrite bytes_of_app, bytes_of_bytes; [done|]. eapply Forall_impl; [exact Hsp|].
    unfold is_byte. cbn. lia. }
  rewrite Hb, ascii_seg, map_app.
  2:{ apply Forall_app. split; (eapply Forall_impl; [eassumption|]); cbn; lia. }
  assert (Hdrop : forall tail, drop_spaces (map (fun b => (b, [b])) (reverse spaces) ++ tail)
    = drop_spaces tail).
  { intros tail. assert (Hr : Forall (fun b => b = 32 \/ b = 10) (reverse spaces)) by by apply Forall_reverse.
    induction Hr as [|b bs Hb' _ IH]; [done|]. cbn. by destruct Hb' as [->| ->]. }
  destruct (decide (bytes_of s = [])) as [He|He].
  { rewrite He. cbn [map app]. assert (H0 : drop_spaces (map (fun b => (b, [b])) spaces) = []).
    { clear -Hsp. induction Hsp as [|b bs Hb' _ IH]; [done|]. cbn. by destruct Hb' as [->| ->]. }
    rewrite H0. cbn. rewrite <- (of_bytes_of s), He. done. }
  rewrite drop_spaces_printable by done. rewrite reverse_app, <- !map_reverse.
  (* the text's own bytes stop the second removal *)
  rewrite Hdrop. rewrite <- (app_nil_r (map _ (reverse (bytes_of s)))), drop_spaces_printable.
  - rewrite app_nil_r, <- map_reverse, reverse_involutive, map_map. cbn.
    rewrite <- (of_bytes_of s) at 2. f_equal.
    generalize (bytes_of s). intros l. induction l as [|b l IH]; [done|]. cbn. by rewrite IH.
  - by apply Forall_reverse.
  - intros H. apply He. apply (f_equal reverse) in H. by rewrite reverse_involutive in H.
Qed.

Lemma trim_space_printable s : printable s -> trim_space s = s.
Proof.
  intros H. rewrite <- (trim_space_line s [] H (Forall_nil_2 _)) at 2.
  f_equal. cbn. rewrite <- (of_bytes_of (s ++ EmptyString)), bytes_of_app. cbn.
  by rewrite app_nil_r, of_bytes_of.
Qed.

(** *** Files *)

Section files.
Context {F : devauth.Files}.

Lemma WriteFile_Ok path data mode disk disk' :
  devauth.WriteFile path data mode disk = (disk', Ok tt) ->
  exists m, disk' = <[path := (m, data)]> disk /\ (disk !! path = None -> m = mode).
Proof.
  unfold devauth.WriteFile. destruct (devauth.write_fate path); [|done]. intros [= <-].
  eexists. split; [reflexivity|]. by intros ->.
Qed.

(** Every file is on the disk in the end, a new one with its own permissions;
    what is at other paths stays. *)
Lemma write_files_Ok dir files disk disk' :
  NoDup (map (fun file => devauth.path_join dir file.1) files) ->
  devauth.write_files dir files disk = (disk', Ok tt) ->
  (forall name data, (name, data) ∈ files -> exists m,
     disk' !! devauth.path_join dir name = Some (m, data) /\
     (disk !! devauth.path_join dir name = None -> m = devauth.file_mode name)) /\
  (forall path, path ∉ map (fun file => devauth.path_join dir file.1) files ->
     disk' !! path = disk !! path).
Proof.
  revert disk.
  induction files as [|[name data] files IH]; intros disk Hnd H; cbn in H.
  - injection H as ->. split; [|done]. intros name data Hin. by apply elem_of_nil in Hin.
  - cbn in Hnd. apply NoDup_cons in Hnd as [Hnew Hnd].
    destruct (devauth.WriteFile _ _ _ disk) as [disk1 [[]|e]] eqn:E; [|done].
    apply WriteFile_Ok in E as (m & -> & Hm). destruct (IH _ Hnd H) as [Hfiles Hrest]. split.
    + intros name' data' [[= -> ->]|Hin]%elem_of_cons.
      { exists m. by rewrite Hrest, lookup_insert_eq. }
      destruct (Hfiles _ _ Hin) as (m' & Hm' & Hmode). exists m'. split; [done|].
      intros Hd. apply Hmode. rewrite lookup_insert_ne; [done|]. intros Heq. apply Hnew.
      rewrite Heq. by apply (list_elem_of_fmap_2 (fun file => devauth.path_join dir file.1)) in Hin.
    + intros path Hp. cbn in Hp. apply not_elem_of_cons in Hp as [Hne Hp].
      rewrite Hrest by done. by rewrite lookup_insert_ne.
Qed.

End files.

(** *** Metadata *)

Lemma decode_metadata_members a b c d e i x u prev issued expires :
  unmarshal_time (JStr i) = Some issued -> unmarshal_time (JStr x) = Some expires ->
  unmarshal_struct devauth.metadata_fields prev
    (JObj [("issuer", JStr a); ("audience", JStr b); ("subject", JStr c); ("kid", JStr d);
           ("algorithm", JStr e); ("issuedAt", JStr i); ("expiresAt", JStr x);
           ("jwksUrl", JStr u)]%string)
  = Some (devauth.mkMetadata a b c d e issued expires u).
Proof.
  unfold devauth.metadata_fields. generalize unmarshal_time. intros decode Hi Hx.
  transitivity (t ← decode (JStr i); t' ← decode (JStr x);
                Some (devauth.mkMetadata a b c d e t t' u)).
  - vm_compute. destruct (decode (JStr i)); [|reflexivity]. by destruct (decode (JStr x)).
  - by rewrite Hi, Hx.
Qed.

(** What was written as metadata is read. *)
Lemma unmarshal_marshal_metadata m v prev :
  devauth.marshal_metadata m = Some v ->
  is_text (devauth.md_Issuer m) -> is_text (devauth.md_Audience m) ->
  exists read, unmarshal_struct devauth.metadata_fields prev v = Some read /\
    devauth.md_Issuer read = devauth.md_Issuer m /\ devauth.md_Audience read = devauth.md_Audience m.
Proof.
  unfold devauth.marshal_metadata. intros H Hi Ha.
  destruct (marshal_utc (devauth.md_IssuedAt m)) as [i|] eqn:Ei; [|done].
  destruct (marshal_utc (devauth.md_ExpiresAt m)) as [x|] eqn:Ex; [|done]. injection H as <-.
  pose proof (unmarshal_marshal_utc _ _ Ei) as Hi'. pose proof (unmarshal_marshal_utc _ _ Ex) as Hx'.
  assert (Hs : forall t v, marshal_utc t = Some v -> exists s, v = JStr s).
  { unfold marshal_utc. intros t v. case_match; [|done]. intros [= <-]. by eexists. }
  destruct (Hs _ _ Ei) as [si ->], (Hs _ _ Ex) as [sx ->]. unfold marshal_string.
  rewrite (decode_metadata_members _ _ _ _ _ _ _ _ _ _ _ Hi' Hx').
  eexists. split; [reflexivity|]. by split.
Qed.

(** *** The settings file *)

Lemma cut_bytes_app sep before after :
  sep ∉ before -> cut_bytes sep (before ++ sep :: after) = Some (before, after).
Proof.
  induction before as [|b before IH]; intros H; cbn; [by rewrite Z.eqb_refl|].
  apply not_elem_of_cons in H as [Hne H]. by rewrite (proj2 (Z.eqb_neq b sep)), IH by congruence.
Qed.

Lemma drop_byte_absent c bs : c ∉ bs -> drop_byte c bs = bs.
Proof.
  destruct bs as [|b bs]; [done|]. intros [Hne _]%not_elem_of_cons. cbn.
  by rewrite (proj2 (Z.eqb_neq b c)) by auto.
Qed.

Lemma trim_char_absent c s : c ∉ bytes_of s -> trim_char c s = s.
Proof.
  intros H. unfold trim_char, trim_right_char. rewrite (drop_byte_absent c (bytes_of s)) by done.
  rewrite of_bytes_of, drop_byte_absent.
  2:{ by rewrite elem_of_reverse. }
  by rewrite reverse_involutive, of_bytes_of.
Qed.

Lemma plain_absent s c : plain s -> ~ 33 <= c <= 126 \/ c = quote_byte \/ c = apostrophe ->
  c ∉ bytes_of s.
Proof.
  intros [H _] Hc Hin. eapply Forall_forall in H; [|exact Hin].
  cbn in H. unfold quote_byte, apostrophe in *. lia.
Qed.

(** A name as the settings have it. *)
Definition setting_name (key : string) : Prop :=
  key <> EmptyString /\ Forall (fun b => 48 <= b <= 126 /\ b <> equals_sign) (bytes_of key).

Lemma setting_printable key value :
  setting_name key -> plain value -> printable (key ++ "=" ++ value).
Proof.
  intros [_ Hk] Hv%plain_printable. unfold printable. rewrite !bytes_of_app, !Forall_app.
  split_and!; [|by repeat constructor|done]. eapply Forall_impl; [exact Hk|]. cbn. lia.
Qed.

Lemma assignment_plain key value :
  setting_name key -> plain value -> assignment (key ++ "=" ++ value) = Some (key, value).
Proof.
  intros Hk Hv. unfold assignment. rewrite trim_space_printable by by apply setting_printable.
  destruct Hk as [Hne Hk]. destruct key as [|c key]; [done|].
  assert (Hp : has_prefix (String c key ++ "=" ++ value) "#" = false).
  { pose proof (Forall_inv Hk) as Hc. cbn in Hc. unfold has_prefix.
    change (bytes_of "#") with [35]. rewrite bytes_of_app. cbn [bytes_of list_ascii_of_string map app strip_prefix].
    by rewrite (proj2 (Z.eqb_neq 35 _)) by lia. }
  rewrite Hp. change (String.eqb _ EmptyString) with false at 1. cbn [orb]. unfold cut.
  rewrite !bytes_of_app. change (bytes_of "=") with [equals_sign]. cbn [app].
  rewrite cut_bytes_app.
  2:{ intros Hin. eapply Forall_forall in Hk; [|exact Hin]. cbn in Hk. lia. }
  cbn [mbind option_bind]. rewrite !of_bytes_of, !trim_space_printable.
  - by rewrite (trim_char_absent quote_byte value), trim_char_absent by (apply plain_absent; auto).
  - by apply plain_printable.
  - eapply Forall_impl; [exact Hk|]. cbn. lia.
Qed.

(** A line of printable text that the scanner's buffer holds. *)
Definition short_line (line : list Z) : Prop :=
  Forall (fun b => 33 <= b <= 126) line /\ Z.of_nat (length line) < max_token.

Lemma raw_lines_terminated lines :
  Forall short_line lines -> raw_lines (concat (map (fun line => line ++ [10]) lines)) = lines.
Proof.
  intros H. unfold raw_lines.
  assert (Hs : split_bytes 10 (concat (map (fun line => line ++ [10]) lines)) = lines ++ [[]]).
  { induction H as [|line lines [Hl _] _ IH]; [done|]. cbn [map concat]. rewrite <- app_assoc.
    cbn [app]. rewrite split_bytes_part, IH; [done|]. intros Hin.
    eapply Forall_forall in Hl; [|exact Hin]. cbn in Hl. lia. }
  rewrite Hs, reverse_snoc. by rewrite reverse_involutive.
Qed.

Lemma drop_cr_printable line : Forall (fun b => 33 <= b <= 126) line -> drop_cr line = line.
Proof.
  intros H. unfold drop_cr. apply Forall_reverse in H.
  destruct (reverse line) as [|b before]; [done|]. apply Forall_inv in H. cbn in H.
  repeat (case_match; try done; try lia).
Qed.

Lemma scan_lines_terminated lines :
  Forall short_line lines ->
  scan_lines (concat (map (fun line => line ++ [10]) lines)) = (map of_bytes lines, false).
Proof.
  intros H. unfold scan_lines. rewrite raw_lines_terminated by done.
  induction H as [|line lines [Hl Hlen] _ IH]; [done|]. cbn [fitting map].
  by rewrite (proj2 (Z.leb_gt _ _)), IH, drop_cr_printable by done.
Qed.

Definition settings_lines (issuer audience url : string) : list string :=
  ["JWT_ISSUER=" ++ issuer; "JWT_AUDIENCE=" ++ audience; "JWT_JWKS_URL=" ++ url]%string.

Lemma env_text_lines issuer audience url :
  bytes_of (devauth.env_text issuer audience url)
  = concat (map (fun line => line ++ [10]) (map bytes_of (settings_lines issuer audience url))).
Proof.
  unfold devauth.env_text, devauth.newline, settings_lines. cbn [map concat].
  rewrite !bytes_of_app. change (bytes_of (of_bytes [10])) with [10]. rewrite <- !app_assoc.
  by rewrite !app_nil_r.
Qed.

Lemma setting_line_short key value :
  setting_name key -> (length (bytes_of key) <= 20)%nat -> plain value ->
  short_line (bytes_of (key ++ "=" ++ value)).
Proof.
  intros Hk Hlen Hv. split; [by apply setting_printable|]. destruct Hv as [_ Hv].
  rewrite !bytes_of_app, !length_app. change (length (bytes_of "=")) with 1%nat.
  unfold max_token. lia.
Qed.

Lemma settable_plain key value : setting_name key -> plain value -> settable key value = true.
Proof.
  intros [Hne Hk] [Hv _]. unfold settable, contains_any.
  assert (Hsep : forall s chars, Forall (fun b => existsb (Z.eqb b) chars = false) (bytes_of s) ->
    existsb (fun b => existsb (Z.eqb b) chars) (bytes_of s) = false).
  { intros s chars H. induction H as [|b bs Hb _ IH]; [done|]. cbn [existsb]. by rewrite Hb, IH. }
  rewrite !Hsep; [by rewrite (proj2 (String.eqb_neq _ _) Hne)|..].
  - eapply Forall_impl; [exact Hv|]. intros b Hb. cbn in *. by rewrite (proj2 (Z.eqb_neq _ _)) by lia.
  - eapply Forall_impl; [exact Hk|]. intros b Hb. cbn [existsb] in *.
    by rewrite !(proj2 (Z.eqb_neq _ _)) by lia.
Qed.

(** A server started with the written settings has them. *)
Lemma env_text_settings env issuer audience url :
  plain issuer -> plain audience -> plain url ->
  let cfg := settings (fst (loadDotEnv env (Some (devauth.env_text issuer audience url)))) in
  JWTIssuer cfg = issuer /\ JWTAudience cfg = audience /\ JWTJWKSURL cfg = url.
Proof.
  intros Hi Ha Hu. cbv zeta. unfold loadDotEnv. rewrite env_text_lines.
  assert (Hn : Forall setting_name ["JWT_ISSUER"; "JWT_AUDIENCE"; "JWT_JWKS_URL"]%string).
  { repeat constructor; try discriminate; unfold equals_sign; cbn; lia. }
  apply Forall_cons in Hn as (N1 & Hn). apply Forall_cons in Hn as (N2 & Hn).
  apply Forall_inv in Hn as N3.
  rewrite scan_lines_terminated.
  2:{ apply Forall_cons; split; [apply (setting_line_short _ _ N1); [cbn; lia|done]|].
      apply Forall_cons; split; [apply (setting_line_short _ _ N2); [cbn; lia|done]|].
      apply Forall_singleton, (setting_line_short _ _ N3); [cbn; lia|done]. }
  rewrite map_map. erewrite map_ext; [|intros; apply of_bytes_of]. rewrite map_id. cbn [fst].
  assert (Hl : omap assignment (settings_lines issuer audience url)
    = [("JWT_ISSUER", issuer); ("JWT_AUDIENCE", audience); ("JWT_JWKS_URL", url)]%string).
  { unfold settings_lines. cbn [omap list_omap].
    pose proof (assignment_plain _ _ N1 Hi) as E1. pose proof (assignment_plain _ _ N2 Ha) as E2.
    pose proof (assignment_plain _ _ N3 Hu) as E3.
    change ("JWT_ISSUER=" ++ issuer)%string with ("JWT_ISSUER" ++ "=" ++ issuer)%string.
    change ("JWT_AUDIENCE=" ++ audience)%string with ("JWT_AUDIENCE" ++ "=" ++ audience)%string.
    change ("JWT_JWKS_URL=" ++ url)%string with ("JWT_JWKS_URL" ++ "=" ++ url)%string.
    by rewrite E1, E2, E3. }
  cbn [settings JWTIssuer JWTAudience JWTJWKSURL]. unfold Getenv.
  rewrite !set_lines_lookup, Hl. unfold last_for. cbn [List.filter fst snd].
  rewrite !settable_plain by done. done.
Qed.

(** *** A successful [generate] *)

Section generated.
Context {X : External Db} {G : devauth.Signer} {F : devauth.Files}.

Lemma subjectUUID_Ok raw w w' user :
  devauth.subjectUUID raw w = (w', Ok (Ok user)) ->
  w_step w' = w_step w /\ (blank raw = true \/ uuid_parse (trim_space raw) = Some user).
Proof.
  unfold devauth.subjectUUID, blank. cbv zeta. destruct (String.eqb (trim_space raw) EmptyString).
  - intros H. m_inv H. injection Hrun as <- <-. injection H as <- _. split; [done|by left].
  - destruct (uuid_parse _); intros [= <- <-]. split; [done|by right].
Qed.

Lemma key_id_Ok `{HU : !PrintableUUIDs X} raw w w' kid :
  devauth.key_id raw w = (w', Ok kid) -> is_text (trim_space raw) ->
  w_step w' = w_step w /\ kid <> EmptyString /\ is_text kid.
Proof.
  unfold devauth.key_id. intros H Htext. cbv zeta in H.
  destruct (String.eqb_spec (trim_space raw) EmptyString) as [_|Hne]; cbn [negb] in H.
  2:{ injection H as <- <-. done. }
  m_inv H. injection Hrun as <- <-. set (bs := List.filter _ _) in H.
  destruct (length bs <? 12)%nat; [done|]. injection H as <- <-.
  assert (Hb : Forall (fun b => 0 <= b < 128) (take 12 bs)).
  { apply Forall_take. subst bs. apply List.Forall_forall. intros b Hin%filter_In.
    destruct Hin as [Hin _]. pose proof (uuid_text_ascii (uuid_new (w_uuids w))) as Hu.
    by apply (proj1 (List.Forall_forall _ _) Hu). }
  split_and!; [done|discriminate|]. apply ascii_text. rewrite bytes_of_app.
  apply Forall_app. split; [repeat constructor; lia|]. rewrite bytes_of_bytes; [done|].
  eapply Forall_impl; [exact Hb|]. unfold is_byte. cbn. lia.
Qed.

Lemma generate_Ok `{HU : !PrintableUUIDs X} f disk w w' disk' :
  devauth.generate f disk w = (w', Ok (disk', Ok tt)) -> is_text (trim_space (devauth.gf_kid f)) ->
  exists user kid key n id signed files,
    let claims := devauth.claims_of f user (clock n)
                    (clock n + devauth.lifetime (devauth.gf_days f)) id in
    (blank (devauth.gf_subject f) = true \/ uuid_parse (trim_space (devauth.gf_subject f)) = Some user) /\
    kid <> EmptyString /\ is_text kid /\ (w_step w <= n < w_step w')%nat /\
    blank (devauth.gf_issuer f) = false /\ blank (devauth.gf_audience f) = false /\
    1 <= devauth.gf_days f /\
    devauth.sign_token key kid claims = Ok signed /\
    devauth.fixture f key kid claims signed (clock n)
      (clock n + devauth.lifetime (devauth.gf_days f)) = Some files /\
    devauth.write_files (devauth.gf_out f) (devauth.range_files files) disk = (disk', Ok tt).
Proof.
  unfold devauth.generate. intros H Htext.
  destruct (blank (devauth.gf_issuer f)) eqn:Hi; [done|].
  destruct (blank (devauth.gf_audience f)) eqn:Ha; [done|].
  destruct (Z.ltb_spec (devauth.gf_days f) 1) as [|Hd]; [done|].
  m_inv H. destruct a as [user|e]; [|done].
  m_inv H. apply subjectUUID_Ok in Hrun as [Hs Hsub].
  apply key_id_Ok in Hrun0 as (Hs0 & Hkid & Hkt); [|done]. injection Hrun1 as <- <-.
  destruct (devauth.GenerateKey (w_step w1)) as [key|e] eqn:Hkey; [|done].
  m_inv H. injection Hrun0 as <- <-. injection Hrun as <- <-. cbn [w_step tick] in *.
  destruct (devauth.sign_token _ _ _) as [signed|e] eqn:Hsign; [|done].
  destruct (devauth.MkdirAll _); [|done].
  destruct (devauth.fixture _ _ _ _ _ _ _) as [files|] eqn:Hf; [|done].
  injection H as <- Hw. cbn [w_step].
  exists user, a, key, (S (w_step w1)), (uuid_new (w_uuids (tick (tick w1)))), signed, files.
  split_and!; try done; cbn; lia.
Qed.

End generated.

(** *** The written files *)

Lemma fixture_names_of `{G : devauth.Signer} f key kid claims signed now expires files :
  devauth.fixture f key kid claims signed now expires = Some files -> map fst files = fixture_names.
Proof.
  unfold devauth.fixture. intros H. destruct (devauth.marshal_metadata _); [|done].
  by injection H as <-.
Qed.

Lemma fixture_written {F : devauth.Files} `{!FilesLaws F} dir files disk disk' :
  map fst files = fixture_names ->
  devauth.write_files dir (devauth.range_files files) disk = (disk', Ok tt) ->
  forall name data, (name, data) ∈ files -> exists m,
    disk' !! devauth.path_join dir name = Some (m, data) /\
    (disk !! devauth.path_join dir name = None -> m = devauth.file_mode name).
Proof.
  intros Hn Hw name data Hin. apply write_files_Ok in Hw as [Hw _].
  - apply Hw. by rewrite (devauth.range_files_perm files).
  - rewrite (Permutation_map _ (devauth.range_files_perm files)).
    rewrite <- (map_map fst (devauth.path_join dir)), Hn.
    apply (NoDup_fmap_2_strong (devauth.path_join dir)); [|by apply (bool_decide_unpack _); vm_compute].
    intros a b Ha Hb. by apply path_join_inj.
Qed.

(** *** Verification with the written keys *)

Section accepting.
Context {X : External Db} {G : devauth.Signer} {F : devauth.Files} {W : JwtLibrary}.

(** The key set of one key. *)
Lemma one_key_published `{!SignerLaws} key kid :
  kid <> EmptyString -> is_text kid ->
  exists keys,
    load_keys (devauth.jwks_handler
      (Some (devauth.JsonFile (publication [(kid, devauth.public_key key)])))) = Ok keys /\
    devauth.publicKeys (Some (publication [(kid, devauth.public_key key)])) = Ok keys /\
    keys !! kid = Some (devauth.public_key key).
Proof.
  intros Hne Ht. destruct (public_key_fits key) as [HN HE].
  destruct (published_keys_are_loaded [(kid, devauth.public_key key)]) as (keys & Hl & Hp & Hk).
  - done.
  - apply Forall_singleton. unfold publishable. cbn [fst snd]. tauto.
  - apply NoDup_singleton.
  - exists keys. split_and!; [done..|]. apply Hk. by apply list_elem_of_singleton.
Qed.

Lemma NewNumericDate_bounds t : t - second < devauth.NewNumericDate t <= t.
Proof. unfold devauth.NewNumericDate. pose proof (Z.mod_pos_bound t second eq_refl). lia. Qed.

Lemma lifetime_days days :
  1 <= days <= 106751 -> devauth.lifetime days = days * (86400 * second).
Proof.
  intros H. unfold devauth.lifetime, second.
  rewrite (wrap64_id (days * 24)), wrap64_id by (unfold int64_min, int64_max; lia). lia.
Qed.

(** The signed token is valid while it lasts. *)
Lemma signed_is_valid `{!SignerLaws} f key kid user id issued now signed :
  flags_ok f -> 1 <= devauth.gf_days f -> 0 <= issued <= int64_max -> lasts f issued now ->
  devauth.sign_token key kid (devauth.claims_of f user issued
    (issued + devauth.lifetime (devauth.gf_days f)) id) = Ok signed ->
  jwt_valid signed (devauth.public_key key) (trim_space (devauth.gf_issuer f))
    (trim_space (devauth.gf_audience f)) now = true.
Proof.
  intros (Hi & Ha & _ & _ & Hd) Hd1 His [Hn1 Hn2] Hsign.
  eapply signed_valid with (now := now) (audience := trim_space (devauth.gf_audience f)) in Hsign.
  - exact Hsign.
  - by apply printable_text, plain_printable.
  - by apply printable_text, plain_printable.
  - by apply list_elem_of_singleton.
  - cbn. split; [|pose proof (NewNumericDate_bounds issued); lia]. unfold devauth.NewNumericDate.
    pose proof (Z.mod_le issued second ltac:(lia) eq_refl). lia.
  - cbn. rewrite lifetime_days by lia.
    pose proof (NewNumericDate_bounds (issued + devauth.gf_days f * (86400 * second))).
    unfold int64_max, second in *. lia.
Qed.

(** What is read back from the metadata comes before other sources. *)
Lemma firstNonEmpty_second value rest :
  blank value = false -> devauth.firstNonEmpty (EmptyString :: value :: rest) = trim_space value.
Proof. intros H. cbn [devauth.firstNonEmpty]. by rewrite H. Qed.

(** The command accepts the signed token of a directory. *)
Lemma verify_accepts `{!SignerLaws, !TextualUUIDs X, !PrintableUUIDs X} env f disk w user key kid jti
    issued signed m v :
  let file name := devauth.ReadFile disk (devauth.path_join (devauth.gf_out f) name) in
  flags_ok f -> 1 <= devauth.gf_days f -> blank (devauth.gf_issuer f) = false ->
  blank (devauth.gf_audience f) = false -> kid <> EmptyString -> is_text kid ->
  0 <= issued <= int64_max -> lasts f issued (clock (w_step w)) ->
  devauth.sign_token key kid (devauth.claims_of f user issued
    (issued + devauth.lifetime (devauth.gf_days f)) jti) = Ok signed ->
  file "token.txt"%string = Some (devauth.TextFile (signed ++ devauth.newline)) ->
  file "jwks.json"%string
    = Some (devauth.JsonFile (publication [(kid, devauth.public_key key)])) ->
  devauth.marshal_metadata m = Some v -> file "metadata.json"%string = Some (devauth.JsonFile v) ->
  devauth.md_Issuer m = trim_space (devauth.gf_issuer f) ->
  devauth.md_Audience m = trim_space (devauth.gf_audience f) ->
  devauth.verify env (devauth.mkVerifyFlags (devauth.gf_out f) "" "" "" "") disk w
  = (tick w, Ok (Ok (uuid_text user))).
Proof.
  intros file Hf Hd Hi Ha Hkid Hkt His Hl Hsign Htok Hjwks Hm Hmeta Hmi Hma.
  pose proof Hf as (Hpi & Hpa & _).
  destruct (one_key_published key kid Hkid Hkt) as (keys & _ & Hkeys & Hk).
  destruct (unmarshal_marshal_metadata m v devauth.zero_metadata Hm) as (read & Hread & Hri & Hra).
  { rewrite Hmi. by apply printable_text, plain_printable. }
  { rewrite Hma. by apply printable_text, plain_printable. }
  unfold devauth.verify. cbn [devauth.vfl_dir devauth.vfl_token devauth.vfl_jwks devauth.vfl_issuer
    devauth.vfl_audience String.eqb]. cbv zeta. subst file. cbv beta in *.
  unfold devauth.readMetadata. rewrite Hmeta. cbn [mbind option_bind devauth.json_of].
  rewrite Hread. cbn [default from_option id]. rewrite Htok, Hjwks. cbn [devauth.json_of].
  rewrite Hkeys. unfold devauth.newline. rewrite trim_space_line; [|by eapply signed_printable|by repeat constructor; auto].
  rewrite Hri, Hra, Hmi, Hma, !firstNonEmpty_second.
  2,3: unfold blank; by rewrite trim_space_printable by by apply plain_printable.
  rewrite !(trim_space_printable (trim_space _)) by by apply plain_printable.
  unfold timeNow. rewrite M_bind_eq. cbv beta iota.
  erewrite signed_parses; [|exact Hsign|done|apply ascii_text, uuid_text_ascii].
  unfold devauth.verify_key. cbn [tk_rsa tk_kid negb default from_option id].
  rewrite (proj2 (String.eqb_neq _ _) Hkid), Hk.
  erewrite signed_is_valid by eassumption. cbn [negb tk_subject]. cbn.
  by rewrite uuid_parse_text.
Qed.

(** A verifier whose endpoint answers the same document at every request. *)
Lemma same_keys_found {J : JwksEndpoint} keys kid key c w :
  (forall n, load_keys (jwks_fetch n) = Ok keys) -> keys !! kid = Some key -> jc_keys c = keys ->
  exists w' c', cache_get (P := no_peers) c kid w = (w', Ok (c', Ok key)) /\
    (w_step w <= w_step w' <= w_step w + 3)%nat.
Proof.
  intros Hload Hk Hc. unfold cache_get, observe, timeNow. rewrite !M_bind_eq. cbv beta iota.
  cbn [peer_refreshes no_peers]. rewrite Hc, Hk. destruct (fresh c _).
  - eexists _, _. split; [reflexivity|]. cbn. lia.
  - unfold reload, refresh, fetch, observe, timeNow, mbind, M_bind, mret, M_ret. rewrite Hload.
    cbn [peer_refreshes no_peers jc_keys]. rewrite Hk. eexists _, _. split; [reflexivity|]. cbn. lia.
Qed.

Lemma Verify_accepts {J : JwksEndpoint} `{!TextualUUIDs X} v keys kid key c w text user :
  (forall n, load_keys (jwks_fetch n) = Ok keys) -> keys !! kid = Some key -> jc_keys c = keys ->
  jwt_unverified text = Some (mkToken true (Some kid) (uuid_text user)) -> kid <> EmptyString ->
  (forall n, (w_step w <= n <= w_step w + 3)%nat ->
     jwt_valid text key (vf_issuer v) (vf_audience v) (clock n) = true) ->
  exists w' c', Verify (P := no_peers) v c text w = (w', Ok (c', Ok (mkClaims user))).
Proof.
  intros Hload Hk Hc Htext Hkid Hvalid. unfold Verify, ParseWithClaims. rewrite M_bind_eq, Htext.
  rewrite M_bind_eq. unfold select_key. cbn [tk_rsa tk_kid negb default from_option].
  change (Datatypes.id kid) with kid. rewrite (proj2 (String.eqb_neq _ _) Hkid).
  destruct (same_keys_found keys kid key c w Hload Hk Hc) as (w1 & c1 & -> & Hs).
  unfold timeNow. rewrite M_bind_eq. cbv beta iota. rewrite Hvalid by done. cbn.
  rewrite uuid_parse_text. by eexists _, _.
Qed.

End accepting.

(** What the directory of a successful [generate] holds. *)
Lemma written_fixture {X : External Db} {G : devauth.Signer} {F : devauth.Files} `{!FilesLaws F}
    f key kid claims signed now expires files disk disk' :
  devauth.fixture f key kid claims signed now expires = Some files ->
  devauth.write_files (devauth.gf_out f) (devauth.range_files files) disk = (disk', Ok tt) ->
  let file name := devauth.ReadFile disk' (devauth.path_join (devauth.gf_out f) name) in
  let m := devauth.mkMetadata (devauth.rc_Issuer claims)
    (hd EmptyString (devauth.rc_Audience claims)) (devauth.rc_Subject claims) kid "RS256" now expires
    (trim_space (devauth.gf_jwksURL f)) in
  (exists v, devauth.marshal_metadata m = Some v /\
     file "metadata.json"%string = Some (devauth.JsonFile v)) /\
  file "token.txt"%string = Some (devauth.TextFile (signed ++ devauth.newline)) /\
  file "jwks.json"%string
    = Some (devauth.JsonFile (publication [(kid, devauth.public_key key)])) /\
  file "env"%string = Some (devauth.TextFile (devauth.env_text (devauth.rc_Issuer claims)
    (hd EmptyString (devauth.rc_Audience claims)) (trim_space (devauth.gf_jwksURL f)))) /\
  (forall name, name ∈ ["private_key.pem"; "token.txt"]%string ->
     disk !! devauth.path_join (devauth.gf_out f) name = None ->
     fst <$> disk' !! devauth.path_join (devauth.gf_out f) name = Some 384).
Proof.
  intros Hf Hw. cbv zeta. pose proof (fixture_names_of _ _ _ _ _ _ _ _ Hf) as Hn.
  pose proof (fixture_written _ _ _ _ Hn Hw) as Hall.
  assert (Hread : forall name data, (name, data) ∈ files ->
    devauth.ReadFile disk' (devauth.path_join (devauth.gf_out f) name) = Some data).
  { intros name data Hin. destruct (Hall _ _ Hin) as (m & E & _). unfold devauth.ReadFile. by rewrite E. }
  unfold devauth.fixture in Hf. destruct (devauth.marshal_metadata _) as [v|] eqn:Hm; [|done].
  injection Hf as <-. split_and!.
  - exists v. split; [done|]. apply Hread. set_solver.
  - apply Hread. set_solver.
  - apply Hread. set_solver.
  - apply Hread. set_solver.
  - intros name Hin Hnew. apply elem_of_cons in Hin as [->|Hin%list_elem_of_singleton].
    + destruct (Hall "private_key.pem"%string _ ltac:(left)) as (m' & -> & Hmode).
      cbn. by rewrite (Hmode Hnew).
    + subst name. destruct (Hall "token.txt"%string _ ltac:(right; right; left)) as (m' & -> & Hmode).
      cbn. by rewrite (Hmode Hnew).
Qed.

(** ** Theorem *)

(** The endpoint of a server [cmd/devauth serve] over the files of [disk]. *)
Definition served_keys (answer : devauth.Disk -> string -> fetched) (disk : devauth.Disk)
    : JwksEndpoint :=
  {| jwks_fetch := fun _ => answer disk "/.well-known/jwks.json"%string |}.

(** C37: let issuer, audience and key URL be plain printable text, the key name
    text, the days at most 106751 (beyond, the duration overflows), and let the
    clock read between 1970 and the largest [int64] of nanoseconds while
    [generate] runs.  Then a fixture that it reports as written is accepted as
    long as it lasts, which is the number of days asked for.  The [verify] command accepts it and prints its
    subject, the one asked for if there was one; a server that has loaded the
    written [env] file has the issuer, audience and key URL asked for, and a
    verifier of these settings, whose endpoint is the [serve] command, starts
    and takes a bearer of the token for the subject.  The private key and the
    token, where they are new files, are readable by their owner only. *)
Theorem generated_fixture_is_accepted {X : External Db} {G : devauth.Signer} {F : devauth.Files}
    {W : JwtLibrary} {HG : SignerLaws} {HT : TextualUUIDs X} {HU : PrintableUUIDs X}
    {HF : FilesLaws F} (f : devauth.generate_flags) (disk disk' : devauth.Disk) (w w' : World)
    (Hflags : flags_ok f)
    (Hclock : forall n, (w_step w <= n < w_step w')%nat -> 0 <= clock n <= int64_max)
    (Hrun : devauth.generate f disk w = (w', Ok (disk', Ok tt))) :
  let path := devauth.path_join (devauth.gf_out f) in
  exists user n signed env_file answer,
    (blank (devauth.gf_subject f) = true \/ uuid_parse (trim_space (devauth.gf_subject f)) = Some user) /\
    (w_step w <= n < w_step w')%nat /\
    devauth.ReadFile disk' (path "token.txt"%string)
      = Some (devauth.TextFile (signed ++ devauth.newline)) /\
    devauth.ReadFile disk' (path "env"%string) = Some (devauth.TextFile env_file) /\
    (forall env w1, lasts f (clock n) (clock (w_step w1)) ->
       devauth.verify env (devauth.mkVerifyFlags (devauth.gf_out f) "" "" "" "") disk' w1
       = (tick w1, Ok (Ok (uuid_text user)))) /\
    devauth.serve (devauth.gf_out f) disk' = Ok answer /\
    (forall env w1,
       let cfg := settings (fst (loadDotEnv env (Some env_file))) in
       JWTJWKSURL cfg = trim_space (devauth.gf_jwksURL f) /\
       exists w2 v cache,
         NewVerifier (J := served_keys answer disk') (JWTIssuer cfg) (JWTAudience cfg) w1
         = (w2, Ok (v, cache)) /\
         forall w3,
           (forall k, (w_step w3 <= k <= w_step w3 + 3)%nat -> lasts f (clock n) (clock k)) ->
           exists w4 cache',
             Verify (J := served_keys answer disk') (P := no_peers) v cache signed w3
             = (w4, Ok (cache', Ok (mkClaims user)))) /\
    (forall name, name ∈ ["private_key.pem"; "token.txt"]%string -> disk !! path name = None ->
       fst <$> disk' !! path name = Some 384).
Proof.
  cbv zeta. pose proof Hflags as (Hpi & Hpa & Hpu & Hkt & _).
  destruct (generate_Ok _ _ _ _ _ Hrun Hkt) as (user & kid & key & n & jti & signed & files &
    Hsub & Hkid & Hkidt & Hn & Hi & Ha & Hd & Hsign & Hfix & Hw).
  pose proof (Hclock n Hn) as His.
  destruct (written_fixture _ _ _ _ _ _ _ _ _ _ Hfix Hw) as ((v & Hm & Hmeta) & Htok & Hjwks & Henv & Hmode).
  destruct (one_key_published key kid Hkid Hkidt) as (keys & Hload & _ & Hk).
  exists user, n, signed. eexists _, _.
  split; [exact Hsub|]. split; [exact Hn|]. split; [exact Htok|]. split; [exact Henv|]. split.
  - intros env w1 Hl. eapply verify_accepts; [done..|exact Hsign|done|done|exact Hm|done|done|done].
  - split; [unfold devauth.serve; cbv zeta; by rewrite Hjwks|]. split; [|exact Hmode].
    intros env w1. cbn [devauth.claims_of devauth.rc_Issuer devauth.rc_Audience hd].
    destruct (env_text_settings env _ _ _ Hpi Hpa Hpu) as (-> & -> & ->). split; [done|].
    set (J := served_keys _ _).
    assert (Hall : forall n, load_keys (jwks_fetch n) = Ok keys).
    { intros k. subst J. cbn [jwks_fetch served_keys]. rewrite Hjwks. exact Hload. }
    unfold NewVerifier, refresh, fetch, timeNow, mbind, M_bind, mret, M_ret. rewrite Hall.
    eexists _, _, _. split; [reflexivity|]. intros w3 Hl. eapply Verify_accepts; try done.
    + exact (signed_parses _ _ _ _ Hsign Hkidt (ascii_text _ (uuid_text_ascii _))).
    + intros k Hk3. eapply signed_is_valid; try done. by apply Hl.
Qed.

(** ** An example: a signer of one identity's tokens *)

Definition demo_flags : devauth.generate_flags :=
  devauth.mkGenerateFlags ".dev/auth" " issuer " "notes" (demo_text alice) "dev-1" 30
    devauth.defaultJWKSURL.

Definition demo_signs (kid : string) (claims : devauth.RegisteredClaims) : bool :=
  String.eqb kid "dev-1" && String.eqb (devauth.rc_Subject claims) (demo_text alice)
  && String.eqb (devauth.rc_Issuer claims) "issuer"
  && bool_decide (devauth.rc_Audience claims = ["notes"%string])
  && (devauth.rc_NotBefore claims =? 0) && (devauth.rc_ExpiresAt claims =? 30 * day_ns).

Definition demo_signer : devauth.Signer := {|
  devauth.PrivateKey := unit;
  devauth.GenerateKey := fun _ => Ok tt;
  devauth.public_key := fun _ => mkPublicKey 3233 65537;
  devauth.privateKeyPEM := fun _ => "PRIVATE KEY"%string;
  devauth.sign_token := fun _ kid claims =>
    if demo_signs kid claims then Ok "token"%string else Err (errorsNew "key is invalid")
|}.

Definition demo_library : JwtLibrary := {|
  jwt_unverified := fun text =>
    if String.eqb text "token" then Some (mkToken true (Some "dev-1"%string) (demo_text alice)) else None;
  jwt_valid := fun text key issuer audience now =>
    String.eqb text "token" && (rsa_N key =? 3233) && String.eqb issuer "issuer"
    && String.eqb audience "notes" && (0 <=? now) && (now <? 30 * day_ns)
|}.

Definition demo_files : devauth.Files.
Proof.
  refine {|
    devauth.path_join := fun dir name => (dir ++ "/" ++ name)%string;
    devauth.MkdirAll := fun _ => Ok tt;
    devauth.write_fate := fun _ => Ok tt;
    devauth.range_files := fun files => files
  |}.
  done.
Defined.

Lemma demo_signs_spec kid claims :
  demo_signs kid claims = true ->
  kid = "dev-1"%string /\ devauth.rc_Subject claims = demo_text alice /\
  devauth.rc_Issuer claims = "issuer"%string /\ devauth.rc_Audience claims = ["notes"%string] /\
  devauth.rc_NotBefore claims = 0 /\ devauth.rc_ExpiresAt claims = 30 * day_ns.
Proof.
  unfold demo_signs. rewrite !andb_true_iff, !String.eqb_eq, bool_decide_eq_true, !Z.eqb_eq. tauto.
Qed.

Lemma demo_signer_laws : SignerLaws (G := demo_signer) (W := demo_library).
Proof.
  split; cbn [devauth.sign_token demo_signer].
  - intros key. cbn. lia.
  - intros key kid claims text H. destruct (demo_signs kid claims); [|done]. injection H as <-.
    repeat constructor; cbn; lia.
  - intros key kid claims text H _ _. destruct (demo_signs kid claims) eqn:E; [|done].
    injection H as <-. by apply demo_signs_spec in E as (-> & -> & _).
  - intros key kid claims text audience now H _ _ Ha Hn He.
    destruct (demo_signs kid claims) eqn:E; [|done]. injection H as <-.
    apply demo_signs_spec in E as (_ & _ & Hi & E & E0 & E1).
    rewrite Hi. rewrite E in Ha. rewrite E0 in Hn. rewrite E1 in He. apply list_elem_of_singleton in Ha as ->.
    cbn [jwt_valid demo_library]. rewrite (proj2 (Z.leb_le _ _)), (proj2 (Z.ltb_lt _ _)) by lia. done.
Qed.

Lemma demo_printable fate concurrent : PrintableUUIDs (demo_with fate concurrent).
Proof.
  split. intros [|p]; [repeat constructor; cbn; lia|]. cbn [uuid_text demo_with demo_text].
  induction p as [p IH|p IH|]; cbn; repeat constructor; try lia; exact IH.
Qed.

Lemma demo_files_laws : FilesLaws demo_files.
Proof.
  split. intros dir a b _ _ H. apply (f_equal bytes_of) in H. cbn [devauth.path_join demo_files] in H.
  rewrite !bytes_of_app in H. do 2 apply app_inv_head in H.
  by rewrite <- (of_bytes_of a), <- (of_bytes_of b), H.
Qed.

Definition later_world : World := mkWorld demo_db 5 0 TxActive 1 0.

Lemma plain_spec s :
  forallb (fun b => (33 <=? b) && (b <=? 126) && negb (b =? quote_byte) && negb (b =? apostrophe))
    (bytes_of s) && (Z.of_nat (length (bytes_of s)) <? 65000) = true -> plain s.
Proof.
  intros [H Hl]%andb_true_iff. split; [|by apply Z.ltb_lt]. apply List.Forall_forall. intros b Hb.
  eapply forallb_forall in H; [|exact Hb]. to_prop. tauto.
Qed.

Lemma demo_flags_ok : flags_ok demo_flags.
Proof. split_and!; [by apply plain_spec; vm_compute..|by vm_compute|done]. Qed.

Definition demo_generated : World * res (devauth.Disk * res unit) :=
  devauth.generate (X := demo) (G := demo_signer) (F := demo_files) demo_flags ∅ demo_world.

Lemma demo_generated_Ok :
  match demo_generated with
  | (w', Ok (_, Ok _)) => w_step w' = 2%nat
  | _ => False
  end.
Proof. vm_compute. reflexivity. Qed.

(** The whole run, from the command to its verification and its server. *)
Lemma generated_fixture_is_accepted_witness :
  exists disk' w' answer, demo_generated = (w', Ok (disk', Ok tt)) /\
    devauth.serve (F := demo_files) ".dev/auth" disk' = Ok answer /\
    (forall env, devauth.verify (X := demo) (F := demo_files) (W := demo_library) env
       devauth.verify_defaults disk' later_world
     = (tick later_world, Ok (Ok (demo_text alice)))).
Proof.
  pose proof demo_generated_Ok as Hw.
  destruct demo_generated as [w' [[disk' [[]|e]]|e]] eqn:Hrun; [|destruct Hw|destruct Hw].
  destruct (generated_fixture_is_accepted (X := demo) (HG := demo_signer_laws) (HT := demo_textual _ _)
    (HU := demo_printable _ _) (HF := demo_files_laws) demo_flags ∅ disk' demo_world w')
    as (user & n & signed & env_file & answer & Hsub & Hn & _ & _ & Hv & Hs & _).
  - exact demo_flags_ok.
  - rewrite Hw. intros n Hn. cbn. unfold int64_max. cbn in Hn. lia.
  - exact Hrun.
  - exists disk', w', answer. split; [reflexivity|]. split; [exact Hs|]. intros env.
    destruct Hsub as [Hb|Hsub]; [done|]. assert (user = alice) as -> by by injection Hsub.
    apply Hv. rewrite Hw in Hn. cbn in Hn. unfold lasts, second. cbn. lia.
Defined.

(** One day more than the theorem allows, and the token is issued expired. *)
Example overlong_lifetime : devauth.lifetime 106752 < 0.
Proof. by vm_compute. Qed.
