(* ===== verification/Http.v ===== *)
(** * Requests, responses and middleware

    [internal/httpapi] ([context.go], [response.go], [validation.go]) and
    [internal/middleware], with the bearer check of
    [internal/auth/middleware.go].

    A body is what a JSON decoder finds in it: documents with their lengths in
    bytes, then its end, text that is not JSON, or the limit on its size. *)

From S2P Require Import Prelude GoText Json HttpApi External Schema SyncModels GoMime.
From S2P Require Import UploadService Devices NotesApi Auth.

(** ** Requests *)

Inductive stream :=
| Document (v : json) (size : Z) (rest : stream)
| Finished (size : Z)
| Malformed (size : Z)
| Oversized.

(** [rq_header], [rq_query] and [rq_param] are [Header.Get], [URL.Query().Get]
    and [chi.URLParam]: the empty text for what is missing.  [rq_id] and
    [rq_claims] are the values middleware stores in the context. *)
Record http_request := mkHttpRequest {
  rq_method : string; rq_path : string;
  rq_header : string -> string; rq_query : string -> string; rq_param : string -> string;
  rq_body : stream; rq_id : string; rq_claims : option Claims
}.

Definition WithRequestID (r : http_request) (id : string) : http_request :=
  mkHttpRequest (rq_method r) (rq_path r) (rq_header r) (rq_query r) (rq_param r) (rq_body r) id
    (rq_claims r).

Definition RequestIDFromContext (r : http_request) : string := rq_id r.

Definition WithClaims (r : http_request) (claims : Claims) : http_request :=
  mkHttpRequest (rq_method r) (rq_path r) (rq_header r) (rq_query r) (rq_param r) (rq_body r)
    (rq_id r) (Some claims).

Definition ClaimsFromContext (r : http_request) : option Claims := rq_claims r.

Definition UserIDFromContext (r : http_request) : option UUID := UserID <$> ClaimsFromContext r.

Definition with_params (r : http_request) (params : string -> string) : http_request :=
  mkHttpRequest (rq_method r) (rq_path r) (rq_header r) (rq_query r) params (rq_body r) (rq_id r)
    (rq_claims r).

Definition with_body (r : http_request) (b : stream) : http_request :=
  mkHttpRequest (rq_method r) (rq_path r) (rq_header r) (rq_query r) (rq_param r) b (rq_id r)
    (rq_claims r).

(** ** Responses *)

(** The values handlers hand to the encoder. *)
Inductive reply :=
| ErrorReply (code message request_id : string) (details : option (list (string * json)))
| StatusReply (status : string)
| DeviceReply (v : DeviceResponse)
| DevicesReply (v : list DeviceResponse)
| PushReply (v : Response)
| PullReply (v : PullResponse)
| UpdatesReply (v : UpdatesAvailableResponse)
| FullNotesReply (v : list NoteSnapshot)
| NoteReply (v : NoteResponse)
| SnapshotReply (v : SnapshotResponse)
| InitiateReply (v : InitiateResponse)
| UploadReply (v : UploadResponse)
| DownloadReply (v : DownloadURLResponse)
| LinksReply (v : DownloadLinksResponse).

Record http_response := mkHttpResponse {
  rs_status : Z; rs_headers : list (string * string); rs_reply : option reply
}.

(** A handler writes a response, panics, or hands the connection over as the
    socket of a device. *)
Inductive served :=
| Wrote (resp : http_response)
| Panicked
| Upgraded (user : UUID) (device : string).

Definition WriteJSON (status : Z) (value : reply) : http_response :=
  mkHttpResponse status [("Content-Type", "application/json")%string] (Some value).

Definition WriteNoContent : http_response := mkHttpResponse StatusNoContent [] None.

Definition WriteError (r : http_request) (err : goerr) : http_response :=
  let apiErr := FromError err in
  WriteJSON (Error_Status apiErr)
    (ErrorReply (Error_Code apiErr) (Error_Message apiErr) (RequestIDFromContext r)
       (Error_Details apiErr)).

Definition set_header (name value : string) (out : served) : served :=
  match out with
  | Wrote resp => Wrote (mkHttpResponse (rs_status resp) ((name, value) :: rs_headers resp)
                           (rs_reply resp))
  | _ => out
  end.

(** ** Decoding a body ([validation.go]) *)

Definition body_too_large : goerr :=
  ErrAPI (NewError StatusRequestEntityTooLarge CodePayloadTooLarge
            "The request body is too large.").

Definition DecodeJSON {A} (decode : json -> option A) (body : stream) : res A :=
  match body with
  | Document v _ rest =>
      match decode v with
      | None => Err (ErrAPI (InvalidRequest "The request body must be valid JSON."))
      | Some dst =>
          match rest with
          | Finished _ => Ok dst
          | Oversized => Err body_too_large
          | _ => Err (ErrAPI (InvalidRequest
                   "The request body must contain a single JSON document."))
          end
      end
  | Oversized => Err body_too_large
  | _ => Err (ErrAPI (InvalidRequest "The request body must be valid JSON."))
  end.

(** ** Middleware *)

(** The cache of keys lives as long as the process: handlers pass it on. *)
Definition Handler : Type := http_request -> jwksCache -> M (jwksCache * served).

(** Whether the deadline of the handler that ends at a step had passed. *)
Class Deadlines := { passed : nat -> bool }.

Section middleware.
Context {X : External Db}.

Definition RequestID (next : Handler) : Handler := fun r c =>
  id ← (if String.eqb (rq_header r "X-Request-Id") EmptyString
        then u ← uuidNew; mret (uuid_text u) else mret (rq_header r "X-Request-Id"));
  '(c, out) ← next (WithRequestID r id) c;
  mret (c, set_header "X-Request-Id" id out).

Definition Recovery (next : Handler) : Handler := fun r c =>
  '(c, out) ← next r c;
  mret (c, match out with
           | Panicked => Wrote (WriteError r (ErrAPI Internal))
           | _ => out
           end).

Definition AllowAllLimiter (r : http_request) : bool := true.

Definition RateLimit (allow : http_request -> bool) (next : Handler) : Handler := fun r c =>
  if negb (allow r)
  then mret (c, Wrote (WriteError r (ErrAPI (NewError StatusTooManyRequests CodeRateLimited
                                               "Rate limit exceeded."))))
  else next r c.

(** [http.TimeoutHandler] buffers what the handler writes and answers itself
    when the deadline passes first; what the handler did to the database stays,
    its calls failing from the deadline on. *)
Definition timeout_response : http_response := mkHttpResponse StatusServiceUnavailable [] None.

Definition current_step : M nat := fun w => (w, Ok (w_step w)).

Definition Timeout {D : Deadlines} (next : Handler) : Handler := fun r c =>
  '(c, out) ← next r c;
  n ← current_step;
  mret (c, if passed n then Wrote timeout_response else out).

(** Reading past [left] more bytes is an error. *)
Fixpoint limit_reader (left : Z) (body : stream) : stream :=
  match body with
  | Document v size rest =>
      if size <=? left then Document v size (limit_reader (left - size) rest) else Oversized
  | Finished size => if size <=? left then body else Oversized
  | Malformed size => if size <=? left then body else Oversized
  | Oversized => Oversized
  end.

Definition BodyLimit (maxBytes : Z) (next : Handler) : Handler := fun r c =>
  next (with_body r (limit_reader maxBytes (rq_body r))) c.

Context {J : JwksEndpoint} {P : Peers} {W : JwtLibrary}.

Definition unauthorized (r : http_request) : served := Wrote (WriteError r (ErrAPI Unauthorized)).

Definition Middleware (v : Verifier) (next : Handler) : Handler := fun r c =>
  match bearer_token (rq_header r "Authorization") with
  | None => mret (c, unauthorized r)
  | Some token =>
      '(c, verified) ← Verify v c token;
      match verified with
      | Err _ => mret (c, unauthorized r)
      | Ok claims => next (WithClaims r claims) c
      end
  end.

End middleware.
