(* ===== verification/Logging.v ===== *)
(** * Request logging and compression

    [internal/middleware/logging.go]: a writer that records status and size,
    and one log entry per request whose handler returns; and
    [internal/middleware/gzip.go]. *)

From S2P Require Import Prelude GoText Json HttpApi External GoTime Schema GoMime Auth Http.

(** The pattern the router matched, and the bytes a response's body takes. *)
Class RouteContext := { RoutePattern : http_request -> string }.
Class Encoder := { body_bytes : http_response -> Z }.

(** ** The recording writer *)

Record statusRecorder := mkRecorder { sr_status : Z; sr_bytes : Z }.

Definition new_recorder : statusRecorder := mkRecorder 0 0.

(** With the status that is passed on to the wrapped writer, if it is the
    first. *)
Definition WriteHeader (status : Z) (r : statusRecorder) : statusRecorder * option Z :=
  if negb (sr_status r =? 0) then (r, None) else (mkRecorder status (sr_bytes r), Some status).

(** [n] is what the wrapped writer takes of the bytes. *)
Definition Write (n : Z) (r : statusRecorder) : statusRecorder :=
  let r := if sr_status r =? 0 then fst (WriteHeader StatusOK r) else r in
  mkRecorder (sr_status r) (sr_bytes r + n).

(** Handlers write the status, then the body, if there is one. *)
Definition write_response {E : Encoder} (resp : http_response) (r : statusRecorder) : statusRecorder :=
  let r := fst (WriteHeader (rs_status resp) r) in
  if body_bytes resp =? 0 then r else Write (body_bytes resp) r.

(** ** The log *)

Record AccessEntry := mkAccessEntry {
  ae_request_id : string; ae_method : string; ae_path : string; ae_route : string;
  ae_status : Z; ae_bytes : Z; ae_duration_ms : Z; ae_user_id : option string
}.

Section logging.
Context {X : External Db} {R : RouteContext} {E : Encoder}.

(** [time.Since(start).Milliseconds()]. *)
Definition milliseconds (start now : Time) : Z := Z.quot (now - start) (10 ^ 6).

(** What the recorder has seen when the handler is done. *)
Definition recorded (out : served) : statusRecorder :=
  match out with
  | Wrote resp => write_response resp new_recorder
  | _ => new_recorder
  end.

Definition access_entry (r : http_request) (seen : statusRecorder) (start now : Time) : AccessEntry :=
  mkAccessEntry (RequestIDFromContext r) (rq_method r) (rq_path r) (RoutePattern r)
    (if sr_status seen =? 0 then StatusOK else sr_status seen) (sr_bytes seen)
    (milliseconds start now) (uuid_text <$> UserIDFromContext r).

(** The entry next to the response; a panic passes and logs nothing. *)
Definition RequestLogging (next : Handler) (r : http_request) (c : jwksCache)
    : M (jwksCache * served * option AccessEntry) :=
  start ← timeNow;
  '(c, out) ← next r c;
  match out with
  | Panicked => mret (c, out, None)
  | _ => now ← timeNow; mret (c, out, Some (access_entry r (recorded out) start now))
  end.

(** The log is not part of what a client or a later request sees. *)
Definition unlogged (h : http_request -> jwksCache -> M (jwksCache * served * option AccessEntry))
    : Handler := fun r c =>
  '(c, out, _) ← h r c; mret (c, out).

End logging.

(** ** Lemmas *)

Section facts.
Context {X : External Db} {R : RouteContext} {E : Encoder}.

Lemma write_response_spec resp :
  rs_status resp <> 0 ->
  write_response resp new_recorder = mkRecorder (rs_status resp) (body_bytes resp).
Proof.
  intros Hs. unfold write_response, WriteHeader, Write. cbn. destruct (Z.eqb_spec (body_bytes resp) 0) as [->|_];
    [done|]. by rewrite (proj2 (Z.eqb_neq _ _) Hs).
Qed.

(** Logging does not change the answer or the database. *)
Lemma RequestLogging_run h r c w w' c' out :
  h r c (tick w) = (w', Ok (c', out)) ->
  exists w2, unlogged (RequestLogging h) r c w = (w2, Ok (c', out)) /\ w_db w2 = w_db w' /\
    (w_step w' <= w_step w2)%nat.
Proof.
  intros H. unfold unlogged, RequestLogging. rewrite M_bind_eq, M_bind_eq.
  unfold timeNow at 1. rewrite M_bind_eq, H.
  destruct out; eexists; (split; [reflexivity|]); (split; [reflexivity|cbn; lia]).
Qed.

End facts.

(** ** Compressed bodies

    [internal/middleware/gzip.go], which no program installs: decompressing
    request bodies under a limit and compressing responses.  Compression itself
    is the library's. *)

(** [strings.Contains]. *)
Fixpoint contains (s sub : string) : bool :=
  has_prefix s sub ||
  match s with
  | EmptyString => false
  | String _ rest => contains rest sub
  end.

(** What a reader makes of a compressed body, when its header is one. *)
Class Gzip := { gunzip : stream -> option stream }.

Definition without_header (r : http_request) (name : string) : http_request :=
  mkHttpRequest (rq_method r) (rq_path r)
    (fun key => if key_matches key name then EmptyString else rq_header r key)
    (rq_query r) (rq_param r) (rq_body r) (rq_id r) (rq_claims r).

(** [Close] of [gzipReadCloser]: all are closed, the first error is returned. *)
Definition close_all (closers : list (res unit)) : res unit :=
  foldl (fun first closed => match first with
                             | Err _ => first
                             | Ok _ => closed
                             end) (Ok tt) closers.

Section gzip.
Context {X : External Db} {Gz : Gzip}.

Definition GzipDecompress (maxDecompressedBytes : Z) (next : Handler) : Handler := fun r c =>
  if negb (key_matches (rq_header r "Content-Encoding") "gzip") then next r c
  else
    match gunzip (rq_body r) with
    | None => mret (c, Wrote (WriteError r (ErrAPI (InvalidRequest
                         "The request body is not valid gzip data."))))
    | Some body =>
        next (without_header (with_body r (limit_reader maxDecompressedBytes body))
                "Content-Encoding") c
    end.

(** With whether the body goes through the compressor. *)
Definition GzipResponse (next : Handler) (r : http_request) (c : jwksCache)
    : M (jwksCache * served * bool) :=
  if negb (contains (rq_header r "Accept-Encoding") "gzip")
  then '(c, out) ← next r c; mret (c, out, false)
  else
    '(c, out) ← next r c;
    mret (c, set_header "Vary" "Accept-Encoding" (set_header "Content-Encoding" "gzip" out), true).

End gzip.

(** ** Lemmas *)

(** The bytes of the documents a reader gets out of a body. *)
Fixpoint document_bytes (body : stream) : Z :=
  match body with
  | Document _ size rest => size + document_bytes rest
  | _ => 0
  end.

Fixpoint sizes_nonneg (body : stream) : Prop :=
  match body with
  | Document _ size rest => 0 <= size /\ sizes_nonneg rest
  | _ => True
  end.

(** However a body decompresses, no more than the limit is read of it. *)
Lemma limited_bytes n body :
  0 <= n -> sizes_nonneg body -> document_bytes (limit_reader n body) <= n.
Proof.
  revert n. induction body as [v size rest IH| | |]; intros n Hn Hs; cbn; try lia.
  - destruct Hs as [H0 Hs]. destruct (Z.leb_spec size n); cbn; [|lia].
    specialize (IH (n - size) ltac:(lia) Hs). lia.
  - case_match; cbn; lia.
  - case_match; cbn; lia.
Qed.
