(* ===== verification/Handlers.v ===== *)
(** * HTTP handlers

    The handlers of [internal/sync/handlers], [internal/devices/handlers],
    [internal/notes/handlers] and [internal/uploads/handlers]: each takes the
    owner from the context, decodes its input, calls its service and writes the
    answer. *)

From S2P Require Import Prelude GoText Json HttpApi Constants External GoTime Schema SyncModels.
From S2P Require Import SyncService SyncPush SyncPull Storage UploadService Devices NotesApi Auth.
From S2P Require Import Http.

(** ** Request bodies, by their JSON tags *)

Section bodies.
Context {X : External Db}.

Definition zero_operation : ClientOperation :=
  mkOp uuid_Nil uuid_Nil EmptyString 0 0 EmptyString None.

Definition operation_fields : list (struct_field ClientOperation) :=
  [("operationId", store_field unmarshal_uuid (fun u o => mkOp u (NoteID o) (OperationType o)
      (Sequence o) (BaseNoteVersion o) (ChangeFormat o) (ChangeData o)));
   ("noteId", store_field unmarshal_uuid (fun u o => mkOp (OperationID o) u (OperationType o)
      (Sequence o) (BaseNoteVersion o) (ChangeFormat o) (ChangeData o)));
   ("operationType", store_field unmarshal_string (fun s o => mkOp (OperationID o) (NoteID o) s
      (Sequence o) (BaseNoteVersion o) (ChangeFormat o) (ChangeData o)));
   ("sequence", store_field unmarshal_int (fun z o => mkOp (OperationID o) (NoteID o)
      (OperationType o) z (BaseNoteVersion o) (ChangeFormat o) (ChangeData o)));
   ("baseNoteVersion", store_field unmarshal_int (fun z o => mkOp (OperationID o) (NoteID o)
      (OperationType o) (Sequence o) z (ChangeFormat o) (ChangeData o)));
   ("changeFormat", store_field unmarshal_string (fun s o => mkOp (OperationID o) (NoteID o)
      (OperationType o) (Sequence o) (BaseNoteVersion o) s (ChangeData o)));
   (* a raw message takes [null] too *)
   ("changeData", fun v o => Some (mkOp (OperationID o) (NoteID o) (OperationType o)
      (Sequence o) (BaseNoteVersion o) (ChangeFormat o) (Some v)))]%string.

(** A request while its slice of operations is being decoded. *)
Definition raw_push : Type := Request * slice ClientOperation.

Definition push_fields : list (struct_field raw_push) :=
  let on (f : Request -> Request) (p : raw_push) : raw_push := (f p.1, p.2) in
  [("protocolVersion", store_field unmarshal_int (fun z => on (fun q =>
      mkRequest z (Req_ClientVersion q) (Req_DeviceID q) (Req_Operations q))));
   ("clientVersion", store_field unmarshal_string (fun s => on (fun q =>
      mkRequest (Req_ProtocolVersion q) s (Req_DeviceID q) (Req_Operations q))));
   ("deviceId", store_field unmarshal_string (fun s => on (fun q =>
      mkRequest (Req_ProtocolVersion q) (Req_ClientVersion q) s (Req_Operations q))));
   ("operations", fun v (p : raw_push) =>
      ops ← store_slice (unmarshal_strict operation_fields) zero_operation v p.2;
      Some (p.1, ops))]%string.

Definition decode_push (v : json) : option Request :=
  '(q, ops) ← unmarshal_strict push_fields (mkRequest 0 EmptyString EmptyString [], nil_slice) v;
  Some (mkRequest (Req_ProtocolVersion q) (Req_ClientVersion q) (Req_DeviceID q) (slice_elements ops)).

(** An identifier in an array: [null] leaves the element as it is. *)
Definition store_uuid (u : UUID) (v : json) : option UUID :=
  match v with
  | JNull => Some u
  | _ => unmarshal_uuid v
  end.

Definition full_note_fields : list (struct_field (string * slice UUID)) :=
  [("deviceId", store_field unmarshal_string (fun s (q : string * slice UUID) => (s, q.2)));
   ("noteIds", fun v (q : string * slice UUID) =>
      ids ← store_slice store_uuid uuid_Nil v q.2; Some (q.1, ids))]%string.

Definition decode_full_note (v : json) : option FullNoteRequest :=
  '(device, ids) ← unmarshal_strict full_note_fields (EmptyString, nil_slice) v;
  Some (mkFullNoteRequest device (slice_elements ids)).

(** [null] into a pointer sets it to [nil]. *)
Definition store_ptr {A} (set : option string -> A -> A) (v : json) (a : A) : option A :=
  p ← unmarshal_string_ptr v; Some (set p a).

Definition register_fields : list (struct_field RegisterDeviceRequest) :=
  [("deviceId", store_field unmarshal_string (fun s q => mkRegisterDeviceRequest s
      (RDR_DeviceName q) (RDR_Platform q) (RDR_AppVersion q) (RDR_ProtocolVersion q)));
   ("deviceName", store_ptr (fun p q => mkRegisterDeviceRequest (RDR_DeviceID q) p
      (RDR_Platform q) (RDR_AppVersion q) (RDR_ProtocolVersion q)));
   ("platform", store_ptr (fun p q => mkRegisterDeviceRequest (RDR_DeviceID q)
      (RDR_DeviceName q) p (RDR_AppVersion q) (RDR_ProtocolVersion q)));
   ("appVersion", store_ptr (fun p q => mkRegisterDeviceRequest (RDR_DeviceID q)
      (RDR_DeviceName q) (RDR_Platform q) p (RDR_ProtocolVersion q)));
   ("protocolVersion", store_field unmarshal_int32 (fun z q => mkRegisterDeviceRequest
      (RDR_DeviceID q) (RDR_DeviceName q) (RDR_Platform q) (RDR_AppVersion q) z))]%string.

Definition decode_register : json -> option RegisterDeviceRequest :=
  unmarshal_strict register_fields (mkRegisterDeviceRequest EmptyString None None None 0).

Definition initiate_fields : list (struct_field InitiateRequest) :=
  [("noteId", store_field unmarshal_uuid (fun u q => mkInitiateRequest u (IR_BlockID q)
      (IR_DeviceID q) (IR_Filename q) (IR_ContentType q) (IR_Size q)));
   ("blockId", store_field unmarshal_uuid (fun u q => mkInitiateRequest (IR_NoteID q) u
      (IR_DeviceID q) (IR_Filename q) (IR_ContentType q) (IR_Size q)));
   ("deviceId", store_field unmarshal_string (fun s q => mkInitiateRequest (IR_NoteID q)
      (IR_BlockID q) s (IR_Filename q) (IR_ContentType q) (IR_Size q)));
   ("filename", store_field unmarshal_string (fun s q => mkInitiateRequest (IR_NoteID q)
      (IR_BlockID q) (IR_DeviceID q) s (IR_ContentType q) (IR_Size q)));
   ("contentType", store_field unmarshal_string (fun s q => mkInitiateRequest (IR_NoteID q)
      (IR_BlockID q) (IR_DeviceID q) (IR_Filename q) s (IR_Size q)));
   ("size", store_field unmarshal_int (fun z q => mkInitiateRequest (IR_NoteID q)
      (IR_BlockID q) (IR_DeviceID q) (IR_Filename q) (IR_ContentType q) z))]%string.

Definition decode_initiate : json -> option InitiateRequest :=
  unmarshal_strict initiate_fields
    (mkInitiateRequest uuid_Nil uuid_Nil EmptyString EmptyString EmptyString 0).

End bodies.

(** ** Answering *)

(** The result of a service as a response; a panic is not recovered here. *)
Definition answer {A} (r : http_request) (m : M A) (write : A -> http_response) : M served :=
  result ← attempt m;
  mret match result with
       | Ok a => Wrote (write a)
       | Err ErrPanic => Panicked
       | Err err => Wrote (WriteError r err)
       end.

Definition refuse (r : http_request) (err : goerr) : M served := mret (Wrote (WriteError r err)).

Definition authenticated (r : http_request) (f : UUID -> M served) : M served :=
  match UserIDFromContext r with
  | None => refuse r (ErrAPI Unauthorized)
  | Some ownerID => f ownerID
  end.

(** A decoded body. *)
Definition decoded {A} (r : http_request) (decode : json -> option A) (f : A -> M served) : M served :=
  match DecodeJSON decode (rq_body r) with
  | Err err => refuse r err
  | Ok a => f a
  end.

(** An integer of the query. *)
Definition query_int (r : http_request) (key : string) (f : Z -> M served) : M served :=
  match parse_int64 (rq_query r key) with
  | None => refuse r (ErrAPI (InvalidRequest (key ++ " must be an integer.")))
  | Some z => f z
  end.

Section handlers.
Context {X : External Db} {S : Storage} {T : MimeTables}.

(** An identifier of the path. *)
Definition path_uuid (r : http_request) (key what : string) (f : UUID -> M served) : M served :=
  match uuid_parse (rq_param r key) with
  | None => refuse r (ErrAPI (InvalidRequest (what ++ " must be a UUID.")))
  | Some id => f id
  end.

(** ** Sync *)

Definition PushHandler (sv : Service) (r : http_request) : M served :=
  authenticated r (fun ownerID => decoded r decode_push (fun req =>
    answer r (Sync sv ownerID req) (fun out => WriteJSON StatusOK (PushReply out.1)))).

Definition PullHandler (sv : Service) (r : http_request) : M served :=
  authenticated r (fun ownerID =>
    query_int r RequestKeyProtocolVersion (fun protocolVersion =>
      query_int r RequestKeyCursor (fun cursor =>
        answer r (Pull sv ownerID (mkPullRequest protocolVersion
                    (rq_query r RequestKeyClientVersion) (rq_query r RequestKeyDeviceID) cursor))
          (fun resp => WriteJSON StatusOK (PullReply resp))))).

Definition FullNoteHandler (sv : Service) (r : http_request) : M served :=
  authenticated r (fun ownerID => decoded r decode_full_note (fun req =>
    answer r (SyncFullNote sv ownerID req)
      (fun snapshots => WriteJSON StatusOK (FullNotesReply snapshots)))).

Definition UpdatesAvailableHandler (r : http_request) : M served :=
  authenticated r (fun ownerID => query_int r RequestKeyProtocolVersion (fun protocolVersion =>
    answer r (UpdatesAvailable ownerID
                (mkUpdatesAvailableRequest protocolVersion (rq_query r RequestKeyDeviceID)))
      (fun resp => WriteJSON StatusOK (UpdatesReply resp)))).

(** ** Devices *)

Definition RegisterHandler (r : http_request) : M served :=
  authenticated r (fun ownerID => decoded r decode_register (fun req =>
    answer r (Register ownerID req) (fun device => WriteJSON StatusCreated (DeviceReply device)))).

Definition ListHandler (r : http_request) : M served :=
  authenticated r (fun ownerID =>
    answer r (Devices.List ownerID) (fun result => WriteJSON StatusOK (DevicesReply result))).

Definition RevokeHandler (r : http_request) : M served :=
  authenticated r (fun ownerID =>
    answer r (Revoke ownerID (rq_param r RequestKeyDeviceID)) (fun _ => WriteNoContent)).

(** ** Notes *)

Definition NoteHandler (r : http_request) : M served :=
  authenticated r (fun ownerID => path_uuid r RequestKeyNoteID "Note ID" (fun noteID =>
    answer r (NotesApi.Get ownerID noteID) (fun note => WriteJSON StatusOK (NoteReply note)))).

Definition SnapshotHandler (r : http_request) : M served :=
  authenticated r (fun ownerID => path_uuid r RequestKeyNoteID "Note ID" (fun noteID =>
    answer r (LatestSnapshot ownerID noteID)
      (fun snapshot => WriteJSON StatusOK (SnapshotReply snapshot)))).

(** ** Uploads *)

(** [identity] and [blockIdentity]. *)
Definition identity (r : http_request) (f : UUID -> UUID -> M served) : M served :=
  authenticated r (fun ownerID => path_uuid r RequestKeyUploadID "Upload ID" (f ownerID)).

Definition blockIdentity (r : http_request) (f : UUID -> UUID -> M served) : M served :=
  authenticated r (fun ownerID => path_uuid r RequestKeyBlockId "Block ID" (f ownerID)).

Definition InitiateHandler (up : UploadConfig) (r : http_request) : M served :=
  authenticated r (fun ownerID => decoded r decode_initiate (fun request =>
    answer r (Initiate up ownerID request)
      (fun response => WriteJSON StatusCreated (InitiateReply response)))).

Definition DownloadLinksHandler (up : UploadConfig) (r : http_request) : M served :=
  authenticated r (fun ownerID => query_int r RequestKeyCursor (fun cursor =>
    answer r (DownloadURLs up ownerID (rq_query r RequestKeyDeviceID) cursor)
      (fun response => WriteJSON StatusOK (LinksReply response)))).

Definition GetUploadHandler (r : http_request) : M served :=
  identity r (fun ownerID uploadID =>
    answer r (UploadService.Get ownerID uploadID)
      (fun response => WriteJSON StatusOK (UploadReply response))).

Definition CompleteHandler (r : http_request) : M served :=
  identity r (fun ownerID uploadID =>
    answer r (Complete ownerID uploadID)
      (fun response => WriteJSON StatusOK (UploadReply response))).

Definition DownloadURLHandler (up : UploadConfig) (r : http_request) : M served :=
  blockIdentity r (fun ownerID blockID =>
    answer r (DownloadURL up ownerID blockID)
      (fun response => WriteJSON StatusOK (DownloadReply response))).

Definition DeleteHandler (r : http_request) : M served :=
  identity r (fun ownerID uploadID =>
    answer r (Delete ownerID uploadID) (fun _ => WriteNoContent)).

End handlers.
