(* ===== verification/Api.v ===== *)
(** * The API program

    [buildRouter] of [cmd/api/main.go]: the routes of the handlers below the
    middleware.  Matching a method and a path against the patterns of a table is
    the router library's. *)

From S2P Require Import Prelude GoText Json HttpApi Constants External GoTime Schema SyncModels.
From S2P Require Import RealtimeMessage SyncService GoMime Storage UploadService Config Auth Http.
From S2P Require Import Logging Handlers.

Definition Route : Type := string * string * (http_request -> M served).

(** What the library finds for a method and a path in a table of methods and
    patterns: the index of a route with the URL parameters, or the status (404
    or 405) it answers itself. *)
Class Chi := {
  chi_match : list (string * string) -> string -> string -> nat * (string -> string) + Z
}.

Definition mount (prefix : string) (routes : list Route) : list Route :=
  map (fun '(method, pattern, h) => (method, prefix ++ pattern, h)%string) routes.

Section api.
Context {X : External Db} {S : Storage} {T : MimeTables}.

Definition device_routes : list Route :=
  [("POST", "/", RegisterHandler); ("GET", "/", ListHandler);
   ("DELETE", "/{" ++ RequestKeyDeviceID ++ "}", RevokeHandler)]%string.

Definition note_routes : list Route :=
  [("GET", "/{" ++ RequestKeyNoteID ++ "}", NoteHandler);
   ("GET", "/{" ++ RequestKeyNoteID ++ "}/snapshot", SnapshotHandler)]%string.

Definition upload_routes (up : UploadConfig) : list Route :=
  [("POST", "/initiate", InitiateHandler up); ("GET", "/download-links", DownloadLinksHandler up);
   ("GET", "/{" ++ RequestKeyUploadID ++ "}", GetUploadHandler);
   ("POST", "/{" ++ RequestKeyUploadID ++ "}/complete", CompleteHandler);
   ("POST", "/{" ++ RequestKeyBlockId ++ "}/download-url", DownloadURLHandler up);
   ("DELETE", "/{" ++ RequestKeyUploadID ++ "}", DeleteHandler)]%string.

Definition v1_routes (sv : Service) (up : UploadConfig) : list Route :=
  (mount "/v1/devices" device_routes
   ++ [("POST", "/v1/sync", PushHandler sv); ("POST", "/v1/syncFullNote", FullNoteHandler sv);
       ("GET", "/v1/sync/updates-available", UpdatesAvailableHandler);
       ("GET", "/v1/sync", PullHandler sv)]%string
   ++ mount "/v1/notes" note_routes ++ mount "/v1/uploads" (upload_routes up)).

Definition Ping : M unit := exec Pool no_op.

Definition health (r : http_request) : M served :=
  mret (Wrote (WriteJSON StatusOK (StatusReply "ok"))).

Definition ready (r : http_request) : M served :=
  pinged ← attempt Ping;
  mret (Wrote match pinged with
              | Err _ => WriteError r (ErrAPI (NewError StatusServiceUnavailable CodeInternalError
                                                 "Database is not ready."))
              | Ok _ => WriteJSON StatusOK (StatusReply "ready")
              end).

Definition public_routes : list Route :=
  [("GET", "/health", health); ("GET", "/ready", ready)]%string.

(** Requests below [/v1] pass the middleware of its group whether or not a
    route matches. *)
Definition under_v1 (path : string) : bool :=
  String.eqb path "/v1" || has_prefix path "/v1/".

Context {C : Chi} {J : JwksEndpoint} {P : Peers} {W : JwtLibrary} {D : Deadlines}.
Context {R : RouteContext} {E : Encoder}.

Definition not_routed (status : Z) : served := Wrote (mkHttpResponse status [] None).

Definition dispatch (routes : list Route) : Handler := fun r c =>
  match chi_match (map fst routes) (rq_method r) (rq_path r) with
  | inr status => mret (c, not_routed status)
  | inl (n, params) =>
      match routes !! n with
      | None => mret (c, not_routed StatusNotFound)
      | Some (_, h) => out ← h (with_params r params); mret (c, out)
      end
  end.

Definition buildRouter (cfg : Config) (bus : option Publisher) (v : Verifier) : Handler :=
  RequestID (Recovery (unlogged (RequestLogging (Timeout (RateLimit AllowAllLimiter
    (BodyLimit (MaxCompressedRequestBytes cfg) (fun r c =>
       if under_v1 (rq_path r)
       then Middleware v (dispatch (v1_routes (NewService cfg bus) (NewUploadService cfg))) r c
       else dispatch public_routes r c))))))).

End api.
