(* ===== verification/WebSocketApi.v ===== *)
(** * The WebSocket program

    [buildRouter] of [cmd/websocket/main.go] and the handler of
    [internal/realtime/handler.go] below it.  The socket library's upgrade of a
    connection succeeds, or answers the request itself. *)

From S2P Require Import Prelude GoText Json HttpApi Constants External GoTime Schema.
From S2P Require Import RealtimeHandler Config Auth Http Handlers Api.

Module websocket.

(** The status with which the upgrade at a step is refused, if it is. *)
Class Upgrader := { upgrade : nat -> option Z }.

Section websocket.
Context {X : External Db} {G : Upgrader}.

(** Registering the client with the hub and serving it follow. *)
Definition ServeHTTP (r : http_request) : M served :=
  admitted ← attempt (ServeHTTP_admit (UserIDFromContext r) (rq_query r RequestKeyDeviceID));
  match admitted with
  | Err err => refuse r err
  | Ok (userID, deviceID) =>
      n ← current_step;
      mret match upgrade n with
           | Some status => Wrote (mkHttpResponse status [] None)
           | None => Upgraded userID deviceID
           end
  end.

Definition v1_routes : list Route := [("GET", "/v1/realtime", ServeHTTP)]%string.

Context {C : Chi} {J : JwksEndpoint} {P : Peers} {W : JwtLibrary}.

(** Without the limit on the duration of a request. *)
Definition buildRouter (cfg : Config) (v : Verifier) : Handler :=
  RequestID (Recovery (RateLimit AllowAllLimiter
    (BodyLimit (MaxCompressedRequestBytes cfg) (fun r c =>
       if under_v1 (rq_path r) then Middleware v (dispatch v1_routes) r c
       else dispatch public_routes r c)))).

End websocket.
End websocket.
