(* ===== verification/Programs.v ===== *)
(** * The programs

    The [main] functions of [cmd/api], [cmd/websocket] and [cmd/worker]:
    reading the configuration, opening the database, loading the keys, building
    the storage client, and what each program then runs until it stops. *)

From S2P Require Import Prelude GoText Json HttpApi Constants External GoTime Schema.
From S2P Require Import RealtimeMessage RealtimeBus GoMime GoStrings GoUrl Storage SupabaseClient.
From S2P Require Import UploadService Worker Config Auth Http Logging Api WebSocketApi.

(** ** Opening the database ([store.Open]) *)

(** pgx's connection pools: parsing a connection string, and creating a pool
    with a bound on its connections. *)
Class Pgx := {
  PoolConfig : Type;
  ParseConfig : string -> res PoolConfig;
  NewWithConfig : PoolConfig -> Z -> res unit
}.

(** What LISTEN/NOTIFY makes of a payload. *)
Class Notifier := { pg_notify : json -> res unit }.

(** The key endpoints, by URL. *)
Class Endpoints := { endpoint : string -> JwksEndpoint }.

Section database.
Context {X : External Db} {Q : Pgx}.

Definition Open (cfg : Config) : M Store :=
  poolConfig ← lift (ParseConfig (DatabaseURL cfg));
  _ ← lift (NewWithConfig poolConfig (MaxDBConnections cfg));
  _ ← Ping;
  mret Pool.

End database.

(** ** Starting up *)

Inductive level := LevelDebug | LevelInfo | LevelWarn | LevelError.

(** The level the logger is created with. *)
Definition newLogger (text : string) : level :=
  let text := to_lower (trim_space text) in
  if String.eqb text "debug" then LevelDebug
  else if String.eqb text "warn" then LevelWarn
  else if String.eqb text "error" then LevelError
  else LevelInfo.

(** What a program logs before it exits with status 1. *)
Record fatal := mkFatal { ft_message : string; ft_error : goerr }.

(** A part of [main]: it ends the program or goes on with a value. *)
Definition Main (A : Type) : Type := World -> World * (fatal + A).

#[export] Instance Main_ret : MRet Main := fun A a w => (w, inr a).

#[export] Instance Main_bind : MBind Main := fun A B f m w =>
  match m w with
  | (w', inr a) => f a w'
  | (w', inl e) => (w', inl e)
  end.

(** [if err != nil { logger.Error(message, ...); os.Exit(1) }]. *)
Definition or_exit {A} (message : string) (m : M A) : Main A := fun w =>
  match m w with
  | (w', Ok a) => (w', inr a)
  | (w', Err e) => (w', inl (mkFatal message e))
  end.

(** [http.Server]; durations are in nanoseconds. *)
Record HttpServer := mkHttpServer {
  Addr : string; ReadHeaderTimeout : Z; ReadTimeout : Z; WriteTimeout : Z; IdleTimeout : Z
}.

(** What happens to a server: a request, a signal, the end of
    [ListenAndServe] with an error, or with [http.ErrServerClosed]. *)
Inductive occurrence :=
| Arrives (r : http_request)
| Signalled
| ServerFails (err : goerr)
| ServerClosed.

(** The requests before the server stops. *)
Fixpoint before_stop (events : list occurrence) : list http_request :=
  match events with
  | Arrives r :: rest => r :: before_stop rest
  | _ => []
  end.

(** Answers requests until the server stops; the status the process exits
    with, [None] while it is serving.  Requests in flight when a signal comes
    are those before it. *)
Fixpoint serve (handler : Handler) (events : list occurrence) (c : jwksCache)
    : M (list served * option Z) :=
  match events with
  | [] => mret ([], None)
  | Arrives r :: rest =>
      '(c, out) ← handler r c;
      '(outs, status) ← serve handler rest c;
      mret (out :: outs, status)
  | ServerFails _ :: _ => mret ([], Some 1)
  | Signalled :: _ | ServerClosed :: _ => mret ([], Some 0)
  end.

(** Runs the start-up, then the rest of [main]; exits with 1 when it fails. *)
Definition run_main {A B} (start : Main A) (exited : B) (rest : A -> M B) : M B := fun w =>
  match start w with
  | (w', inl _) => (w', Ok exited)
  | (w', inr a) => rest a w'
  end.

(** ** The API program *)

Module api.

Record Process := mkProcess {
  pr_config : Config; pr_level : level; pr_verifier : Verifier; pr_keys : jwksCache;
  pr_storage : supabase.Client; pr_server : HttpServer
}.

Definition server (cfg : Config) : HttpServer := {|
  Addr := ":" ++ Port cfg;
  ReadHeaderTimeout := 10 * second;
  ReadTimeout := wrap64 (RequestTimeout cfg + 5 * second);
  WriteTimeout := wrap64 (RequestTimeout cfg + 5 * second);
  IdleTimeout := 60 * second
|}%string.

Section api.
Context {X : External Db} {Q : Pgx} {N : Notifier} {K : Endpoints} {P : Peers} {W : JwtLibrary}.
Context {A : Authorities} {V : supabase.Server} {T : MimeTables} {O : MapOrder} {C : Chi}.
Context {D : Deadlines} {R : RouteContext} {E : Encoder}.

(** [env] is the environment, [file] the content of [.env]. *)
Definition start (env : Environ) (file : option string) : Main Process :=
  cfg ← or_exit "load config" (lift (snd (Load env file)));
  _ ← or_exit "open database" (Open cfg);
  '(verifier, keys) ← or_exit "initialize jwt verifier"
    (NewVerifier (J := endpoint (JWTJWKSURL cfg)) (JWTIssuer cfg) (JWTAudience cfg));
  storageClient ← or_exit "initialize Supabase Storage client"
    (lift (supabase.NewClient (SupabaseURL cfg) (SupabaseSecretKey cfg)
             (SupabaseStorageHTTPTimeout cfg)));
  mret (mkProcess cfg (newLogger (LogLevel cfg)) verifier keys storageClient (server cfg)).

(** The event bus over the pool. *)
Definition NewPostgresEventBus : Publisher := fun event =>
  payload ← PublishSyncAvailable true event; pg_notify payload.

Definition router (p : Process) : Handler :=
  buildRouter (S := supabase.as_storage (pr_storage p))
    (J := endpoint (JWTJWKSURL (pr_config p))) (pr_config p) (Some NewPostgresEventBus)
    (pr_verifier p).

Definition main (env : Environ) (file : option string) (events : list occurrence)
    : M (list served * option Z) :=
  run_main (start env file) ([], Some 1) (fun p => serve (router p) events (pr_keys p)).

End api.
End api.

(** ** The WebSocket program *)

Module realtime_server.

(** The listener and the hub run next to the server: WebSocketProcess.v. *)
Record Process := mkProcess {
  pr_config : Config; pr_level : level; pr_verifier : Verifier; pr_keys : jwksCache;
  pr_server : HttpServer
}.

(** Reading and writing are not limited in time. *)
Definition server (cfg : Config) : HttpServer :=
  mkHttpServer (":" ++ WebSocketPort cfg) (10 * second) 0 0 (60 * second).

Section realtime_server.
Context {X : External Db} {Q : Pgx} {K : Endpoints} {P : Peers} {W : JwtLibrary} {O : MapOrder}.
Context {C : Chi} {G : websocket.Upgrader}.

Definition start (env : Environ) (file : option string) : Main Process :=
  cfg ← or_exit "load config" (lift (snd (Load env file)));
  _ ← or_exit "open database" (Open cfg);
  '(verifier, keys) ← or_exit "initialize jwt verifier"
    (NewVerifier (J := endpoint (JWTJWKSURL cfg)) (JWTIssuer cfg) (JWTAudience cfg));
  mret (mkProcess cfg (newLogger (LogLevel cfg)) verifier keys (server cfg)).

Definition router (p : Process) : Handler :=
  websocket.buildRouter (J := endpoint (JWTJWKSURL (pr_config p))) (pr_config p) (pr_verifier p).

End realtime_server.
End realtime_server.

(** ** The worker program *)

Module worker_program.

Record Process := mkProcess {
  pr_config : Config; pr_level : level; pr_storage : supabase.Client
}.

Section worker_program.
Context {X : External Db} {Q : Pgx} {A : Authorities} {V : supabase.Server} {O : MapOrder}.
Context {L : LocalZone}.

Definition start (env : Environ) (file : option string) : Main Process :=
  cfg ← or_exit "load config" (lift (snd (Load env file)));
  _ ← or_exit "open database" (Open cfg);
  storageClient ← or_exit "initialize Supabase Storage client"
    (lift (supabase.NewClient (SupabaseURL cfg) (SupabaseSecretKey cfg)
             (SupabaseStorageHTTPTimeout cfg)));
  mret (mkProcess cfg (newLogger (LogLevel cfg)) storageClient).

(** The loop ends with an error; that the context is cancelled is no failure. *)
Definition main (env : Environ) (file : option string) (cancelled : list bool) : M Z :=
  run_main (start env file) 1 (fun p =>
    wk ← NewWorker EmptyString;
    '(_, err) ← Run (S := supabase.as_storage (pr_storage p)) cancelled
                  (SetCleaner wk (SupabaseStorageCleanupGrace (pr_config p)));
    mret (match err with
          | ErrCanceled => 0
          | _ => 1
          end)).

End worker_program.
End worker_program.
