(* ===== verification/WebSocketProcess.v ===== *)
(** * The WebSocket program as it runs

    [main] of [cmd/websocket/main.go] after its start-up: requests are answered
    or become sockets, the listener hands notifications to the hub, goroutines
    use the hub, and a shutdown stops the server, then the listener, then the
    hub, and waits for the connections. *)

From S2P Require Import Prelude GoText Json HttpApi Constants External GoTime Schema.
From S2P Require Import RealtimeMessage RealtimeClient RealtimeHub RealtimeBus Config Auth Http.
From S2P Require Import Api WebSocketApi Programs.

Module websocket_run.

(** How far [main] has come: serving; the server is shut down; the listener has
    returned; [hub.Close] has closed the hub and closes the connections it
    found; the process is gone. *)
Inductive phase :=
| Serving
| Stopping (status : Z)
| ListenerDone (status : Z)
| HubClosing (status : Z) (found : list ref)
| Exited (status : Z).

Record State := mkState {
  ws_world : World; ws_keys : jwksCache; ws_sys : Sys; ws_phase : phase
}.

Definition initial_state (w : World) (c : jwksCache) : State := mkState w c initial Serving.

(** The socket's client, not yet registered. *)
Definition connect (r : ref) (user : UUID) (device : string) (s : Sys) : Sys :=
  mkSys (s_hub s) (<[r := NewClient user device true]> (s_heap s)) (s_tasks s) (s_known s).

(** [hub.PublishSyncAvailable] begins to send a valid event to the clients it
    found. *)
Definition publish (event : SyncAvailableEvent) (rs : list ref) (s : Sys) : Sys :=
  mkSys (s_hub s) (s_heap s)
    (TFanOut (NewSyncAvailableMessage (Ev_LatestCursor event)) rs :: s_tasks s) (s_known s).

Definition is_fan_out (t : task) : bool :=
  match t with
  | TFanOut _ _ => true
  | _ => false
  end.

Definition publishing (s : Sys) : list task := List.filter is_fan_out (s_tasks s).

(** What the goroutines of connections do, and those that publish: no socket
    is opened, no event arrives, and the hub is not closed. *)
Definition internal (s s' : Sys) : Prop :=
  step s s' /\ dom (s_heap s') = dom (s_heap s) /\
  (length (publishing s') <= length (publishing s))%nat /\
  hub_closed (s_hub s') = hub_closed (s_hub s).

Definition listening (p : phase) : Prop :=
  match p with
  | Serving | Stopping _ => True
  | _ => False
  end.

Definition running (p : phase) : Prop :=
  match p with
  | Exited _ => False
  | _ => True
  end.

Section websocket_run.
Context {X : External Db} {K : Endpoints} {P : Peers} {W : JwtLibrary} {C : Chi}.
Context {G : websocket.Upgrader} (p : realtime_server.Process).

(** Handlers that were accepted before a shutdown may end after it. *)
Inductive advance : State -> State -> Prop :=
| adv_answer w c s ph r w' c' resp :
    running ph -> realtime_server.router p r c w = (w', Ok (c', Wrote resp)) ->
    advance (mkState w c s ph) (mkState w' c' s ph)
| adv_upgrade w c s ph r w' c' user device client :
    running ph -> realtime_server.router p r c w = (w', Ok (c', Upgraded user device)) ->
    s_heap s !! client = None ->
    advance (mkState w c s ph) (mkState w' c' (connect client user device s) ph)
| adv_notify w c s ph payload event rs :
    listening ph -> decodeSyncAvailableEvent payload = Ok event ->
    rs ≡ₚ publish_targets (s_hub s) event ->
    advance (mkState w c s ph) (mkState w c (publish event rs s) ph)
| adv_hub w c s ph s' :
    running ph -> internal s s' -> advance (mkState w c s ph) (mkState w c s' ph)
| adv_stop w c s status :
    status = 0 \/ status = 1 ->
    advance (mkState w c s Serving) (mkState w c s (Stopping status))
| adv_listener_done w c s status :
    publishing s = [] ->
    advance (mkState w c s (Stopping status)) (mkState w c s (ListenerDone status))
| adv_close w c s status h' rs :
    close_section (s_hub s) = Some (h', rs) ->
    advance (mkState w c s (ListenerDone status))
      (mkState w c (mkSys h' (s_heap s) (map TClose rs ++ s_tasks s) (s_known s))
         (HubClosing status rs))
| adv_exit w c s status rs :
    (forall r client, r ∈ rs -> s_heap s !! r = Some client -> cl_closed client = true) ->
    hub_serving (s_hub s) = 0%nat ->
    advance (mkState w c s (HubClosing status rs)) (mkState w c s (Exited status)).

End websocket_run.
End websocket_run.
