(* ===== verification/SupabaseTheorems.v ===== *)
(** * What the storage client guarantees

    The URL of an object names that object and no other, and a signed URL the
    client passes on leads to the configured server, unless the server answered
    with a reference that has an authority but no scheme. *)

From S2P Require Import Prelude GoText GoFloat Json HttpApi External GoMime GoStrings GoUrl.
From S2P Require Import Storage SupabaseClient.

(** ** Definitions the statements use *)

(** What a server reads in the rest of an object URL: segments between slashes,
    each percent-decoded; the bucket comes first. *)
Definition read_object (rest : string) : option (string * string) :=
  segments ← mapM (unescape encodePathSegment) (split rest slash);
  match segments with
  | [] => None
  | bucket :: path => Some (bucket, join path "/")
  end.

Definition valid_bucket (bucket : string) : Prop :=
  supabase.is_blank bucket = false /\ contains_any bucket [slash; backslash] = false.

(** No backslash, and no segment is empty or names a directory. *)
Definition valid_path (path : string) : Prop :=
  contains_any path [backslash] = false /\
  Forall (fun segment => supabase.bad_segment segment = false) (split path slash).

(** *** An example *)

Definition demo_authorities : Authorities := {|
  parseAuthority := fun s => if contains_any s [64] then None else Some (None, s)
|}.

Definition demo_project : string := "https://project.example".

Definition demo_client : supabase.Client :=
  match supabase.NewClient (A := demo_authorities) demo_project "service-secret" 1 with
  | Ok c => c
  | Err _ => supabase.mkClient (mkURL "" "" None "" "" "" false false "" "" "") ""
  end.

Definition demo_server : supabase.Server := {|
  supabase.reply_to := fun _ r =>
    let ok v := supabase.Replied StatusOK (Some (64, v)) in
    if String.eqb (supabase.sr_method r) "GET"
    then ok (JObj [("size", JStr "12"); ("metadata", JObj [("mimetype", JStr "application/pdf")])]%string)
    else if String.eqb (supabase.sr_method r) "DELETE" then supabase.Replied StatusNoContent None
    else ok (JObj [("url", JStr "/object/upload/sign/documents/notes/n%2Ffile.pdf?token=upload-token");
                   ("signedURL", JStr "/object/sign/documents/notes/f.pdf?token=download-token")]%string)
|}.

Example demo_upload :
  supabase.CreateSignedUploadURL (A := demo_authorities) (V := demo_server) demo_client 0 "documents"
    "notes/file.pdf"
  = Ok (mkSignedUpload
      "https://project.example/storage/v1/object/upload/sign/documents/notes/n/file.pdf?token=upload-token"
      "upload-token").
Proof. vm_compute. reflexivity. Qed.

Example demo_info :
  supabase.GetObjectInfo (A := demo_authorities) (V := demo_server) demo_client 0 "documents" "f" =
  Ok (mkObjectInfo 12 "application/pdf").
Proof. vm_compute. reflexivity. Qed.

Example demo_delete :
  supabase.DeleteObject (A := demo_authorities) (V := demo_server) demo_client 0 "documents" "f" = Ok tt.
Proof. vm_compute. reflexivity. Qed.

Example demo_path :
  supabase.objectURL demo_client "/object" "my bucket" "notes/a b?.pdf"
  = Ok "https://project.example/storage/v1/object/my%20bucket/notes/a%20b%3F.pdf"%string.
Proof. vm_compute. reflexivity. Qed.

(** A reference with an authority of its own passes. *)
Example signed_url_of_another_host :
  supabase.resolveSignedURL (A := demo_authorities) demo_client "//evil.example/storage/v1/o?token=t"
  = Ok ("https://evil.example/storage/v1/o?token=t", "t")%string.
Proof. vm_compute. reflexivity. Qed.

(** ** Lemmas *)

Lemma slash_text : of_bytes [slash] = "/"%string.
Proof. done. Qed.

Lemma PathEscape_no_slash s : slash ∉ bytes_of (PathEscape s).
Proof.
  intros Hin. pose proof (PathEscape_segment s) as H. rewrite Forall_forall in H.
  by apply H, segment_byte_no_slash in Hin.
Qed.

Lemma read_object_escaped bucket segments :
  segments <> [] ->
  read_object (PathEscape bucket ++ "/" ++ join (map PathEscape segments) "/")
  = Some (bucket, join segments "/").
Proof.
  intros Hne.
  assert (E : (PathEscape bucket ++ "/" ++ join (map PathEscape segments) "/")%string
              = join (map PathEscape (bucket :: segments)) (of_bytes [slash])).
  { rewrite <- (of_bytes_of (PathEscape bucket ++ _)). unfold join at 2. f_equal.
    rewrite !bytes_of_app, bytes_of_join. destruct segments; [done|]. done. }
  unfold read_object. rewrite E, split_join; [|unfold is_byte, slash; lia|done|].
  - assert (mapM (unescape encodePathSegment) (map PathEscape (bucket :: segments))
            = Some (bucket :: segments)) as ->; [|done].
    apply mapM_Some. apply Forall2_fmap_l, Forall_Forall2_diag, Forall_true.
    intros s. apply unescape_escape.
  - rewrite Forall_fmap. apply Forall_true. intros s. apply PathEscape_no_slash.
Qed.

(** A slash at either end leaves an empty segment. *)
Lemma split_bytes_trailing sep bs :
  exists parts, parts <> [] /\ split_bytes sep (bs ++ [sep]) = parts ++ [[]].
Proof.
  induction bs as [|b bs (parts & Hne & E)]; cbn.
  - rewrite Z.eqb_refl. by exists [[]].
  - rewrite E. case_match; [by exists ([] :: parts)|]. destruct parts as [|part parts]; [done|].
    by exists ((b :: part) :: parts).
Qed.

Lemma has_prefix_slash s : has_prefix s "/" = true -> exists r, bytes_of s = slash :: r.
Proof.
  unfold has_prefix. change (bytes_of "/") with [slash]. destruct (bytes_of s) as [|b r]; [done|].
  cbn [strip_prefix]. destruct (Z.eqb_spec slash b) as [->|_]; [by exists r|done].
Qed.

Lemma has_suffix_slash s : has_suffix s "/" = true -> exists r, bytes_of s = r ++ [slash].
Proof.
  unfold has_suffix. change (reverse (bytes_of "/")) with [slash].
  destruct (reverse (bytes_of s)) as [|b r] eqn:E; [done|]. cbn [strip_prefix].
  destruct (Z.eqb_spec slash b) as [->|_]; [|done]. intros _. exists (reverse r).
  by rewrite <- (reverse_involutive (bytes_of s)), E, reverse_cons.
Qed.

Lemma empty_segment_invalid path : [] ∈ split_bytes slash (bytes_of path) -> ~ valid_path path.
Proof.
  intros Hin [_ H]. rewrite Forall_forall in H.
  assert (Hm : EmptyString ∈ split path slash).
  { unfold split. apply list_elem_of_fmap. by exists []. }
  by apply H in Hm.
Qed.

(** The checks of the source, on the whole path and on its segments. *)
Lemma escapeObjectPath_spec path :
  match supabase.escapeObjectPath path with
  | Ok escaped => valid_path path /\ escaped = join (map PathEscape (split path slash)) "/"
  | Err _ => ~ valid_path path
  end.
Proof.
  unfold supabase.escapeObjectPath. destruct (_ || has_suffix _ _) eqn:E.
  - rewrite !orb_true_iff in E. destruct E as [[[E|E]|E]|E].
    + apply String.eqb_eq in E as ->. apply empty_segment_invalid. by left.
    + intros [H _]. congruence.
    + apply has_prefix_slash in E as [r E]. apply empty_segment_invalid. rewrite E. by left.
    + apply has_suffix_slash in E as [r E]. apply empty_segment_invalid. rewrite E.
      destruct (split_bytes_trailing slash r) as (parts & _ & ->). apply elem_of_app. right. by left.
  - rewrite !orb_false_iff in E. destruct E as [[[_ Hb] _] _]. destruct (existsb _ _) eqn:Hs.
    + intros [_ H]. apply existsb_exists in Hs as (x & Hx%list_elem_of_In & Hbad).
      rewrite Forall_forall in H. apply H in Hx. congruence.
    + split; [|done]. split; [done|]. apply Forall_forall. intros x Hx.
      apply not_true_iff_false. intros Hbad. apply not_true_iff_false in Hs.
      apply Hs, existsb_exists. exists x. by rewrite <- list_elem_of_In.
Qed.

(** *** Signed URLs *)

Section signed.
Context {A : Authorities}.

Lemma setPath_fields u p u' :
  setPath u p = Some u' ->
  Scheme u' = Scheme u /\ Opaque u' = Opaque u /\ User u' = User u /\ Host u' = Host u.
Proof.
  unfold setPath. destruct (decoded_form _ _) as [[path raw]|]; [|done]. by intros [= <-].
Qed.

(** An opaque URL has a scheme and no host. *)
Lemma url_Parse_opaque raw u :
  url_Parse raw = Some u -> Opaque u = EmptyString \/ IsAbs u = true /\ Host u = EmptyString.
Proof.
  intros H. assert (exists v, parse_url (cut_or raw hash).1 = Some v /\ Opaque u = Opaque v /\
    Scheme u = Scheme v /\ Host u = Host v) as (v & Hv & -> & Hs & ->).
  { unfold url_Parse in H. destruct (cut_or raw hash) as [t frag]. cbn [fst].
    destruct (parse_url t) as [v|]; [|done]. exists v. split; [done|]. cbn in H.
    case_match; [by injection H as <-|]. destruct (decoded_form _ _) as [[]|]; [|done].
    by injection H as <-. }
  unfold IsAbs. rewrite Hs. clear H Hs. unfold parse_url in Hv. case_match; [done|].
  case_match; [injection Hv as <-; by left|].
  destruct (scheme_bytes _ _ _) as [[scheme rest]|]; [|done]. cbn [mbind option_bind] in Hv.
  destruct (split_query _) as [[rest' query] force]. cbv zeta in Hv.
  destruct (negb (has_prefix rest' "/") && negb _) eqn:E.
  { injection Hv as <-. right. by apply andb_true_iff in E as [_ E]. }
  case_match; [done|]. case_match.
  - destruct (split_authority _) as [authority path]. destruct (parseAuthority _) as [[user host]|]; [|done].
    cbn in Hv. apply setPath_fields in Hv as (_ & -> & _). by left.
  - apply setPath_fields in Hv as (_ & -> & _). by left.
Qed.

Lemma set_path_fields u p :
  Scheme (set_path u p) = Scheme u /\ Host (set_path u p) = Host u.
Proof.
  unfold set_path. destruct (setPath u p) as [u'|] eqn:E; [|done].
  apply setPath_fields in E. cbn. tauto.
Qed.

(** Resolving keeps the base's host unless the reference has an authority. *)
Lemma ResolveReference_host u ref :
  Opaque u = EmptyString -> Opaque ref = EmptyString -> IsAbs ref = false ->
  let r := ResolveReference u ref in
  Scheme r = Scheme u /\
  (Host r = Host u \/ (Host ref <> EmptyString \/ User ref <> None) /\ Host r = Host ref).
Proof.
  intros Hu Href Habs. cbv zeta. unfold ResolveReference. rewrite Habs, Hu, Href. cbn [orb].
  destruct (negb _ || negb _) eqn:E.
  - destruct (set_path_fields (mkURL (Scheme u) EmptyString (User ref) (Host ref) (Path ref)
      (RawPath ref) (OmitHost ref) (ForceQuery ref) (RawQuery ref) (Fragment ref) (RawFragment ref))
      (resolvePath (EscapedPath ref) EmptyString)) as [-> ->].
    split; [done|]. right. split; [|done]. apply orb_true_iff in E as [E|E].
    + left. by apply negb_true_iff, String.eqb_neq in E.
    + right. by apply negb_true_iff, bool_decide_eq_false in E.
  - cbn [negb String.eqb andb]. rewrite andb_false_r.
    match goal with |- context [set_path ?v ?p] => destruct (set_path_fields v p) as [-> ->] end.
    by split; [|left].
Qed.

Lemma NewClient_base projectURL secret timeout c :
  supabase.NewClient projectURL secret timeout = Ok c ->
  let base := supabase.baseURL c in
  IsAbs base = true /\ Host base <> EmptyString /\ User base = None /\ Opaque base = EmptyString.
Proof.
  unfold supabase.NewClient. do 2 (case_match; [done|]).
  destruct (url_Parse _) as [base|] eqn:Hp; [|done]. cbv zeta.
  destruct (_ || negb (supabase.is_empty (Fragment base))) eqn:E; [done|]. intros [= <-]. cbn.
  rewrite !orb_false_iff in E. destruct E as [[[[E1 E2] E3] _] _].
  apply String.eqb_neq in E1 as E1', E2. apply negb_false_iff, bool_decide_eq_true in E3.
  unfold IsAbs. cbn. rewrite (proj2 (String.eqb_neq _ _) E1'). split_and!; try done.
  by destruct (url_Parse_opaque _ _ Hp) as [?|[_ ?]].
Qed.

Lemma resolve_relative_host base parsed :
  Opaque base = EmptyString -> Opaque parsed = EmptyString -> IsAbs parsed = false ->
  let u := supabase.resolve_relative base parsed in
  Scheme u = Scheme base /\
  (Host u = Host base \/
   (Host parsed <> EmptyString \/ User parsed <> None) /\ Host u = Host parsed).
Proof.
  intros Hb Hp Ha. cbv zeta. unfold supabase.resolve_relative. case_match; [|case_match].
  - by apply (ResolveReference_host (with_path base EmptyString EmptyString)).
  - match goal with |- context [ResolveReference base ?r] =>
      destruct (ResolveReference_host base r Hb eq_refl eq_refl) as [-> [->|[[?|?] ->]]] end;
      try done. by split; [|left].
  - by apply ResolveReference_host.
Qed.

Lemma key_matches_refl s : key_matches s s = true.
Proof. by apply bool_decide_eq_true. Qed.

End signed.

(** ** Theorems *)

(** C28: the client builds the URL of an object exactly when the bucket is one
    name that is not blank, and the path has no backslash and no segment that is
    empty, [.] or [..]; any other pair is refused.  The URL is the configured one
    followed by escaped segments, without a character that ends a path, and
    reading the segments back yields the bucket and the path: no other object has
    the same URL. *)
Theorem object_urls_name_objects (c : supabase.Client) (prefix bucket path : string) :
  match supabase.objectURL c prefix bucket path with
  | Ok url =>
      valid_bucket bucket /\ valid_path path /\
      exists rest,
        url = (trim_right_char slash (url_String (supabase.baseURL c)) ++ prefix ++ "/" ++ rest)%string /\
        read_object rest = Some (bucket, path) /\
        Forall (fun b => segment_byte b \/ b = slash) (bytes_of rest)
  | Err _ => ~ (valid_bucket bucket /\ valid_path path)
  end.
Proof.
  unfold supabase.objectURL. destruct (_ || contains_any _ _) eqn:Hb.
  { intros [[H1 H2] _]. rewrite H1, H2 in Hb. done. }
  pose proof (escapeObjectPath_spec path) as Hp.
  destruct (supabase.escapeObjectPath path) as [escaped|e]; cbn [mbind res_bind]; [|tauto].
  apply orb_false_iff in Hb. destruct Hp as [Hp ->]. split_and!; [done..|].
  eexists. split_and!; [reflexivity|..].
  - rewrite read_object_escaped.
    + do 2 f_equal. rewrite <- slash_text. apply join_split. unfold is_byte, slash. lia.
    + unfold split. pose proof (split_bytes_some slash (bytes_of path)). by destruct (split_bytes _ _).
  - rewrite !bytes_of_app, bytes_of_join, !Forall_app. split_and!.
    + eapply Forall_impl; [apply PathEscape_segment|]. auto.
    + apply Forall_singleton. by right.
    + apply join_bytes_all; [apply Forall_singleton; by right|]. rewrite map_map, Forall_fmap.
      apply Forall_true. intros s. eapply Forall_impl; [apply PathEscape_segment|]. cbn. auto.
Qed.

(** C29: a signed URL that the client passes on carries a token and the scheme of
    the configured project, and its host is the configured one up to case,
    unless the server answered with a reference that has an authority but no
    scheme: such a reference keeps its own host. *)
Theorem signed_urls_lead_to_storage {A : Authorities} (projectURL secret raw text token : string)
    (timeout : Z) (c : supabase.Client)
    (Hclient : supabase.NewClient projectURL secret timeout = Ok c)
    (Hrun : supabase.resolveSignedURL c raw = Ok (text, token)) :
  exists u parsed, text = url_String u /\ token = query_get u "token" /\ token <> EmptyString /\
    url_Parse raw = Some parsed /\ Scheme u = Scheme (supabase.baseURL c) /\
    (key_matches (Host u) (Host (supabase.baseURL c)) = true \/
     IsAbs parsed = false /\ (Host parsed <> EmptyString \/ User parsed <> None) /\
     Host u = Host parsed).
Proof.
  destruct (NewClient_base _ _ _ _ Hclient) as (_ & _ & _ & Hbase). clear Hclient.
  unfold supabase.resolveSignedURL in Hrun. case_match; [done|].
  destruct (url_Parse raw) as [parsed|] eqn:Hparsed; [|done].
  destruct (IsAbs parsed && _) eqn:Hforeign; [done|]. cbv zeta in Hrun.
  set (u := if IsAbs parsed then parsed else _) in Hrun. case_match eqn:Htoken; [done|].
  injection Hrun as <- <-. exists u, parsed. apply String.eqb_neq in Htoken.
  split_and!; try done; subst u; destruct (IsAbs parsed) eqn:Habs; cbn [andb] in Hforeign.
  - apply orb_false_iff in Hforeign as [Hs _]. by apply negb_false_iff, String.eqb_eq in Hs.
  - apply resolve_relative_host; [done| |done].
    destruct (url_Parse_opaque _ _ Hparsed) as [?|[? _]]; [done|congruence].
  - apply orb_false_iff in Hforeign as [_ Hh]. left. by apply negb_false_iff in Hh.
  - assert (Opaque parsed = EmptyString) as Ho.
    { destruct (url_Parse_opaque _ _ Hparsed) as [?|[? _]]; [done|congruence]. }
    destruct (resolve_relative_host _ _ Hbase Ho Habs) as [_ [->|Hu]]; [left|right].
    + apply key_matches_refl.
    + by split.
Qed.

(** The server of another host, named without a scheme. *)
Lemma signed_urls_lead_to_storage_witness :
  exists u, "https://evil.example/storage/v1/o?token=t"%string = url_String u /\
    query_get u "token" = "t"%string /\ Scheme u = "https"%string.
Proof.
  assert (Hc : supabase.NewClient (A := demo_authorities) demo_project "service-secret" 1
               = Ok demo_client) by (vm_compute; reflexivity).
  destruct (signed_urls_lead_to_storage (A := demo_authorities) demo_project "service-secret"
    "//evil.example/storage/v1/o?token=t" "https://evil.example/storage/v1/o?token=t" "t" 1
    demo_client Hc ltac:(vm_compute; reflexivity)) as (u & _ & H1 & H2 & _ & _ & H3 & _).
  exists u. split; [exact H1|]. split; [symmetry; exact H2|]. rewrite H3. vm_compute. reflexivity.
Defined.
