(* ===== verification/UploadFacts.v ===== *)
(** * The lifecycle of an upload

    The state machine the conditional updates of UploadStore.v implement, as a
    relation between database states, and the proof that every operation of
    the service and of the cleanup job moves along it whenever the other
    clients do (rely and guarantee are the same relation). *)

From S2P Require Import Prelude GoText Json HttpApi Constants External Schema Queries DbInvariant.
From S2P Require Import Store Frame GoMime UploadStore Storage UploadService Cleanup.

Import ustore.

(** ** The state machine *)

Inductive status_move : string -> string -> Prop :=
| move_completed : status_move StatusPending StatusCompleted
| move_failed : status_move StatusPending StatusFailed
| move_expired : status_move StatusPending StatusExpired
| move_cancelled s : s <> StatusDeleted -> status_move s StatusCancelled
| move_deleted s : s <> StatusDeleted -> status_move s StatusDeleted.

(** The columns no statement changes. *)
Record upload_identity := mkUploadIdentity {
  ui_id : UUID; ui_note : UUID; ui_owner : UUID; ui_block : UUID; ui_filename : string;
  ui_bucket : string; ui_path : string; ui_type : string; ui_size : Z; ui_expires : Time;
  ui_created : Time; ui_cursor : Z; ui_device : option string
}.

Definition identity_of (u : db.FileUpload) : upload_identity :=
  mkUploadIdentity (db.up_id u) (db.up_note_id u) (db.up_owner_id u) (db.up_block_id u)
    (db.up_original_filename u) (db.up_storage_bucket u) (db.up_storage_path u)
    (db.up_content_type u) (db.up_expected_size u) (db.up_expires_at u) (db.up_created_at u)
    (db.up_cursor u) (db.up_device_id u).

(** The type recorded on completion: the declared one, as the service or as
    the cleanup job normalises it. *)
Definition type_matches (declared : string) (verified : option string) : Prop :=
  verified = Some declared \/ verified = text_param (normalizedType declared).

(** A row under its key; a completed one was verified. *)
Definition upload_ok (id : UUID) (u : db.FileUpload) : Prop :=
  db.up_id u = id /\ id <> uuid_Nil /\
  (db.up_status u = StatusCompleted ->
   db.up_actual_size u = Some (db.up_expected_size u) /\
   type_matches (db.up_content_type u) (db.up_verified_content_type u)).

Definition uploads_ok (d : Db) : Prop :=
  forall id u, file_uploads d !! id = Some u -> upload_ok id u.

Record lifecycle (d d' : Db) : Prop := mkLifecycle {
  lc_ok : uploads_ok d -> uploads_ok d';
  lc_rows : forall id u, file_uploads d !! id = Some u ->
    exists u', file_uploads d' !! id = Some u' /\ identity_of u' = identity_of u /\
      rtc status_move (db.up_status u) (db.up_status u');
  lc_new : forall id u', file_uploads d' !! id = Some u' -> file_uploads d !! id = None ->
    upload_seq d < db.up_cursor u' <= upload_seq d';
  lc_seq : upload_seq d <= upload_seq d'
}.

(** Following the lifecycle from the states that satisfy [P]; [P] must be
    something the lifecycle keeps. *)
Definition given (P : Db -> Prop) (d d' : Db) : Prop := P d -> lifecycle d d'.

Class Stable (P : Db -> Prop) : Prop := stable : forall d d', lifecycle d d' -> P d -> P d'.

(** The row of the upload [i] exists. *)
Definition has_row (i : upload_identity) (d : Db) : Prop :=
  exists u, file_uploads d !! ui_id i = Some u /\ identity_of u = i.

(** ** The relation *)

#[export] Instance lifecycle_preorder : PreOrder lifecycle.
Proof.
  split.
  - intros d. split; [done| |congruence|lia].
    intros id u Hu. exists u. split_and!; [done|done|apply rtc_refl].
  - intros d1 d2 d3 [Ho1 Hr1 Hn1 Hs1] [Ho2 Hr2 Hn2 Hs2]. split; [auto| | |lia].
    + intros id u (u2 & (u3 & ? & ? & ?)%Hr2 & ? & ?)%Hr1. exists u3.
      split_and!; [done|congruence|by transitivity (db.up_status u2)].
    + intros id u3 H3 H1. destruct (file_uploads d2 !! id) as [u2|] eqn:H2.
      * destruct (Hr2 _ _ H2) as (u3' & H3' & Hi & _). assert (u3' = u3) as -> by congruence.
        apply (f_equal ui_cursor) in Hi. cbn in Hi. rewrite Hi.
        specialize (Hn1 _ _ H2 H1). lia.
      * specialize (Hn2 _ _ H3 H2). lia.
Qed.

(** States that agree on uploads and advance the sequence. *)
Lemma lifecycle_same d d' :
  file_uploads d' = file_uploads d -> upload_seq d <= upload_seq d' -> lifecycle d d'.
Proof.
  intros He Hs. split; [unfold uploads_ok; by rewrite He| | |done].
  - intros id u Hu. exists u. rewrite He. split_and!; [done|done|apply rtc_refl].
  - intros id u'. rewrite He. congruence.
Qed.

#[export] Instance lifecycle_rollable : Rollable lifecycle.
Proof. split; [apply _|]. intros d0 d [_ _ _ Hs]. by apply lifecycle_same. Qed.

Lemma sat_given P {A} (m : M A) : sat (on_db lifecycle) m -> sat (on_db (given P)) m.
Proof. intros Hm w w' r H _. by eapply Hm. Qed.

#[export] Instance has_row_stable i : Stable (has_row i).
Proof.
  intros d d' [_ Hr _ _] (u & Hu & Hi). destruct (Hr _ _ Hu) as (u' & ? & Hi' & _).
  exists u'. split; [done|congruence].
Qed.

#[export] Instance uploads_ok_stable : Stable uploads_ok.
Proof. intros d d' H. apply (lc_ok _ _ H). Qed.

#[export] Instance given_rollable P `{!Stable P} : Rollable (given P).
Proof.
  split; [split|].
  - intros d _. reflexivity.
  - intros d1 d2 d3 H1 H2 Hd. transitivity d2; [auto|]. apply H2. eapply stable; eauto.
  - intros d0 d H Hd. apply lifecycle_same; [done|]. apply (lc_seq _ _ (H Hd)).
Qed.

#[export] Instance given_others {X : External Db} `{!OthersKeep lifecycle} P : OthersKeep (given P).
Proof. intros n d _. apply others_keep. Qed.

Lemma keeps_given P {A} (q : Stmt A) : keeps lifecycle q -> keeps (given P) q.
Proof. intros Hq now d d' a H _. by eapply Hq. Qed.

(** A conditional update of one row. *)
Lemma lifecycle_update d id u u' :
  file_uploads d !! id = Some u -> identity_of u' = identity_of u ->
  status_move (db.up_status u) (db.up_status u') ->
  (upload_ok id u -> upload_ok id u') -> lifecycle d (set_uploads <[id := u']> d).
Proof.
  intros Hu Hi Hm Hok. split; cbn; [| | |lia].
  - intros H id' x Hx. cbn in Hx. lookup_cases Hx; [|by apply H]. apply Hok, H, Hu.
  - intros id' x Hx. destruct (decide (id = id')) as [<-|Hne].
    + exists u'. rewrite lookup_insert_eq. assert (x = u) as -> by congruence.
      split_and!; [done|done|by apply rtc_once].
    + exists x. rewrite lookup_insert_ne by done. split_and!; [done|done|apply rtc_refl].
  - intros id' x Hx Hn. lookup_cases Hx; congruence.
Qed.

Lemma lifecycle_insert d id u :
  file_uploads d !! id = None -> id <> uuid_Nil -> db.up_id u = id ->
  db.up_status u = StatusPending -> db.up_cursor u = upload_seq d + 1 ->
  lifecycle d (with_sequences (change_seq d) (job_seq d) (upload_seq d + 1)
                 (set_uploads <[id := u]> d)).
Proof.
  intros Hn Hnil Hid Hs Hc. split; cbn; [| | |lia].
  - intros H id' x Hx. cbn in Hx. lookup_cases Hx; [|by apply H].
    split_and!; [done|done|]. by rewrite Hs.
  - intros id' x Hx. exists x. rewrite lookup_insert_ne by congruence.
    split_and!; [done|done|apply rtc_refl].
  - intros id' x Hx Hnone. lookup_cases Hx; [lia|congruence].
Qed.

(** ** Statements *)

Lemma owned_upload_Some d id owner u :
  uq.owned_upload d id owner = Some u <-> file_uploads d !! id = Some u /\ db.up_owner_id u = owner.
Proof.
  unfold uq.owned_upload. destruct (file_uploads d !! id) as [u0|]; cbn; [|naive_solver].
  destruct (N.eqb_spec (db.up_owner_id u0) owner); naive_solver.
Qed.

Lemma update_one_Ok id found may f d d' u' :
  uq.update_one id found may f d = Ok (d', u') <->
  exists u, found = Some u /\ may u = true /\ u' = f u /\ d' = set_uploads <[id := u']> d.
Proof.
  unfold uq.update_one. destruct found as [u|]; [|by split; [|intros (? & ? & _)]].
  destruct (may u) eqn:E; [|split; [done|intros (? & [= <-] & ? & _); congruence]]. split; [intros [= <- <-]; eauto 6|].
  by intros (? & [= <-] & _ & -> & ->).
Qed.

Lemma has_status_spec s u : uq.has_status s u = true <-> db.up_status u = s.
Proof. apply String.eqb_eq. Qed.

Lemma not_has_status_spec s u : negb (uq.has_status s u) = true <-> db.up_status u <> s.
Proof. rewrite negb_true_iff. apply String.eqb_neq. Qed.

Section statements.
Context {X : External Db}.

Lemma keeps_MarkFileUploadFailed id owner err :
  keeps lifecycle (uq.MarkFileUploadFailed id owner err).
Proof.
  intros now d d' u' (u & [Hu _]%owned_upload_Some & Hs%has_status_spec & -> & ->)%update_one_Ok.
  eapply lifecycle_update; [done|done|rewrite Hs; constructor|]. by intros (? & ? & _).
Qed.

Lemma keeps_MarkFileUploadExpired id err : keeps lifecycle (uq.MarkFileUploadExpired id err).
Proof.
  intros now d d' u' (u & Hu & Hs%has_status_spec & -> & ->)%update_one_Ok.
  eapply lifecycle_update; [done|done|rewrite Hs; constructor|]. by intros (? & ? & _).
Qed.

Lemma keeps_MarkFileUploadCancelled id owner :
  keeps lifecycle (uq.MarkFileUploadCancelled id owner).
Proof.
  intros now d d' u' (u & [Hu _]%owned_upload_Some & Hs%not_has_status_spec & -> & ->)%update_one_Ok.
  eapply lifecycle_update; [done|done|by constructor|]. by intros (? & ? & _).
Qed.

Lemma keeps_MarkFileUploadDeleted id owner : keeps lifecycle (uq.MarkFileUploadDeleted id owner).
Proof.
  intros now d d' u' (u & [Hu _]%owned_upload_Some & Hs%not_has_status_spec & -> & ->)%update_one_Ok.
  eapply lifecycle_update; [done|done|by constructor|]. by intros (? & ? & _).
Qed.

(** Completing is legal with the values verified against the row. *)
Lemma keeps_CompleteFileUpload i owner verified :
  type_matches (ui_type i) verified ->
  keeps (given (has_row i)) (uq.CompleteFileUpload (ui_id i) owner (ui_size i) verified).
Proof.
  intros Hv now d d' u' H (u0 & Hu0 & <-). unfold uq.CompleteFileUpload in H.
  destruct (uq.update_one _ _ _ _ _) as [[d1 u1]|] eqn:E; [|done]. case_match; [done|].
  injection H as <- <-.
  apply update_one_Ok in E as (u & [Hu _]%owned_upload_Some & Hs%has_status_spec & -> & ->).
  assert (u = u0) as -> by (cbn in *; congruence).
  eapply lifecycle_update; [done|done|rewrite Hs; constructor|].
  intros (? & ? & _). by split_and!.
Qed.

Lemma CreateFileUpload_Ok id note owner block fname bucket path ctype size expires dev now d d' u :
  uq.CreateFileUpload id note owner block fname bucket path ctype size expires dev now d
    = Ok (d', u) ->
  exists t, expires = Some t /\ file_uploads d !! id = None /\
    u = uq.new_upload id note owner block fname bucket path ctype size t dev (upload_seq d + 1) now /\
    d' = with_sequences (change_seq d) (job_seq d) (upload_seq d + 1) (set_uploads <[id := u]> d) /\
    uq.note_of_owner d note owner = true /\ uq.block_of_note d block note = true.
Proof.
  unfold uq.CreateFileUpload. destruct expires as [t|]; [|done].
  case_match; [done|]. case_match; [done|]. case_match eqn:Hu; [done|]. case_match eqn:Hr; [|done].
  to_prop. intros [= <- <-]. exists t. split_and!; try done.
  by apply eq_None_not_Some.
Qed.

Lemma keeps_CreateFileUpload id note owner block fname bucket path ctype size expires dev :
  id <> uuid_Nil ->
  keeps lifecycle (uq.CreateFileUpload id note owner block fname bucket path ctype size expires dev).
Proof.
  intros Hid now d d' u (t & _ & Hn & -> & -> & _)%CreateFileUpload_Ok. by apply lifecycle_insert.
Qed.

Lemma reads_CountPendingFileUploads owner : reads (uq.CountPendingFileUploads owner).
Proof. by intros now d d' a [= -> _]. Qed.

Lemma reads_GetFileUploadForOwner id owner : reads (uq.GetFileUploadForOwner id owner).
Proof. apply (reads_one (fun d => uq.owned_upload d id owner)). Qed.

Lemma reads_GetFileUploadForBlockForOwner id owner :
  reads (uq.GetFileUploadForBlockForOwner id owner).
Proof. apply (reads_one (fun d => head (sort_by uq.latest_cursor_first _))). Qed.

Lemma reads_ListFileUploadsAfterCursor owner c : reads (uq.ListFileUploadsAfterCursor owner c).
Proof. by intros now d d' a [= -> _]. Qed.

Lemma reads_ListExpiredFileUploads c l : reads (uq.ListExpiredFileUploads c l).
Proof.
  intros now d d' a. unfold uq.ListExpiredFileUploads. destruct c; [|by intros [= -> _]].
  case_match; [done|]. by intros [= -> _].
Qed.

Lemma reads_GetDeviceForOwner id owner : reads (q.GetDeviceForOwner id owner).
Proof. apply (reads_one (fun d => q.owned_device d id owner)). Qed.

End statements.

#[export] Hint Resolve keeps_MarkFileUploadFailed keeps_MarkFileUploadExpired
  keeps_MarkFileUploadCancelled keeps_MarkFileUploadDeleted keeps_CreateFileUpload
  keeps_CompleteFileUpload keeps_given reads_CountPendingFileUploads reads_GetFileUploadForOwner
  reads_GetFileUploadForBlockForOwner reads_ListFileUploadsAfterCursor
  reads_ListExpiredFileUploads reads_GetDeviceForOwner : frame.

Lemma sat_call R `{!Rollable R} {A} (f : nat -> res A) : sat (on_db R) (call f).
Proof. intros w w' r [= <- _]. unfold on_db. reflexivity. Qed.

#[export] Hint Resolve sat_call : frame.

Lemma one_row_Ok {X : External Db} (q : Stmt db.FileUpload) w w' e :
  one_row Pool q w = (w', Ok e) ->
  exists d u, q (clock (w_step w)) (others (w_step w) (w_db w)) = Ok (d, u) /\
    w' = set_db d (tick w) /\ e = fromDBFileUpload u.
Proof.
  unfold one_row. intros H. m_inv H. apply mret_Ok in H as [-> ->].
  apply map_err_Ok in Hrun. apply exec_pool_Ok in Hrun as (d & Hq & ->). eauto.
Qed.

(** Reading an upload: the row is in the database then. *)
Lemma GetFileUploadForOwner_Ok {X : External Db} id o w w' e :
  GetFileUploadForOwner Pool id o w = (w', Ok e) ->
  exists u, file_uploads (w_db w') !! id = Some u /\ db.up_owner_id u = o /\
    e = fromDBFileUpload u /\ w_db w' = others (w_step w) (w_db w).
Proof.
  intros (d & u & [-> Hu]%one_Ok & -> & ->)%one_row_Ok.
  apply owned_upload_Some in Hu as [Hu Ho]. exists u. done.
Qed.

(** ** Operations *)

(** The entity is a reading of the upload [i]. *)
Definition reads_as (i : upload_identity) (e : FileUpload) : Prop :=
  Up_ID e = ui_id i /\ Up_ExpectedSize e = ui_size i /\ Up_ContentType e = ui_type i /\
  Up_StorageBucket e = ui_bucket i /\ Up_StoragePath e = ui_path i.

Lemma reads_as_row u : reads_as (identity_of u) (fromDBFileUpload u).
Proof. done. Qed.

Section operations.
Context {X : External Db} {S : Storage} {T : MimeTables} (sv : UploadConfig).

Lemma sat_ValidateUploadTarget R `{!Rollable R} `{!OthersKeep R} n b o :
  sat (on_db R) (store.ValidateUploadTarget Pool n b o).
Proof.
  unfold store.ValidateUploadTarget, store.GetNoteForOwner, store.GetBlockForNoteForUpdate.
  frame_walk.
Qed.

Lemma sat_validateDevice R `{!Rollable R} `{!OthersKeep R} o dev :
  sat (on_db R) (validateDevice o dev).
Proof. unfold validateDevice, store.GetDeviceForOwner. frame_walk. Qed.

Lemma sat_download_link R `{!Rollable R} e : sat (on_db R) (download_link sv e).
Proof. unfold download_link, CreateSignedDownloadURL. frame_walk. Qed.

Hint Resolve sat_ValidateUploadTarget sat_validateDevice sat_download_link : frame.

Lemma sat_GetFileUploadForOwner R `{!Rollable R} `{!OthersKeep R} id o :
  sat (on_db R) (GetFileUploadForOwner Pool id o).
Proof. unfold GetFileUploadForOwner, one_row. frame_walk. Qed.

Hint Resolve sat_GetFileUploadForOwner : frame.

Lemma sat_download_links R `{!Rollable R} `{!OthersKeep R} o dev es links next :
  sat (on_db R) (download_links sv o dev es links next).
Proof.
  revert links next. induction es as [|e es IH]; intros; cbn [download_links]; frame_walk.
Qed.

Hint Resolve sat_download_links : frame.

Lemma sat_DownloadURLs R `{!Rollable R} `{!OthersKeep R} o dev c :
  sat (on_db R) (DownloadURLs sv o dev c).
Proof. unfold DownloadURLs, ListFileUploadsAfterCursor. frame_walk. Qed.

Lemma sat_DownloadURL R `{!Rollable R} `{!OthersKeep R} o b : sat (on_db R) (DownloadURL sv o b).
Proof. unfold DownloadURL, GetFileUploadForBlockForOwner, one_row. frame_walk. Qed.

Lemma sat_Get R `{!Rollable R} `{!OthersKeep R} o id : sat (on_db R) (Get o id).
Proof. unfold Get. frame_walk. Qed.

End operations.

#[export] Hint Resolve sat_ValidateUploadTarget sat_validateDevice sat_download_link
  sat_GetFileUploadForOwner sat_DownloadURLs sat_DownloadURL sat_Get : frame.

Section lifecycle.
Context {X : External Db} {S : Storage} {T : MimeTables} (sv : UploadConfig).
Context `{!OthersKeep lifecycle}.

Lemma sat_rejectMetadata i {A} e msg : sat (on_db (given (has_row i))) (rejectMetadata (A := A) e msg).
Proof. unfold rejectMetadata, MarkFileUploadFailed, one_row. frame_walk. Qed.

Lemma sat_verify_complete i o e :
  reads_as i e -> sat (on_db (given (has_row i))) (verify_complete o e).
Proof.
  intros (Hid & Hsize & Htype & _). unfold verify_complete, GetObjectInfo, finish_complete,
    CompleteFileUpload, one_row. rewrite Hid.
  apply sat_bind; [apply _|frame_walk|]. intros [info|err]; [|frame_walk].
  destruct (OI_Size info =? Up_ExpectedSize e) eqn:Hs; cbn [negb]; [|apply sat_rejectMetadata].
  destruct (String.eqb (normalizedContentType (OI_ContentType info)) EmptyString) eqn:Hn;
    [apply sat_rejectMetadata|]. cbn [orb].
  destruct (String.eqb (normalizedContentType (OI_ContentType info)) (Up_ContentType e)) eqn:Ht;
    cbn [negb]; [|apply sat_rejectMetadata].
  apply Z.eqb_eq in Hs. apply String.eqb_eq in Ht. rewrite Hs, Hsize, Ht, Htype.
  assert (Hm : type_matches (ui_type i) (text_param (ui_type i))).
  { left. unfold text_param. rewrite <- Htype, <- Ht. by rewrite Hn. }
  frame_walk.
Qed.

Lemma ListExpiredFileUploads_rows cutoff limit now d d' us :
  uq.ListExpiredFileUploads cutoff limit now d = Ok (d', us) ->
  d' = d /\ Forall (fun u => u ∈ rows (file_uploads d)) us.
Proof.
  unfold uq.ListExpiredFileUploads. destruct cutoff as [t|]; [|by intros [= <- <-]].
  case_match; [done|]. intros [= <- <-]. split; [done|]. apply Forall_forall. intros u Hu.
  apply subseteq_take, elem_of_sort_by, list_elem_of_filter in Hu as [_ ?]. done.
Qed.

(** What holds given the row read first holds outright. *)
Lemma sat_after_read {A} (id o : UUID) (f : goerr -> goerr) (k : FileUpload -> M A) :
  (forall u, db.up_id u = id -> sat (on_db (given (has_row (identity_of u)))) (k (fromDBFileUpload u))) ->
  sat (on_db (given uploads_ok))
    (entity ← store.map_err f (GetFileUploadForOwner Pool id o); k entity).
Proof.
  intros Hk w w' r H Hok. rewrite M_bind_eq in H.
  destruct (store.map_err f (GetFileUploadForOwner Pool id o) w) as [w1 e] eqn:E.
  assert (H1 : lifecycle (w_db w) (w_db w1)).
  { change (on_db lifecycle w w1). by eapply sat_map_err; [|exact E]; frame_walk. }
  destruct e as [e|e]; [|by injection H as <- <-].
  apply map_err_Ok in E. apply GetFileUploadForOwner_Ok in E as (u & Hu & _ & -> & _).
  assert (Hid : db.up_id u = id) by by apply (lc_ok _ _ H1 Hok) in Hu as [? _].
  transitivity (w_db w1); [done|]. eapply (Hk u Hid); [exact H|].
  exists u. split; [|done]. cbn. by rewrite Hid.
Qed.

Lemma sat_Complete o id : sat (on_db (given uploads_ok)) (Complete o id).
Proof.
  unfold Complete. apply sat_after_read. intros u _.
  repeat case_match; [frame_walk|frame_walk|].
  apply sat_bind; [apply _|frame_walk|]. intros now. case_match; [frame_walk|].
  apply sat_bind; [apply _|frame_walk|]. intros _. apply sat_verify_complete, reads_as_row.
Qed.

Lemma sat_deleted_or o id e : sat (on_db lifecycle) (deleted_or o id e).
Proof. unfold deleted_or. frame_walk. Qed.

Hint Resolve sat_deleted_or : frame.

Lemma sat_finish_delete o e : sat (on_db lifecycle) (finish_delete o e).
Proof.
  unfold finish_delete, MarkFileUploadDeleted, DeleteObject, one_row. frame_walk.
Qed.

Hint Resolve sat_finish_delete : frame.

Lemma sat_Delete o id : sat (on_db lifecycle) (Delete o id).
Proof. unfold Delete, MarkFileUploadCancelled, one_row. frame_walk. Qed.

Lemma sat_Initiate {HF : FreshUUIDs X} o req : sat (on_db lifecycle) (Initiate sv o req).
Proof.
  unfold Initiate, CountPendingFileUploads. do 3 (apply sat_bind; [apply _|frame_walk|intros _]).
  apply sat_bind; [apply _|frame_walk|]. intros n. case_match; [frame_walk|].
  apply sat_bind_post; [apply _|frame_walk|]. intros w w1 uploadID [= _ <-].
  pose proof (uuid_new_not_nil (w_uuids w)) as Hnil.
  apply sat_bind; [apply _|frame_walk|]. intros now.
  unfold CreateFileUpload, authorize, CreateSignedUploadURL, MarkFileUploadFailed, one_row.
  apply sat_bind; [apply _| |]; [|frame_walk].
  apply sat_bind; [apply _| |intros; frame_walk].
  apply sat_exec_pool; [apply _|apply _|]. by apply keeps_CreateFileUpload.
Qed.

(** ** Cleanup *)

Lemma sat_clean_upload i u :
  reads_as i u -> sat (on_db (given (has_row i))) (clean_upload u).
Proof.
  intros (Hid & Hsize & Htype & _). unfold clean_upload, GetObjectInfo, DeleteObject, CompleteFileUpload,
    MarkFileUploadExpired, one_row. rewrite Hid.
  apply sat_bind; [apply _|frame_walk|]. intros [info|err]; [|frame_walk].
  destruct (OI_Size info =? Up_ExpectedSize u) eqn:Hs; cbn [andb]; [|frame_walk].
  destruct (String.eqb (normalizedType (OI_ContentType info)) (normalizedType (Up_ContentType u))) eqn:Ht;
    [|frame_walk].
  apply Z.eqb_eq in Hs. apply String.eqb_eq in Ht. rewrite Hs, Hsize, Ht, Htype.
  assert (Hm : type_matches (ui_type i) (text_param (normalizedType (ui_type i)))) by by right.
  frame_walk.
Qed.

(** Every row of the page is in the database. *)
Lemma sat_clean_uploads us firstErr :
  sat (on_db (given (fun d => Forall (fun u => has_row (identity_of u) d) us)))
    (clean_uploads (map fromDBFileUpload us) firstErr).
Proof.
  revert firstErr. induction us as [|u us IH]; intros firstErr; cbn [map clean_uploads].
  { intros w w' r [= <- _] _. reflexivity. }
  intros w w' r H Hd. inversion Hd as [|? ? Hu Hus]; subst. rewrite M_bind_eq in H.
  destruct (clean_upload (fromDBFileUpload u) w) as [w1 [e|e]] eqn:E;
    pose proof (sat_clean_upload _ _ (reads_as_row u) _ _ _ E Hu) as H1.
  - transitivity (w_db w1); [done|]. eapply IH; [exact H|].
    eapply Forall_impl; [exact Hus|]. intros u' Hu'. eapply stable; eauto.
  - by injection H as <- <-.
Qed.

Lemma sat_RunOnce grace : sat (on_db (given uploads_ok)) (RunOnce grace).
Proof.
  unfold RunOnce. apply sat_bind; [apply _|frame_walk|]. intros now w w' r H Hok.
  rewrite M_bind_eq in H.
  destruct (ListExpiredFileUploads Pool (now - grace) 100 w) as [w1 e] eqn:E.
  assert (H1 : lifecycle (w_db w) (w_db w1)).
  { unfold ListExpiredFileUploads in E. change (on_db lifecycle w w1).
    by eapply sat_bind; [| | |exact E]; frame_walk. }
  destruct e as [e|e]; [|by injection H as <- <-]. transitivity (w_db w1); [done|].
  unfold ListExpiredFileUploads in E. m_inv E. apply mret_Ok in E as [-> ->].
  apply exec_pool_Ok in Hrun as (d & Hq & ->).
  apply ListExpiredFileUploads_rows in Hq as [-> Hrows]. cbn [w_db set_db] in *.
  assert (Hhas : Forall (fun u => has_row (identity_of u) (others (w_step w) (w_db w))) a).
  { eapply Forall_impl; [exact Hrows|]. intros u (id & Hid)%elem_of_rows.
    exists u. split; [|done]. cbn. by destruct (lc_ok _ _ H1 Hok _ _ Hid) as [-> _]. }
  rewrite M_bind_eq in H.
  destruct (clean_uploads (map fromDBFileUpload a) None _) as [w2 [first|e]] eqn:E2;
    pose proof (sat_clean_uploads _ _ _ _ _ E2 Hhas) as H2; cbn in H2.
  - destruct first; by injection H as <- _.
  - by injection H as <- _.
Qed.

End lifecycle.

(** ** What the service writes for one owner *)

(** The statements with which the service changes the uploads of [o]. *)
Class OwnUploadWrites {X : External Db} (o : UUID) (R : Db -> Db -> Prop) : Prop := {
  own_Failed : forall id err, keeps R (uq.MarkFileUploadFailed id o err);
  own_Cancelled : forall id, keeps R (uq.MarkFileUploadCancelled id o);
  own_Deleted : forall id, keeps R (uq.MarkFileUploadDeleted id o);
  own_Completed : forall id size v, keeps R (uq.CompleteFileUpload id o size v);
  own_Created : forall id note block filename bucket path ctype size expires dev,
    keeps R (uq.CreateFileUpload id note o block filename bucket path ctype size expires dev)
}.

#[export] Hint Resolve own_Failed own_Cancelled own_Deleted own_Completed own_Created : frame.

Section own_uploads.
Context {X : External Db} {S : Storage} {T : MimeTables} (o : UUID).
Context (R : Db -> Db -> Prop) `{!Rollable R} `{!OthersKeep R} `{!OwnUploadWrites o R}.

Lemma sat_own_read {A} id f (k : FileUpload -> M A) :
  (forall e, Up_OwnerID e = o -> sat (on_db R) (k e)) ->
  sat (on_db R) (entity ← store.map_err f (GetFileUploadForOwner Pool id o); k entity).
Proof.
  intros Hk. apply sat_bind_post; [apply _|frame_walk|].
  intros w w1 e (u & _ & Ho & -> & _)%map_err_Ok%GetFileUploadForOwner_Ok. by apply Hk.
Qed.

Lemma sat_own_Complete id : sat (on_db R) (Complete o id).
Proof.
  unfold Complete, verify_complete, finish_complete, rejectMetadata, GetObjectInfo, CompleteFileUpload,
    MarkFileUploadFailed, one_row. apply sat_own_read. intros e ->. frame_walk.
Qed.

Lemma sat_own_Delete id : sat (on_db R) (Delete o id).
Proof.
  unfold Delete, finish_delete, deleted_or, MarkFileUploadCancelled, MarkFileUploadDeleted,
    DeleteObject, one_row. frame_walk.
Qed.

Lemma sat_own_Initiate sv req : sat (on_db R) (Initiate sv o req).
Proof.
  unfold Initiate, authorize, CountPendingFileUploads, CreateFileUpload, CreateSignedUploadURL,
    MarkFileUploadFailed, one_row. frame_walk.
Qed.

End own_uploads.

#[export] Hint Resolve sat_own_Complete sat_own_Delete sat_own_Initiate : frame.
#[export] Hint Extern 1 (OwnUploadWrites _ _) => solve [typeclasses eauto] : frame.
