(* ===== verification/UploadTheorems.v ===== *)
(** * What the upload service guarantees

    Every operation follows the lifecycle of UploadFacts.v and leaves other
    owners' uploads alone; completion means verification, deletion means the
    object is gone, and the download feed lists what is ready.  Two theorems
    show where the code falls short of its comments: the feed's cursor passes
    pending uploads, and a deletion that loses a race is reported as an
    internal error. *)

From S2P Require Import Prelude GoText Json HttpApi Constants External Schema Queries DbInvariant.
From S2P Require Import Store Frame SyncModels SyncService Demo GoMime UploadStore Storage.
From S2P Require Import UploadService Cleanup DemoServices UploadFacts.

Import ustore.

(** ** Calls *)

Inductive upload_call :=
| CallInitiate (request : InitiateRequest)
| CallComplete (id : UUID)
| CallGet (id : UUID)
| CallDownloadURL (block : UUID)
| CallDownloadURLs (device : string) (cursor : Z)
| CallDelete (id : UUID)
| CallCleanup (grace : Z).

Definition run_call {X : External Db} {S : Storage} {T : MimeTables} (sv : UploadConfig) (o : UUID)
    (c : upload_call) : M unit :=
  match c with
  | CallInitiate request => _ ← Initiate sv o request; mret tt
  | CallComplete id => _ ← Complete o id; mret tt
  | CallGet id => _ ← Get o id; mret tt
  | CallDownloadURL block => _ ← DownloadURL sv o block; mret tt
  | CallDownloadURLs device cursor => _ ← DownloadURLs sv o device cursor; mret tt
  | CallDelete id => _ ← Delete o id; mret tt
  | CallCleanup grace => RunOnce grace
  end.

(** Uploads of owners other than [o] stay as they are. *)
Definition foreign_uploads (o : UUID) (d d' : Db) : Prop :=
  forall id u, file_uploads d !! id = Some u -> db.up_owner_id u <> o ->
    file_uploads d' !! id = Some u.

(** ** The feed *)

(** The uploads after a cursor, in order. *)
Definition feed (d : Db) (o : UUID) (c : Z) : list db.FileUpload :=
  sort_by uq.by_cursor (filter (fun u => db.up_owner_id u = o /\ c < db.up_cursor u)
                          (rows (file_uploads d))).

(** The note and its block exist, belong to [o], are not deleted. *)
Definition live_target (d : Db) (o note block : UUID) : bool :=
  match q.owned_note d note o with
  | Some n =>
      match db.n_deleted_at n, q.note_block d block note with
      | None, Some b => bool_decide (db.b_deleted_at b = None)
      | _, _ => false
      end
  | None => false
  end.

(** A link is due: completed, from another device, with a live target. *)
Definition ready (d : Db) (o : UUID) (dev : string) (u : db.FileUpload) : bool :=
  negb (String.eqb (default EmptyString (db.up_device_id u)) dev)
  && String.eqb (db.up_status u) StatusCompleted
  && live_target d o (db.up_note_id u) (db.up_block_id u).

Definition last_cursor (c : Z) (us : list db.FileUpload) : Z :=
  foldl (fun _ u => db.up_cursor u) c us.

(** ** An example *)

Definition upload1 : UUID := 91%N.
Definition upload2 : UUID := 92%N.

Definition demo_upload (id : UUID) (status : string) (cursor : Z) (dev : string) : db.FileUpload :=
  db.mkFileUpload id note1 alice block1 "a.png" "files" (uuid_text (External := demo) id)
    "image/png" 10 (Some 10) (Some "image/png") status None 1000 (Some 1) 1 1 cursor (Some dev).

Definition upload_db (status1 : string) : Db :=
  with_sequences 0 0 2
    (set_uploads <[upload2 := demo_upload upload2 StatusCompleted 2 laptop]>
    (set_uploads <[upload1 := demo_upload upload1 status1 1 laptop]> demo_db)).

Definition upload_world (status1 : string) : World := mkWorld (upload_db status1) 0 0 TxActive 1 0.

(** Before its second statement another request deletes the first upload. *)
Definition delete_first (d : Db) : Db :=
  match uq.MarkFileUploadDeleted upload1 alice 5 d with
  | Ok (d', _) => d'
  | Err _ => d
  end.

Definition racing : External Db :=
  demo_with (fun _ => Runs) (fun n d => if (n =? 1)%nat then delete_first d else d).

Definition completed_response : UploadResponse :=
  match snd (Complete (X := demo) (S := demo_storage) alice upload1 (upload_world StatusPending)) with
  | Ok resp => resp
  | Err _ => responseFromEntity zero_upload
  end.

Definition delete_run : World * res UploadResponse :=
  Delete (X := demo) (S := demo_storage) alice upload1 (upload_world StatusCompleted).

Definition deleted_response : UploadResponse :=
  match snd delete_run with
  | Ok resp => resp
  | Err _ => responseFromEntity zero_upload
  end.

Definition feed_run (status1 : string) (c : Z) : World * res DownloadLinksResponse :=
  DownloadURLs (X := demo) (S := demo_storage) demo_uploads alice phone c (upload_world status1).

Definition feed_response (status1 : string) (c : Z) : DownloadLinksResponse :=
  match snd (feed_run status1 c) with
  | Ok resp => resp
  | Err _ => mkDownloadLinksResponse [] 0
  end.

Definition initiate_request : InitiateRequest :=
  mkInitiateRequest note1 block1 phone " b.png" "Image/PNG" 10.

Definition initiate_run : World * res InitiateResponse :=
  Initiate (X := demo) (S := demo_storage) (T := demo_mime) demo_uploads alice initiate_request
    (upload_world StatusPending).

Definition initiate_response : InitiateResponse :=
  match snd initiate_run with
  | Ok resp => resp
  | Err _ => mkInitiateResponse uuid_Nil 0 EmptyString EmptyString EmptyString EmptyString EmptyString
               EmptyString 0
  end.

(** ** Lemmas *)

#[export] Instance alone_keeps R `{!PreOrder R} fate : OthersKeep (X := demo_with fate (fun _ d => d)) R.
Proof. intros n d. cbn. reflexivity. Qed.

Lemma racing_keeps : OthersKeep (X := racing) lifecycle.
Proof.
  intros n d. cbn. case_match; [|reflexivity]. unfold delete_first.
  destruct (uq.MarkFileUploadDeleted upload1 alice 5 d) as [[d' u]|] eqn:E; [|reflexivity].
  by eapply keeps_MarkFileUploadDeleted.
Qed.

Lemma upload_db_ok status1 : uploads_ok (upload_db status1).
Proof.
  intros id u Hu. cbn in Hu. lookup_cases Hu; [by split_and!; [..|intros _; split; [|left]]|].
  lookup_cases Hu; [|done]. by split_and!; [..|intros _; split; [|left]].
Qed.

(** *** Isolation *)

#[export] Instance foreign_uploads_rollable o : Rollable (foreign_uploads o).
Proof.
  split; [split|].
  - by intros d id u.
  - intros d1 d2 d3 H1 H2 id u Hu Ho. apply H2; [|done]. by apply H1.
  - by intros d0 d _ id u.
Qed.

Lemma foreign_insert o d id u :
  (forall u0, file_uploads d !! id = Some u0 -> db.up_owner_id u0 = o) ->
  foreign_uploads o d (set_uploads <[id := u]> d).
Proof.
  intros H id' u' Hu' Ho. cbn. rewrite lookup_insert_ne; [done|]. intros <-. by apply Ho, H.
Qed.

(** A conditional update of an upload of [o]. *)
Lemma keeps_foreign_update {X : External Db} o id may f (now : Time) d d' u :
  uq.update_one id (uq.owned_upload d id o) may f d = Ok (d', u) -> foreign_uploads o d d'.
Proof.
  intros (u0 & [Hu Ho]%owned_upload_Some & _ & _ & ->)%update_one_Ok.
  apply foreign_insert. intros u1 Hu1. congruence.
Qed.

#[export] Instance foreign_uploads_own {X : External Db} o : OwnUploadWrites o (foreign_uploads o).
Proof.
  split; intros; intros now d d' u H; try (by eapply keeps_foreign_update).
  - unfold uq.CompleteFileUpload in H. destruct (uq.update_one _ _ _ _ _) as [[d1 u1]|] eqn:E; [|done].
    case_match; [done|]. injection H as <- <-. by eapply keeps_foreign_update.
  - apply CreateFileUpload_Ok in H as (t & _ & Hn & -> & -> & _). apply (foreign_insert o d). congruence.
Qed.

Lemma foreign_run_call {X : External Db} {S : Storage} {T : MimeTables} sv o
    `{!OthersKeep (foreign_uploads o)} c :
  (forall grace, c <> CallCleanup grace) -> sat (on_db (foreign_uploads o)) (run_call sv o c).
Proof.
  intros Hc. destruct c; [| | | | | |by edestruct Hc]; cbn [run_call];
    (apply sat_bind; [apply _| |frame_walk]).
  all: eauto with frame.
Qed.

(** *** Completion *)

Section completion.
Context {X : External Db} {S : Storage}.

Lemma CompleteFileUpload_Ok id o size ctype w w' e :
  CompleteFileUpload Pool id o size ctype w = (w', Ok e) ->
  exists u, file_uploads (w_db w') !! id = Some u /\ db.up_owner_id u = o /\
    db.up_status u = StatusCompleted /\ e = fromDBFileUpload u.
Proof.
  intros (d & u & Hq & -> & ->)%one_row_Ok. unfold uq.CompleteFileUpload in Hq.
  destruct (uq.update_one _ _ _ _ _) as [[d1 u1]|] eqn:E; [|done]. case_match; [done|].
  injection Hq as <- <-. apply update_one_Ok in E as (u0 & [Hu Ho]%owned_upload_Some & _ & -> & ->).
  eexists. cbn. rewrite lookup_insert_eq. split; [done|]. by split_and!.
Qed.

Lemma Complete_Ok {HO : OthersKeep lifecycle} o id w w' resp :
  uploads_ok (w_db w) -> Complete o id w = (w', Ok resp) ->
  exists u, file_uploads (w_db w') !! id = Some u /\ db.up_owner_id u = o /\
    db.up_status u = StatusCompleted /\ resp = responseFromEntity (fromDBFileUpload u).
Proof.
  intros Hok H. unfold Complete in H. m_inv H. apply map_err_Ok in Hrun.
  pose proof (sat_GetFileUploadForOwner lifecycle id o _ _ _ Hrun) as H1.
  apply GetFileUploadForOwner_Ok in Hrun as (u & Hu & Ho & -> & _).
  assert (Hid : db.up_id u = id) by by apply (lc_ok _ _ H1 Hok) in Hu as [? _].
  destruct (String.eqb_spec (Up_Status (fromDBFileUpload u)) StatusCompleted) as [Hs|_].
  { apply mret_Ok in H as [-> ->]. eauto 6. }
  case_match; [done|]. m_inv H. case_match; [done|]. m_inv H. unfold verify_complete in H. m_inv H.
  destruct a1 as [info|err]; [|by case_match]. unfold rejectMetadata in H.
  case_match; [by m_inv H|]. case_match; [by m_inv H|].
  unfold finish_complete in H. m_inv H. cbn [Up_ID fromDBFileUpload] in *. rewrite Hid in *.
  destruct a1 as [done|err].
  - apply mret_Ok in H as [-> ->].
    apply CompleteFileUpload_Ok in Hrun2 as (u' & ? & ? & ? & ->). eauto 6.
  - case_match; [done|]. m_inv H. apply map_err_Ok, GetFileUploadForOwner_Ok in Hrun3
      as (u' & ? & ? & -> & _). case_match eqn:Hs; [|done]. apply mret_Ok in H as [-> ->].
    apply String.eqb_eq in Hs. eauto 6.
Qed.

End completion.

(** *** Deletion *)

Section deletion.
Context {X : External Db} {S : Storage}.

Lemma exec_pool_step {A} (q : Stmt A) w w' r :
  exec Pool q w = (w', r) -> w_step w' = Datatypes.S (w_step w).
Proof.
  cbn [exec]. unfold exec_pool. destruct (round_trip (w_step w));
    try (by intros [= <- _]); destruct (q _ _) as [[d a]|e]; by intros [= <- _].
Qed.

Lemma one_row_step q w w' r :
  one_row Pool q w = (w', r) -> w_step w' = Datatypes.S (w_step w).
Proof.
  unfold one_row. intros H. rewrite M_bind_eq in H.
  destruct (store.map_err store.mapNoRows (exec Pool q) w) as [w1 e] eqn:E.
  unfold store.map_err in E. destruct (exec Pool q w) as [w2 []] eqn:E2;
    injection E as <- <-; injection H as <- _; by eapply exec_pool_step.
Qed.

(** The storage confirmed between the two steps that the object is gone. *)
Definition object_removed (bucket path : string) (n n' : nat) : Prop :=
  exists k, (n <= k < n')%nat /\
    (delete_object k bucket path = Ok tt \/ delete_object k bucket path = Err ErrStorageNotFound).

(** A row in a state, read as the response [resp]. *)
Definition deleted_row (d : Db) (id o : UUID) (i : upload_identity) (resp : UploadResponse) : Prop :=
  exists u, file_uploads d !! id = Some u /\ db.up_owner_id u = o /\
    db.up_status u = StatusDeleted /\ identity_of u = i /\
    resp = responseFromEntity (fromDBFileUpload u).

Lemma deleted_or_Ok o id e w w' resp :
  deleted_or o id e w = (w', Ok resp) ->
  w_step w' = Datatypes.S (w_step w) /\ exists i, deleted_row (w_db w') id o i resp.
Proof.
  unfold deleted_or. destruct (store.is_not_found e); [|done]. intros H. m_inv H.
  destruct a as [latest|]; [|done]. case_match eqn:Hs; [|done]. apply mret_Ok in H as [-> ->]. apply String.eqb_eq in Hs.
  split; [by eapply one_row_step|].
  apply GetFileUploadForOwner_Ok in Hrun as (u & ? & ? & -> & _). exists (identity_of u), u. eauto.
Qed.

Lemma MarkFileUploadDeleted_Ok id o w w' e :
  MarkFileUploadDeleted Pool id o w = (w', Ok e) ->
  exists i, deleted_row (w_db w') id o i (responseFromEntity e).
Proof.
  intros (d & u & Hq & -> & ->)%one_row_Ok.
  apply update_one_Ok in Hq as (u0 & [Hu Ho]%owned_upload_Some & _ & -> & ->).
  eexists _, _. cbn. rewrite lookup_insert_eq. split; [done|]. by split_and!.
Qed.

(** The identity found at the end is the one the cancelling update saw. *)
Lemma finish_delete_Ok {HO : OthersKeep lifecycle} o i e w w' resp :
  reads_as i e -> has_row i (w_db w) -> finish_delete o e w = (w', Ok resp) ->
  deleted_row (w_db w') (ui_id i) o i resp /\
  object_removed (ui_bucket i) (ui_path i) (w_step w) (w_step w').
Proof.
  intros (Hid & _ & _ & Hb & Hp) Hrow H.
  assert (Hrow' : has_row i (w_db w')).
  { eapply stable; [|exact Hrow]. by apply (sat_finish_delete o e) in H. }
  assert (Hrow_i : forall i' r, deleted_row (w_db w') (ui_id i) o i' r -> deleted_row (w_db w') (ui_id i) o i r).
  { intros i' r (u & Hu & ? & ? & ? & ?). destruct Hrow' as (u' & Hu' & Hi).
    assert (u' = u) as -> by congruence. exists u. by split_and!. }
  unfold finish_delete in H. m_inv H. apply lift_Ok in Hrun0 as [-> Hgone].
  injection Hrun as <- Hdel. rewrite Hid in *. split.
  - destruct a1 as [u'|err].
    + apply mret_Ok in H as [-> ->]. apply MarkFileUploadDeleted_Ok in Hrun1 as [i' ?]. eauto.
    + apply deleted_or_Ok in H as [_ [i' ?]]. eauto.
  - apply one_row_step in Hrun1 as Hs. exists (w_step w). split.
    + destruct a1; [apply mret_Ok in H as [-> _]|apply deleted_or_Ok in H as [-> _]]; cbn in *; lia.
    + rewrite <- Hb, <- Hp, Hdel. unfold object_gone in Hgone.
      destruct a as [[]|err]; [by left|]. destruct err; try done. by right.
Qed.

Lemma Delete_Ok {HO : OthersKeep lifecycle} o id w w' resp :
  uploads_ok (w_db w) -> Delete o id w = (w', Ok resp) ->
  exists i, deleted_row (w_db w') id o i resp /\
    ((exists u, file_uploads (others (w_step w) (w_db w)) !! id = Some u /\
                db.up_status u = StatusDeleted)
     \/ object_removed (ui_bucket i) (ui_path i) (w_step w) (w_step w')).
Proof.
  intros Hok H. unfold Delete in H. m_inv H. apply map_err_Ok in Hrun.
  pose proof (sat_GetFileUploadForOwner lifecycle id o _ _ _ Hrun) as H1.
  apply one_row_step in Hrun as Hs.
  apply GetFileUploadForOwner_Ok in Hrun as (u & Hu & Ho & -> & Hdb).
  destruct (String.eqb_spec (Up_Status (fromDBFileUpload u)) StatusDeleted) as [Hd|_].
  { apply mret_Ok in H as [-> ->]. exists (identity_of u). split; [exists u; by split_and!|].
    left. exists u. by rewrite <- Hdb. }
  pose proof (lc_ok _ _ H1 Hok) as Hok1. destruct (Hok1 _ _ Hu) as [Hid _].
  m_inv H. cbn [Up_ID fromDBFileUpload zero_upload] in *. rewrite Hid in Hrun.
  assert (H2 : lifecycle (w_db w0) (w_db w1)).
  { change (on_db lifecycle w0 w1). refine (_ w0 w1 a Hrun). unfold MarkFileUploadCancelled, one_row.
    frame_walk. }
  apply one_row_step in Hrun as Hs1. destruct a as [e|err].
  - apply one_row_Ok in Hrun as (d & u1 & Hq & -> & ->).
    apply update_one_Ok in Hq as (u0 & [Hu0 Ho0]%owned_upload_Some & _ & -> & ->).
    set (u1 := uq.with_status _ _ _ _) in *. cbn [w_db set_db] in *.
    assert (Hkey : db.up_id u1 = id).
    { assert (Hin : file_uploads (set_uploads <[id := u1]> (others (w_step w0) (w_db w0))) !! id = Some u1)
        by apply lookup_insert_eq. by destruct (lc_ok _ _ H2 Hok1 _ _ Hin) as [? _]. }
    apply (finish_delete_Ok o (identity_of u1)) in H as [Hrow (k & Hk & Hgone)];
      [|apply reads_as_row|].
    2:{ exists u1. split; [|done]. change (ui_id (identity_of u1)) with (db.up_id u1).
        rewrite Hkey. apply lookup_insert_eq. }
    exists (identity_of u1). change (ui_id (identity_of u1)) with (db.up_id u1) in Hrow.
    rewrite Hkey in Hrow. split; [done|]. right.
    exists k. split; [cbn in Hs1, Hk; lia|done].
  - exfalso. unfold deleted_or in H. destruct (store.is_not_found err); [|done]. m_inv H.
    destruct a as [latest|]; [|done]. pose proof (sat_GetFileUploadForOwner lifecycle _ _ _ _ _ Hrun0) as H3.
    apply GetFileUploadForOwner_Ok in Hrun0 as (u' & Hu' & _).
    by destruct (lc_ok _ _ H3 (lc_ok _ _ H2 Hok1) _ _ Hu') as (_ & ? & _).
Qed.

End deletion.

(** *** Runs when the database answers *)

Section reliable.
Context {X : External Db} {S : Storage} {HR : Reliable X}.

Lemma GetFileUploadForOwner_run id o w :
  exists w1, w_db w1 = others (w_step w) (w_db w) /\ w_step w1 = Datatypes.S (w_step w) /\
    GetFileUploadForOwner Pool id o w
    = (w1, match uq.owned_upload (others (w_step w) (w_db w)) id o with
           | Some u => Ok (fromDBFileUpload u)
           | None => Err ErrNotFound
           end).
Proof.
  destruct (read_one_run (fun d => uq.owned_upload d id o) w) as (w1 & Hd & Hs & E).
  exists w1. split; [done|]. split; [done|]. unfold GetFileUploadForOwner, one_row, uq.GetFileUploadForOwner.
  rewrite M_bind_eq, E. by destruct (uq.owned_upload _ id o).
Qed.

(** A deletion that another request completes between the two statements. *)
Lemma Delete_loses {HO : OthersKeep lifecycle} o id w u0 u1 :
  let d1 := others (w_step w) (w_db w) in
  let d2 := others (Datatypes.S (w_step w)) d1 in
  uploads_ok (w_db w) ->
  uq.owned_upload d1 id o = Some u0 -> db.up_status u0 <> StatusDeleted ->
  file_uploads d2 !! id = Some u1 -> db.up_status u1 = StatusDeleted ->
  exists w', Delete o id w = (w', Err ErrNotFound).
Proof.
  intros d1 d2 Hok H0 Hs0 H1 Hs1. unfold Delete. rewrite M_bind_eq.
  pose proof (others_keep (R := lifecycle) (w_step w) (w_db w)) as Hlc1. fold d1 in Hlc1.
  pose proof (others_keep (R := lifecycle) (Datatypes.S (w_step w)) d1) as Hlc2. fold d2 in Hlc2.
  pose proof (lc_ok _ _ Hlc1 Hok) as Hok1. pose proof (lc_ok _ _ Hlc2 Hok1) as Hok2.
  destruct (GetFileUploadForOwner_run id o w) as (w1 & Hd1 & Hst & E). fold d1 in Hd1, E.
  unfold store.map_err. rewrite E, H0. cbn [Up_Status fromDBFileUpload Up_ID].
  apply owned_upload_Some in H0 as [H0 Ho]. destruct (Hok1 _ _ H0) as (Hid & Hnil & _). rewrite Hid.
  rewrite (proj2 (String.eqb_neq _ _) Hs0).
  assert (E2 : MarkFileUploadCancelled Pool id o w1
    = (set_db d2 (tick w1), Err ErrNotFound)).
  { unfold MarkFileUploadCancelled, one_row. rewrite M_bind_eq. unfold store.map_err.
    rewrite (pool_run_Err _ w1 ErrNoRows); [by rewrite Hst, Hd1|].
    rewrite Hst, Hd1. fold d2. unfold uq.MarkFileUploadCancelled, uq.update_one.
    destruct (uq.owned_upload d2 id o) as [u|] eqn:Eu; [|done].
    apply owned_upload_Some in Eu as [Eu _]. assert (u = u1) as -> by congruence.
    unfold uq.has_status. by rewrite Hs1. }
  rewrite M_bind_eq, (attempt_run _ _ _ _ E2). unfold deleted_or. cbn [store.is_not_found].
  destruct (GetFileUploadForOwner_run (Up_ID zero_upload) o (set_db d2 (tick w1))) as (w3 & _ & _ & E3).
  rewrite M_bind_eq, (attempt_run _ _ _ _ E3). set (d3 := others _ _).
  destruct (uq.owned_upload d3 (Up_ID zero_upload) o) as [u|] eqn:Eu; [|by eexists].
  exfalso. apply owned_upload_Some in Eu as [Eu _].
  pose proof (others_keep (R := lifecycle) (w_step (set_db d2 (tick w1))) (w_db (set_db d2 (tick w1)))) as Hlc3.
  by destruct (lc_ok _ _ Hlc3 Hok2 _ _ Eu) as (_ & ? & _).
Qed.

End reliable.

(** *** The feed *)

Lemma feed_sorted d o c : StronglySorted (fun a b => uq.by_cursor a b = true) (feed d o c).
Proof.
  apply sort_by_sorted.
  - intros a b. unfold uq.by_cursor. rewrite !Z.leb_le. lia.
  - intros x y z. unfold uq.by_cursor. rewrite !Z.leb_le. lia.
Qed.

Lemma elem_of_feed d o c u :
  u ∈ feed d o c <->
  (db.up_owner_id u = o /\ c < db.up_cursor u) /\ exists id, file_uploads d !! id = Some u.
Proof. unfold feed. by rewrite elem_of_sort_by, list_elem_of_filter, elem_of_rows. Qed.

Lemma last_cursor_ub c us u :
  StronglySorted (fun a b => uq.by_cursor a b = true) us -> u ∈ us ->
  db.up_cursor u <= last_cursor c us.
Proof.
  intros Hs. revert u c. induction Hs as [|a l Hs IH Ha]; intros u c; [by intros ?%elem_of_nil|].
  unfold last_cursor in *. cbn. intros [->|Hin]%elem_of_cons; [|by apply IH].
  destruct l as [|b l]; [done|]. inversion Ha as [|? ? Hab _]; subst.
  unfold uq.by_cursor in Hab. apply Z.leb_le in Hab.
  specialize (IH b (db.up_cursor a) ltac:(left)). cbn in *. lia.
Qed.

Section feed.
Context {X : External Db} {S : Storage} (sv : UploadConfig).

(** Every link handed out is behind the cursor. *)
Lemma download_links_after o dev c es links next w w' resp :
  Forall (fun e => c < Up_Cursor e) es -> Forall (fun l => c < DU_Cursor l) links ->
  download_links sv o dev es links next w = (w', Ok resp) ->
  Forall (fun l => c < DU_Cursor l) (DL_Links resp).
Proof.
  intros Hes. revert links next w. induction Hes as [|e es He Hes IH]; intros links next w Hl H.
  { cbn [download_links] in H. by apply mret_Ok in H as [-> ->]. }
  cbn [download_links] in H. case_match; [by eapply IH|]. m_inv H.
  destruct a; [|by eapply IH]. m_inv H. destruct a0 as [link|]; [|by eapply IH].
  eapply IH; [|exact H]. apply Forall_app. split; [done|]. constructor; [|constructor].
  unfold download_link in Hrun0. m_inv Hrun0. by apply mret_Ok in Hrun0 as [_ ->].
Qed.

Lemma DownloadURLs_after o dev c w w' resp :
  DownloadURLs sv o dev c w = (w', Ok resp) -> Forall (fun l => c < DU_Cursor l) (DL_Links resp).
Proof.
  intros H. unfold DownloadURLs in H. m_inv H. eapply download_links_after; [| |exact H]; [|constructor].
  unfold ListFileUploadsAfterCursor in Hrun1. m_inv Hrun1. apply mret_Ok in Hrun1 as [-> ->].
  apply exec_pool_Ok in Hrun2 as (d & [= <- <-] & _). apply Forall_fmap, Forall_forall.
  intros u Hu. by apply (elem_of_feed _ o c) in Hu as [[_ ?] _].
Qed.

(** *** Runs without failures or other clients *)

Context {HR : Reliable X} {HA : Alone X}.

Lemma ValidateUploadTarget_run o n b w :
  exists w1 r, store.ValidateUploadTarget Pool n b o w = (w1, r) /\ w_db w1 = w_db w /\
    res_ok r = live_target (w_db w) o n b.
Proof.
  unfold store.ValidateUploadTarget, store.GetNoteForOwner, store.GetBlockForNoteForUpdate, live_target.
  rewrite !M_bind_eq.
  destruct (read_one_run (fun d => q.owned_note d n o) w) as (w1 & Hd1 & _ & E1).
  rewrite nobody_else in Hd1, E1. unfold q.GetNoteForOwner.
  rewrite E1. destruct (q.owned_note (w_db w) n o) as [note|]; [|by eexists _, _].
  unfold mret, M_ret at 1. cbn [store.fromDBNote store.Note_DeletedAt].
  destruct (db.n_deleted_at note); [by eexists _, _|].
  rewrite !M_bind_eq. unfold q.GetBlockForNoteForUpdate.
  destruct (read_one_run (fun d => q.note_block d b n) w1) as (w2 & Hd2 & _ & E2).
  rewrite nobody_else in Hd2, E2. rewrite E2, Hd1.
  destruct (q.note_block (w_db w) b n) as [block|]; [|by eexists _, _; rewrite Hd2].
  unfold M_ret. cbn [store.fromDBBlock store.Block_DeletedAt].
  destruct (db.b_deleted_at block); eexists _, _; by rewrite Hd2.
Qed.

(** The storage signs whatever is asked. *)
Context (Hsigns : forall n b p s, exists url, signed_download n b p s = Ok url).

Lemma download_link_run e w :
  exists w1 link, download_link sv e w = (w1, Ok link) /\ w_db w1 = w_db w /\
    DU_UploadID link = Up_ID e.
Proof using Hsigns.
  unfold download_link, CreateSignedDownloadURL. rewrite M_bind_eq. unfold call.
  destruct (Hsigns (w_step w) (Up_StorageBucket e) (Up_StoragePath e) (download_seconds sv)) as [url ->].
  eexists _, _. split; [reflexivity|]. done.
Qed.

Lemma download_links_run o dev us links next w :
  exists w' ls, download_links sv o dev (map fromDBFileUpload us) links next w
      = (w', Ok (mkDownloadLinksResponse (links ++ ls) (last_cursor next us))) /\
    w_db w' = w_db w /\
    map DU_UploadID ls = map db.up_id (filter (fun u => ready (w_db w) o dev u = true) us).
Proof using All.
  revert links next w. induction us as [|u us IH]; intros links next w.
  { exists w, []. cbn. by rewrite app_nil_r. }
  cbn [map download_links]. rewrite filter_true_cons. unfold ready at 1.
  cbn [Up_DeviceID Up_Status Up_NoteID Up_BlockID Up_Cursor fromDBFileUpload].
  destruct (String.eqb (default EmptyString (db.up_device_id u)) dev); cbn [orb negb andb];
    [by apply IH|].
  destruct (String.eqb (db.up_status u) StatusCompleted); cbn [negb andb]; [|by apply IH].
  destruct (ValidateUploadTarget_run o (db.up_note_id u) (db.up_block_id u) w) as (w1 & r & E & Hd & Hr).
  rewrite M_bind_eq, (attempt_run _ _ _ _ E). rewrite <- Hr, <- Hd.
  destruct r as [[]|e]; cbn [res_ok]; [|by apply IH].
  destruct (download_link_run (fromDBFileUpload u) w1) as (w2 & link & E2 & Hd2 & Hid).
  rewrite (M_bind_run _ _ _ _ _ (attempt_run _ _ _ _ E2)). rewrite <- Hd2.
  destruct (IH (links ++ [link]) (db.up_cursor u) w2) as (w' & ls & Hrun & Hdb & Hmap).
  exists w', (link :: ls). rewrite Hrun, <- app_assoc. split; [done|]. split; [done|].
  cbn [map]. by rewrite Hmap, Hid.
Qed.

End feed.

#[export] Instance eq_rollable : Rollable (@eq Db).
Proof. split; [split; apply _|]. intros d0 d <-. by destruct d0. Qed.

#[export] Instance alone_same {X : External Db} {HA : Alone X} : OthersKeep (@eq Db).
Proof. intros n d. by rewrite nobody_else. Qed.

(** A successful call of the feed, when nobody else acts. *)
Lemma DownloadURLs_Ok {X : External Db} {S : Storage} {HR : Reliable X} {HA : Alone X} sv o dev c
    w w' resp (Hsigns : forall n b p s, exists url, signed_download n b p s = Ok url) :
  DownloadURLs sv o dev c w = (w', Ok resp) ->
  w_db w' = w_db w /\ DL_NextCursor resp = last_cursor c (feed (w_db w) o c) /\
  map DU_UploadID (DL_Links resp)
  = map db.up_id (filter (fun u => ready (w_db w) o dev u = true) (feed (w_db w) o c)).
Proof.
  intros H. unfold DownloadURLs in H. m_inv H. apply lift_Ok in Hrun as [-> _].
  pose proof (sat_validateDevice eq o dev _ _ _ Hrun0 : w_db w = w_db w1) as Hd.
  unfold ListFileUploadsAfterCursor in Hrun1. m_inv Hrun1. apply mret_Ok in Hrun1 as [-> ->].
  apply exec_pool_Ok in Hrun as (d & [= <- <-] & ->). rewrite nobody_else, <- Hd in *.
  destruct (download_links_run sv Hsigns o dev (feed (w_db w) o c) [] c (set_db (w_db w) (tick w1)))
    as (w3 & ls & Hrun & Hdb & Hmap).
  unfold feed in Hrun at 1. rewrite Hrun in H. by injection H as <- <-.
Qed.

(** ** Properties *)

(** C23: whatever operation of the upload service or of the cleanup job runs,
    and however the database or the storage fails, the uploads move along the
    lifecycle: a status changes only along the state machine, identifying
    columns never change, a completed upload was verified, new uploads get
    larger cursors.  This holds whenever the other clients respect it. *)
Theorem uploads_follow_lifecycle {X : External Db} {S : Storage} {T : MimeTables}
    {HF : FreshUUIDs X} {HO : OthersKeep lifecycle} (sv : UploadConfig) (o : UUID)
    (c : upload_call) (w w' : World) (r : res unit)
    (Hok : uploads_ok (w_db w)) (Hrun : run_call sv o c w = (w', r)) :
  lifecycle (w_db w) (w_db w').
Proof.
  assert (Hsat : sat (on_db (given uploads_ok)) (run_call sv o c)).
  { destruct c; cbn [run_call]; [| | | | | |apply sat_RunOnce];
      (apply sat_bind; [apply _| |frame_walk]).
    - by apply sat_given, sat_Initiate.
    - apply sat_Complete.
    - apply sat_given. frame_walk.
    - apply sat_given. frame_walk.
    - apply sat_given. frame_walk.
    - by apply sat_given, sat_Delete. }
  by apply (Hsat _ _ _ Hrun).
Qed.

Lemma uploads_follow_lifecycle_witness :
  lifecycle (upload_db StatusPending)
    (w_db (fst (run_call (X := demo) (S := demo_storage) (T := demo_mime) demo_uploads alice
                  (CallComplete upload1) (upload_world StatusPending)))).
Proof.
  apply (uploads_follow_lifecycle (X := demo) (S := demo_storage) (T := demo_mime)
    (HF := demo_fresh _ _) (HO := alone_keeps _ _) demo_uploads alice (CallComplete upload1)
    (upload_world StatusPending) _ (Ok tt));
    [apply upload_db_ok|vm_compute; reflexivity].
Defined.

(** The operations of one owner leave the uploads of all others alone. *)
Theorem uploads_isolate_owners {X : External Db} {S : Storage} {T : MimeTables} (sv : UploadConfig)
    (o : UUID) {HO : OthersKeep (foreign_uploads o)} (c : upload_call) (w w' : World) (r : res unit)
    (Hc : forall grace, c <> CallCleanup grace) (Hrun : run_call sv o c w = (w', r)) :
  foreign_uploads o (w_db w) (w_db w').
Proof. by apply (foreign_run_call sv o c Hc _ _ _ Hrun). Qed.

Lemma uploads_isolate_owners_witness :
  foreign_uploads bob (upload_db StatusPending)
    (w_db (fst (run_call (X := demo) (S := demo_storage) (T := demo_mime) demo_uploads bob
                  (CallDelete upload1) (upload_world StatusPending)))).
Proof.
  apply (uploads_isolate_owners (X := demo) (S := demo_storage) (T := demo_mime) demo_uploads bob
    (HO := alone_keeps _ _) (CallDelete upload1) (upload_world StatusPending) _
    (Err (ErrAPI (NotFound "Upload not found."))));
    [discriminate|vm_compute; reflexivity].
Defined.

(** C24: completing an upload returns only with the row of the caller's upload
    completed in the database and reported as it is, its size the declared one
    and its type verified. *)
Theorem completion_is_verified {X : External Db} {S : Storage} {HO : OthersKeep lifecycle}
    (o id : UUID) (w w' : World) (resp : UploadResponse)
    (Hok : uploads_ok (w_db w)) (Hrun : Complete o id w = (w', Ok resp)) :
  exists u, file_uploads (w_db w') !! id = Some u /\ db.up_owner_id u = o /\
    db.up_status u = StatusCompleted /\ resp = responseFromEntity (fromDBFileUpload u) /\
    db.up_actual_size u = Some (db.up_expected_size u) /\
    type_matches (db.up_content_type u) (db.up_verified_content_type u).
Proof.
  destruct (Complete_Ok o id w w' resp Hok Hrun) as (u & Hu & Ho & Hs & Hr).
  pose proof (sat_Complete o id _ _ _ Hrun Hok) as Hlc.
  apply (lc_ok _ _ Hlc Hok) in Hu as Hv. destruct Hv as (_ & _ & Hv).
  destruct (Hv Hs). exists u. by split_and!.
Qed.

Lemma completion_is_verified_witness :
  exists u, file_uploads (w_db (fst (Complete (X := demo) (S := demo_storage) alice upload1
      (upload_world StatusPending)))) !! upload1 = Some u /\ db.up_owner_id u = alice /\
    db.up_status u = StatusCompleted /\
    completed_response = responseFromEntity (fromDBFileUpload u) /\
    db.up_actual_size u = Some (db.up_expected_size u) /\
    type_matches (db.up_content_type u) (db.up_verified_content_type u).
Proof.
  apply (completion_is_verified (X := demo) (S := demo_storage) (HO := alone_keeps _ _) alice upload1
    (upload_world StatusPending)); [apply upload_db_ok|vm_compute; reflexivity].
Defined.

(** C25: deleting an upload returns only with the row of the caller's upload
    deleted in the database and reported as it is; unless it was deleted
    before, the storage has confirmed meanwhile that the object is gone. *)
Theorem deletion_removes_object {X : External Db} {S : Storage} {HO : OthersKeep lifecycle}
    (o id : UUID) (w w' : World) (resp : UploadResponse)
    (Hok : uploads_ok (w_db w)) (Hrun : Delete o id w = (w', Ok resp)) :
  exists i, deleted_row (w_db w') id o i resp /\
    ((exists u, file_uploads (others (w_step w) (w_db w)) !! id = Some u /\
                db.up_status u = StatusDeleted)
     \/ object_removed (ui_bucket i) (ui_path i) (w_step w) (w_step w')).
Proof. by apply Delete_Ok. Qed.

Lemma deletion_removes_object_witness :
  exists i, deleted_row (w_db (fst delete_run)) upload1 alice i deleted_response /\
    ((exists u, file_uploads (upload_db StatusCompleted) !! upload1 = Some u /\
                db.up_status u = StatusDeleted)
     \/ object_removed (S := demo_storage) (ui_bucket i) (ui_path i) 0 (w_step (fst delete_run))).
Proof.
  apply (deletion_removes_object (X := demo) (S := demo_storage) (HO := alone_keeps _ _) alice upload1
    (upload_world StatusCompleted)); [apply upload_db_ok|vm_compute; reflexivity].
Defined.

(** C27: when the database answers, the storage signs and nobody else acts, the
    feed returns the links of exactly the completed uploads after the cursor
    that come from other devices and whose note and block are live, in cursor
    order, and its next cursor is the last one it has seen. *)
Theorem feed_lists_ready_uploads {X : External Db} {S : Storage} {HR : Reliable X} {HA : Alone X}
    (sv : UploadConfig) (o : UUID) (dev : string) (c : Z) (w w' : World)
    (resp : DownloadLinksResponse)
    (Hsigns : forall n b p s, exists url, signed_download n b p s = Ok url)
    (Hrun : DownloadURLs sv o dev c w = (w', Ok resp)) :
  w_db w' = w_db w /\ DL_NextCursor resp = last_cursor c (feed (w_db w) o c) /\
  map DU_UploadID (DL_Links resp)
  = map db.up_id (filter (fun u => ready (w_db w) o dev u = true) (feed (w_db w) o c)).
Proof. by eapply DownloadURLs_Ok. Qed.

Lemma demo_signs : forall n b p s, exists url, signed_download (Storage := demo_storage) n b p s = Ok url.
Proof. intros n b p s. by exists p. Qed.

Lemma feed_lists_ready_uploads_witness :
  w_db (fst (feed_run StatusPending 0)) = upload_db StatusPending /\
  DL_NextCursor (feed_response StatusPending 0)
    = last_cursor 0 (feed (upload_db StatusPending) alice 0) /\
  map DU_UploadID (DL_Links (feed_response StatusPending 0))
  = map db.up_id (filter (fun u => ready (upload_db StatusPending) alice phone u = true)
                    (feed (upload_db StatusPending) alice 0)).
Proof.
  apply (feed_lists_ready_uploads (X := demo) (S := demo_storage) (HR := demo_reliable _)
    (HA := demo_alone _) demo_uploads alice phone 0 (upload_world StatusPending));
    [exact demo_signs|vm_compute; reflexivity].
Defined.

(** An upload that is still pending when a device reads the feed is never
    offered to that device: the cursor it gets back has passed the upload, so
    no later call returns its link, also after the upload was completed. *)
Theorem pending_upload_is_skipped {X : External Db} {S : Storage} {HR : Reliable X} {HA : Alone X}
    (sv : UploadConfig) (o : UUID) (dev : string) (c1 c2 : Z) (w1 w1' w2 w2' : World)
    (resp1 resp2 : DownloadLinksResponse) (u : db.FileUpload)
    (Hsigns : forall n b p s, exists url, signed_download n b p s = Ok url)
    (Hpending : u ∈ feed (w_db w1) o c1 /\ db.up_status u = StatusPending)
    (Hfirst : DownloadURLs sv o dev c1 w1 = (w1', Ok resp1))
    (Hnext : DL_NextCursor resp1 <= c2)
    (Hsecond : DownloadURLs sv o dev c2 w2 = (w2', Ok resp2)) :
  Forall (fun l => DU_Cursor l <> db.up_cursor u) (DL_Links resp2).
Proof.
  destruct (DownloadURLs_Ok sv o dev c1 w1 w1' resp1 Hsigns Hfirst) as (_ & Hc & _).
  destruct Hpending as [Hin _].
  pose proof (last_cursor_ub c1 _ u (feed_sorted (w_db w1) o c1) Hin).
  eapply Forall_impl; [by eapply DownloadURLs_after|]. cbn. lia.
Qed.

Lemma pending_upload_is_skipped_witness :
  Forall (fun l => DU_Cursor l <> 1) (DL_Links (feed_response StatusCompleted 2)).
Proof.
  apply (pending_upload_is_skipped (X := demo) (S := demo_storage) (HR := demo_reliable _)
    (HA := demo_alone _) demo_uploads alice phone 0 2 (upload_world StatusPending)
    (fst (feed_run StatusPending 0)) (upload_world StatusCompleted) (fst (feed_run StatusCompleted 2))
    (feed_response StatusPending 0) (feed_response StatusCompleted 2)
    (demo_upload upload1 StatusPending 1 laptop));
    [exact demo_signs| |vm_compute; reflexivity|vm_compute; discriminate|vm_compute; reflexivity].
  split; [|reflexivity]. apply elem_of_feed. split; [split; reflexivity|by exists upload1].
Defined.

(** A deletion that loses the race against another deletion of the same
    upload is reported as an error, and as an internal one: after the refused
    update the service reads back the upload with the nil identifier. *)
Theorem lost_deletion_is_internal_error {X : External Db} {S : Storage} {HR : Reliable X}
    {HO : OthersKeep lifecycle} (o id : UUID) (w : World) (u0 u1 : db.FileUpload)
    (Hok : uploads_ok (w_db w))
    (Hread : uq.owned_upload (others (w_step w) (w_db w)) id o = Some u0 /\
             db.up_status u0 <> StatusDeleted)
    (Hlost : file_uploads (others (Datatypes.S (w_step w)) (others (w_step w) (w_db w))) !! id
             = Some u1 /\ db.up_status u1 = StatusDeleted) :
  exists w', Delete o id w = (w', Err ErrNotFound) /\ FromError ErrNotFound = Internal.
Proof.
  destruct Hread as [H0 Hs0], Hlost as [H1 Hs1].
  destruct (Delete_loses o id w u0 u1) as [w' Hw']; [done..|]. by exists w'.
Qed.

Lemma lost_deletion_is_internal_error_witness :
  exists w', Delete (X := racing) (S := demo_storage) alice upload1 (upload_world StatusCompleted)
    = (w', Err ErrNotFound) /\ FromError ErrNotFound = Internal.
Proof.
  apply (lost_deletion_is_internal_error (X := racing) (S := demo_storage) (HR := demo_reliable _)
    (HO := racing_keeps) alice upload1 (upload_world StatusCompleted)
    (demo_upload upload1 StatusCompleted 1 laptop)
    (uq.with_status StatusDeleted None 5 (demo_upload upload1 StatusCompleted 1 laptop)));
    [apply upload_db_ok|split; [reflexivity|discriminate]|split; reflexivity].
Defined.

(** One row read outside a transaction. *)
Lemma mapped_pool_Ok {X : External Db} {A} f (g : Db -> option A) w w' a :
  store.map_err f (exec Pool (fun _ d => one d (g d))) w = (w', Ok a) ->
  let d := others (w_step w) (w_db w) in g d = Some a /\ w' = set_db d (tick w).
Proof. by intros (d & [-> Hg]%one_Ok & ->)%map_err_Ok%exec_pool_Ok. Qed.

Lemma validateDevice_Ok {X : External Db} o dev w w' :
  validateDevice o dev w = (w', Ok tt) ->
  let d := others (w_step w) (w_db w) in
  w' = set_db d (tick w) /\
  exists v, q.owned_device d dev o = Some v /\ db.d_revoked_at v = None.
Proof.
  unfold validateDevice. intros H. m_inv H. apply lift_Ok in Hrun as [-> _].
  apply map_err_Ok in Hrun0. unfold store.GetDeviceForOwner in Hrun0. m_inv Hrun0.
  apply (mapped_pool_Ok _ (fun d => q.owned_device d dev o)) in Hrun as [Hd ->].
  apply mret_Ok in Hrun0 as [-> ->]. cbn in H.
  destruct (db.d_revoked_at _) eqn:Hr in H; [done|]. injection H as <-. split; [done|by eexists].
Qed.

Lemma ValidateUploadTarget_Ok {X : External Db} f n b o w w' :
  store.map_err f (store.ValidateUploadTarget Pool n b o) w = (w', Ok tt) ->
  let d1 := others (w_step w) (w_db w) in
  let d2 := others (Datatypes.S (w_step w)) d1 in
  (exists row, q.owned_note d1 n o = Some row /\ db.n_deleted_at row = None) /\
  exists row, q.note_block d2 b n = Some row /\ db.b_deleted_at row = None.
Proof.
  intros H%map_err_Ok. unfold store.ValidateUploadTarget in H. m_inv H.
  unfold store.GetNoteForOwner in Hrun. m_inv Hrun.
  apply (mapped_pool_Ok _ (fun d => q.owned_note d n o)) in Hrun0 as [Hn ->].
  apply mret_Ok in Hrun as [-> ->]. cbn [store.fromDBNote store.Note_DeletedAt] in H.
  destruct (db.n_deleted_at a0) eqn:En; [done|]. m_inv H.
  unfold store.GetBlockForNoteForUpdate in Hrun. m_inv Hrun.
  apply (mapped_pool_Ok _ (fun d => q.note_block d b n)) in Hrun0 as [Hb ->].
  apply mret_Ok in Hrun as [-> ->]. cbn in H, Hb.
  destruct (db.b_deleted_at _) eqn:Eb in H; [done|]. split; eauto.
Qed.

(** C26: when an authorization is handed out the request was valid, its device
    was the caller's and not revoked, the note was the caller's and not deleted
    and the block was in the note and not deleted, each in the database that the
    statement checking it saw; and the upload exists: a pending row of the
    caller, for the requested note and block, with the requested size, the
    normalised type, a fresh cursor, and the path the authorization is for. *)
Theorem authorization_reserves_upload {X : External Db} {S : Storage} {T : MimeTables}
    (sv : UploadConfig) (o : UUID) (req : InitiateRequest) (w w' : World) (resp : InitiateResponse)
    (Hrun : Initiate sv o req w = (w', Ok resp)) :
  validateRequest req (uc_maxFileSize sv) (uc_allowedMIMETypes sv) = Ok tt /\
  (let n := w_step w in
   let d0 := others n (w_db w) in
   let d1 := others (Datatypes.S n) d0 in
   let d2 := others (Datatypes.S (Datatypes.S n)) d1 in
   (exists v, q.owned_device d0 (IR_DeviceID req) o = Some v /\ db.d_revoked_at v = None) /\
   (exists row, q.owned_note d1 (IR_NoteID req) o = Some row /\ db.n_deleted_at row = None) /\
   exists row, q.note_block d2 (IR_BlockID req) (IR_NoteID req) = Some row /\
     db.b_deleted_at row = None) /\
  exists u, file_uploads (w_db w') !! IResp_UploadID resp = Some u /\
    db.up_owner_id u = o /\ db.up_status u = StatusPending /\
    db.up_note_id u = IR_NoteID req /\ db.up_block_id u = IR_BlockID req /\
    uq.note_of_owner (w_db w') (IR_NoteID req) o = true /\
    uq.block_of_note (w_db w') (IR_BlockID req) (IR_NoteID req) = true /\
    db.up_expected_size u = IR_Size req /\
    db.up_content_type u = normalizedContentType (IR_ContentType req) /\
    db.up_cursor u = upload_seq (w_db w') /\ IResp_Cursor resp = db.up_cursor u /\
    IResp_Path resp = db.up_storage_path u /\
    db.up_storage_path u = upload_path (IR_NoteID req) (IR_BlockID req) (IResp_UploadID resp)
                             (normalizedContentType (IR_ContentType req)).
Proof.
  unfold Initiate in Hrun. m_inv Hrun. apply lift_Ok in Hrun0 as [-> Hvalid].
  case_match; [done|]. m_inv Hrun. destruct a, a0, a1. split; [done|].
  unfold CreateFileUpload in Hrun5. m_inv Hrun5.
  split.
  { apply validateDevice_Ok in Hrun1 as [-> Hdev].
    apply ValidateUploadTarget_Ok in Hrun2 as [Hnote Hblock]. by split. }
  apply mret_Ok in Hrun5 as [-> ->].
  apply exec_pool_Ok in Hrun6 as (d & Hq & ->).
  apply CreateFileUpload_Ok in Hq as (t & _ & _ & -> & -> & Hn & Hb).
  unfold authorize in Hrun. m_inv Hrun.
  injection Hrun5 as <- Hsign.
  destruct a as [signed|e]; [|by m_inv Hrun]. apply mret_Ok in Hrun as [-> ->].
  eexists. cbn. rewrite lookup_insert_eq. split; [done|]. by split_and!.
Qed.

Lemma authorization_reserves_upload_witness :
  validateRequest initiate_request 1000 ["image/*"%string] = Ok tt /\
  ((exists v, q.owned_device (upload_db StatusPending) (IR_DeviceID initiate_request) alice = Some v /\
      db.d_revoked_at v = None) /\
   (exists row, q.owned_note (upload_db StatusPending) note1 alice = Some row /\
      db.n_deleted_at row = None) /\
   exists row, q.note_block (upload_db StatusPending) block1 note1 = Some row /\
     db.b_deleted_at row = None) /\
  exists u, file_uploads (w_db (fst initiate_run)) !! IResp_UploadID initiate_response = Some u /\
    db.up_owner_id u = alice /\ db.up_status u = StatusPending /\
    db.up_note_id u = note1 /\ db.up_block_id u = block1 /\
    uq.note_of_owner (w_db (fst initiate_run)) note1 alice = true /\
    uq.block_of_note (w_db (fst initiate_run)) block1 note1 = true /\
    db.up_expected_size u = 10 /\ db.up_content_type u = normalizedContentType "Image/PNG" /\
    db.up_cursor u = upload_seq (w_db (fst initiate_run)) /\
    IResp_Cursor initiate_response = db.up_cursor u /\
    IResp_Path initiate_response = db.up_storage_path u /\
    db.up_storage_path u = upload_path (X := demo) (T := demo_mime) note1 block1
      (IResp_UploadID initiate_response) (normalizedContentType "Image/PNG").
Proof.
  apply (authorization_reserves_upload (X := demo) (S := demo_storage) (T := demo_mime) demo_uploads
    alice initiate_request (upload_world StatusPending)). vm_compute. reflexivity.
Defined.
