(* ===== verification/JobFacts.v ===== *)
(** * What the outbox keeps

    [jobs_progress]: jobs are never lost or altered, a finished job stays
    finished, and it was finished only after a snapshot of its note at the
    version it asks for was stored.  Every step of the worker respects the
    relation whenever the other clients do. *)

From S2P Require Import Prelude GoText Json HttpApi External GoTime Schema Queries DbInvariant.
From S2P Require Import Store Frame SyncService SyncPush SyncFrame UploadStore Storage.
From S2P Require Import UploadService Cleanup Snapshots Worker UploadFacts.

(** ** The relation *)

Section relation.
Context {X : External Db}.

(** A snapshot of the note of [p] at the version [p] expects, or a later one. *)
Definition snapshot_stored (p : store.SnapshotJobPayload) (d : Db) : Prop :=
  exists id s, note_snapshots d !! id = Some s /\ db.sn_note_id s = store.SJP_NoteID p /\
    store.SJP_ExpectedVersion p <= db.sn_version s.

(** The job was served. *)
Definition served (j : db.OutboxJob) (d : Db) : Prop :=
  exists p, db.j_job_type j = store.JobCreateSnapshot /\
    decode_payload (Some (db.j_payload j)) = Some p /\ snapshot_stored p d.

Record jobs_ok (d : Db) : Prop := mkJobsOk {
  jo_key : forall id j, outbox_jobs d !! id = Some j -> db.j_id j = id /\ id <= job_seq d;
  jo_snapshot : forall id s, note_snapshots d !! id = Some s -> db.sn_id s = id;
  jo_note : forall id n, notes d !! id = Some n -> db.n_id n = id;
  jo_served : forall id j, outbox_jobs d !! id = Some j -> is_Some (db.j_completed_at j) -> served j d
}.

(** A later version of a job: the same job, tried at least as often, and
    finished if it was. *)
Record job_later (j j' : db.OutboxJob) : Prop := mkJobLater {
  jl_id : db.j_id j' = db.j_id j;
  jl_type : db.j_job_type j' = db.j_job_type j;
  jl_payload : db.j_payload j' = db.j_payload j;
  jl_created : db.j_created_at j' = db.j_created_at j;
  jl_attempts : db.j_attempts j <= db.j_attempts j';
  jl_completed : is_Some (db.j_completed_at j) -> is_Some (db.j_completed_at j')
}.

Record jobs_step (d d' : Db) : Prop := mkJobsStep {
  js_ok : jobs_ok d';
  js_jobs : forall id j, outbox_jobs d !! id = Some j ->
    exists j', outbox_jobs d' !! id = Some j' /\ job_later j j';
  js_snapshots : forall id s, note_snapshots d !! id = Some s ->
    exists s', note_snapshots d' !! id = Some s' /\ db.sn_note_id s' = db.sn_note_id s /\
      db.sn_owner_id s' = db.sn_owner_id s /\ db.sn_version s' = db.sn_version s;
  js_seq : job_seq d <= job_seq d'
}.

Definition jobs_progress (d d' : Db) : Prop := jobs_ok d -> jobs_step d d'.

(** ** The relation composes *)

Lemma job_later_refl j : job_later j j.
Proof. by split. Qed.

Lemma job_later_trans j1 j2 j3 : job_later j1 j2 -> job_later j2 j3 -> job_later j1 j3.
Proof. intros [] []. split; congruence || lia || auto. Qed.

Lemma jobs_other_tables d d' :
  outbox_jobs d' = outbox_jobs d -> note_snapshots d' = note_snapshots d ->
  job_seq d <= job_seq d' ->
  ((forall id n, notes d !! id = Some n -> db.n_id n = id) ->
   forall id n, notes d' !! id = Some n -> db.n_id n = id) ->
  jobs_progress d d'.
Proof.
  intros Hj Hs Hq Hn [Hk Hsk Hnk Hv]. split; [| | |done].
  - split; rewrite ?Hj, ?Hs; [intros id j [? ?]%Hk; split; [done|lia]|done|by apply Hn|]. intros id j Hid Hc.
    destruct (Hv _ _ Hid Hc) as (p & Ht & Hp & Hst). exists p. split_and!; [done|done|].
    unfold snapshot_stored. by rewrite Hs.
  - intros id j Hid. exists j. rewrite Hj. split; [done|apply job_later_refl].
  - intros id s Hid. exists s. by rewrite Hs.
Qed.

Lemma jobs_same d d' :
  outbox_jobs d' = outbox_jobs d -> note_snapshots d' = note_snapshots d ->
  notes d' = notes d -> job_seq d <= job_seq d' -> jobs_progress d d'.
Proof. intros ? ? Hn ?. apply jobs_other_tables; [done..|]. by rewrite Hn. Qed.

Lemma jobs_insert_note d id n :
  ((forall i m, notes d !! i = Some m -> db.n_id m = i) -> db.n_id n = id) ->
  jobs_progress d (set_notes <[id := n]> d).
Proof.
  intros Hn. apply jobs_other_tables; cbn; [done..|]. intros Hk i m Hm.
  lookup_cases Hm; [by apply Hn|by apply Hk].
Qed.

Lemma jobs_step_then d1 d2 d3 : jobs_step d1 d2 -> jobs_progress d2 d3 -> jobs_step d1 d3.
Proof.
  intros [Hok2 Hj1 Hs1 Hq1] H2. destruct (H2 Hok2) as [Hok3 Hj2 Hs2 Hq2]. split; [done| | |lia].
  - intros id j (j2 & (j3 & H3 & ?)%Hj2 & ?)%Hj1. exists j3. split; [done|].
    by eapply job_later_trans.
  - intros id s (s2 & (s3 & H3 & ? & ? & ?)%Hs2 & ? & ? & ?)%Hs1. exists s3.
    split_and!; [done|congruence..].
Qed.

#[export] Instance jobs_progress_preorder : PreOrder jobs_progress.
Proof.
  split; [intros d; by apply jobs_same|]. intros d1 d2 d3 H1 H2 Hok.
  by eapply jobs_step_then; [apply H1|].
Qed.

#[export] Instance jobs_progress_rollable : Rollable jobs_progress.
Proof.
  split; [apply _|]. intros d0 d H Hok. apply jobs_same; [done..| |done].
  apply (js_seq _ _ (H Hok)).
Qed.

Lemma snapshot_stored_stable p d d' : jobs_step d d' -> snapshot_stored p d -> snapshot_stored p d'.
Proof.
  intros Hst (id & s & Hs & Hn & Hv). destruct (js_snapshots _ _ Hst _ _ Hs) as (s' & ? & ? & ? & ?).
  exists id, s'. split_and!; [done|congruence|lia].
Qed.

Lemma served_later j j' d d' : jobs_step d d' -> job_later j j' -> served j d -> served j' d'.
Proof.
  intros Hst Hl (p & Ht & Hp & Hs). exists p. rewrite (jl_type _ _ Hl), (jl_payload _ _ Hl).
  split_and!; [done|done|by eapply snapshot_stored_stable].
Qed.

(** ** Updates of a row *)

(** A job row replaced by a later version of it; if that one is finished, it
    was served. *)
Lemma jobs_update_job d id j j' :
  outbox_jobs d !! id = Some j -> job_later j j' ->
  (is_Some (db.j_completed_at j') -> is_Some (db.j_completed_at j) \/ served j d) ->
  jobs_progress d (set_jobs <[id := j']> d).
Proof.
  intros Hid Hl Hc Hok. destruct Hok as [Hk Hsk Hnk Hv]. split; [| | |done].
  - split; cbn; [|done|done|].
    + intros i x Hx. lookup_cases Hx; [|by eauto]. rewrite (jl_id _ _ Hl). by apply Hk.
    + intros i x Hx Hx'. lookup_cases Hx; [|by eapply Hv].
      assert (Hj : served j d) by (destruct (Hc Hx') as [Hd|Hd]; [by eapply Hv|done]).
      destruct Hj as (p & Ht & Hp & Hs). exists p.
      by rewrite (jl_type _ _ Hl), (jl_payload _ _ Hl).
  - intros i x Hx. cbn. destruct (decide (id = i)) as [<-|Hne].
    + exists j'. rewrite lookup_insert_eq. split; [done|]. by assert (x = j) as -> by congruence.
    + exists x. rewrite lookup_insert_ne by done. split; [done|apply job_later_refl].
  - intros i s Hs. by exists s.
Qed.

(** A snapshot row stored; an old one keeps what identifies it. *)
Lemma jobs_store_snapshot d s :
  (forall s0, note_snapshots d !! db.sn_id s = Some s0 ->
     db.sn_note_id s = db.sn_note_id s0 /\ db.sn_owner_id s = db.sn_owner_id s0 /\
     db.sn_version s = db.sn_version s0) ->
  jobs_progress d (set_snapshots <[db.sn_id s := s]> d).
Proof.
  intros Hs0 [Hk Hsk Hnk Hv].
  assert (Hkeep : forall id t, note_snapshots d !! id = Some t ->
    exists t', note_snapshots (set_snapshots <[db.sn_id s := s]> d) !! id = Some t' /\
      db.sn_note_id t' = db.sn_note_id t /\ db.sn_owner_id t' = db.sn_owner_id t /\
      db.sn_version t' = db.sn_version t).
  { intros id t Ht. cbn. destruct (decide (db.sn_id s = id)) as [<-|Hne].
    - exists s. rewrite lookup_insert_eq. by destruct (Hs0 _ Ht) as (? & ? & ?).
    - exists t. by rewrite lookup_insert_ne. }
  split; [|intros id j Hj; exists j; split; [done|apply job_later_refl]|done|done].
  split; cbn; [done| |done|].
  - intros i x Hx. lookup_cases Hx; [done|by eauto].
  - intros i j Hj Hc. destruct (Hv _ _ Hj Hc) as (p & Ht & Hp & (id & t & Hid & Hn & Hver)).
    exists p. split_and!; [done|done|]. destruct (Hkeep _ _ Hid) as (t' & ? & ? & ? & ?).
    exists id, t'. split_and!; [done|congruence|lia].
Qed.

(** A new job is unfinished. *)
Lemma jobs_insert_job d id j :
  id = job_seq d + 1 -> db.j_id j = id -> db.j_completed_at j = None ->
  jobs_progress d (with_sequences (change_seq d) id (upload_seq d) (set_jobs <[id := j]> d)).
Proof.
  intros -> Hid Hc [Hk Hsk Hnk Hv].
  assert (Hn : outbox_jobs d !! (job_seq d + 1) = None).
  { destruct (outbox_jobs d !! (job_seq d + 1)) as [x|] eqn:E; [|done]. apply Hk in E. lia. }
  split; [split; cbn; [|done|done|]| | |]; cbn; [| | | |lia].
  - intros i x Hx. lookup_cases Hx; [split; [done|lia]|]. apply Hk in Hx. split; [tauto|lia].
  - intros i x Hx Hx'. lookup_cases Hx; [|by eapply Hv]. rewrite Hc in Hx'. by destruct Hx'.
  - intros i x Hx. exists x. rewrite lookup_insert_ne by congruence.
    split; [done|apply job_later_refl].
  - intros i s Hs. by exists s.
Qed.

End relation.

(** ** Statements *)

Section statements.
Context {X : External Db}.

(** Statements on other tables. *)
Ltac same_jobs := intros now d d' a H; split_match H; by apply jobs_same.

Ltac notes_jobs :=
  intros now d d' a H; split_match H; apply jobs_insert_note; intros Hk; cbn.

Lemma jobs_InsertNoteChange id o n b dev op t bv rv f sv data :
  keeps jobs_progress (q.InsertNoteChange id o n b dev op t bv rv f sv data).
Proof. unfold q.InsertNoteChange. same_jobs. Qed.

Lemma jobs_EnqueueOutboxJob t p at_ : keeps jobs_progress (q.EnqueueOutboxJob t p at_).
Proof.
  intros now d d' r H. unfold q.EnqueueOutboxJob in H. injection H as <- <-.
  by apply jobs_insert_job.
Qed.

#[export] Instance jobs_writes : SyncWrites (on_db jobs_progress).
Proof.
  split; [apply _|..]; intros; apply sat_exec_tx; try apply _;
    auto using jobs_InsertNoteChange, jobs_EnqueueOutboxJob.
  - unfold q.CreateNote. notes_jobs. done.
  - unfold q.UpdateNoteState. notes_jobs. apply owned_note_Some in E as [Hn _]. by apply Hk.
  - unfold q.DeleteNote. notes_jobs. apply owned_note_Some in E as [Hn _]. by apply Hk.
  - unfold q.CreateBlock. same_jobs.
  - unfold q.UpdateBlockState. same_jobs.
  - unfold q.DeleteBlock. same_jobs.
  - unfold q.CreateCategory. same_jobs.
  - unfold q.UpdateCategory. same_jobs.
  - unfold q.DeleteCategory. same_jobs.
Qed.

Lemma jobs_ClaimOutboxJob worker timeout : keeps jobs_progress (q.ClaimOutboxJob worker timeout).
Proof.
  intros now d d' j' H Hok. unfold q.ClaimOutboxJob in H.
  destruct (head _) as [j|] eqn:Hj; [|done]. case_match; [done|]. injection H as <- <-.
  apply head_Some_elem_of, elem_of_sort_by, list_elem_of_filter in Hj as [Hc [id Hid]%elem_of_rows].
  destruct (jo_key _ Hok _ _ Hid) as [<- _]. unfold q.claimable in Hc. to_prop.
  eapply jobs_update_job; [exact Hid| |cbn; intros [? ?]; congruence|done].
  split; cbn; try done. lia.
Qed.

Lemma jobs_FailOutboxJob id msg delay : keeps jobs_progress (q.FailOutboxJob id msg delay).
Proof.
  intros now d d' r H. unfold q.FailOutboxJob in H. split_match H.
  eapply jobs_update_job; [done|by split|by left].
Qed.

(** Finishing is legal once the job was served. *)
Lemma jobs_CompleteOutboxJob id now d d' r :
  q.CompleteOutboxJob id now d = Ok (d', r) ->
  (forall j, outbox_jobs d !! id = Some j -> served j d) -> jobs_progress d d'.
Proof.
  intros H Hs. unfold q.CompleteOutboxJob in H. split_match H.
  eapply jobs_update_job; [done|by split|]. intros _. right. by apply Hs.
Qed.

(** The row an upsert leaves for the note and version. *)
Lemma InsertSnapshot_Ok s now d d' s' :
  q.InsertSnapshot s now d = Ok (d', s') ->
  d' = set_snapshots <[db.sn_id s' := s']> d /\ db.sn_note_id s' = db.sn_note_id s /\
  db.sn_version s' = db.sn_version s /\ db.sn_snapshot_data s' = jsonb (db.sn_snapshot_data s) /\
  db.sn_checksum s' = db.sn_checksum s /\
  db.sn_last_applied_cursor s' = db.sn_last_applied_cursor s /\
  ((exists id t, note_snapshots d !! id = Some t /\ db.sn_id s' = db.sn_id t /\
      db.sn_note_id t = db.sn_note_id s /\ db.sn_version t = db.sn_version s /\
      db.sn_owner_id s' = db.sn_owner_id t)
   \/ note_snapshots d !! db.sn_id s' = None).
Proof.
  unfold q.InsertSnapshot. destruct (List.find _ _) as [t|] eqn:Ht.
  - apply List.find_some in Ht as [[id Hid]%list_elem_of_In%elem_of_rows Hk].
    apply andb_prop in Hk as [Hn%N.eqb_eq Hv%Z.eqb_eq]. intros [= <- <-]. cbn.
    split_and!; try done. left. by exists id, t.
  - destruct (note_snapshots d !! db.sn_id s) eqn:Hs; [done|].
    destruct (notes d !! db.sn_note_id s); [|done]. intros [= <- <-]. cbn.
    split_and!; try done. by right.
Qed.

Lemma jobs_InsertSnapshot s : keeps jobs_progress (q.InsertSnapshot s).
Proof.
  intros now d d' s' (-> & Hn & Hv & _ & _ & _ & Hs)%InsertSnapshot_Ok Hok.
  apply jobs_store_snapshot; [|done]. intros s0 Hs0.
  destruct Hs as [(id & t & Hid & Hi & Htn & Htv & Ho)|Hs]; [|congruence].
  assert (db.sn_id t = id) as <- by by apply (jo_snapshot _ Hok).
  rewrite Hi in Hs0. assert (s0 = t) as -> by congruence. split_and!; congruence.
Qed.

End statements.

#[export] Hint Resolve jobs_ClaimOutboxJob jobs_FailOutboxJob jobs_InsertSnapshot : frame.

(** ** The worker *)

Section worker.
Context {X : External Db} {S : Storage} {L : LocalZone}.

(** The document of a note row: what the three reads find in one state. *)
Definition note_document (d : Db) (id : UUID) (n : db.Note) : store.NoteDocument :=
  store.mkNoteDocument (store.fromDBNote n)
    (map store.fromDBBlock
       (sort_by q.block_leb (filter (fun b => db.b_note_id b = id) (rows (note_blocks d)))))
    (max_or_zero (map db.ch_global_sequence
       (filter (fun c => db.ch_note_id c = Some id) (note_changes d)))).

(** The row a snapshot inserts. *)
Definition snapshot_row (id : UUID) (doc : store.NoteDocument) (content : SnapshotDocument)
    : db.NoteSnapshot :=
  db.mkNoteSnapshot id (store.Note_ID (store.Doc_Note doc)) (store.Note_OwnerID (store.Doc_Note doc))
    (store.Note_CurrentVersion (store.Doc_Note doc)) SnapshotFormatV1 1
    (fst (EncodeSnapshot content)) (snd (EncodeSnapshot content)) zero_time
    (store.Doc_LastAppliedCursor doc).

Lemma GetNoteDocument_Ok id o w w' doc :
  store.GetNoteDocument Tx id o w = (w', Ok doc) ->
  exists n, q.owned_note (w_db w) id o = Some n /\ doc = note_document (w_db w) id n /\
    w_db w' = w_db w /\ w_now w' = w_now w /\ w_uuids w' = w_uuids w.
Proof.
  intros H. unfold store.GetNoteDocument, store.GetNoteForOwner, store.ListBlocksForNote,
    store.GetLastAppliedCursorForNote in H. m_inv H. apply mret_Ok in H as [-> ->].
  rename Hrun into Hnote, Hrun0 into Hblocks, Hrun1 into Hcursor.
  m_inv Hnote. apply mret_Ok in Hnote as [-> ->]. apply map_err_Ok in Hrun.
  apply exec_tx_Ok in Hrun as (_ & _ & d1 & [-> Hn]%one_Ok & ->).
  m_inv Hblocks. apply mret_Ok in Hblocks as [-> ->].
  apply exec_tx_Ok in Hrun as (_ & _ & d2 & [= <- <-] & ->).
  apply exec_tx_Ok in Hcursor as (_ & _ & d3 & [= <- <-] & ->).
  by eexists.
Qed.

Lemma CreateSnapshot_Ok p w w' s :
  CreateSnapshot Tx p w = (w', Ok s) ->
  exists n content row,
    q.owned_note (w_db w) (store.SJP_NoteID p) (store.SJP_OwnerID p) = Some n /\
    store.SJP_ExpectedVersion p <= db.n_current_version n /\
    SnapshotDocument_FromEntity (note_document (w_db w) (store.SJP_NoteID p) n) = Ok content /\
    q.InsertSnapshot
      (snapshot_row (uuid_new (w_uuids w)) (note_document (w_db w) (store.SJP_NoteID p) n) content)
      (w_now w) (w_db w) = Ok (w_db w', row) /\
    s = store.fromDBSnapshot row.
Proof.
  intros H. unfold CreateSnapshot in H. m_inv H.
  apply GetNoteDocument_Ok in Hrun as (n & Hn & -> & Hd & Hnow & Hu).
  case_match eqn:Hv; [by apply fail_Ok in H|]. apply Z.ltb_ge in Hv. m_inv H.
  apply lift_Ok in Hrun as [-> Hc]. destruct (EncodeSnapshot a) as [encoded checksum] eqn:He.
  m_inv H. injection Hrun as <- <-. unfold store.InsertSnapshot in H. cbn in H. m_inv H.
  apply mret_Ok in H as [-> ->]. apply exec_tx_Ok in Hrun as (_ & _ & d & Hq & ->).
  cbn in Hq. rewrite Hd, Hnow, Hu in Hq. exists n, a, a0. split_and!; try done.
  unfold snapshot_row. by rewrite He.
Qed.

Lemma CreateSnapshot_stores p w w' s :
  jobs_ok (w_db w) -> CreateSnapshot Tx p w = (w', Ok s) -> snapshot_stored p (w_db w').
Proof.
  intros Hok (n & content & row & [Hn _]%owned_note_Some & Hv & _ & Hq & _)%CreateSnapshot_Ok.
  apply InsertSnapshot_Ok in Hq as (-> & Hni & Hve & _).
  exists (db.sn_id row), row. cbn. rewrite lookup_insert_eq. split; [done|].
  rewrite Hni, Hve. cbn. split; [by apply (jo_note _ Hok)|done].
Qed.

(** ** The worker keeps the relation *)

Lemma sat_CreateSnapshot p : sat (on_db jobs_progress) (CreateSnapshot Tx p).
Proof.
  unfold CreateSnapshot, store.GetNoteDocument, store.GetNoteForOwner, store.ListBlocksForNote,
    store.GetLastAppliedCursorForNote, store.InsertSnapshot.
  frame_walk. apply sat_exec_tx; [apply _|apply jobs_InsertSnapshot].
Qed.

(** A transaction that commits leaves what its closure left. *)
Lemma WithTx_commits {A} (fn : Store -> M A) w w' a :
  WithTx Pool fn w = (w', Ok a) ->
  exists w2, fn Tx (begin_world w) = (w2, Ok a) /\ w_db w' = w_db w2.
Proof.
  rewrite WithTx_Pool. destruct (round_trip (w_step w)); [|done..]. cbv zeta.
  destruct (fn Tx (begin_world w)) as [w2 [b|e]]; [|done].
  destruct (w_tx w2); [destruct (round_trip (w_step w2))|..]; try done.
  intros [= <- <-]. by exists w2.
Qed.

Context `{!OthersKeep jobs_progress}.

Lemma sat_processJob job : sat (on_db jobs_progress) (processJob job).
Proof.
  unfold processJob. case_match; [|frame_walk]. case_match; [|frame_walk].
  intros w w' r Hrun. unfold on_db. transitivity (others (w_step w) (w_db w)); [apply others_keep|].
  eapply (WithTx_sat jobs_progress); [|exact Hrun].
  apply sat_bind; [apply _|apply sat_CreateSnapshot|frame_walk].
Qed.

(** A job that was processed without error has been served. *)
Lemma processJob_serves job w w' :
  jobs_ok (w_db w) -> processJob job w = (w', Ok tt) ->
  exists p, store.Job_JobType job = store.JobCreateSnapshot /\
    decode_payload (store.Job_Payload job) = Some p /\ snapshot_stored p (w_db w').
Proof.
  intros Hok H. unfold processJob in H.
  destruct (String.eqb_spec (store.Job_JobType job) store.JobCreateSnapshot); [|done].
  destruct (decode_payload _) as [p|] eqn:Hp; [|done]. exists p. split_and!; [done|done|].
  apply WithTx_commits in H as (w2 & H & ->). m_inv H. apply mret_Ok in H as [-> _].
  eapply CreateSnapshot_stores; [|done]. apply (js_ok _ _ (others_keep (R := jobs_progress) _ _ Hok)).
Qed.

Lemma sat_record_failure job e : sat (on_db jobs_progress) (record_failure job e).
Proof. unfold record_failure, store.FailOutboxJob. frame_walk. Qed.

(** The job claimed is the row claimed. *)
Lemma ClaimOutboxJob_row wk t w w' job :
  store.ClaimOutboxJob Pool wk t w = (w', Ok job) -> jobs_ok (others (w_step w) (w_db w)) ->
  exists j, outbox_jobs (w_db w') !! db.j_id j = Some j /\ job = store.fromDBOutboxJob j.
Proof.
  intros H Hok. unfold store.ClaimOutboxJob in H. m_inv H. apply mret_Ok in H as [-> ->].
  apply map_err_Ok in Hrun. apply exec_pool_Ok in Hrun as (d & Hq & ->). exists a. split; [|done].
  unfold q.ClaimOutboxJob in Hq. destruct (head _) as [j|]; [|done]. case_match; [done|].
  injection Hq as <- <-. cbn. by rewrite lookup_insert_eq.
Qed.

(** Completing a job that was served keeps the relation. *)
Definition served_row (id : Z) (d : Db) : Prop :=
  exists j, outbox_jobs d !! id = Some j /\ served j d.

Lemma served_row_stable id d d' : jobs_step d d' -> served_row id d -> served_row id d'.
Proof.
  intros Hst (j & Hj & Hs). destruct (js_jobs _ _ Hst _ _ Hj) as (j' & Hj' & Hl).
  exists j'. split; [done|by eapply served_later].
Qed.

Lemma sat_complete id w w' r :
  served_row id (w_db w) -> exec Pool (q.CompleteOutboxJob id) w = (w', r) ->
  jobs_progress (w_db w) (w_db w').
Proof.
  intros Hs H Hok. cbn [exec] in H. unfold exec_pool in H.
  pose proof (others_keep (R := jobs_progress) (w_step w) _ Hok) as Ho.
  set (d := others (w_step w) (w_db w)) in *.
  destruct (served_row_stable _ _ _ Ho Hs) as (j & Hj & Hsrv).
  eapply jobs_step_then; [exact Ho|]. destruct (round_trip (w_step w)); [|by injection H as <- _|];
    cbn in H; (destruct (q.CompleteOutboxJob _ _ d) as [[d' u]|e] eqn:E; [|by injection H as <- _]);
    injection H as <- _; cbn; (eapply jobs_CompleteOutboxJob; [exact E|]; intros x Hx; congruence).
Qed.

Lemma sat_ClaimOutboxJob wk t : sat (on_db jobs_progress) (store.ClaimOutboxJob Pool wk t).
Proof. unfold store.ClaimOutboxJob. frame_walk. Qed.

Lemma sat_ProcessOnce wk : sat (on_db jobs_progress) (ProcessOnce wk).
Proof.
  unfold ProcessOnce. intros w w' r H Hok. rewrite M_bind_eq in H. unfold attempt at 1 in H.
  destruct (store.ClaimOutboxJob Pool _ _ w) as [w1 [job|e]] eqn:Hc;
    pose proof (sat_ClaimOutboxJob _ _ _ _ _ Hc) as H1; unfold on_db in H1;
    [|by injection H as <- _; apply H1].
  pose proof (js_ok _ _ (H1 Hok)) as Hok1. eapply jobs_step_then; [by apply H1|].
  apply ClaimOutboxJob_row in Hc as (j & Hj & ->); [|by apply (js_ok _ _ (others_keep (R := jobs_progress) _ _ Hok))].
  rewrite M_bind_eq in H. unfold attempt at 1 in H.
  destruct (processJob (store.fromDBOutboxJob j) w1) as [w2 [[]|e]] eqn:Hp;
    pose proof (sat_processJob _ _ _ _ Hp) as H2; unfold on_db in H2;
    (transitivity (w_db w2); [done|]);
    [|by apply (sat_record_failure _ _ _ _ _ H)].
  apply processJob_serves in Hp as (p & Ht & Hd & Hs); [|done].
  assert (Hrow : served_row (db.j_id j) (w_db w2)).
  { destruct (js_jobs _ _ (H2 Hok1) _ _ Hj) as (j2 & Hj2 & Hl). exists j2. split; [done|].
    exists p. rewrite (jl_type _ _ Hl), (jl_payload _ _ Hl). by split_and!. }
  rewrite M_bind_eq in H. unfold attempt at 1 in H.
  destruct (store.CompleteOutboxJob Pool _ w2) as [w3 r3] eqn:E.
  pose proof (sat_complete _ _ _ _ Hrow E) as H3.
  by destruct r3; injection H as <- _.
Qed.

(** ** The loop *)

Lemma jobs_uploads f d : jobs_progress d (set_uploads f d).
Proof. by apply jobs_same. Qed.

Lemma jobs_update_one id found may f d d' u :
  uq.update_one id found may f d = Ok (d', u) -> jobs_progress d d'.
Proof. intros (? & _ & _ & _ & ->)%update_one_Ok. apply jobs_uploads. Qed.

Lemma jobs_CompleteFileUpload id o n v : keeps jobs_progress (uq.CompleteFileUpload id o n v).
Proof.
  intros now d d' u H. unfold uq.CompleteFileUpload in H. split_match H. by eapply jobs_update_one.
Qed.

Lemma jobs_MarkFileUploadExpired id e : keeps jobs_progress (uq.MarkFileUploadExpired id e).
Proof. intros now d d' u. apply jobs_update_one. Qed.

Hint Resolve jobs_CompleteFileUpload jobs_MarkFileUploadExpired : frame.

Lemma sat_jobs_clean_upload u : sat (on_db jobs_progress) (clean_upload u).
Proof.
  unfold clean_upload, GetObjectInfo, DeleteObject, ustore.CompleteFileUpload,
    ustore.MarkFileUploadExpired, ustore.one_row. frame_walk.
Qed.

Hint Resolve sat_jobs_clean_upload : frame.

Lemma sat_jobs_clean_uploads us e : sat (on_db jobs_progress) (clean_uploads us e).
Proof. revert e. induction us as [|u us IH]; intros e; cbn [clean_uploads]; frame_walk. Qed.

Hint Resolve sat_jobs_clean_uploads sat_ProcessOnce : frame.

Lemma sat_maybeCleanup wk : sat (on_db jobs_progress) (maybeCleanup wk).
Proof. unfold maybeCleanup, cleanup_due, RunOnce, ustore.ListExpiredFileUploads. frame_walk. Qed.

Hint Resolve sat_maybeCleanup : frame.

Lemma sat_Run cancelled wk : sat (on_db jobs_progress) (Run cancelled wk).
Proof. revert wk. induction cancelled; intros wk; cbn [Run]; frame_walk. Qed.

End worker.
