(* ===== verification/JobTheorems.v ===== *)
(** * The worker: theorems

    What the loop of the worker and the pushes beside it keep of the outbox,
    what becomes of a job that can be served and of one that cannot, how jobs
    are claimed and how long a retry waits. *)

From S2P Require Import Prelude GoText GoFloat Json GoJsonText GoSha256 HttpApi Constants.
From S2P Require Import External GoTime Schema Queries DbInvariant Store Frame SyncModels.
From S2P Require Import SyncService Demo SyncPush SyncFrame UploadStore Storage Cleanup Snapshots.
From S2P Require Import Worker DemoServices JobFacts.

(** ** Definitions the statements use *)

(** What runs against the outbox: the loop of a worker, or a push. *)
Inductive outbox_call :=
| CallWorker (cancelled : list bool) (wk : Worker)
| CallPush (sv : Service) (owner : UUID) (req : Request).

Definition run_outbox {X : External Db} {S : Storage} {L : LocalZone} (c : outbox_call) : M unit :=
  match c with
  | CallWorker cancelled wk => _ ← Run cancelled wk; mret tt
  | CallPush sv owner req => _ ← Sync sv owner req; mret tt
  end.

(** The job a claim takes. *)
Definition next_job (now timeout : Time) (d : Db) : option db.OutboxJob :=
  head (sort_by q.job_leb (filter (fun j => q.claimable now timeout j = true)
                             (rows (outbox_jobs d)))).

(** A claimed job, and what becomes of it. *)
Definition claimed_job (worker : string) (now : Time) (j : db.OutboxJob) : db.OutboxJob :=
  db.mkOutboxJob (db.j_id j) (db.j_job_type j) (db.j_payload j) (db.j_available_at j)
    (db.j_attempts j + 1) (Some now) (Some worker) (db.j_completed_at j) (db.j_last_error j)
    (db.j_created_at j).

Definition finished_job (now : Time) (j : db.OutboxJob) : db.OutboxJob :=
  db.mkOutboxJob (db.j_id j) (db.j_job_type j) (db.j_payload j) (db.j_available_at j)
    (db.j_attempts j + 1) None None (Some now) None (db.j_created_at j).

Definition retried_job (now : Time) (msg : message) (j : db.OutboxJob) : db.OutboxJob :=
  db.mkOutboxJob (db.j_id j) (db.j_job_type j) (db.j_payload j)
    (now + retryDelay (db.j_attempts j + 1)) (db.j_attempts j + 1) None None (db.j_completed_at j)
    (Some msg) (db.j_created_at j).

Section content.
Context {L : LocalZone}.

(** The content of a snapshot, from the rows. *)
Definition block_content (b : db.NoteBlock) : SnapshotBlock :=
  mkSnapshotBlock (db.b_id b) (db.b_block_type b) (db.b_text_content b) (db.b_position b)
    (store.NormalizeJSON (Some (db.b_block_properties b))) (formatTimePtr (db.b_deleted_at b)).

Definition note_content {X : External Db} (d : Db) (n : db.Note) : SnapshotDocument :=
  mkSnapshotDocument 1
    (max_or_zero (map db.ch_global_sequence
       (filter (fun c => db.ch_note_id c = Some (db.n_id n)) (note_changes d))))
    (mkSnapshotNote (db.n_id n) (db.n_title n) (store.NormalizeJSON (Some (db.n_note_properties n)))
       (db.n_current_version n) (formatTimePtr (db.n_deleted_at n)))
    (map block_content (sort_by q.block_leb
       (filter (fun b => db.b_note_id b = db.n_id n) (rows (note_blocks d))))).

(** The row holds a snapshot of the note as it is in [d]: the JSONB value of its
    document, and the checksum of the text of that document as it was sent. *)
Definition snapshot_of {X : External Db} (d : Db) (n : db.Note) (s : db.NoteSnapshot) : Prop :=
  db.sn_note_id s = db.n_id n /\ db.sn_version s = db.n_current_version n /\
  db.sn_snapshot_data s = jsonb (marshal_snapshot (note_content d n)) /\
  db.sn_checksum s = hex_encode (Sum256 (json_text (marshal_snapshot (note_content d n)))) /\
  db.sn_last_applied_cursor s = SD_LastAppliedCursor (note_content d n).

End content.

(** The note a job asks for, where there is one to snapshot. *)
Definition servable {X : External Db} (d : Db) (j : db.OutboxJob) : option db.Note :=
  if String.eqb (db.j_job_type j) store.JobCreateSnapshot then
    p ← decode_payload (Some (db.j_payload j));
    n ← q.owned_note d (store.SJP_NoteID p) (store.SJP_OwnerID p);
    if db.n_current_version n <? store.SJP_ExpectedVersion p then None else Some n
  else None.

(** Everything but the jobs and the snapshots. *)
Definition same_notes (d d' : Db) : Prop :=
  categories d' = categories d /\ notes d' = notes d /\ note_blocks d' = note_blocks d /\
  sync_devices d' = sync_devices d /\ note_changes d' = note_changes d /\
  file_uploads d' = file_uploads d.

(** *** An example: two jobs, the first for a snapshot, the second unknown *)

Definition demo_job (id : Z) (job_type : string) : db.OutboxJob :=
  db.mkOutboxJob id job_type
    (store.encode_payload (X := demo) (store.mkSnapshotJobPayload note1 alice 2))
    0 0 None None None None 0.

Definition job_db (jobs : list db.OutboxJob) : Db :=
  with_sequences 0 2 0 (set_jobs (fun _ => list_to_map (map (fun j => (db.j_id j, j)) jobs)) demo_db).

Definition job_world (jobs : list db.OutboxJob) : World := mkWorld (job_db jobs) 0 0 TxActive 1 0.

Definition snapshot_job : db.OutboxJob := demo_job 1 store.JobCreateSnapshot.
Definition unknown_job : db.OutboxJob := demo_job 2 "compact_history".

(** ** Lemmas *)

(** *** The content of a snapshot *)

Section content_lemmas.
Context {X : External Db} {L : LocalZone}.

Lemma snapshot_blocks_content id bs :
  id <> uuid_Nil -> Forall (fun b => db.b_note_id b = id /\ db.b_id b <> uuid_Nil) bs ->
  snapshot_blocks id (map store.fromDBBlock bs) = Ok (map block_content bs).
Proof.
  intros Hid. induction 1 as [|b bs [Hn Hb] _ IH]; [done|]. cbn.
  rewrite Hn, N.eqb_refl. cbn. unfold SnapshotBlock_FromEntity. cbn.
  rewrite (proj2 (is_nil_false _)) by done. rewrite (proj2 (is_nil_false _)) by congruence.
  cbn. rewrite IH. unfold block_content, formatTimePtr. by destruct (db.b_block_properties b).
Qed.

Lemma document_content d id n :
  wf d -> no_nil_rows d -> notes d !! id = Some n ->
  SnapshotDocument_FromEntity (note_document d id n) = Ok (note_content d n).
Proof.
  intros Hwf [Hb Hn] Hid. destruct (Hn _ _ Hid) as [Hnil Ho].
  pose proof (wf_note_key _ Hwf _ _ Hid) as Hk. unfold SnapshotDocument_FromEntity, note_document.
  cbn [store.Doc_Note store.Doc_Blocks store.Doc_LastAppliedCursor].
  cbn [store.fromDBNote store.Note_ID store.Note_OwnerID]. rewrite Hk.
  rewrite (proj2 (is_nil_false _)) by done. rewrite (proj2 (is_nil_false _)) by done. cbn [orb].
  rewrite snapshot_blocks_content.
  { unfold note_content. cbn. rewrite Hk. by destruct (db.n_note_properties n). }
  { done. }
  apply Forall_forall. intros b [Hbn [k Hbk]%elem_of_rows]%elem_of_sort_by%list_elem_of_filter.
  split; [done|]. destruct (wf_block _ Hwf _ _ Hbk) as [-> _]. congruence.
Qed.

End content_lemmas.

(** *** Running a job *)

Section runs.
Context {X : External Db} {S : Storage} {L : LocalZone} {HR : Reliable X}.

(** Reading inside a transaction. *)
Lemma tx_read_run {A} (q : Stmt A) w a :
  w_tx w = TxActive -> q (w_now w) (w_db w) = Ok (w_db w, a) ->
  exec Tx q w = (tick w, Ok a).
Proof.
  intros Ht Hq. cbn [exec]. rewrite (exec_tx_run _ _ _ _ Ht (always_runs _) Hq).
  by destruct w.
Qed.

Lemma tx_one_run {A} (f : Db -> option A) w a :
  w_tx w = TxActive -> f (w_db w) = Some a ->
  store.map_err store.mapNoRows (exec Tx (fun _ d => one d (f d))) w = (tick w, Ok a).
Proof.
  intros Ht Hf. unfold store.map_err. rewrite (tx_read_run _ _ a); [done..|]. by rewrite Hf.
Qed.

Lemma tx_one_run_Err {A} (f : Db -> option A) w :
  w_tx w = TxActive -> f (w_db w) = None ->
  store.map_err store.mapNoRows (exec Tx (fun _ d => one d (f d))) w = (tick w, Err ErrNotFound).
Proof.
  intros Ht Hf. unfold store.map_err, exec, exec_tx. by rewrite Ht, always_runs, Hf.
Qed.

Lemma GetNoteDocument_run id o w n :
  w_tx w = TxActive -> q.owned_note (w_db w) id o = Some n ->
  store.GetNoteDocument Tx id o w = (tick (tick (tick w)), Ok (note_document (w_db w) id n)).
Proof.
  intros Ht Hn. unfold store.GetNoteDocument, store.GetNoteForOwner, store.ListBlocksForNote,
    store.GetLastAppliedCursorForNote, q.GetNoteForOwner.
  rewrite !M_bind_eq, (tx_one_run (fun d => q.owned_note d id o) w n) by done.
  unfold mret at 1, M_ret at 1. rewrite !M_bind_eq.
  erewrite (tx_read_run (q.ListBlocksForNote id)) by done. unfold mret at 1, M_ret at 1.
  rewrite M_bind_eq. by erewrite (tx_read_run (q.GetLastAppliedCursorForNote id)).
Qed.

(** A job that cannot be served fails inside the transaction without effect. *)
Lemma CreateSnapshot_refused p w :
  w_tx w = TxActive ->
  (q.owned_note (w_db w) (store.SJP_NoteID p) (store.SJP_OwnerID p) = None \/
   exists n, q.owned_note (w_db w) (store.SJP_NoteID p) (store.SJP_OwnerID p) = Some n /\
     db.n_current_version n < store.SJP_ExpectedVersion p) ->
  exists w' e, CreateSnapshot Tx p w = (w', Err e) /\ w_db w' = w_db w.
Proof.
  intros Ht [Hn|(n & Hn & Hv)]; unfold CreateSnapshot; rewrite M_bind_eq.
  - unfold store.GetNoteDocument, store.GetNoteForOwner, q.GetNoteForOwner. rewrite !M_bind_eq.
    rewrite (tx_one_run_Err (fun d => q.owned_note d _ _) w) by done. by eexists _, _.
  - rewrite (GetNoteDocument_run _ _ _ _ Ht Hn). cbn.
    rewrite (proj2 (Z.ltb_lt _ _)) by done. by eexists _, _.
Qed.

Lemma InsertSnapshot_total s now d :
  note_snapshots d !! db.sn_id s = None -> is_Some (notes d !! db.sn_note_id s) ->
  exists d' s', q.InsertSnapshot s now d = Ok (d', s').
Proof.
  intros Hf [n Hn]. unfold q.InsertSnapshot. destruct (List.find _ _); [by eexists _, _|].
  rewrite Hf, Hn. by eexists _, _.
Qed.

Lemma CreateSnapshot_run p w n :
  w_tx w = TxActive -> wf (w_db w) -> no_nil_rows (w_db w) ->
  q.owned_note (w_db w) (store.SJP_NoteID p) (store.SJP_OwnerID p) = Some n ->
  store.SJP_ExpectedVersion p <= db.n_current_version n ->
  note_snapshots (w_db w) !! uuid_new (w_uuids w) = None ->
  exists w' s, CreateSnapshot Tx p w = (w', Ok s) /\ w_tx w' = TxActive.
Proof.
  intros Ht Hwf Hnil Hn Hv Hfresh. unfold CreateSnapshot.
  rewrite M_bind_eq, (GetNoteDocument_run _ _ _ _ Ht Hn). cbn [store.Doc_Note note_document].
  pose proof (proj1 (owned_note_Some _ _ _ _) Hn) as [Hrow _].
  pose proof (wf_note_key _ Hwf _ _ Hrow) as Hk.
  cbn [store.fromDBNote store.Note_CurrentVersion]. rewrite (proj2 (Z.ltb_ge _ _)) by done.
  rewrite M_bind_eq. unfold lift. rewrite document_content by done.
  destruct (EncodeSnapshot _) as [encoded checksum]. rewrite M_bind_eq. cbn [uuidNew].
  unfold store.InsertSnapshot. cbn [store.Snap_SnapshotData]. rewrite M_bind_eq.
  set (w3 := mkWorld _ _ _ _ _ _). set (row := db.mkNoteSnapshot _ _ _ _ _ _ _ _ _ _).
  destruct (InsertSnapshot_total row (w_now w3) (w_db w3)) as (d & s & Hq).
  { done. } { subst row. cbn. rewrite Hk. by exists n. }
  cbn [exec]. rewrite (exec_tx_run _ w3 d s Ht (always_runs _) Hq). by eexists _, _.
Qed.

Context {HA : Alone X}.

(** The run of a job that can be served. *)
Lemma processJob_run j n w :
  wf (w_db w) -> no_nil_rows (w_db w) -> servable (w_db w) j = Some n ->
  note_snapshots (w_db w) !! uuid_new (w_uuids w) = None ->
  exists w' row now, processJob (store.fromDBOutboxJob j) w = (w', Ok tt) /\
    q.InsertSnapshot
      (snapshot_row (uuid_new (w_uuids w)) (note_document (w_db w) (db.n_id n) n)
         (note_content (w_db w) n)) now (w_db w) = Ok (w_db w', row).
Proof.
  intros Hwf Hnil Hs Hfresh. unfold servable in Hs. unfold processJob.
  cbn [store.fromDBOutboxJob store.Job_JobType store.Job_Payload].
  destruct (String.eqb _ _) eqn:Ht; [|done].
  destruct (decode_payload _) as [p|] eqn:Hp; [|done]. cbn in Hs.
  destruct (q.owned_note _ _ _) as [m|] eqn:Hn; [|done]. cbn in Hs.
  case_match eqn:Hv; [done|]. injection Hs as ->. apply Z.ltb_ge in Hv.
  assert (Hd : w_db (begin_world w) = w_db w) by apply nobody_else.
  destruct (CreateSnapshot_run p (begin_world w) n) as (w2 & s & Hrun & Htx);
    [by rewrite ?Hd..|].
  destruct (WithTx_run (fun tx => _ ← CreateSnapshot tx p; mret tt) w w2 tt) as (w' & Hw & Hdb).
  { by rewrite M_bind_eq, Hrun. } { done. }
  apply CreateSnapshot_Ok in Hrun as (n' & content & row & Hn' & _ & Hc & Hq & _).
  rewrite Hd in Hn', Hc, Hq. assert (n' = n) as -> by congruence.
  pose proof (proj1 (owned_note_Some _ _ _ _) Hn) as [Hrow _].
  rewrite document_content in Hc by done. injection Hc as <-.
  pose proof (wf_note_key _ Hwf _ _ Hrow) as Hk. rewrite <- Hk in Hq.
  exists w', row, (w_now (begin_world w)). split; [done|]. by rewrite Hdb.
Qed.

(** The run of a job that cannot. *)
Lemma processJob_refused j w :
  servable (w_db w) j = None ->
  exists w' e, processJob (store.fromDBOutboxJob j) w = (w', Err e) /\ w_db w' = w_db w.
Proof.
  intros Hs. unfold servable in Hs. unfold processJob.
  cbn [store.fromDBOutboxJob store.Job_JobType store.Job_Payload].
  destruct (String.eqb _ _); [|by eexists _, _].
  destruct (decode_payload _) as [p|]; [|by eexists _, _]. cbn in Hs.
  assert (Hd : w_db (begin_world w) = w_db w) by apply nobody_else.
  destruct (CreateSnapshot_refused p (begin_world w)) as (w2 & e & Hrun & Hdb); [done| |].
  { rewrite Hd. destruct (q.owned_note _ _ _) as [n|]; [right|by left]. cbn in Hs.
    case_match eqn:Hv; [|done]. apply Z.ltb_lt in Hv. by exists n. }
  destruct (WithTx_run_Err (fun tx => _ ← CreateSnapshot tx p; mret tt) w w2 e) as (w' & Hw & Hw').
  { by rewrite M_bind_eq, Hrun. }
  exists w', e. split; [done|]. rewrite Hw', Hdb, Hd, nobody_else. by destruct (w_db w).
Qed.

End runs.

(** *** Claiming *)

Lemma next_job_Some now t d j :
  next_job now t d = Some j -> q.claimable now t j = true /\ j ∈ rows (outbox_jobs d).
Proof.
  intros H. by apply head_Some_elem_of, elem_of_sort_by, list_elem_of_filter in H.
Qed.

Lemma ClaimOutboxJob_Ok worker t now d d' j' :
  q.ClaimOutboxJob worker t now d = Ok (d', j') ->
  exists j, next_job now t d = Some j /\ j' = claimed_job worker now j /\
    d' = set_jobs <[db.j_id j := j']> d.
Proof.
  unfold q.ClaimOutboxJob. fold (next_job now t d). destruct (next_job now t d) as [j|]; [|done].
  case_match; [done|]. intros [= <- <-]. by exists j.
Qed.

Lemma ClaimOutboxJob_run worker t now d j :
  next_job now t d = Some j -> db.j_attempts j < 2 ^ 31 - 1 ->
  q.ClaimOutboxJob worker t now d
  = Ok (set_jobs <[db.j_id j := claimed_job worker now j]> d, claimed_job worker now j).
Proof.
  intros Hj Ha. unfold q.ClaimOutboxJob. fold (next_job now t d). rewrite Hj.
  rewrite (proj2 (Z.eqb_neq _ _)) by lia. done.
Qed.

Lemma job_leb_total a b : q.job_leb a b = true \/ q.job_leb b a = true.
Proof. unfold q.job_leb. rewrite !orb_true_iff, !andb_true_iff, !Z.ltb_lt, !Z.eqb_eq, !Z.leb_le. lia. Qed.

Lemma job_leb_trans a b c : q.job_leb a b = true -> q.job_leb b c = true -> q.job_leb a c = true.
Proof. unfold q.job_leb. rewrite !orb_true_iff, !andb_true_iff, !Z.ltb_lt, !Z.eqb_eq, !Z.leb_le. lia. Qed.

(** The job claimed comes first among those that can be claimed. *)
Lemma next_job_first now t d j x :
  next_job now t d = Some j -> x ∈ rows (outbox_jobs d) -> q.claimable now t x = true ->
  q.job_leb j x = true.
Proof.
  intros Hj Hx Hc. unfold next_job in Hj.
  pose proof (sort_by_sorted _ job_leb_total job_leb_trans
    (filter (fun j => q.claimable now t j = true) (rows (outbox_jobs d)))) as Hs.
  assert (Hin : x ∈ sort_by q.job_leb
    (filter (fun j => q.claimable now t j = true) (rows (outbox_jobs d))))
    by by apply elem_of_sort_by, list_elem_of_filter.
  destruct (sort_by _ _) as [|y l]; [done|]. injection Hj as ->.
  inversion Hs as [|? ? _ Hall]; subst. apply elem_of_cons in Hin as [->|Hin].
  - unfold q.job_leb. rewrite Z.eqb_refl, Z.leb_refl. by destruct (_ <? _).
  - by eapply Forall_forall in Hall.
Qed.

(** *** One iteration *)

Section process_once.
Context {X : External Db} {S : Storage} {L : LocalZone} {HR : Reliable X} {HA : Alone X}.
Context (wk : Worker) (w : World) (j : db.OutboxJob).
Context (Hnext : next_job (clock (w_step w)) (wk_lockTimeout wk) (w_db w) = Some j).
Context (Hattempts : db.j_attempts j < 2 ^ 31 - 1).

(** The claimed row and the state after the claim. *)
Let claimed : db.OutboxJob := claimed_job (wk_workerID wk) (clock (w_step w)) j.
Let w1 : World := set_db (set_jobs <[db.j_id j := claimed]> (w_db w)) (tick w).

Lemma claim_run :
  store.ClaimOutboxJob Pool (wk_workerID wk) (wk_lockTimeout wk) w
  = (w1, Ok (store.fromDBOutboxJob claimed)).
Proof using All.
  unfold store.ClaimOutboxJob. rewrite M_bind_eq. unfold store.map_err.
  erewrite pool_run; [reflexivity|]. rewrite nobody_else. by apply ClaimOutboxJob_run.
Qed.

Lemma finish_run w2 :
  outbox_jobs (w_db w2) = <[db.j_id j := claimed]> (outbox_jobs (w_db w)) ->
  store.CompleteOutboxJob Pool (db.j_id j) w2
  = (set_db (set_jobs <[db.j_id j := finished_job (clock (w_step w2)) j]> (w_db w2)) (tick w2), Ok tt).
Proof using All.
  intros Hj. unfold store.CompleteOutboxJob. apply pool_run. rewrite nobody_else.
  unfold q.CompleteOutboxJob. by rewrite Hj, lookup_insert_eq.
Qed.

Lemma fail_run w2 e :
  outbox_jobs (w_db w2) = <[db.j_id j := claimed]> (outbox_jobs (w_db w)) ->
  store.FailOutboxJob Pool (db.j_id j) (error_text e) (retryDelay (db.j_attempts claimed)) w2
  = (set_db (set_jobs <[db.j_id j := retried_job (clock (w_step w2)) (error_text e) j]> (w_db w2))
       (tick w2), Ok tt).
Proof using All.
  intros Hj. unfold store.FailOutboxJob. apply pool_run. rewrite nobody_else.
  unfold q.FailOutboxJob. by rewrite Hj, lookup_insert_eq.
Qed.

Lemma ProcessOnce_refused :
  servable (w_db w) j = None ->
  exists w' e k, ProcessOnce wk w = (w', Ok (true, [e])) /\ w_step w' = Datatypes.S k /\
    w_db w' = set_jobs <[db.j_id j := retried_job (clock k) (error_text e) j]> (w_db w).
Proof using All.
  intros Hs. destruct (processJob_refused claimed w1) as (w2 & e & Hp & Hd).
  { exact Hs. }
  exists (set_db (set_jobs <[db.j_id j := retried_job (clock (w_step w2)) (error_text e) j]> (w_db w2))
    (tick w2)), e, (w_step w2). split_and!; [|done|].
  - unfold ProcessOnce. rewrite M_bind_eq, (attempt_run _ _ _ _ claim_run).
    rewrite M_bind_eq, (attempt_run _ _ _ _ Hp). unfold record_failure.
    rewrite M_bind_eq. erewrite attempt_run; [|apply fail_run; by rewrite Hd]. done.
  - cbn. rewrite Hd. unfold w1. cbn. unfold set_jobs. cbn. by rewrite insert_insert_eq.
Qed.

Lemma ProcessOnce_served n :
  wf (w_db w) -> no_nil_rows (w_db w) ->
  note_snapshots (w_db w) !! uuid_new (w_uuids w) = None -> servable (w_db w) j = Some n ->
  exists w' row now k d, ProcessOnce wk w = (w', Ok (true, [])) /\ w_step w' = Datatypes.S k /\
    q.InsertSnapshot
      (snapshot_row (uuid_new (w_uuids w)) (note_document (w_db w) (db.n_id n) n)
         (note_content (w_db w) n)) now (w_db w1) = Ok (d, row) /\
    w_db w' = set_jobs <[db.j_id j := finished_job (clock k) j]> d.
Proof using All.
  intros Hwf Hnil Hfresh Hs.
  assert (Hwf1 : wf (w_db w1)).
  { pose proof (next_job_Some _ _ _ _ Hnext) as [_ [id Hid]%elem_of_rows].
    destruct (wf_job _ Hwf _ _ Hid) as [<- Hle].
    by apply (wf_insert_job (w_db w) (db.j_id j) claimed (job_seq (w_db w))). }
  destruct (processJob_run claimed n w1) as (w2 & row & now & Hp & Hq); [done..|].
  exists (set_db (set_jobs <[db.j_id j := finished_job (clock (w_step w2)) j]> (w_db w2)) (tick w2)),
    row, now, (w_step w2), (w_db w2). split; [|done].
  unfold ProcessOnce. rewrite M_bind_eq, (attempt_run _ _ _ _ claim_run).
  rewrite M_bind_eq, (attempt_run _ _ _ _ Hp). cbn [store.fromDBOutboxJob store.Job_ID].
  rewrite M_bind_eq. erewrite attempt_run; [|apply finish_run]; [done|].
  by apply InsertSnapshot_Ok in Hq as (-> & _).
Qed.

End process_once.

(** The snapshot row the upsert leaves is the only one of its note and version. *)
Lemma InsertSnapshot_unique {X : External Db} s now d d' row :
  wf d -> q.InsertSnapshot s now d = Ok (d', row) ->
  forall id t, note_snapshots d' !! id = Some t -> db.sn_note_id t = db.sn_note_id s ->
    db.sn_version t = db.sn_version s -> t = row.
Proof.
  intros Hwf H id t Ht Hn Hv. unfold q.InsertSnapshot in H. destruct (List.find _ _) as [u|] eqn:Hu.
  - apply List.find_some in Hu as [[k Hk]%list_elem_of_In%elem_of_rows He].
    apply andb_prop in He as [Hun%N.eqb_eq Huv%Z.eqb_eq]. injection H as <- <-.
    destruct (wf_snapshot _ Hwf _ _ Hk) as (<- & _ & Huniq). cbn in Ht.
    lookup_cases Ht; [done|]. destruct (Huniq id t) as []; [done|congruence..].
  - destruct (note_snapshots d !! db.sn_id s); [done|].
    destruct (notes d !! db.sn_note_id s); [|done]. injection H as <- <-. cbn in Ht.
    lookup_cases Ht; [done|]. exfalso.
    assert (Hin : t ∈ rows (note_snapshots d)) by (apply elem_of_rows; eauto).
    apply list_elem_of_In in Hin. pose proof (List.find_none _ _ Hu _ Hin) as Hf. cbv beta in Hf.
    by rewrite Hn, Hv, N.eqb_refl, Z.eqb_refl in Hf.
Qed.

(** *** The example *)

Lemma job_db_ok jobs :
  Forall (fun j => db.j_id j <= 2 /\ db.j_completed_at j = None) jobs ->
  jobs_ok (X := demo) (job_db jobs).
Proof.
  intros H. assert (Hin : forall id j, outbox_jobs (job_db jobs) !! id = Some j ->
    j ∈ jobs /\ db.j_id j = id).
  { intros id j Hj. cbn in Hj. apply elem_of_list_to_map_2, list_elem_of_fmap in Hj as (x & [= -> ->] & ?).
    done. }
  split.
  - intros id j [Hj <-]%Hin. by eapply Forall_forall in H as [? _].
  - done.
  - intros id n Hn. exact (wf_note_key _ demo_db_wf _ _ Hn).
  - intros id j [Hj <-]%Hin [t Ht]. eapply Forall_forall in H as [_ ?]; [|done]. congruence.
Qed.

Lemma job_db_wf jobs :
  Forall (fun j => db.j_id j <= 2) jobs -> wf (job_db jobs).
Proof.
  intros H. pose proof demo_db_wf as Hw. unfold job_db.
  assert (Hw' : wf (set_jobs (fun _ => ∅) demo_db)) by (destruct Hw; split; cbn; try done).
  destruct Hw'. split; cbn in *; try done.
  intros id j Hj. apply elem_of_list_to_map_2, list_elem_of_fmap in Hj as (x & [= -> ->] & Hx).
  split; [done|]. by eapply Forall_forall in H.
Qed.

Lemma job_db_no_nil jobs : no_nil_rows (job_db jobs).
Proof.
  split; [done|]. intros id n Hn. cbn in Hn. lookup_cases Hn; [done|]. by rewrite lookup_empty in Hn.
Qed.

Lemma jobs_alone fate :
  OthersKeep (X := demo_with fate (fun _ d => d)) (jobs_progress (X := demo_with fate (fun _ d => d))).
Proof. intros n d. cbn. reflexivity. Qed.

(** ** Theorems *)

(** C30: however workers and pushes interleave and the database fails, no job
    is lost or altered, a finished job stays finished, snapshots stay, and a
    job is finished only once a snapshot of its note is stored at the version it
    asks for or a later one. *)
Theorem finished_jobs_were_served {X : External Db} {S : Storage} {L : LocalZone}
    {HO : OthersKeep jobs_progress} (c : outbox_call) (w w' : World) (r : res unit)
    (Hok : jobs_ok (w_db w)) (Hrun : run_outbox c w = (w', r)) :
  jobs_step (w_db w) (w_db w').
Proof.
  destruct c as [cancelled wk|sv o req]; cbn in Hrun; rewrite M_bind_eq in Hrun.
  - destruct (Run cancelled wk w) as [w1 r1] eqn:E. pose proof (sat_Run _ _ _ _ _ E Hok) as H.
    by destruct r1; injection Hrun as <- _.
  - destruct (Sync sv o req w) as [w1 r1] eqn:E.
    assert (w' = w1) as -> by (destruct r1; by injection Hrun as <- _).
    destruct (Sync_sat jobs_progress _ _ _ _ _ _ E) as [->|H].
    + assert (Href : jobs_progress (w_db w) (w_db w)) by reflexivity. by apply Href.
    + eapply jobs_step_then; [by apply (others_keep (R := jobs_progress) (w_step w))|done].
Qed.

Lemma finished_jobs_were_served_witness :
  jobs_step (X := demo) (job_db [snapshot_job; unknown_job])
    (w_db (fst (run_outbox (X := demo) (S := idle_storage) (L := utc)
       (CallWorker [false; false; true] demo_worker) (job_world [snapshot_job; unknown_job])))).
Proof.
  apply (finished_jobs_were_served (X := demo) (S := idle_storage) (L := utc) (HO := jobs_alone _)
    (CallWorker [false; false; true] demo_worker) (job_world [snapshot_job; unknown_job]) _
    (snd (run_outbox (X := demo) (S := idle_storage) (L := utc)
       (CallWorker [false; false; true] demo_worker) (job_world [snapshot_job; unknown_job]))));
    [apply job_db_ok; repeat constructor; discriminate|apply surjective_pairing].
Defined.

(** C32: when the database answers and nobody else acts, an iteration of the
    worker serves the job that is next in line if its note is there at the
    version it asks for or a later one: the job is finished, the note's snapshot
    at its current version is stored once, as the JSONB value of the note's
    document and with the checksum of the text of the document that was sent,
    which need not be the text PostgreSQL gives back; and nothing else changes. *)
Theorem due_job_is_served {X : External Db} {S : Storage} {L : LocalZone} {HR : Reliable X}
    {HA : Alone X} (wk : Worker) (w : World) (j : db.OutboxJob) (n : db.Note)
    (Hwf : wf (w_db w)) (Hnil : no_nil_rows (w_db w))
    (Hfresh : note_snapshots (w_db w) !! uuid_new (w_uuids w) = None)
    (Hnext : next_job (clock (w_step w)) (wk_lockTimeout wk) (w_db w) = Some j)
    (Hattempts : db.j_attempts j < 2 ^ 31 - 1) (Hserv : servable (w_db w) j = Some n) :
  exists w' s k, ProcessOnce wk w = (w', Ok (true, [])) /\ w_step w' = Datatypes.S k /\
    outbox_jobs (w_db w') = <[db.j_id j := finished_job (clock k) j]> (outbox_jobs (w_db w)) /\
    note_snapshots (w_db w') = <[db.sn_id s := s]> (note_snapshots (w_db w)) /\
    snapshot_of (w_db w) n s /\ same_notes (w_db w) (w_db w') /\
    (forall id t, note_snapshots (w_db w') !! id = Some t -> db.sn_note_id t = db.n_id n ->
       db.sn_version t = db.n_current_version n -> t = s).
Proof.
  destruct (ProcessOnce_served wk w j Hnext Hattempts n) as (w' & s & now & k & d & Hrun & Hk & Hq & Hd);
    [done..|].
  exists w', s, k. rewrite Hd. split; [done|]. split; [done|].
  assert (Hwf1 : wf (set_jobs <[db.j_id j := claimed_job (wk_workerID wk) (clock (w_step w)) j]> (w_db w))).
  { pose proof (next_job_Some _ _ _ _ Hnext) as [_ [id Hid]%elem_of_rows].
    destruct (wf_job _ Hwf _ _ Hid) as [<- Hle].
    by apply (wf_insert_job (w_db w) (db.j_id j) _ (job_seq (w_db w))). }
  pose proof (InsertSnapshot_unique _ _ _ _ _ Hwf1 Hq) as Huniq.
  apply InsertSnapshot_Ok in Hq as (-> & Hn & Hv & Hdata & Hsum & Hcur & _).
  split; [cbn; by rewrite insert_insert_eq|]. split; [done|]. split; [done|]. by split.
Qed.

Lemma due_job_is_served_witness :
  exists w' s k, ProcessOnce (X := demo) (L := utc) demo_worker
      (job_world [snapshot_job; unknown_job]) = (w', Ok (true, [])) /\ w_step w' = Datatypes.S k /\
    outbox_jobs (w_db w') = <[1 := finished_job (clock (External := demo) k) snapshot_job]>
      (outbox_jobs (job_db [snapshot_job; unknown_job])) /\
    note_snapshots (w_db w') = <[db.sn_id s := s]> ∅ /\
    snapshot_of (X := demo) (L := utc) (job_db [snapshot_job; unknown_job])
      (db.mkNote note1 alice "Shopping" empty_object 3 1 1 None) s /\
    same_notes (job_db [snapshot_job; unknown_job]) (w_db w') /\
    (forall id t, note_snapshots (w_db w') !! id = Some t -> db.sn_note_id t = note1 ->
       db.sn_version t = 3 -> t = s).
Proof.
  apply (due_job_is_served (X := demo) (S := idle_storage) (L := utc) (HR := demo_reliable _)
    (HA := demo_alone _) demo_worker (job_world [snapshot_job; unknown_job]) snapshot_job
    (db.mkNote note1 alice "Shopping" empty_object 3 1 1 None));
    [apply job_db_wf; repeat constructor; discriminate|apply job_db_no_nil|reflexivity
    |reflexivity|reflexivity|vm_compute; reflexivity].
Defined.

(** C33: when the database answers and nobody else acts, a job that is next in
    line and cannot be served (an unknown type, a payload that does not decode, a
    note that is missing or behind the version) is unlocked with its error
    recorded and one more attempt counted, becomes due again after the delay of
    that attempt, counted from the clock of the statement that records the
    failure, the last of the iteration; and nothing else changes. *)
Theorem failed_job_is_retried {X : External Db} {S : Storage} {L : LocalZone} {HR : Reliable X}
    {HA : Alone X} (wk : Worker) (w : World) (j : db.OutboxJob)
    (Hnext : next_job (clock (w_step w)) (wk_lockTimeout wk) (w_db w) = Some j)
    (Hattempts : db.j_attempts j < 2 ^ 31 - 1) (Hserv : servable (w_db w) j = None) :
  exists w' e k, ProcessOnce wk w = (w', Ok (true, [e])) /\ w_step w' = Datatypes.S k /\
    w_db w' = set_jobs <[db.j_id j := retried_job (clock k) (error_text e) j]> (w_db w).
Proof. by apply ProcessOnce_refused. Qed.

Lemma failed_job_is_retried_witness :
  exists w' e k, ProcessOnce (X := demo) (L := utc) demo_worker (job_world [unknown_job])
      = (w', Ok (true, [e])) /\ w_step w' = Datatypes.S k /\
    w_db w' = set_jobs <[2 := retried_job (clock (External := demo) k)
                                (error_text (X := demo) e) unknown_job]> (job_db [unknown_job]).
Proof.
  apply (failed_job_is_retried (X := demo) (S := idle_storage) (L := utc) (HR := demo_reliable _)
    (HA := demo_alone _) demo_worker (job_world [unknown_job]) unknown_job); reflexivity.
Defined.

(** C34: a claim takes the unfinished job due first among those nobody holds,
    and marks it; while the mark is younger than the timeout no other worker's
    claim takes it again. *)
Theorem claimed_job_is_exclusive (worker : string) (timeout now : Time) (d d' : Db)
    (j' : db.OutboxJob) (Hclaim : q.ClaimOutboxJob worker timeout now d = Ok (d', j')) :
  (exists j, j ∈ rows (outbox_jobs d) /\ db.j_completed_at j = None /\ db.j_available_at j <= now /\
     (forall x, x ∈ rows (outbox_jobs d) -> q.claimable now timeout x = true ->
        q.job_leb j x = true) /\
     j' = claimed_job worker now j /\ d' = set_jobs <[db.j_id j := j']> d) /\
  (forall worker2 now2 d2 d3 j2, wf d2 -> outbox_jobs d2 !! db.j_id j' = Some j' ->
     now2 <= now + timeout -> q.ClaimOutboxJob worker2 timeout now2 d2 = Ok (d3, j2) ->
     db.j_id j2 <> db.j_id j').
Proof.
  apply ClaimOutboxJob_Ok in Hclaim as (j & Hj & -> & ->).
  pose proof (next_job_Some _ _ _ _ Hj) as [Hc Hin]. split.
  - exists j. unfold q.claimable in Hc. to_prop. split_and!; try done.
    intros x Hx Hcx. by eapply next_job_first.
  - intros worker2 now2 d2 d3 j2 Hwf Hrow Hnow2 H2 Heq.
    apply ClaimOutboxJob_Ok in H2 as (j0 & Hj0 & -> & _).
    apply next_job_Some in Hj0 as [Hc0 [id Hid]%elem_of_rows].
    destruct (wf_job _ Hwf _ _ Hid) as [Hk _]. cbn in Heq, Hrow.
    assert (j0 = claimed_job worker now j) as -> by congruence.
    unfold q.claimable in Hc0. cbn in Hc0. to_prop. lia.
Qed.

Lemma claimed_job_is_exclusive_witness :
  (exists j, j ∈ rows (outbox_jobs (job_db [snapshot_job])) /\ db.j_completed_at j = None /\
     db.j_available_at j <= 5 /\
     (forall x, x ∈ rows (outbox_jobs (job_db [snapshot_job])) -> q.claimable 5 10 x = true ->
        q.job_leb j x = true) /\
     claimed_job "w" 5 snapshot_job = claimed_job "w" 5 j /\
     set_jobs <[1 := claimed_job "w" 5 snapshot_job]> (job_db [snapshot_job])
     = set_jobs <[db.j_id j := claimed_job "w" 5 snapshot_job]> (job_db [snapshot_job])) /\
  (forall worker2 now2 d2 d3 j2, wf d2 -> outbox_jobs d2 !! 1 = Some (claimed_job "w" 5 snapshot_job) ->
     now2 <= 5 + 10 -> q.ClaimOutboxJob worker2 10 now2 d2 = Ok (d3, j2) -> db.j_id j2 <> 1).
Proof.
  apply (claimed_job_is_exclusive "w" 10 5 (job_db [snapshot_job])
    (set_jobs <[1 := claimed_job "w" 5 snapshot_job]> (job_db [snapshot_job]))
    (claimed_job "w" 5 snapshot_job)).
  reflexivity.
Defined.

(** The delay before a retry is five seconds per attempt, between one
    second and a minute, up to 1 844 674 407 attempts; with more of them the
    product overflows and the delay is negative. *)
Theorem retry_delay_bounds (attempts : Z) (Hint32 : - 2 ^ 31 <= attempts < 2 ^ 31) :
  (attempts <= 1844674407 ->
   retryDelay attempts = (if attempts <? 1 then second else Z.min (5 * attempts * second) (60 * second))
   /\ second <= retryDelay attempts <= 60 * second) /\
  (1844674407 < attempts -> retryDelay attempts < 0).
Proof.
  unfold retryDelay, second. destruct (Z.ltb_spec attempts 1) as [H|H]; [lia|].
  rewrite (wrap64_id (attempts * 5)) by (unfold int64_min, int64_max; lia). split; intros Ha.
  - rewrite wrap64_id by (unfold int64_min, int64_max; lia).
    destruct (Z.ltb_spec (60 * 10 ^ 9) (attempts * 5 * 10 ^ 9)); lia.
  - replace (wrap64 (attempts * 5 * 10 ^ 9)) with (attempts * 5 * 10 ^ 9 - 2 ^ 64).
    + destruct (Z.ltb_spec (60 * 10 ^ 9) (attempts * 5 * 10 ^ 9 - 2 ^ 64)); lia.
    + unfold wrap64. assert (Hm : (attempts * 5 * 10 ^ 9 + 2 ^ 63) mod 2 ^ 64
        = attempts * 5 * 10 ^ 9 + 2 ^ 63 - 2 ^ 64); [|lia].
      symmetry. apply (Z.mod_unique _ _ 1); lia.
Qed.

Lemma retry_delay_bounds_witness :
  (7 <= 1844674407 -> retryDelay 7 = 35 * second /\ second <= retryDelay 7 <= 60 * second) /\
  (1844674407 < 7 -> retryDelay 7 < 0).
Proof. apply (retry_delay_bounds 7). lia. Defined.
