(* ===== verification/AccessTheorems.v ===== *)
(** * Devices and reads: theorems

    A revoked device stays revoked and every entry point refuses it; the read
    endpoints return what the database holds for the owner and nothing else. *)

From S2P Require Import Prelude GoText GoFloat Json HttpApi Constants External GoTime Schema.
From S2P Require Import Queries DbInvariant Store Frame SyncModels SyncService Demo SyncPush.
From S2P Require Import SyncPull SyncFrame UploadStore Storage UploadService Cleanup Snapshots.
From S2P Require Import Worker Devices NotesApi RealtimeHandler DemoServices UploadFacts.

(** ** Definitions the statements use *)

(** The device is the owner's and revoked. *)
Definition revoked (d : Db) (o : UUID) (dev : string) : Prop :=
  exists v, sync_devices d !! dev = Some v /\ db.d_owner_id v = o /\ is_Some (db.d_revoked_at v).

(** Devices keep their owner, and revoked ones stay so. *)
Definition revoked_stays (d d' : Db) : Prop :=
  forall dev v, sync_devices d !! dev = Some v ->
    exists v', sync_devices d' !! dev = Some v' /\ db.d_owner_id v' = db.d_owner_id v /\
      (is_Some (db.d_revoked_at v) -> is_Some (db.d_revoked_at v')).

(** What runs against the devices. *)
Inductive device_call :=
| CallRegister (req : RegisterDeviceRequest)
| CallList
| CallRevoke (dev : string)
| CallSync (sv : Service) (req : Request)
| CallPull (sv : Service) (req : PullRequest)
| CallWork (cancelled : list bool) (wk : Worker).

Section calls.
Context {X : External Db} {S : Storage} {T : MimeTables} {L : LocalZone}.

Definition run_device_call (o : UUID) (c : device_call) : M unit :=
  match c with
  | CallRegister req => _ ← Register o req; mret tt
  | CallList => _ ← Devices.List o; mret tt
  | CallRevoke dev => Revoke o dev
  | CallSync sv req => _ ← Sync sv o req; mret tt
  | CallPull sv req => _ ← Pull sv o req; mret tt
  | CallWork cancelled wk => _ ← Run cancelled wk; mret tt
  end.

Definition device_revoked : goerr :=
  ErrAPI (NewError StatusForbidden CodeDeviceRevoked "Device has been revoked.").

(** From [w], [m] fails with DEVICE_REVOKED and writes nothing. *)
Definition refused {A} (w : World) (m : M A) : Prop :=
  exists w', m w = (w', Err device_revoked) /\ w_db w' = others (w_step w) (w_db w).

Definition refused_when_revoked {A} (o : UUID) (dev : string) (m : M A) : Prop :=
  forall w, revoked (others (w_step w) (w_db w)) o dev -> refused w m.

End calls.

(** The example after the phone was revoked. *)
Definition revoked_world : World := fst (Revoke (X := demo) alice phone demo_world).

(** ** Lemmas *)

#[export] Instance revoked_stays_preorder : PreOrder revoked_stays.
Proof.
  split.
  - intros d dev v Hv. by exists v.
  - intros d1 d2 d3 H1 H2 dev v (v2 & (v3 & H3 & ? & ?)%H2 & ? & ?)%H1. exists v3.
    split_and!; [done|congruence|auto].
Qed.

Lemma revoked_same d d' : sync_devices d' = sync_devices d -> revoked_stays d d'.
Proof. intros He dev v Hv. exists v. by rewrite He. Qed.

#[export] Instance revoked_stays_rollable : Rollable revoked_stays.
Proof. split; [apply _|]. intros d0 d _. by apply revoked_same. Qed.

Lemma revoked_stable d d' o dev : revoked_stays d d' -> revoked d o dev -> revoked d' o dev.
Proof.
  intros H (v & Hv & Ho & Hr). destruct (H _ _ Hv) as (v' & Hv' & Ho' & Hr'). exists v'.
  split_and!; [done|congruence|auto].
Qed.

Lemma revoked_update d id v v' :
  sync_devices d !! id = Some v -> db.d_owner_id v' = db.d_owner_id v ->
  (is_Some (db.d_revoked_at v) -> is_Some (db.d_revoked_at v')) ->
  revoked_stays d (set_devices <[id := v']> d).
Proof.
  intros Hv Ho Hr dev x Hx. cbn. destruct (decide (id = dev)) as [<-|Hne].
  - exists v'. rewrite lookup_insert_eq. by assert (x = v) as -> by congruence.
  - exists x. by rewrite lookup_insert_ne.
Qed.

Section statements.
Context {X : External Db}.

Ltac same_devices := intros now d d' a H; split_match H; try reflexivity; by apply revoked_same.

#[export] Instance revoked_writes : SyncWrites (on_db revoked_stays).
Proof.
  split; [apply _|..]; intros; apply sat_exec_tx; try apply _.
  - unfold q.CreateNote. same_devices.
  - unfold q.UpdateNoteState. same_devices.
  - unfold q.DeleteNote. same_devices.
  - unfold q.CreateBlock. same_devices.
  - unfold q.UpdateBlockState. same_devices.
  - unfold q.DeleteBlock. same_devices.
  - unfold q.CreateCategory. same_devices.
  - unfold q.UpdateCategory. same_devices.
  - unfold q.DeleteCategory. same_devices.
  - unfold q.InsertNoteChange. same_devices.
  - intros now d d' a [= <- <-]. by apply revoked_same.
Qed.

Lemma revoked_CreateDevice id o n p a v : keeps revoked_stays (q.CreateDevice id o n p a v).
Proof.
  intros now d d' r H. unfold q.CreateDevice in H. split_match H. intros dev x Hx. exists x.
  cbn. by rewrite lookup_insert_ne by congruence.
Qed.

Lemma revoked_RevokeDevice id o : keeps revoked_stays (q.RevokeDevice id o).
Proof.
  intros now d d' r H. unfold q.RevokeDevice in H. split_match H; try reflexivity.
  apply owned_device_Some in E as [Hv _]. by eapply revoked_update.
Qed.

Lemma revoked_UpdateDeviceCursor id o c : keeps revoked_stays (q.UpdateDeviceCursor id o c).
Proof.
  intros now d d' r H. unfold q.UpdateDeviceCursor in H. split_match H; try reflexivity.
  apply owned_device_Some in E as [Hv _]. by eapply revoked_update.
Qed.

Lemma revoked_ClaimOutboxJob wk t : keeps revoked_stays (q.ClaimOutboxJob wk t).
Proof. unfold q.ClaimOutboxJob. same_devices. Qed.

Lemma revoked_CompleteOutboxJob id : keeps revoked_stays (q.CompleteOutboxJob id).
Proof. unfold q.CompleteOutboxJob. same_devices. Qed.

Lemma revoked_FailOutboxJob id m t : keeps revoked_stays (q.FailOutboxJob id m t).
Proof. unfold q.FailOutboxJob. same_devices. Qed.

Lemma revoked_InsertSnapshot s : keeps revoked_stays (q.InsertSnapshot s).
Proof. unfold q.InsertSnapshot. same_devices. Qed.

Lemma revoked_CompleteFileUpload id o n v : keeps revoked_stays (uq.CompleteFileUpload id o n v).
Proof. unfold uq.CompleteFileUpload, uq.update_one. same_devices. Qed.

Lemma revoked_MarkFileUploadExpired id e : keeps revoked_stays (uq.MarkFileUploadExpired id e).
Proof. unfold uq.MarkFileUploadExpired, uq.update_one. same_devices. Qed.

End statements.

#[export] Hint Resolve revoked_CreateDevice revoked_RevokeDevice revoked_UpdateDeviceCursor
  revoked_ClaimOutboxJob revoked_CompleteOutboxJob revoked_FailOutboxJob revoked_InsertSnapshot
  revoked_CompleteFileUpload revoked_MarkFileUploadExpired : frame.

(** *** What runs keeps revocations *)

Section calls.
Context {X : External Db} {S : Storage} {T : MimeTables} {L : LocalZone}.
Context `{!OthersKeep revoked_stays}.

Lemma sat_pool_tx {A} (fn : Store -> M A) :
  sat (on_db revoked_stays) (fn Tx) -> sat (on_db revoked_stays) (WithTx Pool fn).
Proof.
  intros Hf w w' r Hrun. unfold on_db. transitivity (others (w_step w) (w_db w)).
  - apply others_keep.
  - by eapply (WithTx_sat revoked_stays).
Qed.

Lemma sat_Pull sv o req : sat (on_db revoked_stays) (Pull sv o req).
Proof.
  unfold Pull. apply sat_bind; [apply _|frame_walk|]. intros _. apply sat_pool_tx.
  unfold pull_tx, store.GetDeviceForOwnerForUpdate, store.GetChangesAfterCursor,
    store.UpdateDeviceCursor. frame_walk. apply sat_exec_tx; [apply _|frame_walk].
Qed.

Lemma sat_Sync sv o req : sat (on_db revoked_stays) (Sync sv o req).
Proof.
  unfold Sync. apply sat_bind; [apply _|frame_walk|]. intros _.
  apply sat_bind; [apply _|apply sat_pool_tx|frame_walk]. apply sat_sync_tx. apply _.
Qed.

Lemma sat_worker_snapshot p : sat (on_db revoked_stays) (CreateSnapshot Tx p).
Proof.
  unfold CreateSnapshot, store.GetNoteDocument, store.GetNoteForOwner, store.ListBlocksForNote,
    store.GetLastAppliedCursorForNote, store.InsertSnapshot.
  frame_walk. apply sat_exec_tx; [apply _|apply revoked_InsertSnapshot].
Qed.

Lemma sat_worker_step wk : sat (on_db revoked_stays) (ProcessOnce wk).
Proof.
  unfold ProcessOnce, record_failure, processJob, store.ClaimOutboxJob, store.CompleteOutboxJob,
    store.FailOutboxJob.
  frame_walk. all: apply sat_pool_tx; apply sat_bind; [apply _|apply sat_worker_snapshot|frame_walk].
Qed.

Lemma sat_worker_cleanup us e : sat (on_db revoked_stays) (clean_uploads us e).
Proof.
  revert e. induction us as [|u us IH]; intros e; cbn [clean_uploads];
    unfold clean_upload, GetObjectInfo, DeleteObject, ustore.CompleteFileUpload,
      ustore.MarkFileUploadExpired, ustore.one_row; frame_walk.
Qed.

Hint Resolve sat_worker_step sat_worker_cleanup sat_Pull sat_Sync : frame.

Lemma sat_worker_loop cancelled wk : sat (on_db revoked_stays) (Run cancelled wk).
Proof.
  revert wk. induction cancelled; intros wk; cbn [Run];
    unfold maybeCleanup, cleanup_due, RunOnce, ustore.ListExpiredFileUploads; frame_walk.
Qed.

Hint Resolve sat_worker_loop : frame.

Lemma sat_run_device_call o c : sat (on_db revoked_stays) (run_device_call o c).
Proof.
  destruct c; cbn [run_device_call]; unfold Register, Devices.List, Revoke, store.CreateDevice,
    store.ListDevices, store.RevokeDevice, store.GetDeviceForOwner; frame_walk.
Qed.

End calls.

(** *** Refusals *)

Section refusals.
Context {X : External Db} {S : Storage} {T : MimeTables} {HR : Reliable X}.

Lemma owned_revoked d o dev :
  revoked d o dev -> exists v t, q.owned_device d dev o = Some v /\ db.d_revoked_at v = Some t.
Proof.
  intros (v & Hv & Ho & [t Ht]). exists v, t. split; [|done]. by apply owned_device_Some.
Qed.

(** The device as the pool finds it. *)
Lemma GetDevice_run o dev w :
  revoked (others (w_step w) (w_db w)) o dev ->
  exists w1 v t, store.GetDeviceForOwner Pool dev o w = (w1, Ok (store.fromDBDevice v)) /\
    db.d_revoked_at v = Some t /\ w_db w1 = others (w_step w) (w_db w).
Proof.
  intros (v & t & Hv & Ht)%owned_revoked. unfold store.GetDeviceForOwner, q.GetDeviceForOwner.
  destruct (read_one_run (fun d => q.owned_device d dev o) w) as (w1 & Hd & _ & E).
  rewrite Hv in E. exists w1, v, t. rewrite M_bind_eq, E. done.
Qed.

(** A transaction that begins with the device check. *)
Lemma guarded_tx_refused {A} o dev (rest : store.SyncDevice -> M A) :
  refused_when_revoked o dev
    (WithTx Pool (fun tx =>
       found ← attempt (store.GetDeviceForOwnerForUpdate tx dev o);
       device ← lift (check_device found);
       rest device)).
Proof.
  intros w (v & t & Hv & Ht)%owned_revoked.
  match goal with |- context [WithTx Pool ?fn] =>
    destruct (WithTx_run_Err fn w (tick (begin_world w)) device_revoked) as (w' & Hw & Hd) end.
  - rewrite M_bind_eq. unfold attempt, store.GetDeviceForOwnerForUpdate.
    rewrite M_bind_eq. unfold store.map_err, exec, exec_tx. cbn [w_tx begin_world].
    rewrite always_runs. unfold q.GetDeviceForOwnerForUpdate. cbn [w_now w_db begin_world].
    rewrite Hv. cbn. by rewrite Ht.
  - exists w'. split; [done|]. rewrite Hd. cbn. by destruct (others (w_step w) (w_db w)).
Qed.

Lemma guarded_refused {A} o dev (rest : store.SyncDevice -> M A) :
  refused_when_revoked o dev
    (found ← attempt (store.GetDeviceForOwner Pool dev o);
     device ← lift (check_device found);
     rest device).
Proof.
  intros w Hr. destruct (GetDevice_run _ _ _ Hr) as (w1 & v & t & Hrun & Ht & Hd).
  exists w1. rewrite M_bind_eq, (attempt_run _ _ _ _ Hrun). unfold lift. rewrite M_bind_eq. cbn.
  by rewrite Ht.
Qed.

(** A check that passes before. *)
Lemma refused_after_check {A B} (r : res A) a o dev (m : A -> M B) :
  r = Ok a -> refused_when_revoked o dev (m a) -> refused_when_revoked o dev (x ← lift r; m x).
Proof. intros -> Hm w Hr. destruct (Hm w Hr) as (w' & Hw & Hd). exists w'. by rewrite M_bind_eq. Qed.

(** A computation after a refusal is not run. *)
Lemma refused_bind {A B} o dev (m : M A) (f : A -> M B) :
  refused_when_revoked o dev m -> refused_when_revoked o dev (m ≫= f).
Proof. intros Hm w Hr. destruct (Hm w Hr) as (w' & Hw & Hd). exists w'. by rewrite M_bind_eq, Hw. Qed.

Lemma Sync_refused sv o req :
  Request_Validate req (maxOperations sv) = Ok tt ->
  refused_when_revoked o (Req_DeviceID req) (Sync sv o req).
Proof.
  intros Hv. unfold Sync. eapply refused_after_check; [exact Hv|]. apply refused_bind.
  apply guarded_tx_refused.
Qed.

Lemma Pull_refused sv o req :
  PullRequest_Validate req = Ok tt -> refused_when_revoked o (Pull_DeviceID req) (Pull sv o req).
Proof.
  intros Hv. unfold Pull. eapply refused_after_check; [exact Hv|]. apply guarded_tx_refused.
Qed.

Lemma UpdatesAvailable_refused o req :
  UpdatesAvailableRequest_Validate req = Ok tt ->
  refused_when_revoked o (UAR_DeviceID req) (UpdatesAvailable o req).
Proof.
  intros Hv. unfold UpdatesAvailable. eapply refused_after_check; [exact Hv|].
  apply guarded_refused.
Qed.

Lemma SyncFullNote_refused sv o req :
  FullNoteRequest_check sv req = Ok tt ->
  refused_when_revoked o (FNR_DeviceID req) (SyncFullNote sv o req).
Proof.
  intros Hv. unfold SyncFullNote. eapply refused_after_check; [exact Hv|]. apply guarded_refused.
Qed.

(** The checks that map the error of the lookup and match on the device. *)
Lemma matched_refused {A} o dev f (rest : store.SyncDevice -> M A) :
  refused_when_revoked o dev
    (device ← store.map_err f (store.GetDeviceForOwner Pool dev o);
     match store.Dev_RevokedAt device with
     | Some _ => fail device_revoked
     | None => rest device
     end).
Proof.
  intros w Hr. destruct (GetDevice_run _ _ _ Hr) as (w1 & v & t & Hrun & Ht & Hd).
  exists w1. rewrite M_bind_eq. unfold store.map_err. rewrite Hrun. cbn. by rewrite Ht.
Qed.

Lemma admit_refused o dev :
  ValidDeviceID dev = true -> refused_when_revoked o dev (ServeHTTP_admit (Some o) dev).
Proof. intros Hv. unfold ServeHTTP_admit. rewrite Hv. apply matched_refused. Qed.

Lemma validateDevice_refused o dev :
  validateDeviceID dev = Ok tt -> refused_when_revoked o dev (validateDevice o dev).
Proof.
  intros Hv. unfold validateDevice. eapply refused_after_check; [exact Hv|]. apply matched_refused.
Qed.

Lemma Initiate_refused sv o req :
  validateRequest req (uc_maxFileSize sv) (uc_allowedMIMETypes sv) = Ok tt ->
  refused_when_revoked o (IR_DeviceID req) (Initiate sv o req).
Proof.
  intros Hv. unfold Initiate. eapply refused_after_check; [exact Hv|]. apply refused_bind.
  apply validateDevice_refused. unfold validateRequest in Hv.
  by destruct (validateDeviceID (IR_DeviceID req)) as [[]|].
Qed.

Lemma DownloadURLs_refused sv o dev c :
  validateCursor c = Ok tt -> validateDeviceID dev = Ok tt ->
  refused_when_revoked o dev (DownloadURLs sv o dev c).
Proof.
  intros Hc Hv. unfold DownloadURLs. eapply refused_after_check; [exact Hc|]. apply refused_bind.
  by apply validateDevice_refused.
Qed.

Lemma Revoke_revokes `{!OthersKeep revoked_stays} o dev w w' :
  Revoke o dev w = (w', Ok tt) -> revoked (w_db w') o dev.
Proof.
  intros H. unfold Revoke in H. m_inv H. apply map_err_Ok in H. unfold store.RevokeDevice in H.
  m_inv H. unfold store.GetDeviceForOwner in Hrun0. m_inv Hrun0.
  apply map_err_Ok in Hrun1. apply exec_pool_Ok in Hrun1 as (d & [-> Hv]%one_Ok & ->).
  apply mret_Ok in Hrun0 as [-> _]. apply exec_pool_Ok in H as (d & Hq & ->).
  apply owned_device_Some in Hv as [Hv Ho].
  set (d0 := others (w_step w0) (w_db w0)) in *. cbn in Hq.
  destruct (others_keep (R := revoked_stays) (Datatypes.S (w_step w0)) d0 _ _ Hv) as (v & Hv' & Ho' & Hr).
  unfold q.RevokeDevice in Hq.
  rewrite (proj2 (owned_device_Some _ _ _ _) (conj Hv' (eq_trans Ho' Ho))) in Hq.
  destruct (db.d_revoked_at v) as [t|] eqn:Ht; injection Hq as <-; cbn.
  - exists v. split_and!; [done|congruence|by rewrite Ht].
  - eexists. cbn. rewrite lookup_insert_eq. split_and!; [done|cbn; congruence|done].
Qed.

End refusals.

(** ** Revocation *)

(** C35: once a device was revoked, every later request of it that checks the
    device and passes validation (push, pull, availability, full note, socket,
    start of an upload, download feed) is refused with DEVICE_REVOKED when the
    database answers, and writes nothing, whatever the other clients did in
    between that does not un-revoke it; and no registration, listing,
    revocation, push, pull or worker un-revokes it.  Completing and deleting an
    upload and reading a note do not look at the device. *)
Theorem revoked_device_is_locked_out {X : External Db} {S : Storage} {T : MimeTables}
    {L : LocalZone} {HR : Reliable X} {HO : OthersKeep revoked_stays} (o : UUID) (dev : string)
    (w w' : World) (Hrevoked : Revoke o dev w = (w', Ok tt)) (w2 : World)
    (Hlater : revoked_stays (w_db w') (w_db w2)) :
  (forall sv req, Req_DeviceID req = dev -> Request_Validate req (maxOperations sv) = Ok tt ->
     refused w2 (Sync sv o req)) /\
  (forall sv req, Pull_DeviceID req = dev -> PullRequest_Validate req = Ok tt ->
     refused w2 (Pull sv o req)) /\
  (forall req, UAR_DeviceID req = dev -> UpdatesAvailableRequest_Validate req = Ok tt ->
     refused w2 (UpdatesAvailable o req)) /\
  (forall sv req, FNR_DeviceID req = dev -> FullNoteRequest_check sv req = Ok tt ->
     refused w2 (SyncFullNote sv o req)) /\
  (ValidDeviceID dev = true -> refused w2 (ServeHTTP_admit (Some o) dev)) /\
  (forall sv req, IR_DeviceID req = dev ->
     validateRequest req (uc_maxFileSize sv) (uc_allowedMIMETypes sv) = Ok tt ->
     refused w2 (Initiate sv o req)) /\
  (forall sv c, 0 <= c -> validateDeviceID dev = Ok tt -> refused w2 (DownloadURLs sv o dev c)) /\
  (forall o' c w3 r, run_device_call o' c w2 = (w3, r) -> revoked (w_db w3) o dev).
Proof.
  assert (Hr2 : revoked (w_db w2) o dev) by by eapply revoked_stable, Revoke_revokes.
  assert (Hr : revoked (others (w_step w2) (w_db w2)) o dev)
    by by eapply revoked_stable; [apply others_keep|].
  split_and!.
  - intros sv req <- Hv. by apply Sync_refused.
  - intros sv req <- Hv. by apply Pull_refused.
  - intros req <- Hv. by apply UpdatesAvailable_refused.
  - intros sv req <- Hv. by apply SyncFullNote_refused.
  - intros Hv. by apply admit_refused.
  - intros sv req <- Hv. by apply Initiate_refused.
  - intros sv c Hc Hv. apply DownloadURLs_refused; [|done..].
    unfold validateCursor. by rewrite (proj2 (Z.ltb_ge _ _)).
  - intros o' c w3 r Hrun. eapply revoked_stable; [|exact Hr2].
    by apply (sat_run_device_call o' c w2 w3 r).
Qed.

Lemma revoked_device_is_locked_out_witness :
  refused (X := demo) revoked_world (Sync (X := demo) demo_service alice (demo_request demo_ops)).
Proof.
  refine (proj1 (revoked_device_is_locked_out (X := demo) (S := demo_storage) (T := demo_mime)
    (L := utc) (HR := demo_reliable _) (HO := _) alice phone demo_world revoked_world _
    revoked_world _) demo_service (demo_request demo_ops) _ _).
  - intros n d. apply (PreOrder_Reflexive d).
  - vm_compute. reflexivity.
  - apply (PreOrder_Reflexive (w_db revoked_world)).
  - reflexivity.
  - vm_compute. reflexivity.
Defined.
