(* ===== verification/Isolation.v ===== *)
(** * Isolation of users

    Whatever a service does for one owner, the rows of all other owners stay as
    they are: their notes, the blocks of these, their categories, devices,
    uploads and changes, and every snapshot; every change that is added is the
    owner's. *)

From S2P Require Import Prelude GoText GoFloat Json HttpApi Constants External GoTime Schema.
From S2P Require Import Queries DbInvariant Store Frame SyncModels SyncService SyncPush SyncPull.
From S2P Require Import SyncFrame BatchRefinement PushFacts UploadStore Storage UploadService.
From S2P Require Import Devices NotesApi UploadFacts AccessTheorems.

(** ** Definitions *)

Record foreign_rows (o : UUID) (d d' : Db) : Prop := mkForeignRows {
  fr_notes : forall id n, db.n_owner_id n <> o ->
    notes d' !! id = Some n <-> notes d !! id = Some n;
  fr_blocks : forall id b n, notes d !! db.b_note_id b = Some n -> db.n_owner_id n <> o ->
    note_blocks d' !! id = Some b <-> note_blocks d !! id = Some b;
  fr_categories : forall id c, db.cat_owner_id c <> o ->
    categories d' !! id = Some c <-> categories d !! id = Some c;
  fr_devices : forall id v, db.d_owner_id v <> o ->
    sync_devices d' !! id = Some v <-> sync_devices d !! id = Some v;
  fr_uploads : forall id u, db.up_owner_id u <> o ->
    file_uploads d' !! id = Some u <-> file_uploads d !! id = Some u;
  fr_snapshots : note_snapshots d' = note_snapshots d;
  fr_changes : exists entries, note_changes d' = note_changes d ++ entries /\
    Forall (fun c => db.ch_owner_id c = o) entries
}.

(** What requests in the name of [o] do to a well-formed database. *)
Definition within_account (o : UUID) (d d' : Db) : Prop :=
  wf d -> evolves d d' /\ foreign_rows o d d'.

(** ** Lemmas *)

Lemma no_new_change (o : UUID) (log : list db.NoteChange) :
  exists entries, log = log ++ entries /\ Forall (fun c => db.ch_owner_id c = o) entries.
Proof. exists []. by rewrite app_nil_r. Qed.

#[export] Instance foreign_rows_preorder o : PreOrder (foreign_rows o).
Proof.
  split; [intros d; split; try done; apply no_new_change|].
  intros d1 d2 d3 [A1 A2 A3 A4 A5 A6 (l1 & A7 & F1)] [B1 B2 B3 B4 B5 B6 (l2 & B7 & F2)].
  split; try congruence.
  - intros id n Hn. by rewrite B1, A1.
  - intros id b n Hn Ho. rewrite (B2 _ _ n), (A2 _ _ n); try done. by apply A1.
  - intros id c Hc. by rewrite B3, A3.
  - intros id v Hv. by rewrite B4, A4.
  - intros id u Hu. by rewrite B5, A5.
  - exists (l1 ++ l2). by rewrite B7, A7, app_assoc, Forall_app.
Qed.

Lemma foreign_rows_push o d d' :
  foreign_same o d d' ->
  (exists entries, note_changes d' = note_changes d ++ entries /\
     Forall (fun c => db.ch_owner_id c = o) entries) ->
  foreign_rows o d d'.
Proof. intros [E1 E2 E3 E4 E5 E6]. split; try done; intros; by rewrite ?E4, ?E6. Qed.

Lemma foreign_rows_tables o d d' : same_tables d d' -> foreign_rows o d d'.
Proof.
  intros H. apply foreign_rows_push; [by apply foreign_same_tables|].
  apply same_tables_fields in H as (_ & _ & _ & _ & E & _). rewrite E.
  apply no_new_change.
Qed.

#[export] Instance foreign_rows_rollable o : Rollable (foreign_rows o).
Proof.
  split; [apply _|]. intros d0 d _. apply foreign_rows_tables. symmetry. apply same_tables_rollback.
Qed.

(** A row of [o] written over a row of [o], or over none. *)
Lemma foreign_insert_iff {V} (owner : V -> UUID) (o : UUID) `{Countable K} (m : gmap K V) i v k x :
  owner v = o -> (forall v0, m !! i = Some v0 -> owner v0 = o) -> owner x <> o ->
  <[i := v]> m !! k = Some x <-> m !! k = Some x.
Proof.
  intros Hv Hm Hx. destruct (decide (i = k)) as [->|Hne].
  - rewrite lookup_insert_eq. split; [by intros [= ->]|]. by intros ?%Hm.
  - by rewrite lookup_insert_ne.
Qed.

Lemma foreign_upload o d id u :
  db.up_owner_id u = o -> (forall u0, file_uploads d !! id = Some u0 -> db.up_owner_id u0 = o) ->
  foreign_rows o d (set_uploads <[id := u]> d).
Proof.
  intros Hu Hd. split; try done; [|apply no_new_change]. intros k x Hx. cbn. by apply (foreign_insert_iff db.up_owner_id o).
Qed.

Lemma foreign_device o d id v :
  db.d_owner_id v = o -> (forall v0, sync_devices d !! id = Some v0 -> db.d_owner_id v0 = o) ->
  foreign_rows o d (set_devices <[id := v]> d).
Proof.
  intros Hv Hd. split; try done; [|apply no_new_change]. intros k x Hx. cbn. by apply (foreign_insert_iff db.d_owner_id o).
Qed.

Section services.
Context {X : External Db} {S : Storage} {T : MimeTables} (o : UUID).

(** *** Devices *)

Lemma foreign_CreateDevice id n p a v : keeps (foreign_rows o) (q.CreateDevice id o n p a v).
Proof.
  intros now d d' r H. unfold q.CreateDevice in H. split_match H.
  apply foreign_device; [done|congruence].
Qed.

Lemma foreign_RevokeDevice id : keeps (foreign_rows o) (q.RevokeDevice id o).
Proof.
  intros now d d' r H. unfold q.RevokeDevice in H. split_match H; try reflexivity.
  apply owned_device_Some in E as [Hv Ho]. apply foreign_device; [done|congruence].
Qed.

Lemma foreign_UpdateDeviceCursor id c : keeps (foreign_rows o) (q.UpdateDeviceCursor id o c).
Proof.
  intros now d d' r H. unfold q.UpdateDeviceCursor in H. split_match H; try reflexivity.
  apply owned_device_Some in E as [Hv Ho]. apply foreign_device; [done|congruence].
Qed.

(** *** Uploads *)

Lemma foreign_update_one id may f d d' u :
  (forall x, db.up_owner_id (f x) = db.up_owner_id x) ->
  uq.update_one id (uq.owned_upload d id o) may f d = Ok (d', u) -> foreign_rows o d d'.
Proof.
  intros Hf (u0 & [Hu Ho]%owned_upload_Some & _ & -> & ->)%update_one_Ok.
  apply foreign_upload; [by rewrite Hf|congruence].
Qed.

#[export] Instance foreign_rows_own : OwnUploadWrites o (foreign_rows o).
Proof.
  split; intros; intros now d d' u H; try (by eapply foreign_update_one in H).
  - unfold uq.CompleteFileUpload in H. destruct (uq.update_one _ _ _ _ _) as [[d1 u1]|] eqn:E; [|done].
    case_match; [done|]. injection H as <- <-. by eapply foreign_update_one in E.
  - apply CreateFileUpload_Ok in H as (t & _ & Hn & -> & -> & _). set (u := uq.new_upload _ _ _ _ _ _ _ _ _ _ _ _ _).
    assert (foreign_rows o d (set_uploads <[id := u]> d)) as [] by
      (apply foreign_upload; [done|congruence]). by split.
Qed.

(** *** What an owner's requests do to a well-formed database *)

#[export] Instance within_account_preorder : PreOrder (within_account o).
Proof using All.
  split; [by intros d _; split|]. intros d1 d2 d3 H1 H2 Hw.
  destruct (H1 Hw) as [E1 F1]. destruct (H2 (ev_wf _ _ E1 Hw)) as [E2 F2].
  split; by etransitivity.
Qed.

#[export] Instance within_account_rollable : Rollable (within_account o).
Proof using All.
  split; [apply _|]. intros d0 d H Hw. destruct (H Hw). by split; apply rollable_rollback.
Qed.

Lemma within_keeps {A} (s : Stmt A) :
  keeps evolves s -> keeps (foreign_rows o) s -> keeps (within_account o) s.
Proof. intros He Hf now d d' a H _. split; [by eapply He|by eapply Hf]. Qed.

Lemma evolves_insert_upload d id u :
  (wf d -> db.up_id u = id /\ upload_refs d u) -> evolves d (set_uploads <[id := u]> d).
Proof.
  intros Hu. apply evolves_keep; cbn; try lia; eauto.
  intros Hw. pose proof (wf_upload _ Hw) as Hup. specialize (Hu Hw). destruct Hw. split; try done.
  intros i v H. cbn in H. lookup_cases H; [done|by apply Hup].
Qed.

Lemma evolves_update_one id may f d d' u :
  (forall x, db.up_id (f x) = db.up_id x /\ db.up_note_id (f x) = db.up_note_id x /\
     db.up_owner_id (f x) = db.up_owner_id x /\ db.up_block_id (f x) = db.up_block_id x) ->
  uq.update_one id (uq.owned_upload d id o) may f d = Ok (d', u) -> evolves d d'.
Proof using All.
  intros Hf (u0 & [Hu Ho]%owned_upload_Some & _ & -> & ->)%update_one_Ok.
  apply evolves_insert_upload. intros Hw. destruct (wf_upload _ Hw _ _ Hu) as (Hid & Hr).
  destruct (Hf u0) as (-> & E1 & E2 & E3). split; [done|]. unfold upload_refs. by rewrite E1, E2, E3.
Qed.

#[export] Instance evolves_own : OwnUploadWrites o evolves.
Proof using All.
  split; intros; intros now d d' u H; try (by eapply evolves_update_one in H).
  - unfold uq.CompleteFileUpload in H. destruct (uq.update_one _ _ _ _ _) as [[d1 u1]|] eqn:E; [|done].
    case_match; [done|]. injection H as <- <-. by eapply evolves_update_one in E.
  - apply CreateFileUpload_Ok in H as (t & _ & Hn & -> & -> & Hnote & Hblock).
    set (v := uq.new_upload _ _ _ _ _ _ _ _ _ _ _ _ _).
    transitivity (set_uploads <[id := v]> d).
    + apply evolves_insert_upload. intros _. split; [done|]. split.
      * unfold uq.note_of_owner in Hnote. case_match; [|done]. apply N.eqb_eq in Hnote. eauto.
      * unfold uq.block_of_note in Hblock. case_match; [|done]. apply N.eqb_eq in Hblock. eauto.
    + apply evolves_keep; cbn; try lia; eauto. intros. by apply wf_sequences.
Qed.

#[export] Instance within_account_own : OwnUploadWrites o (within_account o).
Proof using All. split; intros; apply within_keeps; by apply evolves_own || by apply foreign_rows_own. Qed.

Lemma within_CreateDevice id n p a v : keeps (within_account o) (q.CreateDevice id o n p a v).
Proof using All. apply within_keeps; [apply keeps_CreateDevice|apply foreign_CreateDevice]. Qed.

Lemma within_RevokeDevice id : keeps (within_account o) (q.RevokeDevice id o).
Proof using All. apply within_keeps; [apply keeps_RevokeDevice|apply foreign_RevokeDevice]. Qed.

Lemma within_UpdateDeviceCursor id c : keeps (within_account o) (q.UpdateDeviceCursor id o c).
Proof using All. apply within_keeps; [apply keeps_UpdateDeviceCursor|apply foreign_UpdateDeviceCursor]. Qed.

(** *** The services *)

Hint Resolve within_CreateDevice within_RevokeDevice within_UpdateDeviceCursor : frame.

Context `{!OthersKeep (within_account o)}.

Lemma within_Register req : sat (on_db (within_account o)) (Register o req).
Proof.
  unfold Register, store.CreateDevice. apply sat_bind; [apply _|frame_walk|]. intros model.
  apply sat_bind_post; [apply _|frame_walk|]. intros w w1 p Hp.
  apply lift_Ok in Hp as [_ Hp]. unfold Device_Entity in Hp. split_match Hp. frame_walk.
Qed.

Lemma within_List : sat (on_db (within_account o)) (Devices.List o).
Proof. unfold Devices.List, store.ListDevices. frame_walk. Qed.

Lemma within_Revoke dev : sat (on_db (within_account o)) (Revoke o dev).
Proof. unfold Revoke, store.RevokeDevice, store.GetDeviceForOwner. frame_walk. Qed.

Lemma within_Pull sv req : sat (on_db (within_account o)) (Pull sv o req).
Proof.
  unfold Pull. apply sat_bind; [apply _|frame_walk|]. intros _ w w' r H. unfold on_db.
  transitivity (others (w_step w) (w_db w)); [apply others_keep|].
  eapply (WithTx_sat (within_account o)); [|exact H]. unfold pull_tx,
    store.GetDeviceForOwnerForUpdate, store.GetChangesAfterCursor, store.UpdateDeviceCursor.
  frame_walk. apply sat_exec_tx; [apply _|frame_walk].
Qed.

Lemma within_UpdatesAvailable req : sat (on_db (within_account o)) (UpdatesAvailable o req).
Proof. unfold UpdatesAvailable, store.GetDeviceForOwner, store.HasChangesAfterCursor. frame_walk. Qed.

Lemma within_GetNoteDocument id : sat (on_db (within_account o)) (store.GetNoteDocument Pool id o).
Proof.
  unfold store.GetNoteDocument, store.GetNoteForOwner, store.ListBlocksForNote,
    store.GetLastAppliedCursorForNote. frame_walk.
Qed.

Hint Resolve within_GetNoteDocument : frame.

Lemma within_full_notes ids : sat (on_db (within_account o)) (full_notes o ids).
Proof. induction ids; cbn [full_notes]; frame_walk. Qed.

Hint Resolve within_full_notes : frame.

Lemma within_SyncFullNote sv req : sat (on_db (within_account o)) (SyncFullNote sv o req).
Proof. unfold SyncFullNote, store.GetDeviceForOwner. frame_walk. Qed.

Lemma within_Get id : sat (on_db (within_account o)) (NotesApi.Get o id).
Proof. unfold NotesApi.Get. frame_walk. Qed.

Lemma within_LatestSnapshot id : sat (on_db (within_account o)) (LatestSnapshot o id).
Proof. unfold LatestSnapshot, store.GetLatestSnapshotForNote. frame_walk. Qed.

End services.

#[export] Hint Resolve within_Register within_List within_Revoke within_Pull
  within_UpdatesAvailable within_SyncFullNote within_Get within_LatestSnapshot : frame.

(** A push sees the database it was sent to when nobody else writes. *)
Lemma within_Sync {X : External Db} {HA : Alone X} sv o req :
  sat (on_db (within_account o)) (Sync sv o req).
Proof.
  intros w w' r H Hw. split.
  - assert (OthersKeep evolves) by (intros n d; by rewrite nobody_else).
    by apply (Sync_sat evolves) in H as [->|H]; [|rewrite nobody_else in H].
  - apply Sync_effect in H; [|by rewrite nobody_else]. rewrite nobody_else in H.
    destruct H as [->|[H|(acc & rej & H)]]; [done|..].
    + by apply foreign_rows_tables.
    + apply foreign_rows_push; [by eapply batches_run_foreign|].
      apply batches_run_log in H as (cs & Hcs & Hf). exists cs. split; [done|].
      eapply Forall_impl; [exact Hf|]. by intros c [? _].
Qed.

#[export] Hint Resolve within_Sync : frame.
