(* ===== verification/ReadTheorems.v ===== *)
(** * What the read endpoints answer

    Availability, the note document and the latest snapshot, under whatever
    the other clients commit between the statements of one request. *)

From S2P Require Import Prelude GoText GoFloat Json HttpApi Constants External SyncOperations.
From S2P Require Import Schema Queries DbInvariant Store Frame SyncModels SyncService Demo.
From S2P Require Import SyncPush SyncPull SyncFacts PullFacts PullTheorems NotesApi.

(** ** Definitions the statements use *)

(** The block and the note as the client receives them. *)
Definition block_view (b : db.NoteBlock) : BlockResponse :=
  mkBlockResponse (db.b_id b) (db.b_note_id b) (db.b_block_type b) (db.b_text_content b)
    (db.b_position b) (store.NormalizeJSON (Some (db.b_block_properties b))) (db.b_created_at b)
    (db.b_updated_at b) (db.b_deleted_at b).

(** The note row [n] with the blocks [d] holds for it. *)
Definition note_view {X : External Db} (d : Db) (n : db.Note) : NoteResponse :=
  mkNoteResponse (db.n_id n) (db.n_owner_id n) (db.n_title n)
    (store.NormalizeJSON (Some (db.n_note_properties n))) (db.n_current_version n)
    (db.n_created_at n) (db.n_updated_at n) (db.n_deleted_at n)
    (map block_view
       (sort_by q.block_leb (filter (fun b => db.b_note_id b = db.n_id n) (rows (note_blocks d))))).

Definition snapshot_view (s : db.NoteSnapshot) : SnapshotResponse :=
  mkSnapshotResponse (db.sn_id s) (db.sn_note_id s) (db.sn_owner_id s) (db.sn_version s)
    (db.sn_last_applied_cursor s) (db.sn_snapshot_format s) (db.sn_schema_version s)
    (store.NormalizeJSON (Some (db.sn_snapshot_data s))) (db.sn_checksum s) (db.sn_created_at s).

(** The owner's snapshot of the note that no other one is newer than. *)
Definition is_latest (d : Db) (o note : UUID) (s : db.NoteSnapshot) : Prop :=
  note_snapshots d !! db.sn_id s = Some s /\ db.sn_note_id s = note /\ db.sn_owner_id s = o /\
  forall id t, note_snapshots d !! id = Some t -> db.sn_note_id t = note -> db.sn_owner_id t = o ->
    db.sn_version t <= db.sn_version s.

Definition no_nil_snapshots (d : Db) : Prop :=
  forall id s, note_snapshots d !! id = Some s ->
    id <> uuid_Nil /\ db.sn_note_id s <> uuid_Nil /\ db.sn_owner_id s <> uuid_Nil.

(** What other clients have made of the database when the request of [w] runs
    its first, second and third statement. *)
Definition seen1 {X : External Db} (w : World) : Db := others (w_step w) (w_db w).
Definition seen2 {X : External Db} (w : World) : Db := others (S (w_step w)) (seen1 w).
Definition seen3 {X : External Db} (w : World) : Db := others (S (S (w_step w))) (seen2 w).

Definition availability_request (dev : string) : UpdatesAvailableRequest :=
  mkUpdatesAvailableRequest ProtocolVersion dev.

(** *** Examples *)

(** The example with one snapshot of the note. *)
Definition snapshot1 : db.NoteSnapshot :=
  db.mkNoteSnapshot 51 note1 alice 2 "notes-v1" 1 empty_object "00" 1 0.

Definition read_world : World :=
  mkWorld (set_snapshots <[51%N := snapshot1]> demo_db) 0 0 TxActive 1 0.

(** The laptop changes the block, committed just before the given statement. *)
Definition block_changed (d : Db) : Db :=
  let d' := set_blocks <[block1 := db.mkNoteBlock block1 note1 "text" "bye" "1" empty_object 1 2 None]> d in
  mkDb (categories d') (notes d') (note_blocks d') (sync_devices d') [demo_change 71 81 1]
    (note_snapshots d') (outbox_jobs d') (file_uploads d') 1 (job_seq d') (upload_seq d').

Definition changing (step : nat) : External Db :=
  demo_with (fun _ => Runs) (fun n d => if Nat.eqb n step then block_changed d else d).

Definition full_note (step : nat) : res (list NoteSnapshot) :=
  snd (SyncFullNote (X := changing step) demo_service alice
         (mkFullNoteRequest phone [note1]) (mkWorld demo_db 0 0 TxActive 1 0)).

Definition cursor_and_texts (s : NoteSnapshot) : Z * list string :=
  (NS_LastAppliedCursor s, map BS_TextContent (NS_Blocks s)).

(** ** Lemmas *)

Section reads.
Context {X : External Db} {HR : Reliable X}.

(** The document of a note, read by three statements. *)
Lemma GetNoteDocument_pool id o w :
  exists w', store.GetNoteDocument Pool id o w
    = (w', match q.owned_note (seen1 w) id o with
           | Some n => Ok (store.mkNoteDocument (store.fromDBNote n)
               (map store.fromDBBlock (sort_by q.block_leb
                  (filter (fun b => db.b_note_id b = id) (rows (note_blocks (seen2 w))))))
               (max_or_zero (map db.ch_global_sequence
                  (filter (fun c => db.ch_note_id c = Some id) (note_changes (seen3 w))))))
           | None => Err ErrNotFound
           end) /\
    w_db w' = match q.owned_note (seen1 w) id o with Some _ => seen3 w | None => seen1 w end.
Proof.
  unfold store.GetNoteDocument, store.GetNoteForOwner, q.GetNoteForOwner.
  destruct (read_one_run (fun d => q.owned_note d id o) w) as (w1 & Hd & Hs & E).
  rewrite !M_bind_eq, E. fold (seen1 w) in *. destruct (q.owned_note (seen1 w) id o) as [n|].
  2:{ by exists w1. }
  unfold mret at 1, M_ret at 1, store.ListBlocksForNote. rewrite !M_bind_eq.
  erewrite (pool_run (q.ListBlocksForNote id) w1 (seen2 w)).
  2:{ unfold q.ListBlocksForNote. rewrite Hs, Hd. reflexivity. }
  unfold mret at 1, M_ret at 1, store.GetLastAppliedCursorForNote. rewrite M_bind_eq.
  erewrite (pool_run (q.GetLastAppliedCursorForNote id) _ (seen3 w)).
  2:{ unfold q.GetLastAppliedCursorForNote, seen3. cbn. rewrite Hs. reflexivity. }
  by eexists.
Qed.

Lemma blocks_convert id bs :
  id <> uuid_Nil -> Forall (fun b => db.b_note_id b = id /\ db.b_id b <> uuid_Nil) bs ->
  exists models, note_blocks_from id (map store.fromDBBlock bs) = Ok models /\
    map Block_Response models = map block_view bs.
Proof.
  intros Hid. induction 1 as [|b bs [Hn Hb] _ (models & IH & Hm)]; [by exists []|]. cbn.
  rewrite Hn, N.eqb_refl. cbn. unfold Block_FromEntity. cbn.
  rewrite (proj2 (is_nil_false _)) by done. rewrite (proj2 (is_nil_false _)) by congruence.
  cbn. rewrite IH. cbn. eexists. split; [reflexivity|]. cbn. rewrite Hm. f_equal.
  unfold Block_Response, block_view. cbn. by destruct (db.b_block_properties b).
Qed.

Lemma note_converts d1 d2 n c id o :
  wf d1 -> no_nil_rows d1 -> wf d2 -> no_nil_rows d2 -> q.owned_note d1 id o = Some n ->
  NoteResponse_FromEntity (store.mkNoteDocument (store.fromDBNote n)
    (map store.fromDBBlock (sort_by q.block_leb
       (filter (fun b => db.b_note_id b = id) (rows (note_blocks d2))))) c) = Ok (note_view d2 n).
Proof.
  intros Hw1 [_ Hn1] Hw2 [Hb2 _] [Hrow Ho]%owned_note_Some.
  destruct (Hn1 _ _ Hrow) as [Hid Howner]. pose proof (wf_note_key _ Hw1 _ _ Hrow) as Hk.
  set (bs := sort_by _ _). destruct (blocks_convert id bs) as (models & Hm & Hv); [done| |].
  { apply Forall_forall. intros b [Hbn [k Hbk]%elem_of_rows]%elem_of_sort_by%list_elem_of_filter.
    split; [done|]. destruct (wf_block _ Hw2 _ _ Hbk) as [-> _]. congruence. }
  unfold NoteResponse_FromEntity, Note_FromEntity. cbn -[note_blocks_from]. rewrite Hk.
  rewrite (proj2 (is_nil_false _)) by done. rewrite (proj2 (is_nil_false _)) by done.
  cbn -[note_blocks_from]. rewrite Hm. cbn. unfold Note_Response, note_view. cbn.
  rewrite Hv, Hk. by destruct (db.n_note_properties n).
Qed.

Lemma latest_spec d o note s :
  wf d ->
  head (sort_by q.newest_snapshot (filter (fun s => db.sn_note_id s = note /\ db.sn_owner_id s = o)
    (rows (note_snapshots d)))) = Some s -> is_latest d o note s.
Proof.
  intros Hw Hh. set (l := filter _ _) in Hh.
  assert (Hs : StronglySorted (fun a b => q.newest_snapshot a b = true) (sort_by q.newest_snapshot l)).
  { apply sort_by_sorted; unfold q.newest_snapshot; intros *; rewrite !Z.leb_le; lia. }
  assert (Hin : forall t, t ∈ sort_by q.newest_snapshot l <-> (db.sn_note_id t = note /\
    db.sn_owner_id t = o) /\ exists k, note_snapshots d !! k = Some t).
  { intros t. unfold l. by rewrite elem_of_sort_by, list_elem_of_filter, elem_of_rows. }
  destruct (sort_by q.newest_snapshot l) as [|x xs]; [done|]. injection Hh as ->.
  assert (s ∈ s :: xs) as ([Hn Ho] & k & Hk)%Hin by left.
  destruct (wf_snapshot _ Hw _ _ Hk) as [<- _]. split_and!; [done..|].
  intros id t Ht Htn Hto. apply StronglySorted_inv in Hs as [_ Hall].
  assert (t ∈ s :: xs) as [->|Hx]%elem_of_cons by (apply Hin; eauto); [lia|].
  by apply Z.leb_le, (proj1 (Forall_forall _ _) Hall).
Qed.

Lemma no_latest d o note :
  head (sort_by q.newest_snapshot (filter (fun s => db.sn_note_id s = note /\ db.sn_owner_id s = o)
    (rows (note_snapshots d)))) = None ->
  forall id t, note_snapshots d !! id = Some t -> db.sn_note_id t = note -> db.sn_owner_id t <> o.
Proof.
  intros Hh id t Ht Hn Ho. set (l := filter _ _) in Hh.
  assert (Hl : t ∈ sort_by q.newest_snapshot l).
  { apply elem_of_sort_by, list_elem_of_filter. split; [done|]. apply elem_of_rows. by exists id. }
  destruct (sort_by q.newest_snapshot l); [by apply not_elem_of_nil in Hl|done].
Qed.

End reads.

(** Rows a read with a condition finds, by the first of the sorted list. *)
Lemma has_changes_spec d o dev c :
  existsb (fun x => bool_decide (q.remote_change o c dev x)) (note_changes d)
  = negb (bool_decide (remote_log d o dev c = [])).
Proof.
  apply eq_true_iff_eq. rewrite negb_true_iff, bool_decide_eq_false, existsb_exists. split.
  - intros (x & Hx & Hp%bool_decide_eq_true) Hnil.
    assert (x ∈ remote_log d o dev c) as H by (by apply elem_of_remote_log; rewrite list_elem_of_In).
    rewrite Hnil in H. by apply not_elem_of_nil in H.
  - intros Hne. destruct (remote_log d o dev c) as [|x l] eqn:E; [done|].
    assert (x ∈ remote_log d o dev c) as [Hp Hx]%elem_of_remote_log by (rewrite E; left).
    exists x. split; [by apply list_elem_of_In|by apply bool_decide_eq_true].
Qed.

Section availability.
Context {X : External Db} {HR : Reliable X} {HA : Alone X}.

Lemma UpdatesAvailable_run o dev w v :
  dev <> EmptyString -> ValidDeviceID dev = true -> live_device (w_db w) o dev v ->
  exists w1, UpdatesAvailable o (availability_request dev) w
    = (w1, Ok (mkUpdatesAvailableResponse
        (negb (bool_decide (remote_log (w_db w) o dev (db.d_last_global_cursor v) = []))))) /\
    w_db w1 = w_db w.
Proof.
  intros He Hv [Hrow Hr]. unfold UpdatesAvailable. rewrite M_bind_eq. unfold lift at 1.
  replace (UpdatesAvailableRequest_Validate _) with (Ok tt : res unit).
  2:{ unfold UpdatesAvailableRequest_Validate, validate_device_id, availability_request.
      cbn -[ValidDeviceID]. by rewrite (proj2 (String.eqb_neq _ _) He), Hv. }
  unfold store.GetDeviceForOwner, q.GetDeviceForOwner.
  destruct (read_one_run (fun d => q.owned_device d dev o) w) as (w1 & Hd & _ & E).
  rewrite nobody_else in *. rewrite Hrow in E.
  erewrite M_bind_run.
  2:{ apply attempt_run. rewrite M_bind_eq. cbn [UAR_DeviceID availability_request].
      rewrite E. reflexivity. }
  rewrite M_bind_eq. unfold lift. cbn [check_device]. cbn [store.fromDBDevice store.Dev_RevokedAt].
  rewrite Hr. unfold store.HasChangesAfterCursor. rewrite M_bind_eq.
  erewrite (pool_run (q.HasChangesAfterCursor _ _ _) w1 (w_db w1)).
  2:{ unfold q.HasChangesAfterCursor. rewrite nobody_else. reflexivity. }
  rewrite has_changes_spec, Hd. by eexists.
Qed.

End availability.

(** ** Theorems *)

(** C39: a device is told that updates are available exactly when a pull from
    its stored cursor would deliver changes, and asking writes nothing; when
    the answer is no, that pull has no further page and leaves the cursor. *)
Theorem availability_agrees_with_pull {X : External Db} {HR : Reliable X} {HA : Alone X}
    (sv : Service) (o : UUID) (dev : string) (w : World) (v : db.SyncDevice)
    (Hlimit : 0 < pull_limit sv < 2 ^ 31 - 1) (Hdev : dev <> EmptyString)
    (Hvalid : ValidDeviceID dev = true) (Hcursor : 0 <= db.d_last_global_cursor v)
    (Hlive : live_device (w_db w) o dev v) (Hsend : sendable (w_db w)) :
  exists w1 w2 b resp,
    UpdatesAvailable o (availability_request dev) w = (w1, Ok (mkUpdatesAvailableResponse b)) /\
    w_db w1 = w_db w /\
    Pull sv o (pull_request dev (db.d_last_global_cursor v)) w1 = (w2, Ok resp) /\
    (b = true <-> PR_Changes resp <> []) /\
    (b = false -> PR_HasMore resp = false /\ PR_NextCursor resp = db.d_last_global_cursor v).
Proof.
  destruct (UpdatesAvailable_run o dev w v Hdev Hvalid Hlive) as (w1 & Hask & Hd).
  destruct (Pull_runs sv o (pull_request dev (db.d_last_global_cursor v)) w1 v) as (w2 & resp & Hpull);
    [lia|by apply pull_request_valid|by rewrite nobody_else, Hd|by rewrite nobody_else, Hd|].
  eexists w1, w2, _, resp. split_and!; [exact Hask|exact Hd|exact Hpull|..];
    apply Pull_Ok in Hpull as (-> & _); try lia; rewrite nobody_else, Hd;
    cbn [pull_request Pull_DeviceID Pull_Cursor]; unfold pull_response;
    set (log := remote_log _ _ _ _); cbn [PR_Changes PR_HasMore PR_NextCursor].
  - rewrite negb_true_iff, bool_decide_eq_false. destruct log as [|x l]; [by rewrite take_nil|].
    destruct (Z.to_nat (pull_limit sv)) eqn:E; [lia|]. split; discriminate.
  - intros ->%negb_false_iff%bool_decide_eq_true. split; [apply Z.ltb_ge; cbn; lia|].
    by rewrite take_nil.
Qed.

Lemma availability_agrees_with_pull_witness :
  exists w1 w2 b resp,
    UpdatesAvailable (X := demo) alice (availability_request phone) pull_world
      = (w1, Ok (mkUpdatesAvailableResponse b)) /\ w_db w1 = three_changes /\
    Pull (X := demo) demo_service alice (pull_request phone 0) w1 = (w2, Ok resp) /\
    (b = true <-> PR_Changes resp <> []) /\ (b = false -> PR_HasMore resp = false /\ PR_NextCursor resp = 0).
Proof.
  apply (availability_agrees_with_pull (X := demo) (HR := demo_reliable _) (HA := demo_alone _)
    demo_service alice phone pull_world (demo_device phone alice));
    [vm_compute; split; reflexivity|discriminate|reflexivity|cbn; lia|by split|].
  by repeat constructor.
Defined.

(** C40: when the database answers, reading a note returns its row and its
    blocks in order, the row as the first and the blocks as the second of
    three statements see them, and the latest snapshot request returns the
    owner's snapshot of the highest version; what the owner does not have is
    NOT_FOUND, and neither request writes. *)
Theorem note_reads_are_exact {X : External Db} {HR : Reliable X} (o id : UUID) (w : World)
    (Hwf1 : wf (seen1 w)) (Hnil1 : no_nil_rows (seen1 w)) (Hwf2 : wf (seen2 w))
    (Hnil2 : no_nil_rows (seen2 w)) (Hsnap : no_nil_snapshots (seen1 w)) :
  (exists w', Get o id w
     = (w', match q.owned_note (seen1 w) id o with
            | Some n => Ok (note_view (seen2 w) n)
            | None => Err (ErrAPI (NotFound "Note not found."))
            end) /\
     w_db w' = match q.owned_note (seen1 w) id o with Some _ => seen3 w | None => seen1 w end) /\
  (exists w' r, LatestSnapshot o id w = (w', r) /\ w_db w' = seen1 w /\
     match r with
     | Ok resp => exists s, is_latest (seen1 w) o id s /\ resp = snapshot_view s
     | Err e => e = ErrAPI (NotFound "Snapshot not found.") /\
         forall k s, note_snapshots (seen1 w) !! k = Some s -> db.sn_note_id s = id ->
           db.sn_owner_id s <> o
     end).
Proof.
  split.
  - unfold Get. rewrite M_bind_eq. unfold store.map_err.
    destruct (GetNoteDocument_pool id o w) as (w' & E & Hd). rewrite E. exists w'.
    destruct (q.owned_note (seen1 w) id o) as [n|] eqn:Hn; [|done]. split; [|done].
    unfold lift. f_equal. by apply note_converts with (d1 := seen1 w) (o := o).
  - unfold LatestSnapshot, store.GetLatestSnapshotForNote, q.GetLatestSnapshotForNote.
    destruct (read_one_run (fun d => head (sort_by q.newest_snapshot (filter (fun s =>
      db.sn_note_id s = id /\ db.sn_owner_id s = o) (rows (note_snapshots d))))) w)
      as (w1 & Hd & _ & E). fold (seen1 w) in *.
    rewrite M_bind_eq. unfold store.map_err at 1. rewrite M_bind_eq, E.
    destruct (head _) as [s|] eqn:Hh; [|by eexists _, _; split; [done|split; [done|split;
      [done|by eapply no_latest]]]].
    apply latest_spec in Hh as Hl; [|done]. destruct Hl as (Hk & Hn & Ho & Hmax).
    destruct (Hsnap _ _ Hk) as (H1%is_nil_false & H2%is_nil_false & H3%is_nil_false).
    unfold mret at 1, M_ret at 1, lift, SnapshotResponse_FromEntity.
    cbn [store.fromDBSnapshot store.Snap_ID store.Snap_NoteID store.Snap_OwnerID].
    rewrite H1, H2, H3. eexists _, _. split; [reflexivity|]. split; [done|]. by exists s.
Qed.

Lemma read_world_ok :
  wf (w_db read_world) /\ no_nil_rows (w_db read_world) /\ no_nil_snapshots (w_db read_world).
Proof.
  split_and!.
  - apply wf_insert_snapshot; [apply demo_db_wf|..]; [done|by eexists|].
    intros id s Hs. cbn in Hs. by rewrite lookup_empty in Hs.
  - split; [done|]. intros id n Hn. cbn in Hn. lookup_cases Hn; [done|]. by rewrite lookup_empty in Hn.
  - intros id s Hs. cbn in Hs. lookup_cases Hs; [done|]. by rewrite lookup_empty in Hs.
Qed.

Lemma note_reads_are_exact_witness :
  exists w', Get (X := demo) alice note1 read_world
    = (w', Ok (note_view (X := demo) (w_db read_world)
        (db.mkNote note1 alice "Shopping" empty_object 3 1 1 None))) /\
    w_db w' = w_db read_world.
Proof.
  pose proof read_world_ok as (Hw & Hn & Hs).
  exact (proj1 (note_reads_are_exact (X := demo) (HR := demo_reliable _) alice note1 read_world
    Hw Hn Hw Hn Hs)).
Defined.

(** A push that commits while a full note is read: with the cursor of the
    push comes the text from before it, and the client does not pull it again. *)
Lemma full_note_can_be_torn :
  map cursor_and_texts <$> full_note 0 = Ok [(1, ["bye"%string])] /\
  map cursor_and_texts <$> full_note 3 = Ok [(1, ["hello"%string])] /\
  map cursor_and_texts <$> full_note 4 = Ok [(0, ["hello"%string])].
Proof. split_and!; vm_compute; reflexivity. Qed.
