(* ===== verification/ApiFacts.v ===== *)
(** * Handlers below the middleware

    Each route of the API always answers and stays within the account of the
    user it is called for, and each layer of middleware is described by one
    lemma. *)

From S2P Require Import Prelude GoText Json HttpApi Constants External GoTime Schema DbInvariant.
From S2P Require Import Store Frame SyncModels RealtimeMessage SyncService Demo SyncPush SyncPull.
From S2P Require Import SyncFrame UploadStore Storage UploadService Devices NotesApi DemoServices.
From S2P Require Import Config ConfigTheorems Auth AuthTheorems Http Handlers Api UploadFacts.
From S2P Require Import Isolation.

(** ** Definitions *)

(** An error names the request it answers. *)
Definition names_request (id : string) (resp : http_response) : Prop :=
  match rs_reply resp with
  | Some (ErrorReply _ _ request_id _) => request_id = id
  | _ => True
  end.

Definition is_unauthorized (resp : http_response) : Prop :=
  rs_status resp = StatusUnauthorized /\
  exists message id details, rs_reply resp = Some (ErrorReply CodeUnauthorized message id details).

(** ** Lemmas *)

(** The database changes only by what other clients commit. *)
Definition by_others {X : External Db} : Db -> Db -> Prop :=
  rtc (fun d d' => exists n, d' = others n d).

Lemma by_others_alone {X : External Db} d d' : by_others d d' -> Alone X -> d' = d.
Proof. intros H HA. induction H as [|d1 d2 d3 (n & ->) _ ->]; [done|]. by rewrite nobody_else. Qed.

(** A read outside a transaction. *)
Lemma pool_read_by_others {X : External Db} {A} (q : Stmt A) w w' r :
  reads q -> exec Pool q w = (w', r) -> by_others (w_db w) (w_db w') /\ later w w'.
Proof.
  intros Hq H. split; [|by eapply later_exec]. cbn [exec] in H. unfold exec_pool in H.
  apply rtc_once. exists (w_step w).
  destruct (round_trip (w_step w)); [|by injection H as <- _|];
    (destruct (q _ _) as [[d a]|e] eqn:E; [apply Hq in E|]; by injection H as <- _).
Qed.

(** *** Services only count steps up *)

Section steps.
Import ustore.
Context {X : External Db} {S : Storage} {T : MimeTables} (o : UUID) (sv : Service) (up : UploadConfig).

Lemma later_call {A} (f : nat -> res A) : sat later (call f).
Proof. intros w w' r [= <- _]. unfold later. cbn. lia. Qed.

Hint Resolve later_call : frame.

Lemma later_Sync req : sat later (Sync sv o req).
Proof.
  unfold Sync. apply sat_bind; [apply _|frame_walk|]. intros _.
  apply sat_bind; [apply _|apply later_WithTx, (sat_sync_tx later)|frame_walk].
Qed.

Lemma later_Pull req : sat later (Pull sv o req).
Proof.
  unfold Pull, pull_tx, store.GetDeviceForOwnerForUpdate, store.GetChangesAfterCursor,
    store.UpdateDeviceCursor. apply sat_bind; [apply _|frame_walk|]. intros _. apply later_WithTx.
  frame_walk.
Qed.

Lemma later_UpdatesAvailable req : sat later (UpdatesAvailable o req).
Proof. unfold UpdatesAvailable, store.GetDeviceForOwner, store.HasChangesAfterCursor. frame_walk. Qed.

Lemma later_GetNoteDocument id : sat later (store.GetNoteDocument Pool id o).
Proof.
  unfold store.GetNoteDocument, store.GetNoteForOwner, store.ListBlocksForNote,
    store.GetLastAppliedCursorForNote. frame_walk.
Qed.

Hint Resolve later_GetNoteDocument : frame.

Lemma later_full_notes ids : sat later (full_notes o ids).
Proof. induction ids; cbn [full_notes]; frame_walk. Qed.

Hint Resolve later_full_notes : frame.

Lemma later_SyncFullNote req : sat later (SyncFullNote sv o req).
Proof. unfold SyncFullNote, store.GetDeviceForOwner. frame_walk. Qed.

Lemma later_NoteGet id : sat later (NotesApi.Get o id).
Proof. unfold NotesApi.Get. frame_walk. Qed.

Lemma later_LatestSnapshot id : sat later (LatestSnapshot o id).
Proof. unfold LatestSnapshot, store.GetLatestSnapshotForNote. frame_walk. Qed.

Lemma later_Register req : sat later (Register o req).
Proof. unfold Register, store.CreateDevice. frame_walk. Qed.

Lemma later_List : sat later (Devices.List o).
Proof. unfold Devices.List, store.ListDevices. frame_walk. Qed.

Lemma later_Revoke dev : sat later (Revoke o dev).
Proof. unfold Revoke, store.RevokeDevice, store.GetDeviceForOwner. frame_walk. Qed.

Lemma later_ValidateUploadTarget n b : sat later (store.ValidateUploadTarget Pool n b o).
Proof.
  unfold store.ValidateUploadTarget, store.GetNoteForOwner, store.GetBlockForNoteForUpdate. frame_walk.
Qed.

Lemma later_validateDevice dev : sat later (validateDevice o dev).
Proof. unfold validateDevice, store.GetDeviceForOwner. frame_walk. Qed.

Lemma later_download_link e : sat later (download_link up e).
Proof. unfold download_link, CreateSignedDownloadURL. frame_walk. Qed.

Lemma later_GetFileUpload id : sat later (GetFileUploadForOwner Pool id o).
Proof. unfold GetFileUploadForOwner, one_row. frame_walk. Qed.

Hint Resolve later_ValidateUploadTarget later_validateDevice later_download_link
  later_GetFileUpload : frame.

Lemma later_download_links dev es links next : sat later (download_links up o dev es links next).
Proof. revert links next. induction es as [|e es IH]; intros; cbn [download_links]; frame_walk. Qed.

Hint Resolve later_download_links : frame.

Lemma later_DownloadURLs dev c : sat later (DownloadURLs up o dev c).
Proof. unfold DownloadURLs, ListFileUploadsAfterCursor. frame_walk. Qed.

Lemma later_DownloadURL b : sat later (DownloadURL up o b).
Proof. unfold DownloadURL, GetFileUploadForBlockForOwner, one_row. frame_walk. Qed.

Lemma later_UploadGet id : sat later (UploadService.Get o id).
Proof. unfold UploadService.Get. frame_walk. Qed.

Lemma later_Complete id : sat later (Complete o id).
Proof.
  unfold Complete, verify_complete, finish_complete, rejectMetadata, GetObjectInfo, CompleteFileUpload,
    MarkFileUploadFailed, one_row. frame_walk.
Qed.

Lemma later_Delete id : sat later (Delete o id).
Proof.
  unfold Delete, finish_delete, deleted_or, object_gone, MarkFileUploadCancelled, MarkFileUploadDeleted,
    DeleteObject, one_row. frame_walk.
Qed.

Lemma later_Initiate req : sat later (Initiate up o req).
Proof.
  unfold Initiate, authorize, CountPendingFileUploads, CreateFileUpload, CreateSignedUploadURL,
    MarkFileUploadFailed, one_row. frame_walk.
Qed.

End steps.

#[export] Hint Resolve later_call later_Sync later_Pull later_UpdatesAvailable later_SyncFullNote
  later_NoteGet later_LatestSnapshot later_Register later_List later_Revoke later_DownloadURLs
  later_DownloadURL later_UploadGet later_Complete later_Delete later_Initiate : frame.

(** Handlers that always answer, moving the database along [R]. *)
Definition names (r : http_request) (out : served) : Prop :=
  match out with
  | Wrote resp => names_request (rq_id r) resp
  | Panicked => True
  | Upgraded _ _ => False
  end.

Definition answers (R : Db -> Db -> Prop) (r : http_request) (m : M served) : Prop :=
  forall w, exists w' out, m w = (w', Ok out) /\ R (w_db w) (w_db w') /\ later w w' /\ names r out.

Section answers.
Context {X : External Db} (R : Db -> Db -> Prop) `{!Rollable R} (r : http_request).

Lemma answers_mret out : names r out -> answers R r (mret out).
Proof using All. intros H w. exists w, out. by split_and!. Qed.

Lemma names_error err : names r (Wrote (WriteError r err)).
Proof. done. Qed.

Lemma answers_refuse err : answers R r (refuse r err).
Proof using All. by apply answers_mret, names_error. Qed.

Lemma answers_answer {A} (m : M A) write :
  sat (on_db R) m -> sat later m -> (forall a, names r (Wrote (write a))) ->
  answers R r (answer r m write).
Proof.
  intros Hm Hl Hw w. unfold answer. rewrite M_bind_eq. unfold attempt.
  destruct (m w) as [w1 out] eqn:E. apply Hl in E as E2. apply Hm in E.
  exists w1, (match out with
              | Ok a => Wrote (write a)
              | Err ErrPanic => Panicked
              | Err err => Wrote (WriteError r err)
              end).
  split_and!; [done|done|done|]. by destruct out as [a|[]].
Qed.

Lemma answers_decoded {A} decode (f : A -> M served) :
  (forall a, answers R r (f a)) -> answers R r (decoded r decode f).
Proof using All. intros H. unfold decoded. case_match; [apply H|apply answers_refuse]. Qed.

Lemma answers_query_int key f : (forall z, answers R r (f z)) -> answers R r (query_int r key f).
Proof using All. intros H. unfold query_int. case_match; [apply H|apply answers_refuse]. Qed.

Lemma answers_path_uuid key what f :
  (forall u, answers R r (f u)) -> answers R r (path_uuid r key what f).
Proof using All. intros H. unfold path_uuid. case_match; [apply H|apply answers_refuse]. Qed.

Lemma answers_authenticated o f :
  UserIDFromContext r = Some o -> answers R r (f o) -> answers R r (authenticated r f).
Proof. intros Ho H. unfold authenticated. by rewrite Ho. Qed.

End answers.

(** Walks through a handler to its service. *)
Ltac answers_walk Ho :=
  repeat first
    [ eapply answers_authenticated; [exact Ho|]
    | apply answers_decoded; [apply _|]; intros ?
    | apply answers_query_int; [apply _|]; intros ?
    | apply answers_path_uuid; [apply _|]; intros ?
    | apply answers_answer; [| |done] ];
  eauto with frame.

Section routes.
Context {X : External Db} {HA : Alone X} {S : Storage} {T : MimeTables} (o : UUID).

#[local] Instance alone_keeps R `{!Rollable R} : OthersKeep R.
Proof using All. intros n d. by rewrite nobody_else. Qed.

(** Each route, in the name of [o]. *)
Definition serves (rt : Route) : Prop :=
  forall r, UserIDFromContext r = Some o -> answers (within_account o) r (rt.2 r).

Lemma serves_mount prefix routes : Forall serves routes -> Forall serves (mount prefix routes).
Proof.
  intros H. unfold mount. rewrite Forall_fmap. eapply Forall_impl; [exact H|].
  by intros [[method pattern] h].
Qed.

Lemma device_routes_serve : Forall serves device_routes.
Proof using All.
  repeat constructor; intros r Ho; cbn [snd]; unfold RegisterHandler, ListHandler, RevokeHandler;
    answers_walk Ho.
Qed.

Lemma note_routes_serve : Forall serves note_routes.
Proof using All.
  repeat constructor; intros r Ho; cbn [snd]; unfold NoteHandler, SnapshotHandler; answers_walk Ho.
Qed.

Lemma upload_routes_serve up : Forall serves (upload_routes up).
Proof using All.
  repeat constructor; intros r Ho; cbn [snd]; unfold InitiateHandler, DownloadLinksHandler,
    GetUploadHandler, CompleteHandler, DownloadURLHandler, DeleteHandler, identity, blockIdentity;
    answers_walk Ho.
Qed.

Lemma v1_routes_serve sv up : Forall serves (v1_routes sv up).
Proof using All.
  unfold v1_routes. rewrite !Forall_app. split_and!.
  - apply serves_mount, device_routes_serve.
  - repeat constructor; intros r Ho; cbn [snd]; unfold PushHandler, FullNoteHandler,
      UpdatesAvailableHandler, PullHandler; answers_walk Ho.
  - apply serves_mount, note_routes_serve.
  - apply serves_mount, upload_routes_serve.
Qed.

End routes.

(** *** The layers around the routes *)

Section layers.
Context {X : External Db} {HA : Alone X} {S : Storage} {T : MimeTables} {C : Chi}.
Context {J : JwksEndpoint} {P : Peers} {HP : PeersRefresh} {W : JwtLibrary}.

(** A table whose routes all satisfy [Post], as does an unmatched request. *)
Lemma dispatch_run routes (Post : World -> World -> served -> Prop) r c :
  Forall (fun rt : Route => forall params w, exists w' out,
    rt.2 (with_params r params) w = (w', Ok out) /\ Post w w' out) routes ->
  (forall w status, Post w w (not_routed status)) ->
  forall w, exists w' out, dispatch routes r c w = (w', Ok (c, out)) /\ Post w w' out.
Proof.
  intros Hall Hno w. unfold dispatch. destruct (chi_match _ _ _) as [[n params]|status].
  2:{ eexists _, _. by split; [reflexivity|]. }
  destruct (routes !! n) as [[[method pattern] h]|] eqn:Hn.
  2:{ eexists _, _. by split; [reflexivity|]. }
  destruct (proj1 (Forall_lookup _ _) Hall _ _ Hn params w) as (w' & out & E & HP').
  cbn [snd] in E. exists w', out. by rewrite M_bind_eq, E.
Qed.

Lemma dispatch_answers R `{!Reflexive R} (Q : http_request -> Prop) routes r c :
  Forall (fun rt : Route => forall r, Q r -> answers R r (rt.2 r)) routes ->
  (forall params, Q (with_params r params)) ->
  forall w, exists w' out, dispatch routes r c w = (w', Ok (c, out)) /\ R (w_db w) (w_db w') /\
    later w w' /\ names r out.
Proof.
  intros Hall Hq.
  apply (dispatch_run routes (fun w w' out => R (w_db w) (w_db w') /\ later w w' /\ names r out)).
  - eapply Forall_impl; [exact Hall|]. intros rt H params w. exact (H _ (Hq params) w).
  - by intros w status.
Qed.

Lemma ready_answers r : answers by_others r (ready r).
Proof.
  intros w. unfold ready, attempt. rewrite M_bind_eq.
  destruct (Ping w) as [w1 out] eqn:E.
  destruct (pool_read_by_others no_op w w1 out) as [H1 H2];
    [by intros now d d' a [= <- _]|exact E|].
  eexists _, _. split; [reflexivity|]. split; [exact H1|]. split; [exact H2|]. by destruct out.
Qed.

Lemma public_routes_answer :
  Forall (fun rt : Route => forall r, True -> answers by_others r (rt.2 r)) public_routes.
Proof.
  repeat constructor; intros r _; cbn [snd]; [|apply ready_answers].
  intros w. eexists _, _. split; [reflexivity|]. by split.
Qed.

(** What a request may come to. *)
Definition served_within (v : Verifier) (r : http_request) (w w' : World) (out : served) : Prop :=
  (w_db w' = w_db w /\
   (under_v1 (rq_path r) = true -> exists resp, out = Wrote resp /\ is_unauthorized resp)) \/
  (under_v1 (rq_path r) = true /\
   exists text user, bearer_token (rq_header r "Authorization") = Some text /\
     vouched (w_step w) (w_step w') v text user /\ within_account user (w_db w) (w_db w')).

(** The bearer check: it answers, or hands on an identity that is vouched for. *)
Lemma Middleware_run v next r c w :
  cache_ok (w_step w) c ->
  exists w1 c1, cache_ok (w_step w1) c1 /\ w_db w1 = w_db w /\ later w w1 /\
    (Middleware v next r c w = (w1, Ok (c1, unauthorized r)) \/
     exists text claims, bearer_token (rq_header r "Authorization") = Some text /\
       vouched (w_step w) (w_step w1) v text (UserID claims) /\
       Middleware v next r c w = next (WithClaims r claims) c1 w1).
Proof using HP.
  intros Hc. unfold Middleware. destruct (bearer_token _) as [text|] eqn:Hb.
  2:{ exists w, c. split_and!; [done..|by left]. }
  destruct (Verify_spec v c text w Hc) as (w1 & c1 & out & Hrun & Hc1 & Hd & Hl & Hout).
  exists w1, c1. rewrite M_bind_eq, Hrun. split_and!; [done..|].
  destruct out as [claims|e]; [right|by left]. by exists text, claims.
Qed.

Lemma unauthorized_is r : exists resp, unauthorized r = Wrote resp /\ is_unauthorized resp.
Proof. eexists. split; [reflexivity|]. split; [done|]. by eexists _, _, _. Qed.

Lemma Middleware_serves sv up v r c w :
  cache_ok (w_step w) c -> under_v1 (rq_path r) = true ->
  exists w' c' out, Middleware v (dispatch (v1_routes sv up)) r c w = (w', Ok (c', out)) /\
    cache_ok (w_step w') c' /\ later w w' /\ names r out /\ served_within v r w w' out.
Proof using All.
  intros Hc Hv1.
  destruct (Middleware_run v (dispatch (v1_routes sv up)) r c w Hc)
    as (w1 & c1 & Hc1 & Hd & Hl & [->|(text & claims & Hb & Hvouched & ->)]).
  - exists w1, c1, (unauthorized r). split_and!; [done..|]. left. split; [done|]. intros _.
    apply unauthorized_is.
  - destruct (dispatch_answers (within_account (UserID claims))
      (fun r => UserIDFromContext r = Some (UserID claims)) (v1_routes sv up) (WithClaims r claims) c1
      (v1_routes_serve (UserID claims) sv up) (fun _ => eq_refl) w1)
      as (w2 & served & -> & Hwithin & Hl2 & Hnames).
    exists w2, c1, served. split_and!; [done|by eapply cache_ok_later|by etransitivity|done|].
    right. split; [done|]. exists text, (UserID claims). rewrite <- Hd. split_and!; [done| |done].
    eapply vouched_within; [|exact Hl2|exact Hvouched]. done.
Qed.

(** Below the group of middleware that every request passes. *)
Lemma routed cfg bus v r c w :
  cache_ok (w_step w) c ->
  exists w' c' out,
    (if under_v1 (rq_path r)
     then Middleware v (dispatch (v1_routes (NewService cfg bus) (NewUploadService cfg))) r c
     else dispatch public_routes r c) w = (w', Ok (c', out)) /\
    cache_ok (w_step w') c' /\ later w w' /\ names r out /\ served_within v r w w' out.
Proof using All.
  intros Hc. destruct (under_v1 (rq_path r)) eqn:Hv1; [by apply Middleware_serves|].
  destruct (dispatch_answers by_others (fun _ => True) public_routes r c public_routes_answer
    (fun _ => I) w) as (w1 & out & -> & Hd%by_others_alone & Hl & Hn); [|done].
  exists w1, c, out. split_and!; [done|by eapply cache_ok_later|done|done|]. left. rewrite Hv1. by split.
Qed.

(** A panic becomes an error, and an answer that comes late another one. *)
Definition recovered (r : http_request) (out : served) : served :=
  match out with
  | Panicked => Wrote (WriteError r (ErrAPI Internal))
  | _ => out
  end.

Lemma Recovery_run h r c w w' c' out :
  h r c w = (w', Ok (c', out)) -> Recovery h r c w = (w', Ok (c', recovered r out)).
Proof. intros H. unfold Recovery. rewrite M_bind_eq, H. by destruct out. Qed.

Definition in_time {D : Deadlines} (w : World) (out : served) : served :=
  if passed (w_step w) then Wrote timeout_response else out.

Lemma Timeout_run {D : Deadlines} h r c w w' c' out :
  h r c w = (w', Ok (c', out)) -> Timeout h r c w = (w', Ok (c', in_time w' out)).
Proof. intros H. unfold Timeout. by rewrite M_bind_eq, H. Qed.

Lemma RequestID_run h r c w :
  exists w1 id, w_db w1 = w_db w /\ w_step w1 = w_step w /\
    (rq_header r "X-Request-Id" <> EmptyString -> id = rq_header r "X-Request-Id") /\
    forall w2 c2 out, h (WithRequestID r id) c w1 = (w2, Ok (c2, out)) ->
      RequestID h r c w = (w2, Ok (c2, set_header "X-Request-Id" id out)).
Proof.
  unfold RequestID. destruct (String.eqb_spec (rq_header r "X-Request-Id") EmptyString) as [He|He].
  - destruct (uuidNew w) as [w1 u] eqn:E. pose proof E as E'. unfold uuidNew in E.
    injection E as <- <-. eexists _, (uuid_text _). split_and!; cycle -1.
    + intros w2 c2 out H. rewrite M_bind_eq, M_bind_eq, E'. cbv [mret M_ret].
      by rewrite M_bind_eq, H.
    + done.
    + done.
    + done.
  - exists w, (rq_header r "X-Request-Id"). split_and!; [done..|]. intros w2 c2 out H.
    rewrite !M_bind_eq. cbv [mret M_ret]. by rewrite M_bind_eq, H.
Qed.

Lemma recovered_wrote {D : Deadlines} r w out :
  names r out ->
  exists resp, recovered r (in_time w out) = Wrote resp /\ names_request (rq_id r) resp.
Proof.
  intros H. unfold in_time. destruct (passed (w_step w)); [by eexists|].
  destruct out as [resp| |]; [by exists resp|by eexists|done].
Qed.

End layers.
