(* ===== verification/ApiTheorems.v ===== *)
(** * What the API guarantees about a request

    Every request is answered, and one below [/v1] changes rows of no user but
    the one its verified token names. *)

From S2P Require Import Prelude GoText Json HttpApi Constants External GoTime Schema DbInvariant.
From S2P Require Import Frame SyncModels RealtimeMessage SyncService Demo Storage UploadService.
From S2P Require Import Devices DemoServices Config ConfigTheorems Auth AuthTheorems Http Logging.
From S2P Require Import Handlers Api WebSocketApi UploadFacts Isolation ApiFacts.

(** ** Definitions the statements use *)

(** A router for tables without parameters. *)
Definition demo_chi : Chi := {|
  chi_match := fun table method path =>
    match list_find (fun mp : string * string => mp = (method, path)) table with
    | Some (n, _) => inl (n, fun _ => EmptyString)
    | None => inr StatusNotFound
    end
|}.

Definition unhurried : Deadlines := {| passed := fun _ => false |}.

Definition one_route : RouteContext := {| RoutePattern := rq_path |}.

Definition no_bytes : Encoder := {| body_bytes := fun _ => 0 |}.

(** The time limit of requests passed meanwhile. *)
Definition timed_out {D : Deadlines} (w w' : World) (resp : http_response) : Prop :=
  rs_status resp = StatusServiceUnavailable /\
  exists n, (w_step w <= n <= w_step w')%nat /\ passed n = true.

(** ** Lemmas *)

Lemma router_answers {X : External Db} {HA : Alone X} {S : Storage}
    {T : MimeTables} {C : Chi} {J : JwksEndpoint} {P : Peers} {HP : PeersRefresh}
    {W : JwtLibrary} {D : Deadlines} {R : RouteContext} {E : Encoder} (cfg : Config) (bus : option Publisher) (v : Verifier)
    (r : http_request) (c : jwksCache) (w : World) (Hcache : cache_ok (w_step w) c) :
  exists w' c' resp id,
    buildRouter cfg bus v r c w = (w', Ok (c', Wrote resp)) /\ cache_ok (w_step w') c' /\ later w w' /\
    ("X-Request-Id"%string, id) ∈ rs_headers resp /\ names_request id resp /\
    (rq_header r "X-Request-Id" <> EmptyString -> id = rq_header r "X-Request-Id") /\
    ((w_db w' = w_db w /\ (under_v1 (rq_path r) = true ->
        is_unauthorized resp \/ timed_out w w' resp)) \/
     (under_v1 (rq_path r) = true /\ exists text user,
        bearer_token (rq_header r "Authorization") = Some text /\
        vouched (w_step w) (w_step w') v text user /\ within_account user (w_db w) (w_db w'))).
Proof.
  unfold buildRouter.
  match goal with |- context [RequestID ?h] =>
    destruct (RequestID_run h r c w) as (w1 & id & Hd & Hs1 & Hid & Hrun) end.
  set (r1 := with_body (WithRequestID r id)
               (limit_reader (MaxCompressedRequestBytes cfg) (rq_body r))).
  assert (Hc1 : cache_ok (w_step (tick w1)) c)
    by (eapply cache_ok_later; [|exact Hcache]; cbn; rewrite Hs1; lia).
  destruct (routed cfg bus v r1 c (tick w1) Hc1) as (w2 & c2 & out & Erun & Hc2 & Hl & Hn & Hs).
  destruct (recovered_wrote (WithRequestID r id) w2 out Hn) as (resp & Hresp & Hname).
  match type of Hrun with context [RequestLogging ?h] =>
    destruct (RequestLogging_run h (WithRequestID r id) c w1 w2 c2 (in_time w2 out))
      as (w3 & Elog & Hd3 & Hl3); [apply Timeout_run; exact Erun|] end.
  unfold served_within in Hs. change (w_db (tick w1)) with (w_db w1) in Hs. rewrite <- Hd3, Hd in Hs.
  unfold later in Hl. cbn [w_step tick] in Hl, Hs.
  exists w3, c2, (mkHttpResponse (rs_status resp) (("X-Request-Id"%string, id) :: rs_headers resp)
    (rs_reply resp)), id.
  split_and!; [|by eapply cache_ok_later|unfold later; lia|by left|exact Hname|exact Hid|].
  - apply (Hrun w3 c2 (Wrote resp)). rewrite <- Hresp. by apply Recovery_run.
  - destruct Hs as [[Hdb H401]|(Hv1 & text & user & Hb & Hv & Hw)]; [left|right].
    + split; [done|]. intros (resp0 & -> & H)%H401. unfold in_time in Hresp.
      destruct (passed (w_step w2)) eqn:Hp; injection Hresp as <-; [right|by left].
      split; [done|]. exists (w_step w2). split; [lia|done].
    + split; [done|]. exists text, user. split; [done|]. split; [|done].
      eapply vouched_within; [| |exact Hv]; lia.
Qed.

(** ** Theorems *)

(** C4: while nobody else writes the database, every request gets one response,
    which repeats the identifier the client sent in [X-Request-Id] or a fresh
    one, also in an error body; panics become errors.  A request below [/v1]
    whose token does not verify during the request is refused with 401, or with
    503 when the time limit passed meanwhile, and changes nothing, nor do the
    public routes; any other keeps the database well formed and changes only rows of the user
    its token names: the notes, blocks, categories, devices and uploads of all
    other users stay, and so does every snapshot; changes are only added, in
    that user's name.  The key cache is new or holds a document of the endpoint,
    and so it is left. *)
Theorem requests_stay_in_their_account {X : External Db} {HA : Alone X} {S : Storage}
    {T : MimeTables} {C : Chi} {J : JwksEndpoint} {P : Peers} {HP : PeersRefresh}
    {W : JwtLibrary} {D : Deadlines} {R : RouteContext} {E : Encoder} (cfg : Config) (bus : option Publisher) (v : Verifier)
    (r : http_request) (c : jwksCache) (w : World) (Hcache : cache_ok (w_step w) c) :
  exists w' c' resp id,
    buildRouter cfg bus v r c w = (w', Ok (c', Wrote resp)) /\ cache_ok (w_step w') c' /\
    ("X-Request-Id"%string, id) ∈ rs_headers resp /\ names_request id resp /\
    (rq_header r "X-Request-Id" <> EmptyString -> id = rq_header r "X-Request-Id") /\
    ((w_db w' = w_db w /\ (under_v1 (rq_path r) = true ->
        is_unauthorized resp \/ timed_out w w' resp)) \/
     (under_v1 (rq_path r) = true /\ exists text user,
        bearer_token (rq_header r "Authorization") = Some text /\
        vouched (w_step w) (w_step w') v text user /\ within_account user (w_db w) (w_db w'))).
Proof.
  destruct (router_answers cfg bus v r c w Hcache) as (w' & c' & resp & id & H1 & H2 & _ & H).
  by exists w', c', resp, id.
Qed.

Definition demo_request : http_request :=
  mkHttpRequest "GET" "/v1/devices/"
    (fun name => if String.eqb name "Authorization" then "Bearer token"
                 else if String.eqb name "X-Request-Id" then "request-1" else EmptyString)
    (fun _ => EmptyString) (fun _ => EmptyString) (Finished 0) EmptyString None.

(** The devices of the user whom the token of the demonstration names. *)
Lemma requests_stay_in_their_account_witness :
  exists w' c' resp id,
    buildRouter (X := demo) (S := demo_storage) (T := demo_mime) (C := demo_chi)
      (J := demo_endpoint) (P := no_peers) (W := demo_jwt) (D := unhurried) (R := one_route) (E := no_bytes) demo_config None
      demo_verifier demo_request newJWKSCache demo_world = (w', Ok (c', Wrote resp)) /\
    ("X-Request-Id"%string, id) ∈ rs_headers resp /\ names_request id resp /\
    id = "request-1"%string.
Proof.
  destruct (requests_stay_in_their_account (X := demo) (HA := demo_alone _) (S := demo_storage)
    (T := demo_mime) (C := demo_chi) (J := demo_endpoint) (P := no_peers)
    (HP := no_peers_refresh _ _) (W := demo_jwt) (D := unhurried) (R := one_route) (E := no_bytes) demo_config None demo_verifier
    demo_request newJWKSCache demo_world
    (or_introl eq_refl)) as (w' & c' & resp & id & H1 & _ & H2 & H3 & H4 & _).
  exists w', c', resp, id. split; [exact H1|]. split; [exact H2|]. split; [exact H3|].
  apply H4. discriminate.
Defined.

Example demo_answer :
  match buildRouter (X := demo) (S := demo_storage) (T := demo_mime) (C := demo_chi)
      (J := demo_endpoint) (P := no_peers) (W := demo_jwt) (D := unhurried) (R := one_route) (E := no_bytes) demo_config None
      demo_verifier demo_request newJWKSCache demo_world with
  | (_, Ok (_, Wrote (mkHttpResponse status _ (Some (DevicesReply l))))) =>
      (status, map DR_ID l) = (StatusOK, ["laptop"; "phone"]%string)
  | _ => False
  end.
Proof. vm_compute. reflexivity. Qed.
