(* ===== verification/ProgramTheorems.v ===== *)
(** * What the API and worker programs guarantee from start to stop

    The API program serves only with a valid configuration, a database that answers, keys of
    the configured endpoint and a storage client; then it answers request after
    request, and an account is touched only by requests that present a token
    naming it.  The worker returns and loses no job. *)

From S2P Require Import Prelude GoText GoFloat Json HttpApi Constants External GoTime Schema.
From S2P Require Import Queries DbInvariant Store Frame SyncModels RealtimeMessage SyncService.
From S2P Require Import Demo GoMime GoStrings GoUrl Storage SupabaseClient UploadService.
From S2P Require Import Snapshots Worker Devices DemoServices Config ConfigTheorems Auth.
From S2P Require Import AuthTheorems Http Logging Handlers Api WebSocketApi Programs.
From S2P Require Import SupabaseTheorems JobFacts JobTheorems Isolation ApiFacts ApiTheorems.

(** ** Definitions the statements use *)

(** Nothing of [user]'s changes: the notes, the blocks of these, the
    categories, devices and uploads; and no change is logged in that name. *)
Record account_kept (user : UUID) (d d' : Db) : Prop := mkAccountKept {
  ak_notes : forall id n, db.n_owner_id n = user ->
    notes d' !! id = Some n <-> notes d !! id = Some n;
  ak_blocks : forall id b n, notes d !! db.b_note_id b = Some n -> db.n_owner_id n = user ->
    note_blocks d' !! id = Some b <-> note_blocks d !! id = Some b;
  ak_categories : forall id c, db.cat_owner_id c = user ->
    categories d' !! id = Some c <-> categories d !! id = Some c;
  ak_devices : forall id v, db.d_owner_id v = user ->
    sync_devices d' !! id = Some v <-> sync_devices d !! id = Some v;
  ak_uploads : forall id u, db.up_owner_id u = user ->
    file_uploads d' !! id = Some u <-> file_uploads d !! id = Some u;
  ak_changes : exists entries, note_changes d' = note_changes d ++ entries /\
    Forall (fun c => db.ch_owner_id c <> user) entries
}.

(** The request presents a token that is accepted between the steps [a] and [b]
    and names [user]. *)
Definition speaks_for {X : External Db} {J : JwksEndpoint} {W : JwtLibrary} (a b : nat)
    (v : Verifier) (r : http_request) (user : UUID) : Prop :=
  under_v1 (rq_path r) = true /\
  exists text, bearer_token (rq_header r "Authorization") = Some text /\ vouched a b v text user.

(** What a program needs of its configuration and, from step [n] on, of its
    surroundings to start: valid settings, a connection string that parses and
    a pool of the size asked for, and a database that answers. *)
Definition database_ready {X : External Db} {Q : Pgx} (n : nat) (cfg : Config) : Prop :=
  (exists pool, ParseConfig (DatabaseURL cfg) = Ok pool /\
     NewWithConfig pool (MaxDBConnections cfg) = Ok tt) /\
  round_trip n = Runs.

(** The key endpoint answers with a document that holds a usable key. *)
Definition keys_ready {K : Endpoints} (n : nat) (cfg : Config) : Prop :=
  exists keys, load_keys (jwks_fetch (JwksEndpoint := endpoint (JWTJWKSURL cfg)) n) = Ok keys.

Definition storage_ready {A : Authorities} {O : MapOrder} (cfg : Config) (client : supabase.Client) : Prop :=
  supabase.NewClient (SupabaseURL cfg) (SupabaseSecretKey cfg) (SupabaseStorageHTTPTimeout cfg)
  = Ok client.

(** The API program can start, with this configuration and client. *)
Definition api_ready {X : External Db} {Q : Pgx} {K : Endpoints} {A : Authorities} {O : MapOrder}
    (n : nat) (env : Environ) (file : option string) (cfg : Config) (client : supabase.Client) : Prop :=
  snd (Load env file) = Ok cfg /\ database_ready n cfg /\ keys_ready (S n) cfg /\
  storage_ready cfg client.

Definition is_written (out : Http.served) : Prop :=
  match out with
  | Wrote _ => True
  | _ => False
  end.

(** What ends the server, as the exit status of the program. *)
Fixpoint stopped (events : list occurrence) : option Z :=
  match events with
  | [] => None
  | Arrives _ :: rest => stopped rest
  | ServerFails _ :: _ => Some 1
  | Signalled :: _ | ServerClosed :: _ => Some 0
  end.

(** The worker program can start. *)
Definition worker_ready {X : External Db} {Q : Pgx} {A : Authorities} {O : MapOrder}
    (n : nat) (env : Environ) (file : option string) (cfg : Config) (client : supabase.Client) : Prop :=
  snd (Load env file) = Ok cfg /\ database_ready n cfg /\ storage_ready cfg client.

(** *** An example *)

Definition demo_pgx : Pgx := {|
  PoolConfig := string;
  ParseConfig := fun url => if has_prefix url "postgres://" then Ok url
                            else Err (errorsNew "cannot parse");
  NewWithConfig := fun _ conns => if conns <? 1 then Err (errorsNew "MaxSize must be >= 1") else Ok tt
|}.

Definition demo_notifier : Notifier := {| pg_notify := fun _ => Ok tt |}.

Definition demo_endpoints : Endpoints := {| endpoint := fun _ => demo_endpoint |}.

(** Alice lists her devices, somebody does so without a token, and the program
    is told to stop. *)
Definition demo_events : list occurrence :=
  [Arrives demo_request;
   Arrives (mkHttpRequest "GET" "/v1/devices/" (fun _ => EmptyString) (fun _ => EmptyString)
              (fun _ => EmptyString) (Finished 0) EmptyString None);
   Signalled; Arrives demo_request].

(** ** Lemmas *)

#[export] Instance account_kept_preorder user : PreOrder (account_kept user).
Proof.
  split; [intros d; split; try done; exists []; by rewrite app_nil_r|].
  intros d1 d2 d3 [A1 A2 A3 A4 A5 (l1 & A7 & F1)] [B1 B2 B3 B4 B5 (l2 & B7 & F2)].
  split; try (intros; by rewrite ?B1, ?B3, ?B4, ?B5, ?A1, ?A3, ?A4, ?A5).
  - intros id b n Hn Ho. rewrite (B2 _ _ n), (A2 _ _ n); try done. by apply A1.
  - exists (l1 ++ l2). by rewrite B7, A7, app_assoc, Forall_app.
Qed.

Lemma account_kept_foreign o user d d' : o <> user -> foreign_rows o d d' -> account_kept user d d'.
Proof.
  intros Hne [F1 F2 F3 F4 F5 F6 (l & Hl & Hf)]. split.
  - intros id n <-. by apply F1.
  - intros id b n Hn <-. by eapply F2.
  - intros id c <-. by apply F3.
  - intros id v <-. by apply F4.
  - intros id u <-. by apply F5.
  - exists l. split; [done|]. eapply Forall_impl; [exact Hf|]. cbn. congruence.
Qed.

Lemma speaks_for_within {X : External Db} {J : JwksEndpoint} {W : JwtLibrary} a a' b b' v r user :
  (a' <= a)%nat -> (b <= b')%nat -> speaks_for a b v r user -> speaks_for a' b' v r user.
Proof.
  intros Ha Hb (Hv1 & text & Ht & Hv). split; [done|]. exists text. split; [done|].
  by eapply vouched_within.
Qed.

Section serving.
Context {X : External Db} {HA : Alone X} {S : Storage} {T : MimeTables} {C : Chi}.
Context {J : JwksEndpoint} {P : Peers} {HP : PeersRefresh} {W : JwtLibrary} {D : Deadlines}.
Context {R : RouteContext} {E : Encoder} (cfg : Config) (bus : option Publisher) (v : Verifier).

Lemma serve_run events c w :
  cache_ok (w_step w) c -> wf (w_db w) ->
  exists w' outs, serve (buildRouter cfg bus v) events c w = (w', Ok (outs, stopped events)) /\
    length outs = length (before_stop events) /\ Forall is_written outs /\
    evolves (w_db w) (w_db w') /\ later w w' /\
    forall user,
      Forall (fun r => ~ speaks_for (w_step w) (w_step w') v r user) (before_stop events) ->
      account_kept user (w_db w) (w_db w').
Proof.
  revert c w. induction events as [|[r| |err|] events IH]; intros c w Hc Hw;
    try (exists w, []; split_and!; [done|done|done|reflexivity|reflexivity|done]).
  cbn [serve before_stop stopped length].
  destruct (router_answers cfg bus v r c w Hc)
    as (w1 & c1 & resp & id & Hrun & Hc1 & Hl1 & _ & _ & _ & Heffect).
  assert (Hstep : evolves (w_db w) (w_db w1) /\ forall user,
    ~ speaks_for (w_step w) (w_step w1) v r user -> account_kept user (w_db w) (w_db w1)).
  { destruct Heffect as [[-> _]|(Hv1 & text & user & Hb & Hv & Hin)]; [by split|].
    destruct (Hin Hw) as [Hev Hf]. split; [done|]. intros other Hn.
    eapply account_kept_foreign; [|exact Hf]. intros ->. apply Hn. by split; [|exists text]. }
  destruct Hstep as [Hev Hkept].
  destruct (IH c1 w1 Hc1 (ev_wf _ _ Hev Hw)) as (w2 & outs & Hrest & Hlen & Hall & Hev2 & Hl2 & Hk2).
  exists w2, (Wrote resp :: outs). split_and!.
  - rewrite M_bind_eq, Hrun. by rewrite M_bind_eq, Hrest.
  - cbn. by rewrite Hlen.
  - by constructor.
  - by etransitivity.
  - by etransitivity.
  - intros user [Hr Hrest']%Forall_cons. etransitivity; [apply Hkept|apply Hk2].
    + intros H. apply Hr. by eapply speaks_for_within; [| |exact H].
    + eapply Forall_impl; [exact Hrest'|]. intros r' H1 H2. apply H1.
      by eapply speaks_for_within; [| |exact H2].
Qed.

End serving.

(** ** Starting up *)

Lemma or_exit_inr {A} message (m : M A) w w' a :
  or_exit message m w = (w', inr a) <-> m w = (w', Ok a).
Proof. unfold or_exit. destruct (m w) as [? [?|?]]; split; congruence. Qed.

Lemma Main_bind_inr {A B} (m : Main A) (f : A -> Main B) w w' b :
  (m ≫= f) w = (w', inr b) <-> exists w1 a, m w = (w1, inr a) /\ f a w1 = (w', inr b).
Proof.
  change ((m ≫= f) w) with (Main_bind _ _ f m w). unfold Main_bind.
  destruct (m w) as [w1 [e|a]]; split; try done.
  - by intros (? & ? & ? & _).
  - intros H. eauto.
  - by intros (? & ? & [= <- <-] & H).
Qed.

(** Parts of a start-up leave the database alone. *)
Definition quiet {A} (m : Main A) : Prop := forall w, w_db (fst (m w)) = w_db w.

Lemma quiet_bind {A B} (m : Main A) (f : A -> Main B) :
  quiet m -> (forall a, quiet (f a)) -> quiet (m ≫= f).
Proof.
  intros Hm Hf w. specialize (Hm w). change ((m ≫= f) w) with (Main_bind _ _ f m w).
  unfold Main_bind. destruct (m w) as [w1 [e|a]]; [done|]. cbn in Hm. by rewrite Hf.
Qed.

Lemma quiet_or_exit {A} message (m : M A) :
  (forall w w' r, m w = (w', r) -> w_db w' = w_db w) -> quiet (or_exit message m).
Proof. intros H w. unfold or_exit. destruct (m w) as [w' [a|e]] eqn:E; by apply H in E. Qed.

Lemma quiet_lift {A} message (r : res A) : quiet (or_exit message (lift r)).
Proof. apply quiet_or_exit. by intros w w' r' [= <- _]. Qed.

Section start.
Context {X : External Db} {Q : Pgx}.

(** The database opens exactly when it is ready. *)
Lemma Open_spec cfg w :
  exists w' r, Open cfg w = (w', r) /\ by_others (w_db w) (w_db w') /\
    ((database_ready (w_step w) cfg /\ r = Ok Pool /\ w_step w' = S (w_step w)) \/
     (~ database_ready (w_step w) cfg /\ exists e, r = Err e)).
Proof.
  unfold Open, lift, database_ready. rewrite M_bind_eq.
  destruct (ParseConfig (DatabaseURL cfg)) as [pool|e].
  2:{ eexists _, _. split; [done|]. split; [apply rtc_refl|]. right.
      split; [by intros [(? & ? & _) _]|by eexists]. }
  rewrite M_bind_eq. destruct (NewWithConfig pool _) as [[]|e] eqn:En.
  2:{ eexists _, _. split; [done|]. split; [apply rtc_refl|]. right.
      split; [|by eexists]. intros [(? & [= <-] & H) _]. congruence. }
  rewrite M_bind_eq. destruct (Ping w) as [w1 r] eqn:E.
  destruct (pool_read_by_others no_op w w1 r) as [Hd _];
    [by intros now d d' a [= <- _]|exact E|].
  unfold Ping, exec, exec_pool, no_op in E.
  destruct (round_trip (w_step w)); injection E as <- <-;
    (eexists _, _; split; [done|]; split; [exact Hd|]); [left|right..].
  - split; [split; [by exists pool|done]|done].
  - split; [by intros [_ ?]|by eexists].
  - split; [by intros [_ ?]|by eexists].
Qed.

Lemma Open_quiet {HA : Alone X} cfg w w' r : Open cfg w = (w', r) -> w_db w' = w_db w.
Proof.
  intros H. destruct (Open_spec cfg w) as (w1 & r1 & E & Hd & _). rewrite H in E.
  injection E as <- _. by apply by_others_alone.
Qed.

Lemma NewVerifier_quiet {J : JwksEndpoint} issuer audience w w' r :
  NewVerifier issuer audience w = (w', r) -> w_db w' = w_db w.
Proof.
  unfold NewVerifier, refresh, fetch, timeNow. rewrite !M_bind_eq.
  destruct (load_keys (jwks_fetch (w_step w))); by intros [= <- _].
Qed.

(** A verifier starts exactly when its endpoint answers with a usable document,
    and with the keys of that. *)
Lemma NewVerifier_spec {J : JwksEndpoint} issuer audience w :
  (exists keys w' c, load_keys (jwks_fetch (w_step w)) = Ok keys /\
     NewVerifier issuer audience w = (w', Ok (mkVerifier issuer audience, c)) /\
     cache_ok (w_step w') c /\ later w w') \/
  ((forall keys, load_keys (jwks_fetch (w_step w)) <> Ok keys) /\
   exists w' e, NewVerifier issuer audience w = (w', Err e)).
Proof.
  unfold NewVerifier. rewrite M_bind_eq.
  destruct (refresh_spec newJWKSCache w) as (w1 & c1 & r1 & E & _ & _ & Hok & _). rewrite E.
  unfold refresh, fetch, timeNow in E. rewrite !M_bind_eq in E.
  destruct (load_keys (jwks_fetch (w_step w))) as [keys|e]; injection E as <- <- <-; [left|right].
  - destruct (Hok eq_refl) as [Hst Hs]. exists keys. eexists _, _. split_and!; [done|reflexivity| |].
    + right. eexists _, _. split; [exact Hst|]. rewrite Hs. lia.
    + unfold later. cbn. lia.
  - split; [done|]. by eexists _, _.
Qed.

Context {K : Endpoints} {A : Authorities} {V : supabase.Server} {O : MapOrder}.

Lemma Load_valid env file cfg : snd (Load env file) = Ok cfg -> valid_config cfg.
Proof.
  unfold Load. cbn [snd]. destruct (Validate _) as [[]|e] eqn:Ev; [|done].
  intros [= <-]. by apply Validate_spec in Ev.
Qed.

Lemma api_start_quiet {HA : Alone X} env file : quiet (api.start env file).
Proof.
  unfold api.start. apply quiet_bind; [apply quiet_lift|]. intros cfg.
  apply quiet_bind; [apply quiet_or_exit, Open_quiet|]. intros _.
  apply quiet_bind; [apply quiet_or_exit; intros w w' r; apply NewVerifier_quiet|]. intros [v c].
  apply quiet_bind; [apply quiet_lift|]. by intros client w.
Qed.

(** A start-up goes on after a part that succeeds and ends at one that fails. *)
Lemma started_next {Y Z} message (m : M Y) (f : Y -> Main Z) w w1 a :
  m w = (w1, Ok a) -> (or_exit message m ≫= f) w = f a w1.
Proof. intros H. unfold mbind, Main_bind, or_exit. by rewrite H. Qed.

Lemma started_exit {Y Z} message (m : M Y) (f : Y -> Main Z) w w1 e :
  m w = (w1, Err e) -> (or_exit message m ≫= f) w = (w1, inl (mkFatal message e)).
Proof. intros H. unfold mbind, Main_bind, or_exit. by rewrite H. Qed.

(** The API program starts exactly when it is ready. *)
Lemma api_start_spec env file w :
  (exists cfg client w' p, api_ready (w_step w) env file cfg client /\
     api.start env file w = (w', inr p) /\ api.pr_config p = cfg /\ api.pr_storage p = client /\
     api.pr_verifier p = mkVerifier (JWTIssuer cfg) (JWTAudience cfg) /\
     cache_ok (J := endpoint (JWTJWKSURL cfg)) (w_step w') (api.pr_keys p) /\ later w w') \/
  ((forall cfg client, ~ api_ready (w_step w) env file cfg client) /\
   exists w' e, api.start env file w = (w', inl e)).
Proof.
  unfold api.start, api_ready. destruct (snd (Load env file)) as [cfg|e] eqn:El.
  2:{ right. split; [by intros ? ? (? & _)|]. eexists _, _. by apply started_exit. }
  rewrite (started_next _ _ _ w w cfg) by done.
  destruct (Open_spec cfg w) as (w1 & r1 & Ho & _ & [(Hdb & -> & Hs)|(Hdb & e & ->)]).
  2:{ right. split; [by intros ? ? ([= <-] & ? & _)|]. eexists _, _. by eapply started_exit. }
  rewrite (started_next _ _ _ _ _ _ Ho). unfold keys_ready. rewrite <- Hs.
  destruct (NewVerifier_spec (J := endpoint (JWTJWKSURL cfg)) (JWTIssuer cfg) (JWTAudience cfg) w1)
    as [(keys & w2 & c & Hk & Hv & Hc & Hl)|(Hk & w2 & e & Hv)].
  2:{ right. split; [|eexists _, _; by eapply started_exit].
      intros ? ? ([= <-] & _ & (keys & Hkeys) & _). by eapply Hk. }
  rewrite (started_next _ _ _ _ _ _ Hv). cbv beta iota. unfold storage_ready.
  destruct (supabase.NewClient (SupabaseURL cfg) (SupabaseSecretKey cfg) (SupabaseStorageHTTPTimeout cfg))
    as [client|e] eqn:Ec.
  2:{ right. split; [|eexists _, _; by apply started_exit].
      intros ? ? ([= <-] & _ & _ & ?). congruence. }
  left. exists cfg, client. eexists _, _. split; [by split_and!; [done..|exists keys|done]|].
  split; [reflexivity|]. split_and!; try done. unfold later in *. cbn. lia.
Qed.

(** The WebSocket program starts likewise. *)
Lemma websocket_start_Ok env file w w' p :
  realtime_server.start env file w = (w', inr p) ->
  snd (Load env file) = Ok (realtime_server.pr_config p) /\
  valid_config (realtime_server.pr_config p) /\ by_others (w_db w) (w_db w') /\ later w w' /\
  realtime_server.pr_verifier p = mkVerifier (JWTIssuer (realtime_server.pr_config p))
    (JWTAudience (realtime_server.pr_config p)) /\
  cache_ok (J := endpoint (JWTJWKSURL (realtime_server.pr_config p))) (w_step w')
    (realtime_server.pr_keys p).
Proof.
  unfold realtime_server.start. destruct (snd (Load env file)) as [cfg|e] eqn:El.
  2:{ rewrite (started_exit _ _ _ w w e) by done. done. }
  rewrite (started_next _ _ _ w w cfg) by done.
  destruct (Open_spec cfg w) as (w1 & r1 & Ho & Hd & [(_ & -> & Hs)|(_ & e & ->)]).
  2:{ rewrite (started_exit _ _ _ _ _ _ Ho). done. }
  rewrite (started_next _ _ _ _ _ _ Ho).
  destruct (NewVerifier_spec (J := endpoint (JWTJWKSURL cfg)) (JWTIssuer cfg) (JWTAudience cfg) w1)
    as [(keys & w2 & c & _ & Hv & Hc & Hl)|(_ & w2 & e & Hv)].
  2:{ rewrite (started_exit _ _ _ _ _ _ Hv). done. }
  rewrite (started_next _ _ _ _ _ _ Hv). intros [= <- <-]. cbn.
  apply NewVerifier_quiet in Hv as Hq. unfold later in *.
  split_and!; [done|by apply Load_valid in El|by rewrite Hq|lia|done|done].
Qed.

End start.

(** ** Theorems *)

(** C5: while nobody else writes the database, the API program, from start to
    stop, does one of two things.  When its configuration loads, its database
    answers, its key endpoint then publishes a usable key and its storage URL is
    a project URL, it answers every request up to the signal that stops it, keeps
    the database well formed, the change log growing and ownership in place, and
    an account all of whose requests lack a token that names it, verified
    meanwhile under the loaded configuration, keeps its rows as they were; it
    exits with 0 after a signal and with 1 when the server fails.  When one of
    these is missing, it exits with status 1, has answered nothing and changed
    nothing. *)
Theorem api_program_serves_safely {X : External Db} {HA : Alone X} {Q : Pgx} {N : Notifier}
    {K : Endpoints} {P : Peers} {HP : forall url, PeersRefresh (J := endpoint url)}
    {W : JwtLibrary} {A : Authorities} {V : supabase.Server} {T : MimeTables} {O : MapOrder}
    {C : Chi} {D : Deadlines} {R : RouteContext} {E : Encoder} (env : Environ)
    (file : option string) (events : list occurrence) (w : World) (Hwf : wf (w_db w)) :
  exists w' outs status, api.main env file events w = (w', Ok (outs, status)) /\
    (((forall cfg client, ~ api_ready (w_step w) env file cfg client) /\
      outs = [] /\ status = Some 1 /\ w_db w' = w_db w) \/
     exists cfg client, api_ready (w_step w) env file cfg client /\ valid_config cfg /\
       status = stopped events /\ length outs = length (before_stop events) /\
       Forall is_written outs /\ evolves (w_db w) (w_db w') /\
       forall user, Forall (fun r => ~ speaks_for (J := endpoint (JWTJWKSURL cfg)) (w_step w)
           (w_step w') (mkVerifier (JWTIssuer cfg) (JWTAudience cfg)) r user) (before_stop events) ->
         account_kept user (w_db w) (w_db w')).
Proof.
  unfold api.main, run_main. pose proof (api_start_quiet env file w) as Hd.
  destruct (api_start_spec env file w)
    as [(cfg & client & w1 & p & Hready & Es & <- & <- & Hv & Hkeys & Hl)|(Hnot & w1 & e & Es)];
    rewrite Es in Hd |- *; cbn in Hd.
  2:{ exists w1, [], (Some 1). split; [done|]. by left. }
  rewrite <- Hd in Hwf.
  destruct (serve_run (S := supabase.as_storage (api.pr_storage p)) (HP := HP _) (api.pr_config p)
    (Some api.NewPostgresEventBus) (api.pr_verifier p) events (api.pr_keys p) w1 Hkeys Hwf)
    as (w2 & outs & Hrun & Hlen & Hall & Hev & Hl2 & Hkept).
  exists w2, outs, (stopped events). split; [exact Hrun|]. right.
  exists (api.pr_config p), (api.pr_storage p). rewrite Hd in Hev, Hkept. rewrite Hv in Hkept.
  split_and!; [done|by apply (Load_valid env file), Hready|done..|].
  intros user Hall'. apply Hkept. eapply Forall_impl; [exact Hall'|]. intros r H1 H2. apply H1.
  by eapply speaks_for_within; [exact Hl| |exact H2].
Qed.

Definition demo_main : World * res (list Http.served * option Z) :=
  api.main (X := demo) (Q := demo_pgx) (N := demo_notifier) (K := demo_endpoints) (P := no_peers)
    (W := demo_jwt) (A := demo_authorities) (V := demo_server) (T := demo_mime) (O := in_order)
    (C := demo_chi) (D := unhurried) (R := one_route) (E := no_bytes) demo_environ (Some demo_dotenv)
    demo_events demo_world.

(** The demonstration is ready. *)
Lemma demo_api_ready :
  ~ forall cfg client, ~ api_ready (X := demo) (Q := demo_pgx) (K := demo_endpoints)
      (A := demo_authorities) (O := in_order) 0 demo_environ (Some demo_dotenv) cfg client.
Proof.
  intros Hnot. destruct (api_start_spec (X := demo) (Q := demo_pgx) (K := demo_endpoints)
    (A := demo_authorities) (O := in_order) demo_environ (Some demo_dotenv) demo_world)
    as [(cfg & client & w' & p & Hr & _)|(_ & w' & e & Hs)]; [exact (Hnot _ _ Hr)|].
  assert (Hok : match snd (api.start (X := demo) (Q := demo_pgx) (K := demo_endpoints)
    (A := demo_authorities) (O := in_order) demo_environ (Some demo_dotenv) demo_world)
    with inr _ => true | _ => false end = true) by (vm_compute; reflexivity).
  by rewrite Hs in Hok.
Qed.

Lemma api_program_serves_safely_witness :
  exists w' outs status, demo_main = (w', Ok (outs, status)) /\
    status = Some 0 /\ length outs = 2%nat /\ Forall is_written outs /\ evolves demo_db (w_db w').
Proof.
  destruct (api_program_serves_safely (X := demo) (HA := demo_alone _) (Q := demo_pgx)
    (N := demo_notifier) (K := demo_endpoints) (P := no_peers)
    (HP := fun _ => no_peers_refresh _ _) (W := demo_jwt) (A := demo_authorities)
    (V := demo_server) (T := demo_mime) (O := in_order) (C := demo_chi) (D := unhurried)
    (R := one_route) (E := no_bytes) demo_environ (Some demo_dotenv) demo_events demo_world
    demo_db_wf) as (w' & outs & status & Hrun & Hcase).
  exists w', outs, status. split; [exact Hrun|].
  destruct Hcase as [(Hnot & _)|(cfg & client & _ & _ & Hst & Hlen & Hall & Hev & _)].
  - destruct (demo_api_ready Hnot).
  - split; [exact Hst|]. split; [exact Hlen|]. split; [exact Hall|exact Hev].
Defined.

(** The program starts, answers both and exits with status 0. *)
Example demo_main_answers :
  match demo_main with
  | (_, Ok ([Wrote a; Wrote b], status)) =>
      (rs_status a, rs_status b, status) = (StatusOK, StatusUnauthorized, Some 0)
  | _ => False
  end.
Proof. vm_compute. reflexivity. Qed.

(** Without a secret key it does not. *)
Example demo_main_refuses :
  match api.start (X := demo) (Q := demo_pgx) (K := demo_endpoints)
          (A := demo_authorities) (O := in_order)
          (delete "SUPABASE_SECRET_KEY"%string demo_environ) None demo_world with
  | (_, inl e) => ft_message e = "load config"%string
  | _ => False
  end.
Proof. vm_compute. reflexivity. Qed.

(** ** The worker program

    It returns whatever its jobs do, and no job is lost on the way. *)

(** ** Lemmas *)

(** The computation returns a value whatever happens. *)
Definition returns {A} (m : M A) : Prop := forall w, exists w' a, m w = (w', Ok a).

Lemma returns_mret {A} (a : A) : returns (mret a).
Proof. intros w. by eexists _, _. Qed.

Lemma returns_bind {A B} (m : M A) (f : A -> M B) :
  returns m -> (forall a, returns (f a)) -> returns (m ≫= f).
Proof.
  intros Hm Hf w. destruct (Hm w) as (w1 & a & E). rewrite M_bind_eq, E. apply Hf.
Qed.

Lemma returns_attempt {A} (m : M A) : returns (attempt m).
Proof. intros w. unfold attempt. destruct (m w) as [w' r]. by eexists _, _. Qed.

Section worker.
Context {X : External Db} {S : Storage} {L : LocalZone}.

Lemma returns_timeNow : returns timeNow.
Proof. intros w. by eexists _, _. Qed.

Lemma returns_uuidNew : returns uuidNew.
Proof. intros w. by eexists _, _. Qed.

Ltac returning := repeat first
  [apply returns_mret | apply returns_timeNow | apply returns_uuidNew | apply returns_attempt
  | apply returns_bind; [|intros ?] | case_match].

Lemma NewWorker_returns id : returns (NewWorker id).
Proof. unfold NewWorker. returning. Qed.

Lemma ProcessOnce_returns wk : returns (ProcessOnce wk).
Proof. unfold ProcessOnce, record_failure. returning. Qed.

Lemma maybeCleanup_returns wk : returns (maybeCleanup wk).
Proof. unfold maybeCleanup, cleanup_due. returning. Qed.

(** The loop ends because its context is cancelled. *)
Lemma Run_canceled cancelled wk w :
  exists w' wk', Run cancelled wk w = (w', Ok (wk', ErrCanceled)).
Proof.
  revert wk w. induction cancelled as [|stop rest IH]; intros wk w; cbn [Run]; [by eexists _, _|].
  destruct (ProcessOnce_returns wk w) as (w1 & r & E). rewrite M_bind_eq, E.
  case_match; [by eexists _, _|].
  destruct (maybeCleanup_returns wk w1) as (w2 & wk2 & E2). rewrite M_bind_eq, E2. apply IH.
Qed.

End worker.

(** The worker program starts exactly when it is ready. *)
Lemma worker_start_spec {X : External Db} {Q : Pgx} {A : Authorities} {O : MapOrder} env file w :
  exists w' r, worker_program.start env file w = (w', r) /\ by_others (w_db w) (w_db w') /\
    ((exists cfg client p, worker_ready (w_step w) env file cfg client /\ r = inr p /\
        worker_program.pr_config p = cfg /\ worker_program.pr_storage p = client) \/
     ((forall cfg client, ~ worker_ready (w_step w) env file cfg client) /\ exists e, r = inl e)).
Proof.
  unfold worker_program.start, worker_ready. destruct (snd (Load env file)) as [cfg|e] eqn:El.
  2:{ eexists _, _. split; [by apply started_exit|]. split; [apply rtc_refl|]. right.
      split; [by intros ? ? (? & _)|by eexists]. }
  rewrite (started_next _ _ _ w w cfg) by done.
  destruct (Open_spec cfg w) as (w1 & r1 & Ho & Hd & [(Hdb & -> & _)|(Hdb & e & ->)]).
  2:{ eexists _, _. split; [by eapply started_exit|]. split; [exact Hd|]. right.
      split; [by intros ? ? ([= <-] & ? & _)|by eexists]. }
  rewrite (started_next _ _ _ _ _ _ Ho). unfold storage_ready.
  destruct (supabase.NewClient (SupabaseURL cfg) (SupabaseSecretKey cfg) (SupabaseStorageHTTPTimeout cfg))
    as [client|e] eqn:Ec.
  - eexists _, _. split; [reflexivity|]. split; [exact Hd|]. left.
    exists cfg, client. eexists. by split_and!.
  - eexists _, _. split; [by apply started_exit|]. split; [exact Hd|]. right.
    split; [|by eexists]. intros ? ? ([= <-] & _ & ?). congruence.
Qed.

Lemma by_others_keep {X : External Db} (R : Db -> Db -> Prop) `{!PreOrder R} `{!OthersKeep R} d d' :
  by_others d d' -> R d d'.
Proof. induction 1 as [|d1 d2 d3 (n & ->) _ IH]; [done|]. by transitivity (others n d1). Qed.

(** ** Theorems *)

(** C31: the worker program returns, however its jobs fail and the database
    answers.  When its configuration loads, its database answers and its
    storage URL is a project URL, it returns with status 0 once its context is
    cancelled; when one of these is missing it returns with status 1 and has
    written nothing.  On the way no job is lost or altered, finished jobs stay
    finished, and a job that is finished meanwhile has a stored snapshot of its
    note at the version it asks for or a later one. *)
Theorem worker_program_keeps_jobs {X : External Db} {Q : Pgx} {A : Authorities}
    {V : supabase.Server} {O : MapOrder} {L : LocalZone} {HO : OthersKeep jobs_progress}
    (env : Environ) (file : option string) (cancelled : list bool) (w : World)
    (Hok : jobs_ok (w_db w)) :
  exists w' status, worker_program.main env file cancelled w = (w', Ok status) /\
    jobs_step (w_db w) (w_db w') /\
    ((exists cfg client, worker_ready (w_step w) env file cfg client /\ valid_config cfg /\
        status = 0) \/
     ((forall cfg client, ~ worker_ready (w_step w) env file cfg client) /\ status = 1 /\
      by_others (w_db w) (w_db w'))).
Proof.
  unfold worker_program.main, run_main.
  destruct (worker_start_spec env file w) as (w1 & r1 & -> & Hd & Hcase).
  pose proof (by_others_keep jobs_progress _ _ Hd Hok) as H1.
  destruct Hcase as [(cfg & client & p & Hready & -> & <- & <-)|(Hnot & e & ->)].
  2:{ exists w1, 1. split; [done|]. split; [done|by right]. }
  destruct (NewWorker_returns EmptyString w1) as (w2 & wk & E2).
  assert (Hd2 : w_db w2 = w_db w1).
  { unfold NewWorker in E2. cbn in E2. by injection E2 as <- _. }
  set (wk' := SetCleaner wk (SupabaseStorageCleanupGrace (worker_program.pr_config p))).
  destruct (Run_canceled (S := supabase.as_storage (worker_program.pr_storage p)) cancelled wk' w2)
    as (w3 & wk3 & E3).
  exists w3, 0. rewrite M_bind_eq, E2, M_bind_eq. fold wk'. rewrite E3. split; [done|]. split.
  - eapply jobs_step_then; [exact H1|]. rewrite <- Hd2. by apply (sat_Run _ _ _ _ _ E3).
  - left. eexists _, _. split; [exact Hready|]. split; [|done].
    apply (Load_valid env file), Hready.
Qed.

Definition demo_worker_main : World * res Z :=
  worker_program.main (X := demo) (Q := demo_pgx) (A := demo_authorities) (V := demo_server)
    (O := in_order) (L := utc) demo_environ (Some demo_dotenv) [false; false; true]
    (job_world [snapshot_job; unknown_job]).

(** The demonstration is ready. *)
Lemma demo_worker_ready :
  ~ forall cfg client, ~ worker_ready (X := demo) (Q := demo_pgx) (A := demo_authorities)
      (O := in_order) 0 demo_environ (Some demo_dotenv) cfg client.
Proof.
  intros Hnot. destruct (worker_start_spec (X := demo) (Q := demo_pgx) (A := demo_authorities)
    (O := in_order) demo_environ (Some demo_dotenv) demo_world) as (w' & r & Hs & _ & Hcase).
  assert (Hok : match snd (worker_program.start (X := demo) (Q := demo_pgx) (A := demo_authorities)
    (O := in_order) demo_environ (Some demo_dotenv) demo_world) with inr _ => true | _ => false end
    = true) by (vm_compute; reflexivity).
  rewrite Hs in Hok. destruct Hcase as [(cfg & client & p & Hr & _)|(_ & e & ->)]; [|done].
  exact (Hnot _ _ Hr).
Qed.

Lemma worker_program_keeps_jobs_witness :
  exists w' status, demo_worker_main = (w', Ok status) /\ status = 0 /\
    jobs_step (X := demo) (job_db [snapshot_job; unknown_job]) (w_db w').
Proof.
  destruct (worker_program_keeps_jobs (X := demo) (Q := demo_pgx) (A := demo_authorities)
    (V := demo_server) (O := in_order) (L := utc) (HO := jobs_alone _) demo_environ
    (Some demo_dotenv) [false; false; true] (job_world [snapshot_job; unknown_job])
    ltac:(apply job_db_ok; repeat constructor; discriminate))
    as (w' & status & H1 & H2 & [(cfg & client & _ & _ & H3)|(Hnot & _)]).
  - exists w', status. split; [exact H1|]. split; [exact H3|exact H2].
  - destruct (demo_worker_ready Hnot).
Defined.

Example demo_worker_exits : snd demo_worker_main = Ok 0.
Proof. vm_compute. reflexivity. Qed.
