(* ===== verification/WebSocketTheorems.v ===== *)
(** * What the WebSocket program guarantees

    A socket is opened only for a registered device, not revoked, of the user a
    verified token names, and nothing that a request does touches the
    database. *)

From S2P Require Import Prelude GoText Json HttpApi Constants External GoTime Schema Queries.
From S2P Require Import DbInvariant Store Frame Demo RealtimeHandler DemoServices Config.
From S2P Require Import ConfigTheorems Auth AuthTheorems Http Handlers Api WebSocketApi.
From S2P Require Import UploadFacts Isolation ApiFacts ApiTheorems.

(** ** Definitions the statements use *)

(** What the answer of a request may be, [id] being its identifier: a socket is
    for a user named by a token accepted during the request, and for a device
    that is registered for that user and not revoked in the database as the
    request leaves it. *)
Definition admitted (v : Verifier) {X : External Db} {J : JwksEndpoint} {W : JwtLibrary}
    (r : http_request) (id : string) (w w' : World) (out : served) : Prop :=
  match out with
  | Wrote resp => names_request id resp
  | Panicked => False
  | Upgraded user device =>
      under_v1 (rq_path r) = true /\ device = rq_query r RequestKeyDeviceID /\
      (exists text, bearer_token (rq_header r "Authorization") = Some text /\
         vouched (w_step w) (w_step w') v text user) /\
      exists row, q.owned_device (w_db w') device user = Some row /\ db.d_revoked_at row = None
  end.

Definition obliging : websocket.Upgrader := {| websocket.upgrade := fun _ => None |}.

(** ** Lemmas *)

Section websocket_lemmas.
Context {X : External Db} {G : websocket.Upgrader}.

(** The check of the device reads the database once, if at all. *)
Lemma admit_spec o dev w w' r :
  ServeHTTP_admit (Some o) dev w = (w', r) ->
  by_others (w_db w) (w_db w') /\ later w w' /\
  forall u d, r = Ok (u, d) -> u = o /\ d = dev /\
    exists row, q.owned_device (w_db w') dev o = Some row /\ db.d_revoked_at row = None.
Proof.
  unfold ServeHTTP_admit. destruct (negb _).
  { intros [= <- <-]. split_and!; [apply rtc_refl|done|done]. }
  intros H. unfold store.GetDeviceForOwner in H. rewrite M_bind_eq in H. unfold store.map_err in H.
  rewrite M_bind_eq in H.
  destruct (exec Pool (q.GetDeviceForOwner dev o) w) as [w1 [row|e]] eqn:E;
    (destruct (pool_read_by_others (q.GetDeviceForOwner dev o) _ _ _ (reads_one _) E) as [Hd Hl]);
    [|by injection H as <- <-].
  apply exec_pool_Ok in E as (d1 & [-> Hrow]%one_Ok & ->). cbn in H.
  destruct (db.d_revoked_at row) eqn:Hr; injection H as <- <-; (split_and!; [done|done|]); [done|].
  intros u d [= <- <-]. split_and!; [done|done|]. by exists row.
Qed.

(** The handler, for the user the middleware found. *)
Lemma ServeHTTP_run r o w :
  UserIDFromContext r = Some o ->
  exists w' out, websocket.ServeHTTP r w = (w', Ok out) /\ by_others (w_db w) (w_db w') /\
    later w w' /\
    match out with
    | Wrote resp => names_request (rq_id r) resp
    | Panicked => False
    | Upgraded user device => user = o /\ device = rq_query r RequestKeyDeviceID /\
        exists row, q.owned_device (w_db w') device o = Some row /\ db.d_revoked_at row = None
    end.
Proof.
  intros Ho. unfold websocket.ServeHTTP. rewrite Ho, M_bind_eq. unfold attempt.
  destruct (ServeHTTP_admit (Some o) (rq_query r RequestKeyDeviceID) w) as [w1 [[u d]|e]] eqn:E;
    apply admit_spec in E as (Hd & Hl & Hok).
  - destruct (Hok u d eq_refl) as (-> & -> & Hrow). unfold current_step. rewrite M_bind_eq.
    eexists _, _. split; [reflexivity|]. split_and!; [done|done|]. by destruct (websocket.upgrade _).
  - eexists _, _. split; [reflexivity|]. by split_and!.
Qed.

Context {C : Chi} {J : JwksEndpoint} {P : Peers} {HP : PeersRefresh} {W : JwtLibrary}.

Lemma admitted_from v r id w1 w w' out :
  (w_step w1 <= w_step w)%nat -> admitted v r id w w' out -> admitted v r id w1 w' out.
Proof.
  intros Hs. destruct out as [| |user device]; [done..|].
  intros (H1 & H2 & (text & H3 & H4) & H5). split_and!; [done|done| |done].
  exists text. split; [done|]. by eapply vouched_within; [exact Hs| |exact H4].
Qed.

Lemma websocket_routed v r c w :
  cache_ok (w_step w) c ->
  exists w' c' out,
    (if under_v1 (rq_path r) then Middleware v (dispatch websocket.v1_routes) r c
     else dispatch public_routes r c) w = (w', Ok (c', out)) /\
    cache_ok (w_step w') c' /\ by_others (w_db w) (w_db w') /\ later w w' /\
    (out = Panicked \/ admitted v r (rq_id r) w w' out).
Proof using HP.
  intros Hc. destruct (under_v1 (rq_path r)) eqn:Hv1.
  - destruct (Middleware_run v (dispatch websocket.v1_routes) r c w Hc)
      as (w1 & c1 & Hc1 & Hd & Hl & [->|(text & claims & Hb & Hvouched & ->)]).
    { exists w1, c1, (unauthorized r). split_and!; [done..|by rewrite Hd|done|by right]. }
    destruct (dispatch_run websocket.v1_routes (fun w0 w' out => by_others (w_db w0) (w_db w') /\
      later w0 w' /\ (later w1 w0 -> admitted v r (rq_id r) w w' out)) (WithClaims r claims) c1)
      with (w := w1) as (w2 & out & -> & Hd2 & Hl2 & Hout).
    + apply Forall_singleton. intros params w0. cbn [snd].
      destruct (ServeHTTP_run (with_params (WithClaims r claims) params) (UserID claims) w0 eq_refl)
        as (w' & out & -> & Hd' & Hl' & Hout).
      exists w', out. split_and!; [done..|]. intros Hl0.
      destruct out as [resp| |user device]; [done|done|].
      destruct Hout as (-> & -> & Hrow). split; [done|]. split; [done|]. split; [|done].
      exists text. split; [done|]. eapply vouched_within; [| |exact Hvouched]; [done|].
      unfold later in *. lia.
    + intros w0 status. by split_and!; [apply rtc_refl| |].
    + exists w2, c1, out. rewrite <- Hd. unfold later in *. split_and!; try done; try lia.
      * eapply cache_ok_later; [|exact Hc1]. lia.
      * right. by apply Hout.
  - destruct (dispatch_answers by_others (fun _ => True) public_routes r c public_routes_answer
      (fun _ => I) w) as (w1 & out & -> & Hd & Hl & Hn).
    exists w1, c, out. split_and!; [done|by eapply cache_ok_later|done|done|].
    destruct out; [by right|by left|done].
Qed.

End websocket_lemmas.

Lemma websocket_answers {X : External Db} {G : websocket.Upgrader}
    {C : Chi} {J : JwksEndpoint} {P : Peers} {HP : PeersRefresh} {W : JwtLibrary}
    (cfg : Config) (v : Verifier) (r : http_request) (c : jwksCache) (w : World)
    (Hcache : cache_ok (w_step w) c) :
  exists w' c' out id, websocket.buildRouter cfg v r c w = (w', Ok (c', out)) /\
    cache_ok (w_step w') c' /\ by_others (w_db w) (w_db w') /\ later w w' /\
    admitted v r id w w' out /\
    (rq_header r "X-Request-Id" <> EmptyString -> id = rq_header r "X-Request-Id").
Proof.
  unfold websocket.buildRouter.
  match goal with |- context [RequestID ?h] =>
    destruct (RequestID_run h r c w) as (w1 & id & Hd & Hs1 & Hid & Hrun) end.
  set (r1 := with_body (WithRequestID r id)
               (limit_reader (MaxCompressedRequestBytes cfg) (rq_body r))).
  rewrite <- Hs1 in Hcache.
  destruct (websocket_routed v r1 c w1 Hcache) as (w2 & c2 & out & E & Hc2 & Hd2 & Hl & Hout).
  exists w2, c2, (set_header "X-Request-Id" id (recovered (WithRequestID r id) out)), id.
  unfold later in *.
  split_and!; [|done|congruence|lia| |done].
  - apply Hrun, Recovery_run. exact E.
  - destruct Hout as [->|Hout]; [done|]. apply (admitted_from _ _ _ w) in Hout; [|lia].
    by destruct out.
Qed.

(** ** Theorems *)

(** No request of the WebSocket program changes the database; each is
    answered with its identifier, or its connection becomes a socket, and then
    for the user named by a token verified meanwhile and for a device that is
    registered for that user and not revoked when it is admitted. *)
Theorem sockets_belong_to_active_devices {X : External Db} {G : websocket.Upgrader}
    {C : Chi} {J : JwksEndpoint} {P : Peers} {HP : PeersRefresh} {W : JwtLibrary}
    (cfg : Config) (v : Verifier) (r : http_request) (c : jwksCache) (w : World)
    (Hcache : cache_ok (w_step w) c) :
  exists w' c' out id, websocket.buildRouter cfg v r c w = (w', Ok (c', out)) /\
    cache_ok (w_step w') c' /\ by_others (w_db w) (w_db w') /\ admitted v r id w w' out /\
    (rq_header r "X-Request-Id" <> EmptyString -> id = rq_header r "X-Request-Id").
Proof.
  destruct (websocket_answers cfg v r c w Hcache) as (w' & c' & out & id & H1 & H2 & H3 & _ & H4 & H5).
  by exists w', c', out, id.
Qed.

Definition socket_request (token : string) : http_request :=
  mkHttpRequest "GET" "/v1/realtime"
    (fun name => if String.eqb name "Authorization" then token else EmptyString)
    (fun key => if String.eqb key RequestKeyDeviceID then "phone" else EmptyString)
    (fun _ => EmptyString) (Finished 0) EmptyString None.

Lemma sockets_belong_to_active_devices_witness :
  exists w' c' out id, websocket.buildRouter (X := demo) (G := obliging) (C := demo_chi)
      (J := demo_endpoint) (P := no_peers) (W := demo_jwt) demo_config demo_verifier
      (socket_request "Bearer token") newJWKSCache demo_world = (w', Ok (c', out)) /\
    by_others (X := demo) demo_db (w_db w') /\
    admitted (X := demo) (J := demo_endpoint) (W := demo_jwt) demo_verifier
      (socket_request "Bearer token") id demo_world w' out.
Proof.
  destruct (sockets_belong_to_active_devices (X := demo) (G := obliging)
    (C := demo_chi) (J := demo_endpoint) (P := no_peers) (HP := no_peers_refresh _ _)
    (W := demo_jwt) demo_config demo_verifier (socket_request "Bearer token") newJWKSCache demo_world
    (or_introl eq_refl)) as (w' & c' & out & id & H1 & _ & H2 & H3 & _).
  exists w', c', out, id. split; [exact H1|]. split; [exact H2|exact H3].
Defined.

Example demo_socket :
  let run token := websocket.buildRouter (X := demo) (G := obliging) (C := demo_chi)
    (J := demo_endpoint) (P := no_peers) (W := demo_jwt) demo_config demo_verifier
    (socket_request token) newJWKSCache demo_world in
  match run "Bearer token"%string, run "Bearer forged"%string with
  | (_, Ok (_, Upgraded user device)), (_, Ok (_, Wrote resp)) =>
      (user, device, rs_status resp) = (alice, phone, StatusUnauthorized)
  | _, _ => False
  end.
Proof. vm_compute. reflexivity. Qed.
